(** * tsmorph: extraction passes and type reconciliation

    A shallow embedding of the three ts-morph scripts of the repository

      - [scripts/refactor-tsx.ts]        (class [TSXRefactorer],  top-level pass)
      - [scripts/refactor-tsx-pass2.ts]  (class [TSXRefactorer2], nested pass)
      - [scripts/analyze-types.ts]       (class [TypeAnalyzer],   type reconciliation)

    The syntax tree that ts-morph exposes is represented by the attributes the
    scripts query: kinds, names, line numbers, source text, type annotations
    and, for the answers of the type checker and for tooling errors, the value
    the collaborator returns for that node.  Files are statement sequences;
    nodes held in memory carry an identity, so that removing a node and
    touching a removed node afterwards behave as they do in ts-morph. *)

From Stdlib Require Import ZArith Ascii String Sorted.
From stdpp Require Import base tactics option list gmap strings fin_maps.

Local Open Scope Z_scope.

(** ** JavaScript strings and arrays *)

Module Js.

(** The double quote character, used by the import printer. *)
Definition dquote : string := String (ascii_of_nat 34) EmptyString.
Definition backslash : ascii := ascii_of_nat 92.
Definition slash : ascii := ascii_of_nat 47.

(** [s.startsWith(p)] *)
Definition startsWith (p s : string) : bool := String.prefix p s.

(** [s.length] *)
Definition length (s : string) : Z := Z.of_nat (String.length s).

(** [l.join(sep)] *)
Definition join (sep : string) (l : list string) : string := String.concat sep l.

(** [l.includes(x)] *)
Definition includes (x : string) (l : list string) : bool := bool_decide (x ∈ l).

(** [Array.from(new Set(l))]: the first occurrence of every element, in
    insertion order. *)
Fixpoint arrayFromSet (l : list string) : list string :=
  match l with
  | [] => []
  | x :: r => x :: filter (λ y, y ≠ x) (arrayFromSet r)
  end.

(** [s.endsWith(p)] *)
Definition endsWith (p s : string) : bool :=
  String.prefix (String.rev p) (String.rev s).

(** Drop the last [n] characters. *)
Definition dropEnd (n : nat) (s : string) : string :=
  String.substring 0 (String.length s - n) s.

(** [s.replace(/\\/g, '/')] *)
Fixpoint backslashesToSlashes (s : string) : string :=
  match s with
  | EmptyString => EmptyString
  | String c r =>
      String (if decide (c = backslash) then slash else c) (backslashesToSlashes r)
  end.

(** [s.replace(/\.(tsx?|jsx?)$/, '')] *)
Definition stripSourceExtension (s : string) : string :=
  if endsWith ".tsx" s then dropEnd 4 s
  else if endsWith ".jsx" s then dropEnd 4 s
  else if endsWith ".ts" s then dropEnd 3 s
  else if endsWith ".js" s then dropEnd 3 s
  else s.

(** [s.replace(/^(const|let|var)/, r)] *)
Definition replaceLeadingDeclKeyword (r s : string) : string :=
  if startsWith "const" s then r +:+ String.substring 5 (String.length s - 5) s
  else if startsWith "let" s then r +:+ String.substring 3 (String.length s - 3) s
  else if startsWith "var" s then r +:+ String.substring 3 (String.length s - 3) s
  else s.

(** [\s] of the regular expressions, on the ASCII range. *)
Definition isSpace (c : ascii) : bool :=
  bool_decide (nat_of_ascii c ∈ [9; 10; 11; 12; 13; 32]%nat).

(** [s.replace(re, '$1' + r)] for the expression [re] that matches, at the
    start of [s], any run of white space followed by [const], [let] or
    [var]: the greedy run takes all leading white space; what follows can
    then not start with white space, so no shorter run has to be tried. *)
Fixpoint replaceDeclKeywordAfterSpace_go (r s : string) : option string :=
  match s with
  | String c t =>
      if isSpace c then String c <$> replaceDeclKeywordAfterSpace_go r t
      else if startsWith "const" s || startsWith "let" s || startsWith "var" s
           then Some (replaceLeadingDeclKeyword r s) else None
  | EmptyString => None
  end.
Definition replaceDeclKeywordAfterSpace (r s : string) : string :=
  default s (replaceDeclKeywordAfterSpace_go r s).

(** [s.includes(p)] on strings *)
Fixpoint includesSubstring (p s : string) : bool :=
  startsWith p s ||
  match s with
  | EmptyString => false
  | String _ r => includesSubstring p r
  end.

Definition newline : string := String (ascii_of_nat 10) EmptyString.

(** [new RegExp('^(p1|p2|...)').test(s)] *)
Definition startsWithAny (ps : list string) (s : string) : bool :=
  existsb (λ p, startsWith p s) ps.

End Js.

(** ** The syntax tree, as the scripts see it *)

Inductive DeclarationKind := KConst | KLet | KVar.

(** A formal parameter: its explicit type, the type the checker infers for
    it, and whether [setType] raises on it. *)
Record ParameterDeclaration := {
  p_name : string;
  p_typeNode : option string;
  p_type : string;
  p_setTypeThrows : bool;
}.

(** Statements of a block body.  The scripts only look at the variable
    statements of the component's body, at the names of their declarations
    and at the kind of their initializers. *)
Record NestedDeclaration := {
  nd_name : string;
  nd_isArrowFunction : bool;
}.

Inductive BlockStatement :=
| NestedVariableStatement (text : string) (declarations : list NestedDeclaration)
| NestedOtherStatement (text : string).

Inductive Body :=
| Block (statements : list BlockStatement)
| ConciseBody.

Record ArrowFunction := {
  af_returnTypeNode : option string;
  af_returnType : string;
  af_setReturnTypeThrows : bool;
  af_parameters : list ParameterDeclaration;
  af_body : Body;
}.

(** An initializer with the checker's rendering of its type; for an
    expression that is not an arrow function, [literalValue] is the value of
    its type when that type is a string literal type. *)
Inductive Initializer :=
| InitArrowFunction (typeText : string) (f : ArrowFunction)
| InitExpression (typeText : string) (literalValue : option string).

Record VariableDeclaration := {
  vd_name : string;
  vd_startLine : Z;
  vd_endLine : Z;
  vd_typeNode : option string;
  vd_setTypeThrows : bool;
  vd_initializer : option Initializer;
}.

Record VariableStatement := {
  vs_kind : DeclarationKind;
  vs_text : string;
  vs_declarations : list VariableDeclaration;
}.

Record FunctionDeclaration := {
  fn_name : option string;
  fn_startLine : Z;
  fn_endLine : Z;
  fn_text : string;
  fn_returnTypeNode : option string;
  fn_returnType : string;
  fn_setReturnTypeThrows : bool;
  fn_parameters : list ParameterDeclaration;
}.

(** Interfaces and type aliases.  [td_isNamedExport] tells whether the
    declaration is exported without carrying the keyword itself: named in an
    export declaration of its file ([export { T }]) or exported as the
    default by a statement of its own. *)
Record TypeDeclaration := {
  td_name : string;
  td_startLine : Z;
  td_endLine : Z;
  td_text : string;
  td_isNamedExport : bool;
  td_setIsExportedThrows : bool;
}.

Record ImportDeclaration := {
  imp_moduleSpecifier : string;
  imp_namedImports : list string;
  imp_text : string;
}.

Inductive Statement :=
| SImport (i : ImportDeclaration)
| SFunction (f : FunctionDeclaration)
| SVariable (v : VariableStatement)
| SInterface (t : TypeDeclaration)
| STypeAlias (t : TypeDeclaration)
| SOther (text : string).

(** [node.getText()] *)
Definition getText (s : Statement) : string :=
  match s with
  | SImport i => imp_text i
  | SFunction f => fn_text f
  | SVariable v => vs_text v
  | SInterface t | STypeAlias t => td_text t
  | SOther text => text
  end.

(** The names a file declares at top level, and the names it imports. *)
Definition declaredNames (l : list Statement) : list string :=
  s ← l;
  match s with
  | SFunction f => option_list (fn_name f)
  | SVariable v => vd_name <$> vs_declarations v
  | SInterface t | STypeAlias t => [td_name t]
  | _ => []
  end.

Definition importedNames (l : list Statement) : list string :=
  s ← l; match s with SImport i => imp_namedImports i | _ => [] end.

(** The names a block declares in its variable statements. *)
Definition nestedDeclaredNames (statements : list BlockStatement) : list string :=
  s ← statements;
  match s with
  | NestedVariableStatement _ declarations => nd_name <$> declarations
  | NestedOtherStatement _ => []
  end.

(** A node held in memory: a statement with its identity. *)
Record Node := { nid : nat; stmt : Statement }.

Abbreviation SourceFile := (list Node) (only parsing).

(** Reading a file numbers its statements; saving it writes them back. *)
Definition load (l : list Statement) : SourceFile :=
  imap (λ i s, {| nid := i; stmt := s |}) l.

Definition content (sf : SourceFile) : list Statement := stmt <$> sf.

(** [sourceFile.getFullText()], the pieces of the file one per line. *)
Definition getFullText (l : list Statement) : string :=
  Js.join Js.newline (getText <$> l).

Definition freshId (sf : SourceFile) : nat := S (foldr Nat.max 0%nat (nid <$> sf)).

(** [node.remove()] *)
Definition removeNode (id : nat) (sf : SourceFile) : SourceFile :=
  filter (λ n, nid n ≠ id) sf.

(** ** Import declarations of a source file *)

Definition isImportFor (m : string) (n : Node) : bool :=
  match stmt n with
  | SImport i => bool_decide (imp_moduleSpecifier i = m)
  | _ => false
  end.

Definition isImport (n : Node) : bool :=
  match stmt n with SImport _ => true | _ => false end.

(** [sourceFile.getImportDeclaration(moduleSpecifier)]: the first one. *)
Definition getImportDeclaration (m : string) (sf : SourceFile)
  : option (nat * ImportDeclaration) :=
  match filter (λ n, isImportFor m n = true) sf with
  | n :: _ => match stmt n with SImport i => Some (nid n, i) | _ => None end
  | [] => None
  end.

(** The text ts-morph prints for a new import declaration. *)
Definition printImport (m : string) (names : list string) : string :=
  "import { " +:+ Js.join ", " names +:+ " } from " +:+ Js.dquote +:+ m +:+ Js.dquote +:+ ";".

(** The position behind the last import declaration (0 when there is none). *)
Fixpoint importInsertIndex (sf : SourceFile) : nat :=
  match sf with
  | [] => 0%nat
  | n :: r =>
      match importInsertIndex r with
      | O => if isImport n then 1%nat else 0%nat
      | S k => S (S k)
      end
  end.

(** [sourceFile.addImportDeclaration({ moduleSpecifier, namedImports })] *)
Definition addImportDeclaration (m : string) (names : list string) (sf : SourceFile)
  : SourceFile :=
  let n := {| nid := freshId sf;
              stmt := SImport {| imp_moduleSpecifier := m;
                                 imp_namedImports := names;
                                 imp_text := printImport m names |} |} in
  let k := importInsertIndex sf in
  take k sf ++ n :: drop k sf.

(** [TSXRefactorer.addOrUpdateNamedImport] (refactor-tsx.ts) *)
Definition addOrUpdateNamedImport (m : string) (names : list string) (sf : SourceFile)
  : SourceFile :=
  match getImportDeclaration m sf with
  | Some (id, existingImport) =>
      let existingNames := imp_namedImports existingImport in
      let mergedNames := Js.arrayFromSet (existingNames ++ names) in
      addImportDeclaration m mergedNames (removeNode id sf)
  | None => addImportDeclaration m names sf
  end.

(** The named-import lists of the import declarations for [m]. *)
Definition importBindings (m : string) (sf : SourceFile) : list (list string) :=
  omap (λ n, match stmt n with
             | SImport i =>
                 if bool_decide (imp_moduleSpecifier i = m)
                 then Some (imp_namedImports i) else None
             | _ => None
             end) sf.

(** ** Projects, storage and exceptions *)

(** [FileNotFound p]: [addSourceFileAtPath] finds no file that it can read
    at [p]. *)
Inductive Error :=
| FileNotFound (path : string)
| ForgottenNode
| KindMismatch
| SaveFailed (path : string)
| ToolingError.

Inductive Result (A : Type) :=
| Ok (a : A)
| Throw (e : Error).
Arguments Ok {A} a.
Arguments Throw {A} e.

(** The source files a ts-morph [Project] holds in memory, by path, and the
    files on disk. *)
Record World := {
  project : gmap string SourceFile;
  disk : gmap string (list Statement);
}.

(** What the scripts take from their surroundings: whether a write to a path
    succeeds, whether something that is no readable file is at a path (a
    directory, a file without read permission: [existsSync] finds it and
    reading it raises), which files the [tsconfig.json] of the repository
    includes, and the [path] module of Node.js. *)
Record Environment := {
  fsWritable : string → bool;
  fsUnreadable : string → bool;
  tsconfigIncludes : string → bool;
  path_dirname : string → string;
  path_relative : string → string → string;
}.

(** Computations that read and write the world and may raise. *)
Definition M (A : Type) : Type := World → Result A * World.

Definition ret {A} (a : A) : M A := λ w, (Ok a, w).
Definition throw {A} (e : Error) : M A := λ w, (Throw e, w).
Definition bind {A B} (c : M A) (k : A → M B) : M B :=
  λ w, match c w with
       | (Ok a, w') => k a w'
       | (Throw e, w') => (Throw e, w')
       end.

(** [try { c } catch (e) { h }] *)
Definition tryCatch {A} (c : M A) (h : Error → M A) : M A :=
  λ w, match c w with
       | (Ok a, w') => (Ok a, w')
       | (Throw e, w') => h e w'
       end.

Notation "'let!' x ':=' c 'in' k" := (bind c (λ x, k))
  (at level 10, x pattern, c at level 100, k at level 200).
Notation "c ';;' k" := (bind c (λ _, k))
  (at level 100, k at level 200, right associativity).

(** [l.forEach(f)] for a callback that may raise. *)
Fixpoint forEachM {A} (f : A → M unit) (l : list A) : M unit :=
  match l with
  | [] => ret tt
  | x :: r => f x ;; forEachM f r
  end.

(** [l.map(f)] for a callback that may raise. *)
Fixpoint mapM {A B} (f : A → M B) (l : list A) : M (list B) :=
  match l with
  | [] => ret []
  | x :: r => let! y := f x in let! ys := mapM f r in ret (y :: ys)
  end.

(** A run of a script starts with the files on disk and an empty project. *)
Definition runOn {A} (c : M A) (d : gmap string (list Statement)) : Result A * World :=
  c {| project := ∅; disk := d |}.

Section Project.

Variable env : Environment.

(** [new Project({ tsConfigFilePath })] *)
Definition newProject : M unit :=
  λ w, (Ok tt,
        {| project := load <$> filter (λ kv, tsconfigIncludes env kv.1 = true) (disk w);
           disk := disk w |}).

(** [project.addSourceFileAtPath(p)] *)
Definition addSourceFileAtPath (p : string) : M unit :=
  λ w, match project w !! p with
       | Some _ => (Ok tt, w)
       | None =>
           match disk w !! p with
           | Some l => (Ok tt, {| project := <[p := load l]> (project w); disk := disk w |})
           | None => (Throw (FileNotFound p), w)
           end
       end.

(** [project.getSourceFile(p)]: [undefined] when the project has no such
    file; it never raises. *)
Definition getSourceFile (p : string) : M (option SourceFile) :=
  λ w, (Ok (project w !! p), w).

(** [project.createSourceFile(p, text, { overwrite: true })], and
    [file.replaceWithText(text)]: the file at [p] now consists of the
    pieces [l]; every node the file had before is forgotten. *)
Definition createSourceFile (p : string) (l : list Statement) : M unit :=
  λ w, (Ok tt, {| project := <[p := load l]> (project w); disk := disk w |}).

(** [file.saveSync()] for the file at [p]. *)
Definition saveSync (p : string) : M unit :=
  λ w, match project w !! p with
       | Some sf =>
           if fsWritable env p
           then (Ok tt, {| project := project w; disk := <[p := content sf]> (disk w) |})
           else (Throw (SaveFailed p), w)
       | None => (Throw ForgottenNode, w)
       end.

(** Both refactoring scripts define the same [toModuleSpecifier]. *)
Definition toModuleSpecifier (fromFile toFile : string) : string :=
  let relativePath :=
    Js.stripSourceExtension
      (Js.backslashesToSlashes
         (path_relative env (path_dirname env fromFile) toFile)) in
  if Js.startsWith "." relativePath then relativePath else "./" +:+ relativePath.

(** Reading and changing the tree of the file at [p]. *)
Definition getFile (p : string) : M SourceFile :=
  λ w, match project w !! p with
       | Some sf => (Ok sf, w)
       | None => (Throw ForgottenNode, w)
       end.

Definition modifyFile (p : string) (f : SourceFile → SourceFile) : M unit :=
  λ w, match project w !! p with
       | Some sf => (Ok tt, {| project := <[p := f sf]> (project w); disk := disk w |})
       | None => (Throw ForgottenNode, w)
       end.

(** Any query on a node: it raises when the node was removed or its file
    replaced. *)
Definition getNode (p : string) (id : nat) : M Statement :=
  let! sf := getFile p in
  match filter (λ n, nid n = id) sf with
  | n :: _ => ret (stmt n)
  | [] => throw ForgottenNode
  end.

End Project.

(** The statement that the text of a statement parses to once its leading
    keywords have been rewritten: the same declaration with the new text.
    The passes write such a text to a file they create; there an interface
    or a type alias is exported by its keyword only. *)
Definition withText (text : string) (s : Statement) : Statement :=
  match s with
  | SImport i =>
      SImport {| imp_moduleSpecifier := imp_moduleSpecifier i;
                 imp_namedImports := imp_namedImports i; imp_text := text |}
  | SFunction f =>
      SFunction {| fn_name := fn_name f; fn_startLine := fn_startLine f;
                   fn_endLine := fn_endLine f; fn_text := text;
                   fn_returnTypeNode := fn_returnTypeNode f;
                   fn_returnType := fn_returnType f;
                   fn_setReturnTypeThrows := fn_setReturnTypeThrows f;
                   fn_parameters := fn_parameters f |}
  | SVariable v =>
      SVariable {| vs_kind := if Js.startsWith "export const" text then KConst else vs_kind v;
                   vs_text := text; vs_declarations := vs_declarations v |}
  | SInterface t =>
      SInterface {| td_name := td_name t; td_startLine := td_startLine t;
                    td_endLine := td_endLine t; td_text := text;
                    td_isNamedExport := false;
                    td_setIsExportedThrows := td_setIsExportedThrows t |}
  | STypeAlias t =>
      STypeAlias {| td_name := td_name t; td_startLine := td_startLine t;
                    td_endLine := td_endLine t; td_text := text;
                    td_isNamedExport := false;
                    td_setIsExportedThrows := td_setIsExportedThrows t |}
  | SOther _ => SOther text
  end.

Definition interfaces (sf : SourceFile) : list TypeDeclaration :=
  omap (λ n, match stmt n with SInterface t => Some t | _ => None end) sf.

Definition typeAliases (sf : SourceFile) : list TypeDeclaration :=
  omap (λ n, match stmt n with STypeAlias t => Some t | _ => None end) sf.

(** [type.isExported()]: the declaration carries the keyword (its text
    starts with it, which is also how [extractTypes] looks for it), or it is
    exported by another statement of its file. *)
Definition isExported (t : TypeDeclaration) : bool :=
  Js.startsWith "export " (td_text t) || td_isNamedExport t.

(** [[...interfaces, ...typeAliases].filter(isExported).map(getName)] *)
Definition exportedTypeNames (sf : SourceFile) : list string :=
  td_name <$> filter (λ t, isExported t = true) (interfaces sf ++ typeAliases sf).

Definition typeImportText (typeNames : list string) (m : string) : string :=
  "import type { " +:+ Js.join ", " typeNames +:+ " } from '" +:+ m +:+ "';".

(** ** refactor-tsx.ts *)

Module RefactorTsx.

Inductive CandidateType := TFunction | TComponent | TInterface | TType | TVariable.

Global Instance CandidateType_eq_dec : EqDecision CandidateType.
Proof. solve_decision. Defined.

(** A candidate's [node] is a statement or, for variables, one declaration
    of a variable statement. *)
Inductive NodeRef :=
| StatementRef (id : nat)
| DeclarationRef (id : nat) (index : nat).

Record ExtractionCandidate := {
  c_name : string;
  c_node : NodeRef;
  c_lineCount : Z;
  c_type : CandidateType;
}.

Record RefactorOptions := {
  targetFile : string;
  typesFile : string;
  utilsFile : string;
  minFunctionLines : Z;
  minVariableLines : Z;
  utilNamePattern : string → bool;
}.

Definition DEFAULT_MIN_FUNCTION_LINES : Z := 20.
Definition DEFAULT_MIN_VARIABLE_LINES : Z := 10.
Definition DEFAULT_UTIL_PATTERN : string → bool :=
  Js.startsWithAny ["validate"; "format"; "get"; "handle"].

Definition getNodeLineCount (startLine endLine : Z) : Z := endLine - startLine + 1.

Definition refId (r : NodeRef) : nat :=
  match r with StatementRef id | DeclarationRef id _ => id end.

Definition typesHeader : list Statement :=
  [SOther "/**";
   SOther " * Extracted types and interfaces";
   SOther " * Auto-generated by ts-morph refactoring script";
   SOther " */";
   SOther ""].

Definition utilsHeader : list Statement :=
  [SOther "/**";
   SOther " * Extracted utility functions";
   SOther " * Auto-generated by ts-morph refactoring script";
   SOther " */";
   SOther ""].

(** Add [export] if not already present. *)
Definition exportedTypeText (text : string) : string :=
  if Js.startsWith "export " text then text else "export " +:+ text.

Section TSXRefactorer.

Variable env : Environment.
Variable options : RefactorOptions.

(** The constructor. *)
Definition newTSXRefactorer : M unit :=
  newProject env ;; addSourceFileAtPath (targetFile options).

Definition functionCandidates (sf : SourceFile) : list ExtractionCandidate :=
  omap (λ n, match stmt n with
             | SFunction func =>
                 let lineCount := getNodeLineCount (fn_startLine func) (fn_endLine func) in
                 if bool_decide (lineCount > minFunctionLines options)
                 then Some {| c_name := match fn_name func with
                                        | Some name =>
                                            if decide (name = "") then "anonymous" else name
                                        | None => "anonymous"
                                        end;
                              c_node := StatementRef (nid n);
                              c_lineCount := lineCount;
                              c_type := TFunction |}
                 else None
             | _ => None
             end) sf.

Definition declarationCandidates (id : nat) (v : VariableStatement)
  : list ExtractionCandidate :=
  omap (λ c, c)
    (imap (λ i decl,
             let lineCount := getNodeLineCount (vd_startLine decl) (vd_endLine decl) in
             if bool_decide (lineCount > minVariableLines options)
             then Some {| c_name := vd_name decl;
                          c_node := DeclarationRef id i;
                          c_lineCount := lineCount;
                          c_type := TVariable |}
             else None)
          (vs_declarations v)).

Definition variableCandidates (sf : SourceFile) : list ExtractionCandidate :=
  n ← sf; match stmt n with
          | SVariable v => declarationCandidates (nid n) v
          | _ => []
          end.

Definition interfaceCandidates (sf : SourceFile) : list ExtractionCandidate :=
  omap (λ n, match stmt n with
             | SInterface iface =>
                 Some {| c_name := td_name iface;
                         c_node := StatementRef (nid n);
                         c_lineCount :=
                           getNodeLineCount (td_startLine iface) (td_endLine iface);
                         c_type := TInterface |}
             | _ => None
             end) sf.

Definition typeAliasCandidates (sf : SourceFile) : list ExtractionCandidate :=
  omap (λ n, match stmt n with
             | STypeAlias typeAlias =>
                 Some {| c_name := td_name typeAlias;
                         c_node := StatementRef (nid n);
                         c_lineCount :=
                           getNodeLineCount (td_startLine typeAlias) (td_endLine typeAlias);
                         c_type := TType |}
             | _ => None
             end) sf.

(** [analyzeFile] on the tree of the origin: functions, then variable
    declarations, then interfaces, then type aliases. *)
Definition analyze (sf : SourceFile) : list ExtractionCandidate :=
  functionCandidates sf ++ variableCandidates sf
    ++ interfaceCandidates sf ++ typeAliasCandidates sf.

Definition analyzeFile : M (list ExtractionCandidate) :=
  let! sf := getFile (targetFile options) in ret (analyze sf).

Definition isTypeCandidate (c : ExtractionCandidate) : Prop :=
  c_type c = TInterface ∨ c_type c = TType.

Definition isUtilCandidate (c : ExtractionCandidate) : Prop :=
  c_type c = TVariable ∧ utilNamePattern options (c_name c) = true.

Global Instance isTypeCandidate_dec c : Decision (isTypeCandidate c).
Proof. unfold isTypeCandidate. apply _. Defined.

Global Instance isUtilCandidate_dec c : Decision (isUtilCandidate c).
Proof. unfold isUtilCandidate. apply _. Defined.

(** The callbacks of [extractTypes]: the exported text of a candidate, and
    the removal of its node from the origin. *)
Definition exportedDeclaration (candidate : ExtractionCandidate) : M Statement :=
  let! node := getNode (targetFile options) (refId (c_node candidate)) in
  ret (withText (exportedTypeText (getText node)) node).

Definition removeTypeNode (candidate : ExtractionCandidate) : M unit :=
  let! node := getNode (targetFile options) (refId (c_node candidate)) in
  match node with
  | SInterface _ | STypeAlias _ =>
      modifyFile (targetFile options) (removeNode (refId (c_node candidate)))
  | _ => ret tt
  end.

(** [extractTypes]: the origin is pruned and its import added in memory;
    the only file saved is the types file. *)
Definition extractTypes (candidates : list ExtractionCandidate) : M unit :=
  let typeCandidates := filter isTypeCandidate candidates in
  if bool_decide (length typeCandidates = 0%nat) then ret tt
  else
    let typesFilePath := typesFile options in
    createSourceFile typesFilePath [] ;;
    let! declarations := mapM exportedDeclaration typeCandidates in
    createSourceFile typesFilePath (typesHeader ++ declarations) ;;
    forEachM removeTypeNode typeCandidates ;;
    let typeNames := c_name <$> typeCandidates in
    (if bool_decide (0 < length typeNames)%nat
     then modifyFile (targetFile options)
            (addOrUpdateNamedImport
               (toModuleSpecifier env (targetFile options) typesFilePath) typeNames)
     else ret tt) ;;
    saveSync env typesFilePath.

Definition getExportedTypeNames : M (list string) :=
  let! typesFile := getSourceFile (typesFile options) in
  match typesFile with
  | None => ret []
  | Some sf => ret (exportedTypeNames sf)
  end.

(** The callback of [extractUtilities]: the whole variable statement of the
    candidate is exported and removed from the origin; a candidate whose
    statement was already removed raises. *)
Definition moveUtility (candidate : ExtractionCandidate) : M (Statement * string) :=
  let! varStatement := getNode (targetFile options) (refId (c_node candidate)) in
  match c_node candidate, varStatement with
  | DeclarationRef id _, SVariable v =>
      let text := vs_text v in
      let exportedText := Js.replaceLeadingDeclKeyword "export const" text in
      modifyFile (targetFile options) (removeNode id) ;;
      ret (withText exportedText varStatement, c_name candidate)
  | _, _ => throw KindMismatch
  end.

(** [extractUtilities] *)
Definition extractUtilities (candidates : list ExtractionCandidate) : M unit :=
  let utilCandidates := filter isUtilCandidate candidates in
  if bool_decide (length utilCandidates = 0%nat) then ret tt
  else
    let utilsFilePath := utilsFile options in
    createSourceFile utilsFilePath [] ;;
    let! extracted := mapM moveUtility utilCandidates in
    let utilStatements := fst <$> extracted in
    let extractedNames := snd <$> extracted in
    let! typeNames := getExportedTypeNames in
    let typeImport :=
      if bool_decide (0 < length typeNames)%nat
      then
        let m := toModuleSpecifier env utilsFilePath (typesFile options) in
        [SImport {| imp_moduleSpecifier := m; imp_namedImports := typeNames;
                    imp_text := typeImportText typeNames m |};
         SOther ""]
      else [] in
    createSourceFile utilsFilePath (utilsHeader ++ typeImport ++ utilStatements) ;;
    (if bool_decide (0 < length extractedNames)%nat
     then modifyFile (targetFile options)
            (addOrUpdateNamedImport
               (toModuleSpecifier env (targetFile options) utilsFilePath) extractedNames)
     else ret tt) ;;
    saveSync env utilsFilePath.

(** [save] *)
Definition save : M unit := saveSync env (targetFile options).

(** [main]: analyse, extract types, extract utilities, save the origin.
    An exception ends the run; what was saved before stays on disk. *)
Definition main : M unit :=
  newTSXRefactorer ;;
  let! candidates := analyzeFile in
  extractTypes candidates ;;
  extractUtilities candidates ;;
  save.

(** What the passes look for in a statement: a type declaration, and a
    variable statement with a declaration that [extractUtilities] selects. *)
Definition isTypeStatement (s : Statement) : bool :=
  match s with SInterface _ | STypeAlias _ => true | _ => false end.

Definition utilDeclaration (decl : VariableDeclaration) : bool :=
  bool_decide (getNodeLineCount (vd_startLine decl) (vd_endLine decl)
               > minVariableLines options)
  && utilNamePattern options (vd_name decl).

Definition hasUtilDeclaration (s : Statement) : bool :=
  match s with
  | SVariable v => existsb utilDeclaration (vs_declarations v)
  | _ => false
  end.

(** A file in which the pass finds nothing to move. *)
Definition settled (l : list Statement) : Prop :=
  ∀ s, s ∈ l → isTypeStatement s = false ∧ hasUtilDeclaration s = false.

(** The candidates of one node. *)
Definition nodeCandidates (n : Node) : list ExtractionCandidate :=
  functionCandidates [n] ++ variableCandidates [n]
    ++ interfaceCandidates [n] ++ typeAliasCandidates [n].

End TSXRefactorer.

(** What the report prints of a candidate. *)
Definition summary (c : ExtractionCandidate) : string * Z * CandidateType :=
  (c_name c, c_lineCount c, c_type c).

End RefactorTsx.

(** ** refactor-tsx-pass2.ts *)

Module RefactorTsxPass2.

Record Pass2Options := {
  targetFile : string;
  utilsFile : string;
  typesFile : string;
  helperNamePattern : string → bool;
}.

Record HelperFunction := { h_name : string; h_text : string }.

Definition DEFAULT_HELPER_PATTERN : string → bool :=
  Js.startsWithAny ["validate"; "get"; "format"; "handle"].

(** The first variable declaration of the file whose initializer is an
    arrow function: the node of its statement, its index in the statement
    and the arrow function. *)
Definition arrowDeclarations (sf : SourceFile) : list (nat * nat * ArrowFunction) :=
  n ← sf;
  match stmt n with
  | SVariable v =>
      omap (λ c, c)
        (imap (λ i decl,
                 match vd_initializer decl with
                 | Some (InitArrowFunction _ f) => Some (nid n, i, f)
                 | _ => None
                 end)
              (vs_declarations v))
  | _ => []
  end.

Definition findComponent (sf : SourceFile) : option (nat * nat * ArrowFunction) :=
  head (arrowDeclarations sf).

(** The first loop over the statements of the body: one entry per
    declaration that is an arrow function with a matching name, each with
    the text of its whole statement. *)
Definition collectHelpers (pattern : string → bool) (statements : list BlockStatement)
  : list HelperFunction :=
  s ← statements;
  match s with
  | NestedVariableStatement text declarations =>
      omap (λ decl,
              if nd_isArrowFunction decl
              then if pattern (nd_name decl)
                   then Some {| h_name := nd_name decl; h_text := text |}
                   else None
              else None)
           declarations
  | NestedOtherStatement _ => []
  end.

(** The declarations of one statement in the second loop: [removed] tells
    whether an earlier declaration already removed the statement, in which
    case reading the name of the next one raises. *)
Fixpoint scanDeclarations (functionNames : list string) (removed : bool)
    (declarations : list NestedDeclaration) : Result bool :=
  match declarations with
  | [] => Ok removed
  | decl :: r =>
      if removed then Throw ForgottenNode
      else scanDeclarations functionNames (Js.includes (nd_name decl) functionNames) r
  end.

(** The second loop: the statements that stay in the body. *)
Fixpoint removeHelpers (functionNames : list string) (statements : list BlockStatement)
  : Result (list BlockStatement) :=
  match statements with
  | [] => Ok []
  | s :: r =>
      match s with
      | NestedVariableStatement _ declarations =>
          match scanDeclarations functionNames false declarations with
          | Throw e => Throw e
          | Ok removed =>
              match removeHelpers functionNames r with
              | Throw e => Throw e
              | Ok r' => Ok (if removed then r' else s :: r')
              end
          end
      | NestedOtherStatement _ =>
          match removeHelpers functionNames r with
          | Throw e => Throw e
          | Ok r' => Ok (s :: r')
          end
      end
  end.

(** The body of the component after the statements were removed. *)
Definition setDeclarationBody (statements : list BlockStatement) (decl : VariableDeclaration)
  : VariableDeclaration :=
  match vd_initializer decl with
  | Some (InitArrowFunction t f) =>
      {| vd_name := vd_name decl; vd_startLine := vd_startLine decl;
         vd_endLine := vd_endLine decl; vd_typeNode := vd_typeNode decl;
         vd_setTypeThrows := vd_setTypeThrows decl;
         vd_initializer :=
           Some (InitArrowFunction t
                   {| af_returnTypeNode := af_returnTypeNode f;
                      af_returnType := af_returnType f;
                      af_setReturnTypeThrows := af_setReturnTypeThrows f;
                      af_parameters := af_parameters f;
                      af_body := Block statements |}) |}
  | _ => decl
  end.

Definition setComponentBody (id index : nat) (statements : list BlockStatement)
    (sf : SourceFile) : SourceFile :=
  fmap (λ n,
         if decide (nid n = id)
         then match stmt n with
              | SVariable v =>
                  {| nid := nid n;
                     stmt := SVariable
                               {| vs_kind := vs_kind v; vs_text := vs_text v;
                                  vs_declarations :=
                                    alter (setDeclarationBody statements) index
                                          (vs_declarations v) |} |}
              | _ => n
              end
         else n) sf.

(** The import step at the end of [extractHelperFunctions]. *)
Definition addHelperImport (moduleSpecifier : string) (functionNames : list string)
    (sf : SourceFile) : SourceFile :=
  match getImportDeclaration moduleSpecifier sf with
  | Some (id, existingImport) =>
      let namedImports := imp_namedImports existingImport in
      let newImports := Js.arrayFromSet (namedImports ++ functionNames) in
      addImportDeclaration moduleSpecifier newImports (removeNode id sf)
  | None => addImportDeclaration moduleSpecifier functionNames sf
  end.

(** Make it exported. *)
Definition exportedHelperText (func : HelperFunction) : string :=
  Js.replaceDeclKeywordAfterSpace "export const" (h_text func).

Section TSXRefactorer2.

Variable env : Environment.
Variable options : Pass2Options.

(** The constructor. *)
Definition newTSXRefactorer2 : M unit :=
  newProject env ;; addSourceFileAtPath (targetFile options).

Definition getExportedTypeNames : M (list string) :=
  if decide (typesFile options = "") then ret []
  else
    let! typesFile := getSourceFile (typesFile options) in
    match typesFile with
    | None => ret []
    | Some sf => ret (exportedTypeNames sf)
    end.

Definition getTypeImportStatement (utilsFilePath : string) : M (option string) :=
  if decide (typesFile options = "") then ret None
  else
    let! typeNames := getExportedTypeNames in
    if bool_decide (length typeNames = 0%nat) then ret None
    else ret (Some (typeImportText typeNames
                      (toModuleSpecifier env utilsFilePath (typesFile options)))).

(** The content for a utilities file that does not exist yet, as the
    [catch] branch builds it: [filter(Boolean)] drops [null] and the
    empty strings. *)
Definition newUtilsContent (utilsFilePath : string) : M string :=
  let! typeImport := getTypeImportStatement utilsFilePath in
  ret (Js.join Js.newline
         (filter (λ s, s ≠ "")
            (["/**";
              " * Extracted utility functions";
              " * Auto-generated by ts-morph refactoring script";
              " */";
              ""]
             ++ match typeImport with Some s => [s] | None => [] end
             ++ [""]))).

(** Read existing utils file or create new content. *)
Definition readUtilsContent (utilsFilePath : string) : M string :=
  tryCatch
    (let! existingUtils := getSourceFile utilsFilePath in
     match existingUtils with
     | Some f => ret (getFullText (content f))
     | None => ret ""
     end)
    (λ e, newUtilsContent utilsFilePath).

(** The text the helpers are appended to becomes the text of the file. *)
Definition appendHelpers (utilsContent : string) (helperFunctions : list HelperFunction)
  : string :=
  utilsContent +:+ Js.newline
    +:+ Js.join (Js.newline +:+ Js.newline) (exportedHelperText <$> helperFunctions).

(** The end of [extractHelperFunctions]: remove helper functions from the
    component, add the import and save the origin.  The first query on a
    statement of the body raises when the origin was replaced meanwhile. *)
Definition removeAndImport (id index : nat) (statements : list BlockStatement)
    (functionNames : list string) : M unit :=
  getNode (targetFile options) id ;;
  match removeHelpers functionNames statements with
  | Throw e => throw e
  | Ok remaining =>
      modifyFile (targetFile options) (setComponentBody id index remaining) ;;
      let moduleSpecifier :=
        toModuleSpecifier env (targetFile options) (utilsFile options) in
      modifyFile (targetFile options) (addHelperImport moduleSpecifier functionNames) ;;
      saveSync env (targetFile options)
  end.

(** [extractHelperFunctions].  The file created from [utilsContent] is
    kept as one unparsed piece of text: the script saves it and never
    queries its statements. *)
Definition extractHelperFunctions : M unit :=
  let utilsFilePath := utilsFile options in
  let! sf := getFile (targetFile options) in
  match findComponent sf with
  | None => ret tt
  | Some (id, index, arrowFunc) =>
      match af_body arrowFunc with
      | ConciseBody => ret tt
      | Block statements =>
          let helperFunctions := collectHelpers (helperNamePattern options) statements in
          if bool_decide (length helperFunctions = 0%nat) then ret tt
          else
            let! utilsContent := readUtilsContent utilsFilePath in
            let utilsContent := appendHelpers utilsContent helperFunctions in
            createSourceFile utilsFilePath [SOther utilsContent] ;;
            saveSync env utilsFilePath ;;
            let functionNames := h_name <$> helperFunctions in
            removeAndImport id index statements functionNames
      end
  end.

(** [save] *)
Definition save : M unit := saveSync env (targetFile options).

(** [main] *)
Definition main : M unit :=
  newTSXRefactorer2 ;; extractHelperFunctions ;; save.

End TSXRefactorer2.

(** The body of the component of a file. *)
Definition componentBody (l : list Statement) : option Body :=
  match findComponent (load l) with
  | Some (_, _, f) => Some (af_body f)
  | None => None
  end.

End RefactorTsxPass2.

(** ** analyze-types.ts *)

Module AnalyzeTypes.

(** *** The setters of ts-morph, which may raise *)

(** A setter writes the annotation and leaves every other attribute of the
    node as it is.  [af_returnType], [fn_returnType], [p_type] and the type
    text of an initializer are what the checker answers when a step asks for
    them, and a run asks for each of them once: the tree carries the answer
    that the run gets at that moment.  The answer can depend on annotations
    that were written before it is asked for, so the answers of one run say
    nothing about those of the next: the results below say what a run does
    with the answers it gets, and none of them relates the answers of two
    runs. *)

Definition setReturnType (f : ArrowFunction) (text : string) : Result ArrowFunction :=
  if af_setReturnTypeThrows f then Throw ToolingError
  else Ok {| af_returnTypeNode := Some text; af_returnType := af_returnType f;
             af_setReturnTypeThrows := af_setReturnTypeThrows f;
             af_parameters := af_parameters f; af_body := af_body f |}.

Definition setFunctionReturnType (f : FunctionDeclaration) (text : string)
  : Result FunctionDeclaration :=
  if fn_setReturnTypeThrows f then Throw ToolingError
  else Ok {| fn_name := fn_name f; fn_startLine := fn_startLine f;
             fn_endLine := fn_endLine f; fn_text := fn_text f;
             fn_returnTypeNode := Some text; fn_returnType := fn_returnType f;
             fn_setReturnTypeThrows := fn_setReturnTypeThrows f;
             fn_parameters := fn_parameters f |}.

Definition setParameterType (p : ParameterDeclaration) (text : string)
  : Result ParameterDeclaration :=
  if p_setTypeThrows p then Throw ToolingError
  else Ok {| p_name := p_name p; p_typeNode := Some text; p_type := p_type p;
             p_setTypeThrows := p_setTypeThrows p |}.

Definition setType (decl : VariableDeclaration) (text : string)
  : Result VariableDeclaration :=
  if vd_setTypeThrows decl then Throw ToolingError
  else Ok {| vd_name := vd_name decl; vd_startLine := vd_startLine decl;
             vd_endLine := vd_endLine decl; vd_typeNode := Some text;
             vd_setTypeThrows := vd_setTypeThrows decl;
             vd_initializer := vd_initializer decl |}.

Definition setIsExported (t : TypeDeclaration) : Result TypeDeclaration :=
  if td_setIsExportedThrows t then Throw ToolingError
  else Ok {| td_name := td_name t; td_startLine := td_startLine t;
             td_endLine := td_endLine t; td_text := "export " +:+ td_text t;
             td_isNamedExport := td_isNamedExport t;
             td_setIsExportedThrows := td_setIsExportedThrows t |}.

Definition withInitializer (decl : VariableDeclaration) (init : Initializer)
  : VariableDeclaration :=
  {| vd_name := vd_name decl; vd_startLine := vd_startLine decl;
     vd_endLine := vd_endLine decl; vd_typeNode := vd_typeNode decl;
     vd_setTypeThrows := vd_setTypeThrows decl; vd_initializer := Some init |}.

Definition withParameters (f : ArrowFunction) (ps : list ParameterDeclaration)
  : ArrowFunction :=
  {| af_returnTypeNode := af_returnTypeNode f; af_returnType := af_returnType f;
     af_setReturnTypeThrows := af_setReturnTypeThrows f;
     af_parameters := ps; af_body := af_body f |}.

Definition withFunctionParameters (f : FunctionDeclaration) (ps : list ParameterDeclaration)
  : FunctionDeclaration :=
  {| fn_name := fn_name f; fn_startLine := fn_startLine f; fn_endLine := fn_endLine f;
     fn_text := fn_text f; fn_returnTypeNode := fn_returnTypeNode f;
     fn_returnType := fn_returnType f;
     fn_setReturnTypeThrows := fn_setReturnTypeThrows f; fn_parameters := ps |}.

(** *** Loops that count their fixes *)

(** [l.forEach(x => ... fixCount++ ...)]: the items after the loop and the
    number of fixes. *)
Fixpoint forEachCount {A} (f : A → A * nat) (l : list A) : list A * nat :=
  match l with
  | [] => ([], 0%nat)
  | x :: r =>
      let (x', c) := f x in
      let (r', n) := forEachCount f r in
      (x' :: r', (c + n)%nat)
  end.

(** The loop over [sourceFile.getVariableDeclarations()]; the callback also
    gets the declaration kind of the statement. *)
Definition onDeclarations
    (f : DeclarationKind → VariableDeclaration → VariableDeclaration * nat)
    (sf : SourceFile) : SourceFile * nat :=
  forEachCount
    (λ n, match stmt n with
          | SVariable v =>
              let (ds, c) := forEachCount (f (vs_kind v)) (vs_declarations v) in
              ({| nid := nid n;
                  stmt := SVariable {| vs_kind := vs_kind v; vs_text := vs_text v;
                                       vs_declarations := ds |} |}, c)
          | _ => (n, 0%nat)
          end) sf.

(** The loop over [sourceFile.getFunctions()]. *)
Definition onFunctions (f : FunctionDeclaration → FunctionDeclaration * nat)
    (sf : SourceFile) : SourceFile * nat :=
  forEachCount
    (λ n, match stmt n with
          | SFunction func =>
              let (func', c) := f func in ({| nid := nid n; stmt := SFunction func' |}, c)
          | _ => (n, 0%nat)
          end) sf.

(** *** addReturnTypes *)

Definition addArrowReturnType (decl : VariableDeclaration) : VariableDeclaration * nat :=
  match vd_initializer decl with
  | Some (InitArrowFunction t initializer) =>
      let returnType := af_returnType initializer in
      let hasReturnType := bool_decide (af_returnTypeNode initializer ≠ None) in
      if negb hasReturnType then
        let typeText := returnType in
        (* Don't add 'void' or very complex types *)
        if bool_decide (typeText ≠ "void") && bool_decide (Js.length typeText < 100) then
          match setReturnType initializer typeText with
          | Ok initializer' => (withInitializer decl (InitArrowFunction t initializer'), 1%nat)
          | Throw _ => (decl, 0%nat)
          end
        else (decl, 0%nat)
      else (decl, 0%nat)
  | _ => (decl, 0%nat)
  end.

Definition addFunctionReturnType (func : FunctionDeclaration) : FunctionDeclaration * nat :=
  let hasReturnType := bool_decide (fn_returnTypeNode func ≠ None) in
  if negb hasReturnType then
    let typeText := fn_returnType func in
    if bool_decide (typeText ≠ "void") && bool_decide (Js.length typeText < 100) then
      match setFunctionReturnType func typeText with
      | Ok func' => (func', 1%nat)
      | Throw _ => (func, 0%nat)
      end
    else (func, 0%nat)
  else (func, 0%nat).

Definition addReturnTypes (sf : SourceFile) : SourceFile * nat :=
  let (sf1, c1) := onDeclarations (λ _, addArrowReturnType) sf in
  let (sf2, c2) := onFunctions addFunctionReturnType sf1 in
  (sf2, (c1 + c2)%nat).

(** *** addParameterTypes *)

Definition addParameterType (param : ParameterDeclaration) : ParameterDeclaration * nat :=
  let hasType := bool_decide (p_typeNode param ≠ None) in
  if negb hasType then
    let typeText := p_type param in
    (* Only add if it's not 'any' and not too complex *)
    if bool_decide (typeText ≠ "any") && bool_decide (Js.length typeText < 100) then
      match setParameterType param typeText with
      | Ok param' => (param', 1%nat)
      | Throw _ => (param, 0%nat)
      end
    else (param, 0%nat)
  else (param, 0%nat).

Definition addArrowParameterTypes (decl : VariableDeclaration) : VariableDeclaration * nat :=
  match vd_initializer decl with
  | Some (InitArrowFunction t func) =>
      let (ps, c) := forEachCount addParameterType (af_parameters func) in
      (withInitializer decl (InitArrowFunction t (withParameters func ps)), c)
  | _ => (decl, 0%nat)
  end.

Definition addFunctionParameterTypes (func : FunctionDeclaration)
  : FunctionDeclaration * nat :=
  let (ps, c) := forEachCount addParameterType (fn_parameters func) in
  (withFunctionParameters func ps, c).

(** The functions come first, the arrow functions after them. *)
Definition addParameterTypes (sf : SourceFile) : SourceFile * nat :=
  let (sf1, c1) := onFunctions addFunctionParameterTypes sf in
  let (sf2, c2) := onDeclarations (λ _, addArrowParameterTypes) sf1 in
  (sf2, (c1 + c2)%nat).

(** *** fixAnyTypes *)

Definition initializerTypeText (init : Initializer) : string :=
  match init with
  | InitArrowFunction t _ | InitExpression t _ => t
  end.

Definition fixAnyType (decl : VariableDeclaration) : VariableDeclaration * nat :=
  match vd_typeNode decl with
  | Some typeNode =>
      if decide (typeNode = "any") then
        match vd_initializer decl with
        | Some initializer =>
            let typeText := initializerTypeText initializer in
            if bool_decide (typeText ≠ "any") && bool_decide (Js.length typeText < 100) then
              match setType decl typeText with
              | Ok decl' => (decl', 1%nat)
              | Throw _ => (decl, 0%nat)
              end
            else (decl, 0%nat)
        | None => (decl, 0%nat)
        end
      else (decl, 0%nat)
  | None => (decl, 0%nat)
  end.

Definition fixAnyTypes (sf : SourceFile) : SourceFile * nat :=
  onDeclarations (λ _, fixAnyType) sf.

(** *** ensureTypeExports *)

(** [forEach] with a callback that may raise: the first exception ends
    the loop and leaves through the caller. *)
Fixpoint forEachCountThrowing {A} (f : A → Result (A * nat)) (l : list A)
  : Result (list A * nat) :=
  match l with
  | [] => Ok ([], 0%nat)
  | x :: r =>
      match f x with
      | Throw e => Throw e
      | Ok (x', c) =>
          match forEachCountThrowing f r with
          | Throw e => Throw e
          | Ok (r', n) => Ok (x' :: r', (c + n)%nat)
          end
      end
  end.

Definition ensureExported (type : TypeDeclaration) : Result (TypeDeclaration * nat) :=
  if negb (isExported type) then
    match setIsExported type with
    | Ok type' => Ok (type', 1%nat)
    | Throw e => Throw e
    end
  else Ok (type, 0%nat).

Definition ensureInterfaceExports (sf : SourceFile) : Result (SourceFile * nat) :=
  forEachCountThrowing
    (λ n, match stmt n with
          | SInterface t =>
              match ensureExported t with
              | Ok (t', c) => Ok ({| nid := nid n; stmt := SInterface t' |}, c)
              | Throw e => Throw e
              end
          | _ => Ok (n, 0%nat)
          end) sf.

Definition ensureTypeAliasExports (sf : SourceFile) : Result (SourceFile * nat) :=
  forEachCountThrowing
    (λ n, match stmt n with
          | STypeAlias t =>
              match ensureExported t with
              | Ok (t', c) => Ok ({| nid := nid n; stmt := STypeAlias t' |}, c)
              | Throw e => Throw e
              end
          | _ => Ok (n, 0%nat)
          end) sf.

(** The interfaces come first, the type aliases after them. *)
Definition ensureTypeExports (filePath : string) (sf : SourceFile)
  : Result (SourceFile * nat) :=
  if negb (Js.includesSubstring ".types.ts" filePath) then Ok (sf, 0%nat)
  else
    match ensureInterfaceExports sf with
    | Throw e => Throw e
    | Ok (sf1, c1) =>
        match ensureTypeAliasExports sf1 with
        | Throw e => Throw e
        | Ok (sf2, c2) => Ok (sf2, (c1 + c2)%nat)
        end
    end.

(** *** improveTypeSpecificity *)

(** The type text written for a literal value. *)
Definition literalTypeText (literalValue : string) : string :=
  "'" +:+ literalValue +:+ "'".

Definition improveDeclaration (kind : DeclarationKind) (decl : VariableDeclaration)
  : VariableDeclaration * nat :=
  match vd_typeNode decl, vd_initializer decl with
  | Some typeNode, Some initializer =>
      if decide (typeNode = "string") then
        match initializer with
        | InitExpression _ (Some literalValue) =>
            match kind with
            | KConst =>
                match setType decl (literalTypeText literalValue) with
                | Ok decl' => (decl', 1%nat)
                | Throw _ => (decl, 0%nat)
                end
            | _ => (decl, 0%nat)
            end
        | _ => (decl, 0%nat)
        end
      else (decl, 0%nat)
  | _, _ => (decl, 0%nat)
  end.

Definition improveTypeSpecificity (sf : SourceFile) : SourceFile * nat :=
  onDeclarations improveDeclaration sf.

(** *** processFile, processAllFiles *)

(** The five steps on the tree of a file, with the total of their fixes. *)
Definition reconcile (filePath : string) (sf : SourceFile) : Result (SourceFile * nat) :=
  match ensureTypeExports filePath sf with
  | Throw e => Throw e
  | Ok (sf1, c1) =>
      let (sf2, c2) := addReturnTypes sf1 in
      let (sf3, c3) := addParameterTypes sf2 in
      let (sf4, c4) := fixAnyTypes sf3 in
      let (sf5, c5) := improveTypeSpecificity sf4 in
      Ok (sf5, (c1 + c2 + c3 + c4 + c5)%nat)
  end.

Section TypeAnalyzer.

Variable env : Environment.

(** [require('fs').existsSync(p)]: a file of the disk, or something that
    cannot be read as one. *)
Definition existsSync (p : string) : M bool :=
  λ w, (Ok (bool_decide (is_Some (disk w !! p)) || fsUnreadable env p), w).

(** [processFile]: a path at which nothing exists is skipped; the file is
    saved only when something was fixed.  An exception leaves the file on
    disk as it was.  The diagnostics of step 6 are only printed. *)
Definition processFile (filePath : string) : M unit :=
  let! found := existsSync filePath in
  if negb found then ret tt
  else
    addSourceFileAtPath filePath ;;
    let! sourceFile := getFile filePath in
    match reconcile filePath sourceFile with
    | Throw e => throw e
    | Ok (sourceFile', totalFixes) =>
        modifyFile filePath (λ _, sourceFile') ;;
        if bool_decide (0 < totalFixes)%nat then saveSync env filePath
        else ret tt
    end.

Definition processAllFiles (files : list string) : M unit :=
  forEachM processFile files.

(** [generateTypeCoverageReport]: every listed path at which something
    exists is added to the project again, which raises when it cannot be
    read; the counts are only printed. *)
Definition generateTypeCoverageReport (files : list string) : M unit :=
  forEachM (λ filePath,
              let! found := existsSync filePath in
              if negb found then ret tt
              else addSourceFileAtPath filePath)
           files.

Definition defaultFiles (componentsDir : string) : list string :=
  [componentsDir +:+ "/UserManagementDashboard.types.ts";
   componentsDir +:+ "/UserManagementDashboard.utils.ts";
   componentsDir +:+ "/UserManagementDashboard.tsx"].

(** [main] *)
Definition main (componentsDir : string) : M unit :=
  newProject env ;;
  processAllFiles (defaultFiles componentsDir) ;;
  generateTypeCoverageReport (defaultFiles componentsDir).

End TypeAnalyzer.

(** *** What the loops range over *)

(** [sourceFile.getVariableDeclarations()], each declaration with the
    declaration kind of its statement. *)
Definition getVariableDeclarations (sf : SourceFile)
  : list (DeclarationKind * VariableDeclaration) :=
  n ← sf;
  match stmt n with
  | SVariable v => (λ decl, (vs_kind v, decl)) <$> vs_declarations v
  | _ => []
  end.

(** [sourceFile.getFunctions()] *)
Definition getFunctions (sf : SourceFile) : list FunctionDeclaration :=
  omap (λ n, match stmt n with SFunction f => Some f | _ => None end) sf.

Definition arrowOf (decl : VariableDeclaration) : option ArrowFunction :=
  match vd_initializer decl with
  | Some (InitArrowFunction _ f) => Some f
  | _ => None
  end.

(** The parameters of the functions and arrow functions of a file. *)
Definition getParameters (sf : SourceFile) : list ParameterDeclaration :=
  n ← sf;
  match stmt n with
  | SFunction f => fn_parameters f
  | SVariable v =>
      decl ← vs_declarations v;
      match arrowOf decl with Some f => af_parameters f | None => [] end
  | _ => []
  end.

(** The parameters after the functions were mapped by [gf] and the arrow
    functions by [ga]. *)
Definition parametersMapped (gf ga : ParameterDeclaration → ParameterDeclaration)
    (sf : SourceFile) : list ParameterDeclaration :=
  n ← sf;
  match stmt n with
  | SFunction f => gf <$> fn_parameters f
  | SVariable v =>
      decl ← vs_declarations v;
      match arrowOf decl with Some f => ga <$> af_parameters f | None => [] end
  | _ => []
  end.

(** The two filters of the script. *)
Definition returnTypeAccepted (typeText : string) : Prop :=
  typeText ≠ "void" ∧ Js.length typeText < 100.

Definition typeAccepted (typeText : string) : Prop :=
  typeText ≠ "any" ∧ Js.length typeText < 100.

(** *** The value space of the type texts of [improveTypeSpecificity] *)

(** The character an escape sequence of a string literal stands for; the
    numeric escapes and line continuations are left out. *)
Definition escapedCharacter (c : ascii) : option ascii :=
  let n := nat_of_ascii c in
  if decide (n = 110%nat) then Some (ascii_of_nat 10)
  else if decide (n = 116%nat) then Some (ascii_of_nat 9)
  else if decide (n = 114%nat) then Some (ascii_of_nat 13)
  else if decide (n = 98%nat) then Some (ascii_of_nat 8)
  else if decide (n = 102%nat) then Some (ascii_of_nat 12)
  else if decide (n = 118%nat) then Some (ascii_of_nat 11)
  else if decide (n = 120%nat ∨ n = 117%nat) then None
  else if decide (48 ≤ n ≤ 57)%nat then None
  else if decide (n = 10%nat ∨ n = 13%nat) then None
  else Some c.

(** A character that stands for itself inside a single-quoted literal: not
    the quote, the backslash or a line break. *)
Definition plainCharacter (c : ascii) : bool :=
  negb (bool_decide (nat_of_ascii c ∈ [39; 92; 10; 13]%nat)).

Fixpoint plainLiteral (s : string) : bool :=
  match s with
  | EmptyString => true
  | String c r => plainCharacter c && plainLiteral r
  end.

(** The value of a single-quoted string literal, read from behind its
    opening quote up to the closing quote that must end the text. *)
Fixpoint quotedValue (s : string) : option string :=
  match s with
  | EmptyString => None
  | String c r =>
      if bool_decide (nat_of_ascii c = 39%nat) then
        match r with EmptyString => Some EmptyString | _ => None end
      else if bool_decide (nat_of_ascii c = 92%nat) then
        match r with
        | String e r' =>
            match escapedCharacter e, quotedValue r' with
            | Some x, Some v => Some (String x v)
            | _, _ => None
            end
        | EmptyString => None
        end
      else if plainCharacter c then String c <$> quotedValue r
      else None
  end.

(** The strings a declared type admits, for the type [string] and for
    single-quoted literal types; [None] for any other text. *)
Definition valueSpace (typeText : string) : option (string → Prop) :=
  if decide (typeText = "string") then Some (λ _, True)
  else
    match typeText with
    | String q r =>
        if bool_decide (nat_of_ascii q = 39%nat) then
          match quotedValue r with
          | Some v => Some (λ x, x = v)
          | None => None
          end
        else None
    | EmptyString => None
    end.

(** [text] is the literal type of the string [v]. *)
Definition denotesLiteral (text v : string) : Prop :=
  ∃ P, valueSpace text = Some P ∧ ∀ x, P x ↔ x = v.

(** Every string that the type [a] admits, the type [b] admits. *)
Definition narrowerThan (a b : string) : Prop :=
  ∃ P Q, valueSpace a = Some P ∧ valueSpace b = Some Q ∧ ∀ x, P x → Q x.

End AnalyzeTypes.


(** ** Sequences of import steps *)

(** The import steps of successive extractions into one origin, for one
    target module. *)
Definition addNameSets (m : string) (Ns : list (list string)) (sf : SourceFile)
  : SourceFile :=
  foldl (λ sf N, addOrUpdateNamedImport m N sf) sf Ns.


(** ** Reasoning about computations *)

(** A computation that leaves the files on disk alone. *)
Definition diskStable {A} (c : M A) : Prop :=
  ∀ w r w', c w = (r, w') → disk w' = disk w.

(** A computation that leaves the file at [p] on disk alone. *)
Definition keepsOnDisk {A} (p : string) (c : M A) : Prop :=
  ∀ w r w', c w = (r, w') → disk w' !! p = disk w !! p.

(** ** Example modules *)

Module Example.

(** Files of one directory [/app]. *)
Definition relative (from to : string) : string :=
  String.substring (String.length from + 1)
    (String.length to - (String.length from + 1)) to.


Definition env : Environment :=
  {| fsWritable := λ _, true;
     fsUnreadable := λ _, false;
     tsconfigIncludes := λ _, true;
     path_dirname := λ _, "/app";
     path_relative := relative |}.

(** The same, with one path that cannot be written. *)
Definition envReadOnly (p : string) : Environment :=
  {| fsWritable := λ q, negb (bool_decide (q = p));
     fsUnreadable := λ _, false;
     tsconfigIncludes := λ _, true;
     path_dirname := λ _, "/app";
     path_relative := relative |}.


(** The same, with a [tsconfig.json] that includes no file. *)
Definition envBare : Environment :=
  {| fsWritable := λ _, true;
     fsUnreadable := λ _, false;
     tsconfigIncludes := λ _, false;
     path_dirname := λ _, "/app";
     path_relative := relative |}.

Definition options : RefactorTsx.RefactorOptions :=
  {| RefactorTsx.targetFile := "/app/Dashboard.tsx";
     RefactorTsx.typesFile := "/app/Dashboard.types.ts";
     RefactorTsx.utilsFile := "/app/Dashboard.utils.ts";
     RefactorTsx.minFunctionLines := RefactorTsx.DEFAULT_MIN_FUNCTION_LINES;
     RefactorTsx.minVariableLines := RefactorTsx.DEFAULT_MIN_VARIABLE_LINES;
     RefactorTsx.utilNamePattern := RefactorTsx.DEFAULT_UTIL_PATTERN |}.

Definition interfaceDeclaration (name text : string) : Statement :=
  SInterface {| td_name := name; td_startLine := 1; td_endLine := 5; td_text := text;
                td_isNamedExport := false; td_setIsExportedThrows := false |}.

Definition functionDeclaration (name : string) (startLine endLine : Z) (text : string)
  : Statement :=
  SFunction {| fn_name := Some name; fn_startLine := startLine; fn_endLine := endLine;
               fn_text := text; fn_returnTypeNode := None; fn_returnType := "string";
               fn_setReturnTypeThrows := false; fn_parameters := [] |}.

Definition arrow (returnType : string) (body : Body) : Initializer :=
  InitArrowFunction ("() => " +:+ returnType)
    {| af_returnTypeNode := None; af_returnType := returnType;
       af_setReturnTypeThrows := false; af_parameters := []; af_body := body |}.

Definition declaration (name : string) (startLine endLine : Z) (init : Initializer)
  : VariableDeclaration :=
  {| vd_name := name; vd_startLine := startLine; vd_endLine := endLine;
     vd_typeNode := None; vd_setTypeThrows := false; vd_initializer := Some init |}.

Definition constStatement (text : string) (decls : list VariableDeclaration) : Statement :=
  SVariable {| vs_kind := KConst; vs_text := text; vs_declarations := decls |}.

(** Two interfaces, a short function and a long one. *)
Definition dashboard : list Statement :=
  [interfaceDeclaration "User" "interface User { id: number; name: string }";
   interfaceDeclaration "FormData" "interface FormData { name: string }";
   functionDeclaration "formatDate" 10 21 "function formatDate(d: Date) { /* 12 lines */ }";
   functionDeclaration "renderTable" 30 54 "function renderTable() { /* 25 lines */ }"].

Definition dashboardDisk : gmap string (list Statement) :=
  {[ "/app/Dashboard.tsx" := dashboard ]}.

(** A long utility declared together with another variable. *)
Definition statsOrigin : list Statement :=
  [constStatement
     "const getUserStats = (users: User[]) => { /* 11 lines */ }, statsCache = new Map();"
     [declaration "getUserStats" 3 13 (arrow "UserStats" (Block []));
      declaration "statsCache" 13 13 (InitExpression "Map<any, any>" None)]].

Definition statsDisk : gmap string (list Statement) :=
  {[ "/app/Dashboard.tsx" := statsOrigin ]}.

(** An origin with a new interface, next to a types file written earlier. *)
Definition settingsDisk : gmap string (list Statement) :=
  {[ "/app/Dashboard.tsx" :=
       [interfaceDeclaration "Settings" "interface Settings { theme: string }"];
     "/app/Dashboard.types.ts" :=
       RefactorTsx.typesHeader
         ++ [interfaceDeclaration "User" "export interface User { id: number }"] ]}.

(** The nested pass, with the pattern [^(validate|get)]. *)
Definition pass2Options : RefactorTsxPass2.Pass2Options :=
  {| RefactorTsxPass2.targetFile := "/app/Dashboard.tsx";
     RefactorTsxPass2.utilsFile := "/app/Dashboard.utils.ts";
     RefactorTsxPass2.typesFile := "/app/Dashboard.types.ts";
     RefactorTsxPass2.helperNamePattern := Js.startsWithAny ["validate"; "get"] |}.

Definition nestedConst (text name : string) (isArrow : bool) : BlockStatement :=
  NestedVariableStatement text [{| nd_name := name; nd_isArrowFunction := isArrow |}].

Definition component (body : list BlockStatement) : Statement :=
  constStatement "export const UserManagementDashboard = () => { /* ... */ };"
    [declaration "UserManagementDashboard" 20 520 (arrow "JSX.Element" (Block body))].

Definition threeHelpers : list BlockStatement :=
  [nestedConst "const validateForm = (data: FormData) => { return data.name !== ''; };"
     "validateForm" true;
   nestedConst "const getRoleBadgeColor = (role: string) => '#95a5a6';"
     "getRoleBadgeColor" true;
   nestedConst "const unrelatedHelper = () => 0;" "unrelatedHelper" true].

Definition componentDisk : gmap string (list Statement) :=
  {[ "/app/Dashboard.tsx" := [component threeHelpers] ]}.

(** The same component next to a utilities file written by the first pass. *)
Definition componentAndUtilsDisk : gmap string (list Statement) :=
  {[ "/app/Dashboard.tsx" := [component threeHelpers];
     "/app/Dashboard.utils.ts" :=
       RefactorTsx.utilsHeader
         ++ [constStatement "export const formatDate = (d: Date) => d.toISOString();"
               [declaration "formatDate" 6 6 (arrow "string" ConciseBody)]] ]}.

(** A body whose matching name is bound to a number, and a body that
    declares a helper together with another variable. *)
Definition countBody : list BlockStatement :=
  [nestedConst "const getCount = 5;" "getCount" false].

Definition cacheBody : list BlockStatement :=
  [NestedVariableStatement "const formCache = new Map(), validateForm = () => true;"
     [{| nd_name := "formCache"; nd_isArrowFunction := false |};
      {| nd_name := "validateForm"; nd_isArrowFunction := true |}]].

Definition cacheDisk : gmap string (list Statement) :=
  {[ "/app/Dashboard.tsx" := [component cacheBody] ]}.

(** An arrow function whose inferred return type is [any]. *)
Definition parseFile : list Statement :=
  [constStatement "const parse = (s: string) => JSON.parse(s);"
     [declaration "parse" 1 1 (arrow "any" ConciseBody)]].

(** Two arrow functions whose inferred return types render at 99 and at
    100 characters. *)
Definition text99 : string :=
  "{ id: number; name: string; email: string; role: string; active: boolean; createdAt: Date; n: 123 }".

Definition text100 : string :=
  "{ id: number; name: string; email: string; role: string; active: boolean; createdAt: Date; n: 1234 }".

Definition wideFile : list Statement :=
  [constStatement "const summarize = (u: User) => ({ ...u, n: 123 as const });"
     [declaration "summarize" 1 1 (arrow text99 ConciseBody)];
   constStatement "const summarizeAll = (u: User) => ({ ...u, n: 1234 as const });"
     [declaration "summarizeAll" 2 2 (arrow text100 ConciseBody)]].

(** [const role: string = 'admin'], where [setType] may raise. *)
Definition roleDeclaration (setTypeThrows : bool) : VariableDeclaration :=
  {| vd_name := "role"; vd_startLine := 1; vd_endLine := 1;
     vd_typeNode := Some "string"; vd_setTypeThrows := setTypeThrows;
     vd_initializer := Some (InitExpression (Js.dquote +:+ "admin" +:+ Js.dquote)
                               (Some "admin")) |}.

Definition roleFile (setTypeThrows : bool) : list Statement :=
  [constStatement "const role: string = 'admin';" [roleDeclaration setTypeThrows]].

(** [const sep: string = 'a\' | number | \'b'], a literal with quotes in it,
    and [const dir: string = 'C:\\temp'], one with a backslash. *)
Definition literalDeclaration (name text literalValue : string) : VariableDeclaration :=
  {| vd_name := name; vd_startLine := 1; vd_endLine := 1;
     vd_typeNode := Some "string"; vd_setTypeThrows := false;
     vd_initializer := Some (InitExpression text (Some literalValue)) |}.

Definition unionValue : string := "a' | number | 'b".

Definition dirValue : string := "C:" +:+ String Js.backslash "temp".

Definition tab : string := String (ascii_of_nat 9) EmptyString.

Definition quotesFile : list Statement :=
  [constStatement "const sep: string = 'a\' | number | \'b';"
     [literalDeclaration "sep" (Js.dquote +:+ unionValue +:+ Js.dquote) unionValue];
   constStatement "const dir: string = 'C:\\temp';"
     [literalDeclaration "dir" (Js.dquote +:+ dirValue +:+ Js.dquote) dirValue]].

(** A types file with two interfaces that are not exported, where
    [setIsExported] raises on the first, and a utilities file with an arrow
    function that has no return type. *)
Definition unexported (name : string) (setIsExportedThrows : bool) : Statement :=
  SInterface {| td_name := name; td_startLine := 1; td_endLine := 3;
                td_text := "interface " +:+ name +:+ " { }";
                td_isNamedExport := false;
                td_setIsExportedThrows := setIsExportedThrows |}.

Definition reconcileDisk : gmap string (list Statement) :=
  {[ "/app/UserManagementDashboard.types.ts" :=
       [unexported "User" true; unexported "FormData" false];
     "/app/UserManagementDashboard.utils.ts" :=
       [constStatement "export const formatDate = (d: Date) => d.toISOString();"
          [declaration "formatDate" 1 1 (arrow "string" ConciseBody)]] ]}.

End Example.


(** ** Further example modules *)

Module Sample.

(** A types file with two interfaces that are not exported, and a utilities
    file with an arrow function that has no return type; no setter raises. *)
Definition exportDisk : gmap string (list Statement) :=
  {[ "/app/UserManagementDashboard.types.ts" :=
       [Example.unexported "User" false; Example.unexported "FormData" false];
     "/app/UserManagementDashboard.utils.ts" :=
       [Example.constStatement "export const formatDate = (d: Date) => d.toISOString();"
          [Example.declaration "formatDate" 1 1 (Example.arrow "string" ConciseBody)]] ]}.

(** [let count: number = 0], and [function total(): number], both with the
    annotation written out. *)
Definition countDeclaration : VariableDeclaration :=
  {| vd_name := "count"; vd_startLine := 1; vd_endLine := 1;
     vd_typeNode := Some "number"; vd_setTypeThrows := false;
     vd_initializer := Some (InitExpression "number" None) |}.

Definition totalFunction : FunctionDeclaration :=
  {| fn_name := Some "total"; fn_startLine := 2; fn_endLine := 4;
     fn_text := "function total(): number { return 0; }";
     fn_returnTypeNode := Some "number"; fn_returnType := "number";
     fn_setReturnTypeThrows := false; fn_parameters := [] |}.

Definition typedFile : list Statement :=
  [SVariable {| vs_kind := KLet; vs_text := "let count: number = 0;";
                vs_declarations := [countDeclaration] |};
   SFunction totalFunction].

(** An interface that is exported. *)
Definition exported (name : string) : Statement :=
  SInterface {| td_name := name; td_startLine := 1; td_endLine := 3;
                td_text := "export interface " +:+ name +:+ " { }";
                td_isNamedExport := false; td_setIsExportedThrows := false |}.

(** An interface and a type alias without the keyword, exported by the
    export declaration that ends the file. *)
Definition listedTypes : list Statement :=
  [SInterface {| td_name := "User"; td_startLine := 1; td_endLine := 1;
                 td_text := "interface User { }";
                 td_isNamedExport := true; td_setIsExportedThrows := false |};
   STypeAlias {| td_name := "Id"; td_startLine := 2; td_endLine := 2;
                 td_text := "type Id = number;";
                 td_isNamedExport := true; td_setIsExportedThrows := false |};
   SOther "export { User, Id };"].

(** Two long utilities declared in one statement. *)
Definition twoUtilities : list Statement :=
  [Example.constStatement
     "const formatDate = (d: Date) => { /* 11 lines */ }, formatTime = (d: Date) => { /* 11 lines */ };"
     [Example.declaration "formatDate" 1 11 (Example.arrow "string" (Block []));
      Example.declaration "formatTime" 12 22 (Example.arrow "string" (Block []))]].

Definition twoUtilitiesDisk : gmap string (list Statement) :=
  {[ "/app/Dashboard.tsx" := twoUtilities ]}.

(** A component whose body declares a helper before another variable in
    one statement, and a component whose only matching name is no arrow
    function. *)
Definition helperFirstBody : list BlockStatement :=
  [NestedVariableStatement "const validateForm = () => true, formCache = new Map();"
     [{| nd_name := "validateForm"; nd_isArrowFunction := true |};
      {| nd_name := "formCache"; nd_isArrowFunction := false |}]].

Definition helperFirstDisk : gmap string (list Statement) :=
  {[ "/app/Dashboard.tsx" := [Example.component helperFirstBody] ]}.

Definition countDisk : gmap string (list Statement) :=
  {[ "/app/Dashboard.tsx" := [Example.component Example.countBody];
     "/app/Settings.tsx" := [Example.component Example.threeHelpers] ]}.

(** An origin with an interface and a long utility. *)
Definition mixedOrigin : list Statement :=
  [Example.interfaceDeclaration "User" "interface User { id: number; name: string }";
   Example.constStatement "let formatUser = (u: User) => { /* 11 lines */ };"
     [Example.declaration "formatUser" 7 17 (Example.arrow "string" (Block []))]].

Definition mixedDisk : gmap string (list Statement) :=
  {[ "/app/Dashboard.tsx" := mixedOrigin ]}.

(** The options of the examples, with one path for types and utilities. *)
Definition onePathOptions : RefactorTsx.RefactorOptions :=
  {| RefactorTsx.targetFile := "/app/Dashboard.tsx";
     RefactorTsx.typesFile := "/app/Dashboard.shared.ts";
     RefactorTsx.utilsFile := "/app/Dashboard.shared.ts";
     RefactorTsx.minFunctionLines := RefactorTsx.DEFAULT_MIN_FUNCTION_LINES;
     RefactorTsx.minVariableLines := RefactorTsx.DEFAULT_MIN_VARIABLE_LINES;
     RefactorTsx.utilNamePattern := RefactorTsx.DEFAULT_UTIL_PATTERN |}.

End Sample.

(** ** Statements of the origin, by what the top-level pass does with them *)

Definition isImportStatement (s : Statement) : bool :=
  match s with SImport _ => true | _ => false end.

(** A statement that the top-level pass has no reason to touch: no import,
    no type declaration, no utility among its declarations. *)
Definition untouched (options : RefactorTsx.RefactorOptions) (s : Statement) : bool :=
  negb (isImportStatement s)
  && negb (RefactorTsx.isTypeStatement s)
  && negb (RefactorTsx.hasUtilDeclaration options s).

(** ** Statements of a component's body, by what the nested pass does with them *)

(** A statement of a block with a declaration named as one of [names]. *)
Definition declaresAny (names : list string) (s : BlockStatement) : bool :=
  match s with
  | NestedVariableStatement _ declarations =>
      existsb (λ decl, Js.includes (nd_name decl) names) declarations
  | NestedOtherStatement _ => false
  end.

(** A declaration of a block that is an arrow function with a name that
    matches the pattern. *)
Definition isHelperDeclaration (pattern : string → bool) (decl : NestedDeclaration)
  : bool :=
  nd_isArrowFunction decl && pattern (nd_name decl).

(** A statement of a block with such a declaration. *)
Definition declaresHelper (pattern : string → bool) (s : BlockStatement) : bool :=
  match s with
  | NestedVariableStatement _ declarations =>
      existsb (isHelperDeclaration pattern) declarations
  | NestedOtherStatement _ => false
  end.

(** An arrow function with another body. *)
Definition withBody (body : Body) (f : ArrowFunction) : ArrowFunction :=
  {| af_returnTypeNode := af_returnTypeNode f; af_returnType := af_returnType f;
     af_setReturnTypeThrows := af_setReturnTypeThrows f;
     af_parameters := af_parameters f; af_body := body |}.

(** ** Command lines and output paths (both refactoring scripts) *)

Module Cli.

Definition dollar : ascii := ascii_of_nat 36.
Definition ampersand : ascii := ascii_of_nat 38.
Definition apostrophe : ascii := ascii_of_nat 39.
Definition backtick : ascii := ascii_of_nat 96.

(** The replacement patterns of [String.prototype.replace] for an
    expression without capture groups: [$$] is a dollar sign, [$&] the
    match, [$`] the text before the match and [$'] the text after it; any
    other [$] stands for itself. *)
Fixpoint expandReplacement (before matched after r : string) : string :=
  match r with
  | EmptyString => EmptyString
  | String c r' =>
      if decide (c = dollar)
      then match r' with
           | String c' r'' =>
               if decide (c' = dollar)
               then String dollar (expandReplacement before matched after r'')
               else if decide (c' = ampersand)
               then matched +:+ expandReplacement before matched after r''
               else if decide (c' = backtick)
               then before +:+ expandReplacement before matched after r''
               else if decide (c' = apostrophe)
               then after +:+ expandReplacement before matched after r''
               else String c (expandReplacement before matched after r')
           | EmptyString => String c EmptyString
           end
      else String c (expandReplacement before matched after r')
  end.

(** [s.replace(re, r)] for an expression [re] anchored at the end of [s]
    that matches the last [n] characters of [s]. *)
Definition replaceAtEnd (n : nat) (r s : string) : string :=
  let before := Js.dropEnd n s in
  let matched := String.substring (String.length s - n) n s in
  before +:+ expandReplacement before matched "" r.

(** [resolveOutputPath] *)
Definition resolveOutputPath (inputFile suffix : string) : string :=
  if Js.endsWith ".tsx" inputFile then replaceAtEnd 4 suffix inputFile
  else if Js.endsWith ".ts" inputFile then replaceAtEnd 3 suffix inputFile
  else inputFile +:+ suffix.

(** A string in which a character does not occur. *)
Definition lacks (c : ascii) (s : string) : Prop := c ∉ list_ascii_of_string s.

End Cli.

(** ** The command line of refactor-tsx.ts *)

Module RefactorTsxCli.

(** The number that [Number(x)] evaluates to, kept as the call: [x] is the
    argument, [None] for [undefined]. *)
Inductive JsNumber := Number (x : option string).

(** [CliArgs]: a field that was never assigned, or was assigned
    [undefined], is [None]; [help] is [true] once it was assigned. *)
Record CliArgs := {
  file : option string;
  types : option string;
  utils : option string;
  minFunctionLines : option JsNumber;
  minVariableLines : option JsNumber;
  utilPattern : option string;
  help : bool;
}.

Definition emptyArgs : CliArgs :=
  {| file := None; types := None; utils := None; minFunctionLines := None;
     minVariableLines := None; utilPattern := None; help := false |}.

(** The loop of [parseArgs].  [step arg next result] is the [switch] for
    the argument [arg], with [next] the argument behind it ([args[i + 1]],
    [None] for [undefined]): it answers the new result and whether it has
    advanced [i] past [next]. *)
Fixpoint parseLoop {R} (step : string → option string → R → R * bool)
    (args : list string) (result : R) : R :=
  match args with
  | [] => result
  | arg :: rest =>
      if decide (arg = "") then parseLoop step rest result
      else
        match step arg (head rest) result with
        | (result', true) =>
            match rest with
            | _ :: rest' => parseLoop step rest' result'
            | [] => result'
            end
        | (result', false) => parseLoop step rest result'
        end
  end.

(** The [switch] of [parseArgs]. *)
Definition parseArg (arg : string) (next : option string) (result : CliArgs)
  : CliArgs * bool :=
  if decide (arg = "--file")
  then ({| file := next; types := types result; utils := utils result;
           minFunctionLines := minFunctionLines result;
           minVariableLines := minVariableLines result;
           utilPattern := utilPattern result; help := help result |}, true)
  else if decide (arg = "--types")
  then ({| file := file result; types := next; utils := utils result;
           minFunctionLines := minFunctionLines result;
           minVariableLines := minVariableLines result;
           utilPattern := utilPattern result; help := help result |}, true)
  else if decide (arg = "--utils")
  then ({| file := file result; types := types result; utils := next;
           minFunctionLines := minFunctionLines result;
           minVariableLines := minVariableLines result;
           utilPattern := utilPattern result; help := help result |}, true)
  else if decide (arg = "--min-function-lines")
  then ({| file := file result; types := types result; utils := utils result;
           minFunctionLines := Some (Number next);
           minVariableLines := minVariableLines result;
           utilPattern := utilPattern result; help := help result |}, true)
  else if decide (arg = "--min-variable-lines")
  then ({| file := file result; types := types result; utils := utils result;
           minFunctionLines := minFunctionLines result;
           minVariableLines := Some (Number next);
           utilPattern := utilPattern result; help := help result |}, true)
  else if decide (arg = "--util-pattern")
  then ({| file := file result; types := types result; utils := utils result;
           minFunctionLines := minFunctionLines result;
           minVariableLines := minVariableLines result;
           utilPattern := next; help := help result |}, true)
  else if bool_decide (arg = "--help") || bool_decide (arg = "-h")
  then ({| file := file result; types := types result; utils := utils result;
           minFunctionLines := minFunctionLines result;
           minVariableLines := minVariableLines result;
           utilPattern := utilPattern result; help := true |}, false)
  else (result, false).

(** [parseArgs] *)
Definition parseArgs (args : list string) : CliArgs := parseLoop parseArg args emptyArgs.

(** *** Command lines, item by item *)

(** The options that take a value. *)
Inductive ValueFlag :=
| FlagFile | FlagTypes | FlagUtils
| FlagMinFunctionLines | FlagMinVariableLines | FlagUtilPattern.

Definition flagText (f : ValueFlag) : string :=
  match f with
  | FlagFile => "--file"
  | FlagTypes => "--types"
  | FlagUtils => "--utils"
  | FlagMinFunctionLines => "--min-function-lines"
  | FlagMinVariableLines => "--min-variable-lines"
  | FlagUtilPattern => "--util-pattern"
  end.

(** What an option with the value [next] stores. *)
Definition assign (f : ValueFlag) (next : option string) (result : CliArgs) : CliArgs :=
  match f with
  | FlagFile =>
      {| file := next; types := types result; utils := utils result;
         minFunctionLines := minFunctionLines result;
         minVariableLines := minVariableLines result;
         utilPattern := utilPattern result; help := help result |}
  | FlagTypes =>
      {| file := file result; types := next; utils := utils result;
         minFunctionLines := minFunctionLines result;
         minVariableLines := minVariableLines result;
         utilPattern := utilPattern result; help := help result |}
  | FlagUtils =>
      {| file := file result; types := types result; utils := next;
         minFunctionLines := minFunctionLines result;
         minVariableLines := minVariableLines result;
         utilPattern := utilPattern result; help := help result |}
  | FlagMinFunctionLines =>
      {| file := file result; types := types result; utils := utils result;
         minFunctionLines := Some (Number next);
         minVariableLines := minVariableLines result;
         utilPattern := utilPattern result; help := help result |}
  | FlagMinVariableLines =>
      {| file := file result; types := types result; utils := utils result;
         minFunctionLines := minFunctionLines result;
         minVariableLines := Some (Number next);
         utilPattern := utilPattern result; help := help result |}
  | FlagUtilPattern =>
      {| file := file result; types := types result; utils := utils result;
         minFunctionLines := minFunctionLines result;
         minVariableLines := minVariableLines result;
         utilPattern := next; help := help result |}
  end.

(** An item of a command line: an option with its value, a request for
    help, or any other word. *)
Inductive CliItem :=
| ItemOption (f : ValueFlag) (value : string)
| ItemHelp (short : bool)
| ItemOther (word : string).

Definition renderItem (item : CliItem) : list string :=
  match item with
  | ItemOption f value => [flagText f; value]
  | ItemHelp short => [if short then "-h" else "--help"]
  | ItemOther word => [word]
  end.

Definition applyItem (result : CliArgs) (item : CliItem) : CliArgs :=
  match item with
  | ItemOption f value => assign f (Some value) result
  | ItemHelp _ =>
      {| file := file result; types := types result; utils := utils result;
         minFunctionLines := minFunctionLines result;
         minVariableLines := minVariableLines result;
         utilPattern := utilPattern result; help := true |}
  | ItemOther _ => result
  end.

(** The words that [parseArgs] knows. *)
Definition isFlag (word : string) : bool :=
  bool_decide (word ∈ ["--file"; "--types"; "--utils"; "--min-function-lines";
                       "--min-variable-lines"; "--util-pattern"; "--help"; "-h"]).

Definition plainItem (item : CliItem) : Prop :=
  match item with
  | ItemOther word => isFlag word = false
  | _ => True
  end.

End RefactorTsxCli.

(** ** The report of refactor-tsx.ts *)

Module Report.
Import RefactorTsx.

Inductive Indicator := Red | Yellow | Green.

(** The lines that [generateReport] prints, each with the values that its
    template interpolates: the two lines of the title, the header of a group
    ([TYPEs (n):]), the line of a candidate, and the line of the total. *)
Inductive ReportLine :=
| TitleLine
| RuleLine
| GroupHeader (type : CandidateType) (count : nat)
| ItemLine (indicator : Indicator) (name : string) (lineCount : Z)
| TotalLine (totalLines : Z).

(** The callback of [candidates.reduce]: [acc[c.type].push(c)], with a
    new key behind the keys the object already has. *)
Fixpoint pushTo (c : ExtractionCandidate)
    (acc : list (CandidateType * list ExtractionCandidate))
  : list (CandidateType * list ExtractionCandidate) :=
  match acc with
  | [] => [(c_type c, [c])]
  | (type, items) :: r =>
      if decide (type = c_type c) then (type, items ++ [c]) :: r
      else (type, items) :: pushTo c r
  end.

Definition grouped (candidates : list ExtractionCandidate)
  : list (CandidateType * list ExtractionCandidate) :=
  foldl (λ acc c, pushTo c acc) [] candidates.

(** [items.sort((a, b) => b.lineCount - a.lineCount)]: the sort is
    stable; [b] goes before an earlier [a] only when the comparator is
    positive. *)
Fixpoint insertByLines (a : ExtractionCandidate) (sorted : list ExtractionCandidate)
  : list ExtractionCandidate :=
  match sorted with
  | [] => [a]
  | b :: r =>
      if bool_decide (c_lineCount b - c_lineCount a > 0) then b :: insertByLines a r
      else a :: b :: r
  end.

Definition sortByLines (items : list ExtractionCandidate) : list ExtractionCandidate :=
  foldr insertByLines [] items.

Definition indicatorOf (lineCount : Z) : Indicator :=
  if bool_decide (lineCount > 50) then Red
  else if bool_decide (lineCount > 20) then Yellow
  else Green.

Definition itemLine (item : ExtractionCandidate) : ReportLine :=
  ItemLine (indicatorOf (c_lineCount item)) (c_name item) (c_lineCount item).

(** The groups as the report prints them. *)
Definition reportGroups (candidates : list ExtractionCandidate)
  : list (CandidateType * list ExtractionCandidate) :=
  (λ g, (g.1, sortByLines g.2)) <$> grouped candidates.

Definition totalLines (candidates : list ExtractionCandidate) : Z :=
  foldl (λ sum c, sum + c_lineCount c) 0 candidates.

(** The first occurrence of every type, in order: the keys of an object
    in the order in which they were added. *)
Fixpoint firstOccurrences (l : list CandidateType) : list CandidateType :=
  match l with
  | [] => []
  | x :: r => x :: filter (λ y, y ≠ x) (firstOccurrences r)
  end.

(** The name and the line count that a line of the report shows. *)
Definition shown (line : ReportLine) : list (string * Z) :=
  match line with
  | ItemLine _ name lineCount => [(name, lineCount)]
  | _ => []
  end.

(** [generateReport] *)
Definition generateReport (candidates : list ExtractionCandidate) : list ReportLine :=
  [TitleLine; RuleLine]
    ++ (g ← reportGroups candidates; GroupHeader g.1 (length g.2) :: (itemLine <$> g.2))
    ++ [TotalLine (totalLines candidates)].

End Report.
(** * Properties *)

(** ** Import bindings *)

Lemma arrayFromSet_elem (l : list string) (x : string) :
  x ∈ Js.arrayFromSet l ↔ x ∈ l.
Proof.
  induction l as [|y l IH]; simpl; [done|].
  rewrite !elem_of_cons, list_elem_of_filter, IH.
  destruct (decide (x = y)) as [->|Hne]; [split; by left|].
  split; [intros [?|[_ ?]]; [done|by right]|intros [?|?]; [done|by right]].
Qed.

















(** The names that the two steps of the witness leave, in the order of
    their first occurrence. *)
Example import_merge_names :
  importBindings "./App.utils"
    (addNameSets "./App.utils"
       [["validateForm"; "getRoleBadgeColor"]; ["getRoleBadgeColor"; "formatDate"]]
       (addImportDeclaration "./App.utils" ["handleSave"; "validateForm"] []))
  = [["handleSave"; "validateForm"; "getRoleBadgeColor"; "formatDate"]].
Proof. vm_compute. reflexivity. Qed.


(** Where the origin has no import of the module, the names are written as
    they are passed: a name that is passed twice is imported twice.  The
    branch that merges into an existing declaration goes through a set. *)
Example first_import_keeps_repetitions :
  importBindings "./App.types" (addNameSets "./App.types" [["User"; "User"]] [])
  = [["User"; "User"]]
  ∧ importBindings "./App.types"
      (addNameSets "./App.types" [["User"; "User"]; ["Role"; "Role"]] [])
    = [["User"; "Role"]].
Proof. split; vm_compute; reflexivity. Qed.

(** The import step of the nested pass is the same function. *)
Lemma addHelperImport_eq (m : string) (names : list string) (sf : SourceFile) :
  RefactorTsxPass2.addHelperImport m names sf = addOrUpdateNamedImport m names sf.
Proof. reflexivity. Qed.

Import RefactorTsx.

(** ** Reasoning about computations *)

Lemma bind_inv {A B} (c : M A) (k : A → M B) (w w' : World) (r : Result B) :
  bind c k w = (r, w') →
  (∃ a w1, c w = (Ok a, w1) ∧ k a w1 = (r, w'))
  ∨ (∃ e, c w = (Throw e, w') ∧ r = Throw e).
Proof.
  unfold bind. destruct (c w) as [[a|e] w1]; intros H.
  - left. by exists a, w1.
  - right. exists e. by simplify_eq.
Qed.

Lemma bind_Ok_inv {A B} (c : M A) (k : A → M B) (w w' : World) (b : B) :
  bind c k w = (Ok b, w') → ∃ a w1, c w = (Ok a, w1) ∧ k a w1 = (Ok b, w').
Proof.
  intros [H|(e & _ & ?)]%bind_inv; [done|discriminate].
Qed.

Lemma diskStable_keeps {A} (p : string) (c : M A) : diskStable c → keepsOnDisk p c.
Proof. intros H w r w' Hc. by rewrite (H _ _ _ Hc). Qed.

Lemma diskStable_ret {A} (a : A) : diskStable (ret a).
Proof. intros w r w' H. unfold ret in H. by simplify_eq. Qed.

Lemma diskStable_throw {A} (e : Error) : diskStable (@throw A e).
Proof. intros w r w' H. unfold throw in H. by simplify_eq. Qed.

Lemma diskStable_bind {A B} (c : M A) (k : A → M B) :
  diskStable c → (∀ a, diskStable (k a)) → diskStable (bind c k).
Proof.
  intros Hc Hk w r w' [(a & w1 & H1 & H2)|(e & H1 & _)]%bind_inv.
  - rewrite (Hk _ _ _ _ H2). by apply (Hc _ _ _ H1).
  - by apply (Hc _ _ _ H1).
Qed.

Lemma keepsOnDisk_bind {A B} (p : string) (c : M A) (k : A → M B) :
  keepsOnDisk p c → (∀ a, keepsOnDisk p (k a)) → keepsOnDisk p (bind c k).
Proof.
  intros Hc Hk w r w' [(a & w1 & H1 & H2)|(e & H1 & _)]%bind_inv.
  - rewrite (Hk _ _ _ _ H2). by apply (Hc _ _ _ H1).
  - by apply (Hc _ _ _ H1).
Qed.

Lemma diskStable_forEachM {A} (f : A → M unit) (l : list A) :
  (∀ x, diskStable (f x)) → diskStable (forEachM f l).
Proof.
  intros Hf. induction l as [|x l IH]; simpl.
  - apply diskStable_ret.
  - apply diskStable_bind; [apply Hf|done].
Qed.

Lemma diskStable_mapM {A B} (f : A → M B) (l : list A) :
  (∀ x, diskStable (f x)) → diskStable (mapM f l).
Proof.
  intros Hf. induction l as [|x l IH]; simpl.
  - apply diskStable_ret.
  - apply diskStable_bind; [apply Hf|]. intros y.
    apply diskStable_bind; [done|]. intros ys. apply diskStable_ret.
Qed.

Section ProjectFacts.
Variable env : Environment.

Lemma diskStable_newProject : diskStable (newProject env).
Proof. intros w r w' H. unfold newProject in H. by simplify_eq. Qed.

Lemma diskStable_addSourceFileAtPath p : diskStable (addSourceFileAtPath p).
Proof.
  intros w r w' H. unfold addSourceFileAtPath in H.
  destruct (project w !! p); [by simplify_eq|].
  destruct (disk w !! p); by simplify_eq.
Qed.

Lemma diskStable_getSourceFile p : diskStable (getSourceFile p).
Proof. intros w r w' H. unfold getSourceFile in H. by simplify_eq. Qed.

Lemma diskStable_createSourceFile p l : diskStable (createSourceFile p l).
Proof. intros w r w' H. unfold createSourceFile in H. by simplify_eq. Qed.

Lemma diskStable_getFile p : diskStable (getFile p).
Proof.
  intros w r w' H. unfold getFile in H. destruct (project w !! p); by simplify_eq.
Qed.

Lemma diskStable_modifyFile p f : diskStable (modifyFile p f).
Proof.
  intros w r w' H. unfold modifyFile in H. destruct (project w !! p); by simplify_eq.
Qed.

Lemma diskStable_getNode p id : diskStable (getNode p id).
Proof.
  apply diskStable_bind; [apply diskStable_getFile|]. intros sf.
  destruct (filter _ sf); [apply diskStable_throw|apply diskStable_ret].
Qed.

Lemma keepsOnDisk_saveSync p q : q ≠ p → keepsOnDisk p (saveSync env q).
Proof.
  intros Hne w r w' H. unfold saveSync in H.
  destruct (project w !! q); [|by simplify_eq].
  destruct (fsWritable env q); simplify_eq; [|done].
  simpl. by rewrite lookup_insert_ne.
Qed.

Lemma saveSync_Throw p w e w' : saveSync env p w = (Throw e, w') → w' = w.
Proof.
  unfold saveSync. destruct (project w !! p); [|by intros; simplify_eq].
  destruct (fsWritable env p); by intros; simplify_eq.
Qed.

Lemma saveSync_Ok p w w' :
  saveSync env p w = (Ok tt, w') →
  fsWritable env p = true
  ∧ ∃ sf, project w !! p = Some sf
          ∧ w' = {| project := project w; disk := <[p := content sf]> (disk w) |}.
Proof.
  unfold saveSync. destruct (project w !! p) as [sf|]; [|by intros; simplify_eq].
  destruct (fsWritable env p); intros; simplify_eq. split; [done|]. by exists sf.
Qed.

End ProjectFacts.

Lemma getNode_inv (p : string) (id : nat) (w w' : World) (r : Result Statement) :
  getNode p id w = (r, w') →
  w' = w ∧
  match r with
  | Ok s => ∃ sf n rest, project w !! p = Some sf
                          ∧ filter (λ n, nid n = id) sf = n :: rest ∧ s = stmt n
  | Throw _ => True
  end.
Proof.
  unfold getNode, bind, getFile. destruct (project w !! p) as [sf|]; [|by intros; simplify_eq].
  destruct (filter _ sf) as [|n rest] eqn:Hf; unfold ret, throw; intros; simplify_eq; [done|].
  split; [done|]. by exists sf, n, rest.
Qed.

Lemma modifyFile_Ok (p : string) (f : SourceFile → SourceFile) (w w' : World) :
  modifyFile p f w = (Ok tt, w') →
  ∃ sf, project w !! p = Some sf
        ∧ w' = {| project := <[p := f sf]> (project w); disk := disk w |}.
Proof.
  unfold modifyFile. destruct (project w !! p) as [sf|]; intros; simplify_eq. by exists sf.
Qed.

Lemma NoDup_fmap_eq {A B} (f : A → B) (l : list A) (x y : A) :
  NoDup (f <$> l) → x ∈ l → y ∈ l → f x = f y → x = y.
Proof.
  induction l as [|a l IH]; [by intros _ ?%elem_of_nil|].
  rewrite fmap_cons, NoDup_cons, !elem_of_cons. intros [Ha Hl] [->|Hx] [->|Hy] Hxy.
  - done.
  - exfalso. apply Ha. rewrite Hxy. by apply list_elem_of_fmap_2.
  - exfalso. apply Ha. rewrite <- Hxy. by apply list_elem_of_fmap_2.
  - by apply IH.
Qed.

Lemma NoDup_nid_filter (sf : SourceFile) (n m : Node) (rest : list Node) :
  NoDup (nid <$> sf) → n ∈ sf → filter (λ x, nid x = nid n) sf = m :: rest → m = n.
Proof.
  intros Hnd Hn Hf.
  assert (Hm : m ∈ filter (λ x, nid x = nid n) sf) by (rewrite Hf; left).
  apply list_elem_of_filter in Hm as [Hid Hm].
  by apply (NoDup_fmap_eq nid sf).
Qed.

Lemma NoDup_nid_removeNode (id : nat) (sf : SourceFile) :
  NoDup (nid <$> sf) → NoDup (nid <$> removeNode id sf).
Proof.
  unfold removeNode. intros H.
  eapply sublist_NoDup; [done|]. apply fmap_sublist, sublist_filter.
Qed.

Section Pass1.
Variable env : Environment.
Variable options : RefactorOptions.

Local Abbreviation target := (targetFile options).

(** The type candidates are looked up without changing the world. *)
Lemma mapM_exportedDeclaration (cs : list ExtractionCandidate) (w w' : World)
    (r : Result (list Statement)) :
  mapM (exportedDeclaration options) cs w = (r, w') → w' = w.
Proof.
  revert w w' r. induction cs as [|c cs IH]; intros w w' r; simpl.
  - unfold ret. by intros; simplify_eq.
  - intros [(s & w1 & H1 & H2)|(e & H1 & _)]%bind_inv.
    + unfold exportedDeclaration in H1.
      apply bind_inv in H1 as [(s0 & w0 & Hg & Hr)|(e & Hg & ?)]; [|done].
      apply getNode_inv in Hg as [-> _]. unfold ret in Hr. simplify_eq.
      apply bind_inv in H2 as [(ss & w2 & H3 & H4)|(e & H3 & _)].
      * apply IH in H3 as ->. unfold ret in H4. by simplify_eq.
      * by apply IH in H3.
    + unfold exportedDeclaration in H1.
      apply bind_inv in H1 as [(s0 & w0 & Hg & Hr)|(e' & Hg & ?)].
      * unfold ret in Hr. by simplify_eq.
      * by apply getNode_inv in Hg as [-> _].
Qed.

Lemma mapM_exportedDeclaration_live (c : ExtractionCandidate)
    (cs : list ExtractionCandidate) (w w' : World) (l : list Statement) :
  mapM (exportedDeclaration options) (c :: cs) w = (Ok l, w') →
  ∃ sf, project w !! target = Some sf ∧ sf ≠ [].
Proof.
  simpl. intros (s & w1 & H1 & _)%bind_Ok_inv.
  unfold exportedDeclaration in H1.
  apply bind_Ok_inv in H1 as (s0 & w0 & Hg & _).
  apply getNode_inv in Hg as [_ (sf & n & rest & Hsf & Hf & _)].
  exists sf. split; [done|]. intros ->. by rewrite filter_nil in Hf.
Qed.

(** The loop that removes the type nodes. *)
Lemma forEachM_removeTypeNode (cs : list ExtractionCandidate) (w w' : World)
    (sf : SourceFile) :
  project w !! target = Some sf →
  NoDup (nid <$> sf) →
  forEachM (removeTypeNode options) cs w = (Ok tt, w') →
  ∃ sf', w' = {| project := <[target := sf']> (project w); disk := disk w |}
         ∧ sf' `sublist_of` sf
         ∧ ∀ n, n ∈ sf' → isTypeStatement (stmt n) = true →
                nid n ∉ (refId ∘ c_node) <$> cs.
Proof.
  revert w sf. induction cs as [|c cs IH]; intros w sf Hsf Hnd; simpl.
  - unfold ret. intros ?; simplify_eq. exists sf. split_and!.
    + destruct w'. simpl in *. f_equal. by rewrite insert_id.
    + done.
    + intros n _ _. apply not_elem_of_nil.
  - intros ([] & w1 & H1 & H2)%bind_Ok_inv.
    unfold removeTypeNode in H1.
    apply bind_Ok_inv in H1 as (s & w0 & Hg & Hm).
    apply getNode_inv in Hg as [-> (sf0 & n0 & rest & Hsf0 & Hf & ->)].
    rewrite Hsf in Hsf0. simplify_eq.
    assert (Hkeep : w1 = w →
      ∃ sf', w' = {| project := <[target := sf']> (project w); disk := disk w |}
             ∧ sf' `sublist_of` sf0
             ∧ ∀ n, n ∈ sf' → isTypeStatement (stmt n) = true →
                    isTypeStatement (stmt n0) = false →
                    nid n ∉ (refId ∘ c_node) <$> (c :: cs)).
    { intros ->. destruct (IH _ _ Hsf Hnd H2) as (sf' & -> & Hsub & Hno).
      exists sf'. split_and!; [done..|].
      intros n Hn Ht Hn0. rewrite ?fmap_cons, not_elem_of_cons. split; [|by apply Hno].
      simpl. intros Hid.
      assert (n ∈ sf0) by (by eapply elem_of_sublist).
      rewrite <- Hid in Hf. apply NoDup_nid_filter in Hf; [|done..]. congruence. }
    assert (Hremove : modifyFile target (removeNode (refId (c_node c))) w = (Ok tt, w1) →
      ∃ sf', w' = {| project := <[target := sf']> (project w); disk := disk w |}
             ∧ sf' `sublist_of` sf0
             ∧ ∀ n, n ∈ sf' → isTypeStatement (stmt n) = true →
                    nid n ∉ (refId ∘ c_node) <$> (c :: cs)).
    { intros (sf1 & Hsf1 & ->)%modifyFile_Ok. rewrite Hsf in Hsf1. simplify_eq.
      eapply IH in H2 as (sf' & -> & Hsub & Hno);
        [|simpl; apply lookup_insert_eq|by apply NoDup_nid_removeNode].
      exists sf'. simpl. split_and!.
      - by rewrite insert_insert_eq.
      - etrans; [done|]. apply sublist_filter.
      - intros n Hn Ht. rewrite ?fmap_cons, not_elem_of_cons. split; [|by apply Hno].
        simpl. assert (Hn' : n ∈ removeNode (refId (c_node c)) sf1)
          by (by eapply elem_of_sublist).
        unfold removeNode in Hn'. by apply list_elem_of_filter in Hn' as [? _]. }
    destruct (stmt n0) eqn:Hs0; unfold ret in Hm;
      try (simplify_eq; destruct Hkeep as (sf' & ? & ? & Hno); [done|];
           exists sf'; split_and!; [done..|]; intros; by apply Hno);
      by apply Hremove.
Qed.
End Pass1.

Lemma freshId_gt (sf : SourceFile) (id : nat) : id ∈ nid <$> sf → (id < freshId sf)%nat.
Proof.
  unfold freshId. induction sf as [|n sf IH]; [by intros ?%elem_of_nil|].
  rewrite fmap_cons. intros [->|H]%elem_of_cons; [|apply IH in H]; cbn [foldr]; lia.
Qed.

Lemma addImportDeclaration_perm (m : string) (names : list string) (sf : SourceFile) :
  ∃ i, addImportDeclaration m names sf
       ≡ₚ {| nid := freshId sf; stmt := SImport i |} :: sf.
Proof.
  unfold addImportDeclaration. eexists.
  rewrite <- Permutation_middle. by rewrite take_drop.
Qed.

Lemma addImportDeclaration_elem (m : string) (names : list string) (sf : SourceFile)
    (n : Node) :
  n ∈ addImportDeclaration m names sf → isImport n = true ∨ n ∈ sf.
Proof.
  destruct (addImportDeclaration_perm m names sf) as [i ->].
  intros [->|?]%elem_of_cons; [by left|by right].
Qed.

Lemma addImportDeclaration_NoDup (m : string) (names : list string) (sf : SourceFile) :
  NoDup (nid <$> sf) → NoDup (nid <$> addImportDeclaration m names sf).
Proof.
  destruct (addImportDeclaration_perm m names sf) as [i ->].
  intros H. rewrite fmap_cons. constructor; [|done].
  simpl. intros Hin%freshId_gt. lia.
Qed.

Lemma addOrUpdateNamedImport_elem (m : string) (names : list string) (sf : SourceFile)
    (n : Node) :
  n ∈ addOrUpdateNamedImport m names sf → isImport n = true ∨ n ∈ sf.
Proof.
  unfold addOrUpdateNamedImport.
  destruct (getImportDeclaration m sf) as [[id i]|].
  - intros [?|H]%addImportDeclaration_elem; [by left|right].
    unfold removeNode in H. by apply list_elem_of_filter in H as [_ ?].
  - apply addImportDeclaration_elem.
Qed.

Lemma addOrUpdateNamedImport_NoDup (m : string) (names : list string) (sf : SourceFile) :
  NoDup (nid <$> sf) → NoDup (nid <$> addOrUpdateNamedImport m names sf).
Proof.
  unfold addOrUpdateNamedImport. intros H.
  destruct (getImportDeclaration m sf) as [[id i]|].
  - by apply addImportDeclaration_NoDup, NoDup_nid_removeNode.
  - by apply addImportDeclaration_NoDup.
Qed.

Lemma isImport_not_type (n : Node) : isImport n = true → isTypeStatement (stmt n) = false.
Proof. unfold isImport. by destruct (stmt n). Qed.

Section Pass1.
Variable env : Environment.
Variable options : RefactorOptions.

Local Abbreviation target := (targetFile options).

Lemma extractTypes_Ok (cands : list ExtractionCandidate) (w w' : World) (sf : SourceFile) :
  project w !! target = Some sf →
  NoDup (nid <$> sf) →
  extractTypes env options cands w = (Ok tt, w') →
  ∃ sf', project w' !! target = Some sf'
         ∧ NoDup (nid <$> sf')
         ∧ (∀ n, n ∈ sf' → isImport n = true ∨ n ∈ sf)
         ∧ (∀ n, n ∈ sf' → isTypeStatement (stmt n) = true →
                 nid n ∉ (refId ∘ c_node) <$> filter (isTypeCandidate) cands)
         ∧ (filter isTypeCandidate cands ≠ [] →
            fsWritable env (typesFile options) = true).
Proof.
  intros Hsf Hnd. unfold extractTypes.
  destruct (filter isTypeCandidate cands) as [|c cs] eqn:Hcs.
  { simpl. unfold ret. intros ?; simplify_eq. exists sf. split_and!; try done.
    - intros; by right.
    - intros n _ _. apply not_elem_of_nil. }
  rewrite bool_decide_eq_false_2 by done.
  intros ([] & w1 & H1 & H2)%bind_Ok_inv.
  unfold createSourceFile in H1. simplify_eq.
  apply bind_Ok_inv in H2 as (decls & w2 & H2 & H3).
  pose proof (mapM_exportedDeclaration_live _ _ _ _ _ _ H2) as (sf1 & Hsf1 & Hne).
  apply mapM_exportedDeclaration in H2 as ->.
  simpl in Hsf1.
  assert (Hpath : typesFile options ≠ target).
  { intros Heq. rewrite Heq, lookup_insert_eq in Hsf1. by simplify_eq. }
  rewrite lookup_insert_ne in Hsf1 by done. rewrite Hsf in Hsf1. simplify_eq.
  apply bind_Ok_inv in H3 as ([] & w3 & H3 & H4).
  unfold createSourceFile in H3. simplify_eq.
  apply bind_Ok_inv in H4 as ([] & w4 & H4 & H5).
  eapply forEachM_removeTypeNode in H4 as (sf4 & -> & Hsub & Hno);
    [| |exact Hnd]; [|simpl; by rewrite !lookup_insert_ne].
  apply bind_Ok_inv in H5 as ([] & w5 & H5 & H6).
  rewrite bool_decide_eq_true_2 in H5 by (simpl; lia).
  apply modifyFile_Ok in H5 as (sf5 & Hsf5 & ->).
  simpl in Hsf5. rewrite lookup_insert_eq in Hsf5. simplify_eq.
  apply saveSync_Ok in H6 as (Hw & sf6 & _ & ->). simpl.
  eexists. split_and!.
  - by rewrite lookup_insert_eq.
  - apply addOrUpdateNamedImport_NoDup. eapply sublist_NoDup; [done|].
    by apply fmap_sublist.
  - intros n [?|Hn]%addOrUpdateNamedImport_elem; [by left|right].
    by eapply elem_of_sublist.
  - intros n [Hi|Hn]%addOrUpdateNamedImport_elem Ht.
    + apply isImport_not_type in Hi. congruence.
    + by apply Hno.
  - done.
Qed.

(** The loop that moves the utilities. *)
Lemma mapM_moveUtility (cs : list ExtractionCandidate) (w w' : World)
    (sf : SourceFile) (l : list (Statement * string)) :
  project w !! target = Some sf →
  mapM (moveUtility options) cs w = (Ok l, w') →
  ∃ sf', w' = {| project := <[target := sf']> (project w); disk := disk w |}
         ∧ sf' `sublist_of` sf
         ∧ length l = length cs
         ∧ ∀ n, n ∈ sf' → nid n ∉ (refId ∘ c_node) <$> cs.
Proof.
  revert w sf l. induction cs as [|c cs IH]; intros w sf l Hsf; simpl.
  - unfold ret. intros ?; simplify_eq. exists sf. split_and!; try done.
    + destruct w'. simpl in *. f_equal. by rewrite insert_id.
    + intros n _. apply not_elem_of_nil.
  - intros (x & w1 & H1 & H2)%bind_Ok_inv.
    unfold moveUtility in H1.
    apply bind_Ok_inv in H1 as (s & w0 & Hg & Hm).
    apply getNode_inv in Hg as [-> (sf0 & n0 & rest & Hsf0 & Hf & ->)].
    rewrite Hsf in Hsf0. simplify_eq.
    destruct (c_node c) as [id|id i] eqn:Hc; [by unfold throw in Hm|].
    destruct (stmt n0) eqn:Hs0; try (by unfold throw in Hm).
    apply bind_Ok_inv in Hm as ([] & w2 & Hm & Hr).
    apply modifyFile_Ok in Hm as (sf1 & Hsf1 & ->). rewrite Hsf in Hsf1.
    unfold ret in Hr. simplify_eq.
    apply bind_Ok_inv in H2 as (xs & w3 & H2 & Hr).
    unfold ret in Hr. simplify_eq.
    eapply IH in H2 as (sf' & -> & Hsub & Hlen & Hno);
      [|simpl; apply lookup_insert_eq].
    exists sf'. simpl. split_and!.
    + by rewrite insert_insert_eq.
    + etrans; [done|]. apply sublist_filter.
    + by rewrite Hlen.
    + intros n Hn. rewrite not_elem_of_cons. split; [|by apply Hno].
      assert (Hn' : n ∈ removeNode id sf1) by (by eapply elem_of_sublist).
      unfold removeNode in Hn'. by apply list_elem_of_filter in Hn' as [? _].
Qed.

Lemma mapM_moveUtility_live (c : ExtractionCandidate)
    (cs : list ExtractionCandidate) (w w' : World) (l : list (Statement * string)) :
  mapM (moveUtility options) (c :: cs) w = (Ok l, w') →
  ∃ sf, project w !! target = Some sf ∧ sf ≠ [].
Proof.
  simpl. intros (s & w1 & H1 & _)%bind_Ok_inv.
  unfold moveUtility in H1.
  apply bind_Ok_inv in H1 as (s0 & w0 & Hg & _).
  apply getNode_inv in Hg as [_ (sf & n & rest & Hsf & Hf & _)].
  exists sf. split; [done|]. intros ->. by rewrite filter_nil in Hf.
Qed.

Lemma extractUtilities_Ok (cands : list ExtractionCandidate) (w w' : World)
    (sf : SourceFile) :
  project w !! target = Some sf →
  NoDup (nid <$> sf) →
  extractUtilities env options cands w = (Ok tt, w') →
  ∃ sf', project w' !! target = Some sf'
         ∧ NoDup (nid <$> sf')
         ∧ (∀ n, n ∈ sf' → isImport n = true ∨ n ∈ sf)
         ∧ (∀ n, n ∈ sf' → isImport n = false →
                 nid n ∉ (refId ∘ c_node) <$> filter (isUtilCandidate options) cands)
         ∧ (filter (isUtilCandidate options) cands ≠ [] →
            fsWritable env (utilsFile options) = true).
Proof.
  intros Hsf Hnd. unfold extractUtilities.
  destruct (filter (isUtilCandidate options) cands) as [|c cs] eqn:Hcs.
  { simpl. unfold ret. intros ?; simplify_eq. exists sf. split_and!; try done.
    - intros; by right.
    - intros n _ _. apply not_elem_of_nil. }
  rewrite bool_decide_eq_false_2 by done.
  intros ([] & w1 & H1 & H2)%bind_Ok_inv.
  unfold createSourceFile in H1. simplify_eq.
  apply bind_Ok_inv in H2 as (extracted & w2 & H2 & H3).
  pose proof (mapM_moveUtility_live _ _ _ _ _ H2) as (sf1 & Hsf1 & Hne).
  simpl in Hsf1.
  assert (Hpath : utilsFile options ≠ target).
  { intros Heq. rewrite Heq, lookup_insert_eq in Hsf1. by simplify_eq. }
  rewrite lookup_insert_ne in Hsf1 by done. rewrite Hsf in Hsf1. simplify_eq.
  eapply mapM_moveUtility in H2 as (sf2 & -> & Hsub & Hlen & Hno);
    [|simpl; by rewrite lookup_insert_ne].
  apply bind_Ok_inv in H3 as (typeNames & w3 & H3 & H4).
  assert (w3 = {| project := <[target:=sf2]> (<[utilsFile options:=load []]> (project w));
                  disk := disk w |}) as ->.
  { unfold getExportedTypeNames, bind, getSourceFile in H3. simpl in H3.
    destruct (_ !! typesFile options); unfold ret in H3; by simplify_eq. }
  apply bind_Ok_inv in H4 as ([] & w4 & H4 & H5).
  unfold createSourceFile in H4. simplify_eq.
  apply bind_Ok_inv in H5 as ([] & w5 & H5 & H6).
  rewrite bool_decide_eq_true_2 in H5
    by (rewrite length_fmap, Hlen; simpl; lia).
  apply modifyFile_Ok in H5 as (sf5 & Hsf5 & ->).
  simpl in Hsf5. rewrite lookup_insert_ne, lookup_insert_eq in Hsf5 by done. simplify_eq.
  apply saveSync_Ok in H6 as (Hw & sf6 & _ & ->). simpl.
  eexists. split_and!.
  - by rewrite lookup_insert_eq.
  - apply addOrUpdateNamedImport_NoDup. eapply sublist_NoDup; [done|].
    by apply fmap_sublist.
  - intros n [?|Hn]%addOrUpdateNamedImport_elem; [by left|right].
    by eapply elem_of_sublist.
  - intros n [Hi|Hn]%addOrUpdateNamedImport_elem Hni; [congruence|by apply Hno].
  - done.
Qed.

End Pass1.

Section Analysis.
Variable options : RefactorOptions.

Lemma declarationCandidates_elem (id : nat) (v : VariableStatement)
    (c : ExtractionCandidate) :
  c ∈ declarationCandidates options id v ↔
  ∃ i decl, vs_declarations v !! i = Some decl
            ∧ getNodeLineCount (vd_startLine decl) (vd_endLine decl)
              > minVariableLines options
            ∧ c = {| c_name := vd_name decl; c_node := DeclarationRef id i;
                     c_lineCount := getNodeLineCount (vd_startLine decl) (vd_endLine decl);
                     c_type := TVariable |}.
Proof.
  unfold declarationCandidates. rewrite list_elem_of_omap. split.
  - intros (x & Hx & ->). apply list_elem_of_lookup in Hx as [i Hi].
    rewrite list_lookup_imap in Hi.
    destruct (vs_declarations v !! i) as [decl|] eqn:Hd; [|done].
    simpl in Hi. exists i, decl. case_bool_decide; by simplify_eq.
  - intros (i & decl & Hd & Hl & ->). eexists. split; [|done].
    apply list_elem_of_lookup. exists i. rewrite list_lookup_imap, Hd. simpl.
    by rewrite bool_decide_eq_true_2.
Qed.

Lemma analyze_elem (sf : SourceFile) (c : ExtractionCandidate) :
  c ∈ analyze options sf ↔ ∃ n, n ∈ sf ∧ c ∈ nodeCandidates options n.
Proof.
  unfold analyze, nodeCandidates, functionCandidates, variableCandidates,
    interfaceCandidates, typeAliasCandidates.
  rewrite !elem_of_app, !list_elem_of_omap, list_elem_of_bind. split.
  - intros [(n & Hn & Hc)|[(n & Hc & Hn)|[(n & Hn & Hc)|(n & Hn & Hc)]]];
      exists n; (split; [done|]); rewrite !elem_of_app, !list_elem_of_omap,
        list_elem_of_bind.
    + left. exists n. split; [left|done].
    + right; left. exists n. split; [done|left].
    + right; right; left. exists n. split; [left|done].
    + right; right; right. exists n. split; [left|done].
  - intros (n & Hn & Hc). revert Hc.
    rewrite !elem_of_app, !list_elem_of_omap, list_elem_of_bind.
    intros [(n' & ->%list_elem_of_singleton & Hc)
           |[(n' & Hc & ->%list_elem_of_singleton)
            |[(n' & ->%list_elem_of_singleton & Hc)
             |(n' & ->%list_elem_of_singleton & Hc)]]].
    + left. by exists n.
    + right; left. by exists n.
    + right; right; left. by exists n.
    + right; right; right. by exists n.
Qed.

(** The candidates of a node, by the kind of its statement. *)
Lemma nodeCandidates_elem (n : Node) (c : ExtractionCandidate) :
  c ∈ nodeCandidates options n ↔
  match stmt n with
  | SFunction func =>
      getNodeLineCount (fn_startLine func) (fn_endLine func) > minFunctionLines options
      ∧ c_type c = TFunction ∧ c_node c = StatementRef (nid n)
      ∧ c_lineCount c = getNodeLineCount (fn_startLine func) (fn_endLine func)
      ∧ c_name c = match fn_name func with
                   | Some name => if decide (name = "") then "anonymous" else name
                   | None => "anonymous"
                   end
  | SVariable v => c ∈ declarationCandidates options (nid n) v
  | SInterface t =>
      c = {| c_name := td_name t; c_node := StatementRef (nid n);
             c_lineCount := getNodeLineCount (td_startLine t) (td_endLine t);
             c_type := TInterface |}
  | STypeAlias t =>
      c = {| c_name := td_name t; c_node := StatementRef (nid n);
             c_lineCount := getNodeLineCount (td_startLine t) (td_endLine t);
             c_type := TType |}
  | _ => False
  end.
Proof.
  unfold nodeCandidates, functionCandidates, variableCandidates,
    interfaceCandidates, typeAliasCandidates. simpl.
  destruct (stmt n) as [i|f|v|t|t|x]; simpl; rewrite ?app_nil_r.
  - by rewrite elem_of_nil.
  - case_bool_decide; simpl; [|rewrite elem_of_nil; split; [done|by intros [? _]]].
    rewrite list_elem_of_singleton. split.
    + by intros ->.
    + intros (_ & ? & ? & ? & ?). destruct c; simpl in *; by subst.
  - done.
  - by rewrite list_elem_of_singleton.
  - by rewrite list_elem_of_singleton.
  - by rewrite elem_of_nil.
Qed.

Lemma nodeCandidates_type (n : Node) :
  isTypeStatement (stmt n) = true →
  ∃ c, c ∈ nodeCandidates options n ∧ isTypeCandidate c ∧ refId (c_node c) = nid n.
Proof.
  intros H. destruct (stmt n) as [| | |t|t|] eqn:Hs; try done.
  - eexists. split; [apply nodeCandidates_elem; by rewrite Hs|]. split; [by left|done].
  - eexists. split; [apply nodeCandidates_elem; by rewrite Hs|]. split; [by right|done].
Qed.

Lemma nodeCandidates_util (n : Node) :
  hasUtilDeclaration options (stmt n) = true →
  ∃ c, c ∈ nodeCandidates options n ∧ isUtilCandidate options c
       ∧ refId (c_node c) = nid n.
Proof.
  intros H. destruct (stmt n) as [| |v| | |] eqn:Hs; try done. simpl in H.
  apply existsb_exists in H as (decl & Hd & Hu).
  apply list_elem_of_In, list_elem_of_lookup in Hd as [i Hi].
  unfold utilDeclaration in Hu. apply andb_true_iff in Hu as [Hl Hp].
  apply bool_decide_eq_true in Hl.
  eexists. split_and!.
  - apply nodeCandidates_elem. rewrite Hs. apply declarationCandidates_elem.
    by exists i, decl.
  - by split.
  - done.
Qed.

Lemma nodeCandidates_settled (n : Node) (c : ExtractionCandidate) :
  isTypeStatement (stmt n) = false →
  hasUtilDeclaration options (stmt n) = false →
  c ∈ nodeCandidates options n →
  ¬ isTypeCandidate c ∧ ¬ isUtilCandidate options c.
Proof.
  intros Ht Hu Hc. apply nodeCandidates_elem in Hc.
  destruct (stmt n) as [| f|v| | |] eqn:Hs; try done.
  - destruct Hc as (_ & Hty & _). unfold isTypeCandidate, isUtilCandidate.
    rewrite Hty. split; [by intros [?|?]|by intros [? _]].
  - apply declarationCandidates_elem in Hc as (i & decl & Hd & Hl & ->).
    unfold isTypeCandidate, isUtilCandidate. simpl. split; [by intros [?|?]|].
    intros [_ Hp]. simpl in Hu.
    assert (existsb (utilDeclaration options) (vs_declarations v) = true); [|congruence].
    apply existsb_exists. exists decl. split.
    + apply list_elem_of_In, list_elem_of_lookup. by exists i.
    + unfold utilDeclaration. by rewrite bool_decide_eq_true_2, Hp.
Qed.

Lemma nodeCandidates_summary (n n' : Node) (x : string * Z * CandidateType) :
  stmt n = stmt n' →
  x ∈ summary <$> nodeCandidates options n → x ∈ summary <$> nodeCandidates options n'.
Proof.
  intros Hs. rewrite !list_elem_of_fmap. intros (c & -> & Hc).
  apply nodeCandidates_elem in Hc. rewrite Hs in Hc.
  destruct (stmt n') as [|f|v|t|t|] eqn:Hs'; try done.
  - destruct Hc as (Hl & Hty & Hnode & Hlc & Hname).
    exists {| c_name := c_name c; c_node := StatementRef (nid n');
              c_lineCount := c_lineCount c; c_type := c_type c |}.
    split; [done|]. apply nodeCandidates_elem. by rewrite Hs'.
  - apply declarationCandidates_elem in Hc as (i & decl & Hd & Hl & ->).
    eexists. split; [|apply nodeCandidates_elem; rewrite Hs';
                      apply declarationCandidates_elem; by exists i, decl].
    done.
  - subst c. eexists. split; [|apply nodeCandidates_elem; by rewrite Hs']. done.
  - subst c. eexists. split; [|apply nodeCandidates_elem; by rewrite Hs']. done.
Qed.

Lemma nodeCandidates_import (n : Node) (c : ExtractionCandidate) :
  isImport n = true → c ∉ nodeCandidates options n.
Proof.
  intros Hi Hc. apply nodeCandidates_elem in Hc. unfold isImport in Hi.
  by destruct (stmt n).
Qed.

Lemma filter_nil_forall {A} (P : A → Prop) `{!∀ x, Decision (P x)} (l : list A) :
  (∀ x, x ∈ l → ¬ P x) → filter P l = [].
Proof.
  intros Hall. destruct (filter P l) as [|x r] eqn:Hf; [done|].
  assert (Hx : x ∈ filter P l) by (rewrite Hf; left).
  apply list_elem_of_filter in Hx as [? ?]. by destruct (Hall x).
Qed.

Lemma analyze_settled (sf : SourceFile) :
  settled options (content sf) →
  filter isTypeCandidate (analyze options sf) = []
  ∧ filter (isUtilCandidate options) (analyze options sf) = [].
Proof.
  intros Hs.
  assert (∀ c, c ∈ analyze options sf → ¬ isTypeCandidate c ∧ ¬ isUtilCandidate options c).
  { intros c (n & Hn & Hc)%analyze_elem.
    destruct (Hs (stmt n)) as [Ht Hu]; [by apply list_elem_of_fmap_2|].
    by eapply nodeCandidates_settled. }
  split; apply filter_nil_forall; intros c Hc; by destruct (H c Hc).
Qed.

End Analysis.

Lemma load_lookup (l : list Statement) (n : Node) :
  n ∈ load l ↔ l !! nid n = Some (stmt n).
Proof.
  unfold load. rewrite list_elem_of_lookup. split.
  - intros [i Hi]. rewrite list_lookup_imap in Hi.
    destruct (l !! i) eqn:Hl; simpl in Hi; by simplify_eq.
  - intros H. exists (nid n). rewrite list_lookup_imap, H. by destruct n.
Qed.

Lemma content_load (l : list Statement) : content (load l) = l.
Proof.
  unfold content, load. rewrite fmap_imap.
  change (imap (const id) l = l). rewrite imap_const. apply list_fmap_id.
Qed.

Lemma NoDup_nid_load (l : list Statement) : NoDup (nid <$> load l).
Proof.
  unfold load. rewrite fmap_imap.
  change (NoDup (imap (λ j _, id j) l)).
  rewrite imap_seq_0, list_fmap_id. apply NoDup_seq.
Qed.

Section Pass1Main.
Variable env : Environment.
Variable options : RefactorOptions.

Local Abbreviation target := (targetFile options).

Lemma newProject_lookup (d : gmap string (list Statement)) (p : string) (sf : SourceFile) :
  (load <$> filter (λ kv, tsconfigIncludes env kv.1 = true) d) !! p = Some sf →
  ∃ l, d !! p = Some l ∧ sf = load l.
Proof.
  rewrite lookup_fmap. intros (l & Hl & ->)%fmap_Some.
  apply map_lookup_filter_Some in Hl as [Hl _]. by exists l.
Qed.

(** The constructor reads the origin from disk. *)
Lemma newTSXRefactorer_inv (p0 : gmap string SourceFile)
    (d : gmap string (list Statement)) (r : Result unit) (w1 : World) :
  newTSXRefactorer env options {| project := p0; disk := d |} = (r, w1) →
  disk w1 = d
  ∧ match r with
    | Ok _ => ∃ l, d !! target = Some l ∧ project w1 !! target = Some (load l)
    | Throw _ => d !! target = None
    end.
Proof.
  unfold newTSXRefactorer, bind, newProject, addSourceFileAtPath. simpl.
  destruct (_ !! target) as [sf|] eqn:Hp.
  - intros ?; simplify_eq. split; [done|].
    destruct (newProject_lookup _ _ _ Hp) as (l & Hl & ->). exists l.
    split; [done|]. simpl. by rewrite Hp.
  - destruct (d !! target) as [l|] eqn:Hd; intros ?; simplify_eq; (split; [done|]).
    + exists l. simpl. by rewrite lookup_insert_eq.
    + done.
Qed.

Lemma newTSXRefactorer_Ok (p0 : gmap string SourceFile)
    (d : gmap string (list Statement)) (l : list Statement) :
  d !! target = Some l →
  ∃ w1, newTSXRefactorer env options {| project := p0; disk := d |} = (Ok tt, w1)
        ∧ disk w1 = d ∧ project w1 !! target = Some (load l).
Proof.
  intros Hd.
  destruct (newTSXRefactorer env options {| project := p0; disk := d |}) as [r w1] eqn:H.
  apply newTSXRefactorer_inv in H as [Hdisk H]. destruct r as [[]|e].
  - destruct H as (l' & Hl' & Hp). exists w1. rewrite Hd in Hl'. by simplify_eq.
  - congruence.
Qed.

Lemma analyzeFile_inv (w w' : World) (r : Result (list ExtractionCandidate)) :
  analyzeFile options w = (r, w') →
  w' = w ∧ ∀ sf, project w !! target = Some sf → r = Ok (analyze options sf).
Proof.
  unfold analyzeFile, bind, getFile, ret.
  destruct (project w !! target); intros ?; simplify_eq; split; try done.
  by intros ? [= <-].
Qed.

(** What a run that completes leaves behind. *)
Lemma main_Ok_inv (d : gmap string (list Statement)) (w' : World) :
  runOn (main env options) d = (Ok tt, w') →
  ∃ l0 sf,
    d !! target = Some l0
    ∧ disk w' !! target = Some (content sf)
    ∧ fsWritable env target = true
    ∧ (∀ n, n ∈ sf → isImport n = true ∨ n ∈ load l0)
    ∧ settled options (content sf)
    ∧ (filter isTypeCandidate (analyze options (load l0)) ≠ [] →
       fsWritable env (typesFile options) = true)
    ∧ (filter (isUtilCandidate options) (analyze options (load l0)) ≠ [] →
       fsWritable env (utilsFile options) = true).
Proof.
  unfold runOn, main.
  intros ([] & w1 & H1 & H2)%bind_Ok_inv.
  apply newTSXRefactorer_inv in H1 as [Hd1 (l0 & Hl0 & Hp1)].
  apply bind_Ok_inv in H2 as (cands & w2 & H2 & H3).
  apply analyzeFile_inv in H2 as [-> Hc]. specialize (Hc _ Hp1). simplify_eq.
  apply bind_Ok_inv in H3 as ([] & w3 & H3 & H4).
  eapply extractTypes_Ok in H3 as (sf3 & Hp3 & Hnd3 & Hel3 & Hty3 & Hw3);
    [|done|apply NoDup_nid_load].
  apply bind_Ok_inv in H4 as ([] & w4 & H4 & H5).
  eapply extractUtilities_Ok in H4 as (sf4 & Hp4 & Hnd4 & Hel4 & Hut4 & Hw4); [|done..].
  apply saveSync_Ok in H5 as (Hw & sf5 & Hp5 & ->). rewrite Hp4 in Hp5. simplify_eq.
  exists l0, sf5. simpl. split_and!; try done.
  - by rewrite lookup_insert_eq.
  - intros n [?|[?|?]%Hel3]%Hel4; [by left|by left|by right].
  - intros s (n & -> & Hn)%list_elem_of_fmap.
    assert (Hnotype : ∀ m, m ∈ sf3 → isTypeStatement (stmt m) = false).
    { intros m Hm. destruct (isTypeStatement (stmt m)) eqn:Ht; [|done]. exfalso.
      destruct (Hel3 m Hm) as [Hi|Hm0].
      { apply isImport_not_type in Hi. congruence. }
      destruct (nodeCandidates_type options m Ht) as (c & Hc & Htc & Hid).
      apply (Hty3 m Hm Ht). apply list_elem_of_fmap. exists c. split; [done|].
      apply list_elem_of_filter. split; [done|]. apply analyze_elem. by exists m. }
    destruct (Hel4 n Hn) as [Hi|Hn3].
    { unfold isImport in Hi. by destruct (stmt n). }
    split; [by apply Hnotype|].
    destruct (hasUtilDeclaration options (stmt n)) eqn:Hu; [|done]. exfalso.
    assert (Hni : isImport n = false).
    { unfold isImport. by destruct (stmt n). }
    destruct (Hel3 n Hn3) as [Hi|Hn0]; [congruence|].
    destruct (nodeCandidates_util options n Hu) as (c & Hc & Huc & Hid).
    apply (Hut4 n Hn Hni). apply list_elem_of_fmap. exists c. split; [done|].
    apply list_elem_of_filter. split; [done|]. apply analyze_elem. by exists n.
Qed.

(** On a settled origin the run only saves the origin back. *)
Lemma main_settled (d : gmap string (list Statement)) (l : list Statement) :
  d !! target = Some l →
  settled options l →
  fsWritable env target = true →
  ∃ w', runOn (main env options) d = (Ok tt, w') ∧ disk w' = d.
Proof.
  intros Hd Hs Hw. unfold runOn, main.
  destruct (newTSXRefactorer_Ok ∅ d l Hd) as (w1 & H1 & Hd1 & Hp1).
  unfold bind at 1. rewrite H1.
  unfold bind at 1, analyzeFile, bind at 1, getFile, ret. rewrite Hp1.
  rewrite <- (content_load l) in Hs. apply analyze_settled in Hs as [Ht Hu].
  unfold bind at 1, extractTypes. rewrite Ht. simpl. unfold ret.
  unfold bind at 1, extractUtilities. rewrite Hu. simpl.
  unfold save, saveSync. rewrite Hp1, Hw. eexists. split; [done|].
  simpl. rewrite Hd1, content_load. by apply insert_id.
Qed.

(** The candidates of a file whose statements come from another file. *)
Lemma analyze_summary_incl (sf sf0 : SourceFile) (x : string * Z * CandidateType) :
  (∀ s, s ∈ content sf → (∃ i, s = SImport i) ∨ s ∈ content sf0) →
  x ∈ summary <$> analyze options sf → x ∈ summary <$> analyze options sf0.
Proof.
  intros Hsub. rewrite !list_elem_of_fmap.
  intros (c & -> & (n & Hn & Hc)%analyze_elem).
  destruct (Hsub (stmt n)) as [[i Hi]|(n0 & Hs & Hn0)%list_elem_of_fmap].
  - by apply list_elem_of_fmap_2.
  - exfalso. eapply nodeCandidates_import; [|done]. unfold isImport. by rewrite Hi.
  - assert (Hx : summary c ∈ summary <$> nodeCandidates options n0).
    { eapply nodeCandidates_summary; [done|]. by apply list_elem_of_fmap_2. }
    apply list_elem_of_fmap in Hx as (c0 & Hc0 & Hin).
    exists c0. split; [done|]. apply analyze_elem. by exists n0.
Qed.

End Pass1Main.

Section Pass1Disk.
Variable env : Environment.
Variable options : RefactorOptions.

Local Abbreviation target := (targetFile options).

Lemma diskStable_exportedDeclaration c : diskStable (exportedDeclaration options c).
Proof.
  apply diskStable_bind; [apply diskStable_getNode|]. intros s. apply diskStable_ret.
Qed.

Lemma diskStable_removeTypeNode c : diskStable (removeTypeNode options c).
Proof.
  apply diskStable_bind; [apply diskStable_getNode|]. intros s.
  destruct s; first [apply diskStable_ret|apply diskStable_modifyFile].
Qed.

Lemma diskStable_moveUtility c : diskStable (moveUtility options c).
Proof.
  apply diskStable_bind; [apply diskStable_getNode|]. intros s.
  destruct (c_node c); [apply diskStable_throw|].
  destruct s; try apply diskStable_throw.
  apply diskStable_bind; [apply diskStable_modifyFile|]. intros _. apply diskStable_ret.
Qed.

Lemma diskStable_getExportedTypeNames : diskStable (getExportedTypeNames options).
Proof.
  apply diskStable_bind; [apply diskStable_getSourceFile|]. intros [sf|]; apply diskStable_ret.
Qed.

Lemma diskStable_addImport (b : bool) (m : string) (names : list string) :
  diskStable (if b then modifyFile target (addOrUpdateNamedImport m names) else ret tt).
Proof. destruct b; [apply diskStable_modifyFile|apply diskStable_ret]. Qed.

(** Whatever happens in [extractTypes], the origin on disk is not touched. *)
Lemma keepsOnDisk_extractTypes (cands : list ExtractionCandidate) :
  keepsOnDisk target (extractTypes env options cands).
Proof.
  intros w r w'. unfold extractTypes.
  destruct (filter isTypeCandidate cands) as [|c cs] eqn:Hcs.
  { simpl. unfold ret. by intros ?; simplify_eq. }
  rewrite bool_decide_eq_false_2 by done.
  intros [(a & w1 & H1 & H2)|(e & H1 & _)]%bind_inv; [|by unfold createSourceFile in H1].
  unfold createSourceFile in H1. simplify_eq.
  apply bind_inv in H2 as [(decls & w2 & H2 & H3)|(e & H2 & _)].
  - pose proof (mapM_exportedDeclaration_live _ _ _ _ _ _ H2) as (sf1 & Hsf1 & Hne).
    apply mapM_exportedDeclaration in H2 as ->. simpl in Hsf1.
    assert (Hpath : typesFile options ≠ target).
    { intros Heq. rewrite Heq, lookup_insert_eq in Hsf1. by simplify_eq. }
    revert H3. generalize (c :: cs). intros l H3.
    eapply (keepsOnDisk_bind target) in H3; [done| |].
    + apply diskStable_keeps, diskStable_createSourceFile.
    + intros _. apply keepsOnDisk_bind.
      * apply diskStable_keeps, diskStable_forEachM, diskStable_removeTypeNode.
      * intros _. apply keepsOnDisk_bind; [apply diskStable_keeps, diskStable_addImport|].
        intros _. by apply keepsOnDisk_saveSync.
  - by apply mapM_exportedDeclaration in H2 as ->.
Qed.

Lemma keepsOnDisk_extractUtilities (cands : list ExtractionCandidate) :
  keepsOnDisk target (extractUtilities env options cands).
Proof.
  intros w r w'. unfold extractUtilities.
  destruct (filter (isUtilCandidate options) cands) as [|c cs] eqn:Hcs.
  { simpl. unfold ret. by intros ?; simplify_eq. }
  rewrite bool_decide_eq_false_2 by done.
  intros [(a & w1 & H1 & H2)|(e & H1 & _)]%bind_inv; [|by unfold createSourceFile in H1].
  unfold createSourceFile in H1. simplify_eq.
  apply bind_inv in H2 as [(extracted & w2 & H2 & H3)|(e & H2 & _)].
  - pose proof (mapM_moveUtility_live _ _ _ _ _ _ H2) as (sf1 & Hsf1 & Hne).
    simpl in Hsf1.
    assert (Hpath : utilsFile options ≠ target).
    { intros Heq. rewrite Heq, lookup_insert_eq in Hsf1. by simplify_eq. }
    pose proof (diskStable_mapM _ _ diskStable_moveUtility _ _ _ H2) as Hd2.
    simpl in Hd2. rewrite <- Hd2.
    eapply (keepsOnDisk_bind target) in H3; [done| |].
    + apply diskStable_keeps, diskStable_getExportedTypeNames.
    + intros typeNames. apply keepsOnDisk_bind.
      * apply diskStable_keeps, diskStable_createSourceFile.
      * intros _. apply keepsOnDisk_bind; [apply diskStable_keeps, diskStable_addImport|].
        intros _. by apply keepsOnDisk_saveSync.
  - by rewrite (diskStable_mapM _ _ diskStable_moveUtility _ _ _ H2).
Qed.

(** A run that ends with an exception has not touched the origin on disk. *)
Lemma main_Throw_keeps (d : gmap string (list Statement)) (e : Error) (w' : World) :
  runOn (main env options) d = (Throw e, w') →
  disk w' !! target = d !! target.
Proof.
  unfold runOn, main.
  intros [([] & w1 & H1 & H2)|(e' & H1 & _)]%bind_inv.
  - apply newTSXRefactorer_inv in H1 as [Hd1 _].
    apply bind_inv in H2 as [(cands & w2 & H2 & H3)|(e' & H2 & _)].
    + apply analyzeFile_inv in H2 as [-> _].
      apply bind_inv in H3 as [([] & w3 & H3 & H4)|(e' & H3 & _)].
      * apply keepsOnDisk_extractTypes in H3.
        apply bind_inv in H4 as [([] & w4 & H4 & H5)|(e' & H4 & _)].
        -- apply keepsOnDisk_extractUtilities in H4.
           apply saveSync_Throw in H5 as ->. congruence.
        -- apply keepsOnDisk_extractUtilities in H4. congruence.
      * apply keepsOnDisk_extractTypes in H3. congruence.
    + apply analyzeFile_inv in H2 as [-> _]. congruence.
  - apply newTSXRefactorer_inv in H1 as [Hd1 _]. congruence.
Qed.

End Pass1Disk.

(** ** Strings *)

Section Strings.

Lemma string_app_cons (c : ascii) (s t : string) :
  String c s +:+ t = String c (s +:+ t).
Proof. reflexivity. Qed.

Lemma string_app_nil_r (s : string) : s +:+ "" = s.
Proof. induction s as [|c s IH]; [done|]. by rewrite string_app_cons, IH. Qed.

Lemma string_app_assoc (s1 s2 s3 : string) : (s1 +:+ s2) +:+ s3 = s1 +:+ (s2 +:+ s3).
Proof. induction s1 as [|c s1 IH]; [done|]. by rewrite !string_app_cons, IH. Qed.

Lemma string_length_app (s1 s2 : string) :
  String.length (s1 +:+ s2) = (String.length s1 + String.length s2)%nat.
Proof. induction s1 as [|c s1 IH]; [done|]. rewrite string_app_cons. cbn. by rewrite IH. Qed.

Lemma string_app_inv_r (s1 s2 t : string) : s1 +:+ t = s2 +:+ t → s1 = s2.
Proof.
  revert s2. induction s1 as [|c s1 IH]; intros [|c2 s2] Heq.
  - done.
  - apply (f_equal String.length) in Heq. rewrite !string_length_app in Heq.
    cbn in Heq. lia.
  - apply (f_equal String.length) in Heq. rewrite !string_length_app in Heq.
    cbn in Heq. lia.
  - rewrite !string_app_cons in Heq. injection Heq as -> Heq. f_equal. by apply IH.
Qed.

Lemma rev_app_eq (s1 s2 : string) : String.rev_app s1 s2 = String.rev s1 +:+ s2.
Proof.
  unfold String.rev. revert s2. induction s1 as [|c s1 IH]; intros s2; [done|].
  cbn. rewrite (IH (String c "")), IH. by rewrite string_app_assoc.
Qed.

Lemma rev_String (c : ascii) (s : string) :
  String.rev (String c s) = String.rev s +:+ String c "".
Proof. unfold String.rev at 1. cbn. apply rev_app_eq. Qed.

Lemma rev_app_distr (s1 s2 : string) :
  String.rev (s1 +:+ s2) = String.rev s2 +:+ String.rev s1.
Proof.
  induction s1 as [|c s1 IH]; [by rewrite string_app_nil_r|].
  by rewrite string_app_cons, !rev_String, IH, string_app_assoc.
Qed.

Lemma rev_involutive (s : string) : String.rev (String.rev s) = s.
Proof.
  induction s as [|c s IH]; [done|].
  by rewrite rev_String, rev_app_distr, IH.
Qed.

Lemma prefix_app_iff (p s : string) :
  String.prefix p s = true ↔ ∃ t, s = p +:+ t.
Proof.
  revert s. induction p as [|c p IH]; intros s.
  - split; [by exists s|]. intros _. by destruct s.
  - destruct s as [|c' s]; cbn.
    + split; [done|]. by intros [t ?].
    + destruct (ascii_dec c c') as [->|Hne].
      * rewrite IH. split; intros [t Ht]; exists t.
        -- by rewrite string_app_cons, Ht.
        -- rewrite string_app_cons in Ht. by simplify_eq.
      * split; [done|]. intros [t Ht]. rewrite string_app_cons in Ht. by simplify_eq.
Qed.

(** [s.endsWith(p)] holds exactly for the strings [stem + p]. *)
Lemma endsWith_iff (p s : string) :
  Js.endsWith p s = true ↔ ∃ stem, s = stem +:+ p.
Proof.
  unfold Js.endsWith. rewrite prefix_app_iff. split.
  - intros [t Ht]. exists (String.rev t).
    rewrite <- (rev_involutive s), Ht, rev_app_distr. by rewrite rev_involutive.
  - intros [stem ->]. exists (String.rev stem). apply rev_app_distr.
Qed.

Lemma substring_0_app (s1 s2 : string) :
  String.substring 0 (String.length s1) (s1 +:+ s2) = s1.
Proof.
  induction s1 as [|c s1 IH]; [by destruct s2|].
  rewrite string_app_cons. cbn. by rewrite IH.
Qed.

Lemma substring_skip_app (s1 s2 : string) :
  String.substring (String.length s1) (String.length s2) (s1 +:+ s2) = s2.
Proof.
  induction s1 as [|c s1 IH]; [|by rewrite string_app_cons].
  change ("" +:+ s2) with s2. cbn.
  induction s2 as [|c s2 IH]; cbn; [done|]. by rewrite IH.
Qed.

Lemma dropEnd_app (stem p : string) : Js.dropEnd (String.length p) (stem +:+ p) = stem.
Proof.
  unfold Js.dropEnd. rewrite string_length_app.
  replace (String.length stem + String.length p - String.length p)%nat
    with (String.length stem) by lia.
  apply substring_0_app.
Qed.

Lemma substring_0_length (s : string) : String.substring 0 (String.length s) s = s.
Proof.
  pose proof (substring_0_app s "") as H. by rewrite string_app_nil_r in H.
Qed.

(** *** The keyword that starts a declaration *)

Local Abbreviation declKeywords := ["const"; "let"; "var"].
Local Abbreviation whiteSpace ws :=
  (Forall (λ c, Js.isSpace c = true) (list_ascii_of_string ws)).

Lemma declKeyword_cases (kw : string) :
  kw ∈ declKeywords → kw = "const" ∨ kw = "let" ∨ kw = "var".
Proof.
  intros [->|[->|[->|[]%elem_of_nil]%elem_of_cons]%elem_of_cons]%elem_of_cons; by eauto.
Qed.

(** [replace(/^(const|let|var)/, r)] puts [r] in the place of the keyword
    that starts the text. *)
Lemma replaceLeadingDeclKeyword_keyword (r kw rest : string) :
  kw ∈ declKeywords → Js.replaceLeadingDeclKeyword r (kw +:+ rest) = r +:+ rest.
Proof.
  intros [-> | [-> | ->]]%declKeyword_cases;
    unfold Js.replaceLeadingDeclKeyword, Js.startsWith;
    rewrite !string_app_cons; cbn [String.prefix String.length String.substring];
    change ("" +:+ rest) with rest; cbn;
    assert (String.prefix "" rest = true) as -> by (by destruct rest);
    by rewrite Nat.sub_0_r, substring_0_length.
Qed.

(** A text that starts with none of the three keywords is left as it is. *)
Lemma replaceLeadingDeclKeyword_other (r s : string) :
  (∀ kw rest, kw ∈ declKeywords → s ≠ kw +:+ rest) →
  Js.replaceLeadingDeclKeyword r s = s.
Proof.
  intros Hs. unfold Js.replaceLeadingDeclKeyword, Js.startsWith.
  assert (∀ kw, kw ∈ declKeywords → String.prefix kw s = false) as Hno.
  { intros kw Hkw. destruct (String.prefix kw s) eqn:Hp; [|done].
    apply prefix_app_iff in Hp as [t ->]. by destruct (Hs kw t). }
  rewrite (Hno "const") by apply list_elem_of_here.
  rewrite (Hno "let") by apply list_elem_of_further, list_elem_of_here.
  by rewrite (Hno "var")
    by apply list_elem_of_further, list_elem_of_further, list_elem_of_here.
Qed.

Lemma replaceDeclKeywordAfterSpace_go_keyword (r ws kw rest : string) :
  whiteSpace ws → kw ∈ declKeywords →
  Js.replaceDeclKeywordAfterSpace_go r (ws +:+ kw +:+ rest) = Some (ws +:+ r +:+ rest).
Proof.
  intros Hws Hkw. induction ws as [|c ws IH].
  - change ("" +:+ kw +:+ rest) with (kw +:+ rest).
    change ("" +:+ r +:+ rest) with (r +:+ rest).
    rewrite <- (replaceLeadingDeclKeyword_keyword r kw rest Hkw).
    pose proof (proj2 (prefix_app_iff kw (kw +:+ rest)) (ex_intro _ rest eq_refl)) as Hp.
    destruct (declKeyword_cases kw Hkw) as [-> | [-> | ->]];
      rewrite string_app_cons in Hp |- *;
      cbn [Js.replaceDeclKeywordAfterSpace_go]; unfold Js.startsWith; rewrite Hp;
      by rewrite ?orb_true_r.
  - apply Forall_cons in Hws as [Hc Hws]. rewrite !string_app_cons.
    cbn [Js.replaceDeclKeywordAfterSpace_go]. rewrite Hc, (IH Hws). done.
Qed.

Lemma replaceDeclKeywordAfterSpace_go_Some (r s x : string) :
  Js.replaceDeclKeywordAfterSpace_go r s = Some x →
  ∃ ws kw rest, whiteSpace ws ∧ kw ∈ declKeywords ∧ s = ws +:+ kw +:+ rest.
Proof.
  revert x. induction s as [|c s IH]; intros x; [done|].
  cbn [Js.replaceDeclKeywordAfterSpace_go].
  destruct (Js.isSpace c) eqn:Hc.
  - destruct (Js.replaceDeclKeywordAfterSpace_go r s) as [y|] eqn:Hy; [|done].
    intros _. destruct (IH y eq_refl) as (ws & kw & rest & Hws & Hkw & ->).
    exists (String c ws), kw, rest. split_and!; [by constructor|done|done].
  - destruct (Js.startsWith "const" (String c s)) eqn:H1.
    { intros _. apply prefix_app_iff in H1 as [t ->].
      exists "", "const", t. split_and!; [constructor|apply list_elem_of_here|done]. }
    destruct (Js.startsWith "let" (String c s)) eqn:H2.
    { intros _. apply prefix_app_iff in H2 as [t ->].
      exists "", "let", t.
      split_and!; [constructor|apply list_elem_of_further, list_elem_of_here|done]. }
    destruct (Js.startsWith "var" (String c s)) eqn:H3; [|done].
    intros _. apply prefix_app_iff in H3 as [t ->].
    exists "", "var", t.
    split_and!; [constructor| |done].
    apply list_elem_of_further, list_elem_of_further, list_elem_of_here.
Qed.

(** The replacement behind leading white space keeps the white space and
    puts [r] in the place of the keyword behind it. *)
Lemma replaceDeclKeywordAfterSpace_keyword (r ws kw rest : string) :
  whiteSpace ws → kw ∈ declKeywords →
  Js.replaceDeclKeywordAfterSpace r (ws +:+ kw +:+ rest) = ws +:+ r +:+ rest.
Proof.
  intros Hws Hkw. unfold Js.replaceDeclKeywordAfterSpace.
  by rewrite replaceDeclKeywordAfterSpace_go_keyword.
Qed.

(** A text that is not white space and then one of the three keywords is
    left as it is. *)
Lemma replaceDeclKeywordAfterSpace_other (r s : string) :
  (∀ ws kw rest, whiteSpace ws → kw ∈ declKeywords → s ≠ ws +:+ kw +:+ rest) →
  Js.replaceDeclKeywordAfterSpace r s = s.
Proof.
  intros Hs. unfold Js.replaceDeclKeywordAfterSpace.
  destruct (Js.replaceDeclKeywordAfterSpace_go r s) as [x|] eqn:Hx; [|done].
  apply replaceDeclKeywordAfterSpace_go_Some in Hx as (ws & kw & rest & Hws & Hkw & ->).
  by destruct (Hs ws kw rest).
Qed.

End Strings.

(** *** The first loop of the nested pass *)

Lemma collectHelpers_elem (pattern : string → bool) (statements : list BlockStatement)
    (h : RefactorTsxPass2.HelperFunction) :
  h ∈ RefactorTsxPass2.collectHelpers pattern statements ↔
  ∃ declarations decl,
    NestedVariableStatement (RefactorTsxPass2.h_text h) declarations ∈ statements
    ∧ decl ∈ declarations
    ∧ nd_name decl = RefactorTsxPass2.h_name h
    ∧ nd_isArrowFunction decl = true
    ∧ pattern (nd_name decl) = true.
Proof.
  unfold RefactorTsxPass2.collectHelpers. rewrite list_elem_of_bind. split.
  - intros ([text declarations|text] & Hh & Hs); [|by apply elem_of_nil in Hh].
    apply list_elem_of_omap in Hh as (decl & Hd & Hsel).
    destruct (nd_isArrowFunction decl) eqn:Ha; [|done].
    destruct (pattern (nd_name decl)) eqn:Hp; [|done].
    simplify_eq. by exists declarations, decl.
  - intros (declarations & decl & Hs & Hd & Hn & Ha & Hp).
    exists (NestedVariableStatement (RefactorTsxPass2.h_text h) declarations).
    split; [|done]. apply list_elem_of_omap. exists decl. split; [done|].
    rewrite Ha, Hp, Hn. by destruct h.
Qed.

(** ** The top-level pass run twice *)

(** C1.  When a run of the top-level pass completes, a second run on the
    files it left, with the same configuration, has no new candidate: it
    finds no type candidate and no utility candidate, so it extracts
    nothing, and every candidate it reports (a long function, a long
    variable whose name does not match) was reported by the first run.  It
    completes leaving every file on disk as it was: the origin with its
    import bindings, and the target files with the visibility of what they
    export. *)
Theorem second_run_extracts_nothing (env : Environment) (options : RefactorOptions)
    (d : gmap string (list Statement)) (w1 : World) :
  runOn (main env options) d = (Ok tt, w1) →
  ∃ l0 l1,
    d !! targetFile options = Some l0
    ∧ disk w1 !! targetFile options = Some l1
    ∧ filter isTypeCandidate (analyze options (load l1)) = []
    ∧ filter (isUtilCandidate options) (analyze options (load l1)) = []
    ∧ (∀ x, x ∈ summary <$> analyze options (load l1) →
            x ∈ summary <$> analyze options (load l0))
    ∧ ∃ w2, runOn (main env options) (disk w1) = (Ok tt, w2) ∧ disk w2 = disk w1.
Proof.
  intros (l0 & sf & Hl0 & Hl1 & Hw & Hel & Hs & _)%main_Ok_inv.
  exists l0, (content sf). split_and!; [done..| | | |].
  - apply analyze_settled. by rewrite content_load.
  - apply analyze_settled. by rewrite content_load.
  - intros x. apply analyze_summary_incl. rewrite !content_load.
    intros s (n & -> & Hn)%list_elem_of_fmap.
    destruct (Hel n Hn) as [Hi|Hn0].
    + left. unfold isImport in Hi. destruct (stmt n) as [i| | | | |]; try done. by exists i.
    + right. rewrite <- (content_load l0). by apply list_elem_of_fmap_2.
  - by eapply main_settled.
Qed.

Lemma second_run_extracts_nothing_witness :
  ∃ l0 l1,
    Example.dashboardDisk !! targetFile Example.options = Some l0
    ∧ disk (runOn (main Example.env Example.options) Example.dashboardDisk).2
        !! targetFile Example.options = Some l1
    ∧ filter isTypeCandidate (analyze Example.options (load l1)) = []
    ∧ filter (isUtilCandidate Example.options) (analyze Example.options (load l1)) = []
    ∧ (∀ x, x ∈ summary <$> analyze Example.options (load l1) →
            x ∈ summary <$> analyze Example.options (load l0))
    ∧ ∃ w2, runOn (main Example.env Example.options)
              (disk (runOn (main Example.env Example.options) Example.dashboardDisk).2)
            = (Ok tt, w2)
            ∧ disk w2 = disk (runOn (main Example.env Example.options) Example.dashboardDisk).2.
Proof.
  apply (second_run_extracts_nothing Example.env Example.options Example.dashboardDisk).
  vm_compute. reflexivity.
Defined.

(** ** A target module that cannot be saved *)

(** C4.  When the types file or the utilities file that the pass has
    candidates for cannot be written, the run ends with an exception, and the
    content of the origin on disk is what it was before the run: the removals
    made in memory are never saved. *)
Theorem failed_target_save_is_fatal (env : Environment) (options : RefactorOptions)
    (d : gmap string (list Statement)) (l0 : list Statement) :
  d !! targetFile options = Some l0 →
  (filter isTypeCandidate (analyze options (load l0)) ≠ []
   ∧ fsWritable env (typesFile options) = false)
  ∨ (filter (isUtilCandidate options) (analyze options (load l0)) ≠ []
     ∧ fsWritable env (utilsFile options) = false) →
  ∃ e w', runOn (main env options) d = (Throw e, w')
          ∧ disk w' !! targetFile options = d !! targetFile options.
Proof.
  intros Hl0 Hfail.
  destruct (runOn (main env options) d) as [[[]|e] w'] eqn:Hrun.
  - exfalso.
    apply main_Ok_inv in Hrun as (l & sf & Hl & _ & _ & _ & _ & Ht & Hu).
    rewrite Hl0 in Hl. simplify_eq.
    destruct Hfail as [[Hc Hw]|[Hc Hw]]; [apply Ht in Hc|apply Hu in Hc]; congruence.
  - exists e, w'. split; [done|]. by eapply main_Throw_keeps.
Qed.

Lemma failed_target_save_is_fatal_witness :
  ∃ e w', runOn (main (Example.envReadOnly "/app/Dashboard.types.ts") Example.options)
            Example.dashboardDisk = (Throw e, w')
          ∧ disk w' !! targetFile Example.options
            = Example.dashboardDisk !! targetFile Example.options.
Proof.
  apply (failed_target_save_is_fatal (Example.envReadOnly "/app/Dashboard.types.ts")
           Example.options Example.dashboardDisk Example.dashboard).
  - vm_compute. reflexivity.
  - left. split.
    + vm_compute. discriminate.
    + reflexivity.
Defined.

(** In the example the exception is the failed save itself, and nothing at
    all was written. *)
Example failed_types_save :
  runOn (main (Example.envReadOnly "/app/Dashboard.types.ts") Example.options)
    Example.dashboardDisk
  = (Throw (SaveFailed "/app/Dashboard.types.ts"),
     (runOn (main (Example.envReadOnly "/app/Dashboard.types.ts") Example.options)
        Example.dashboardDisk).2)
  ∧ disk (runOn (main (Example.envReadOnly "/app/Dashboard.types.ts") Example.options)
            Example.dashboardDisk).2 = Example.dashboardDisk.
Proof. split; vm_compute; reflexivity. Qed.

(** ** Names removed without an import *)

(** C3, evaluated where it fails.  The origin declares the long utility
    [getUserStats] and the variable [statsCache] in one statement.  The
    top-level pass completes; it has removed the whole statement from the
    origin and imports [getUserStats] only: [statsCache] is declared before
    the pass, no longer declared after it, and no import binding of the origin
    names it. *)
Theorem co_declared_name_is_orphaned :
  ∃ w' l1,
    runOn (main Example.env Example.options) Example.statsDisk = (Ok tt, w')
    ∧ disk w' !! targetFile Example.options = Some l1
    ∧ Js.includes "statsCache" (declaredNames Example.statsOrigin) = true
    ∧ Js.includes "statsCache" (declaredNames l1) = false
    ∧ Js.includes "statsCache" (importedNames l1) = false
    ∧ importedNames l1 = ["getUserStats"].
Proof.
  eexists _, _. split_and!; vm_compute; reflexivity.
Qed.

(** The nested pass does the same: the body of the component declares
    [formCache] and the helper [validateForm] in one statement, the pass
    removes the statement and imports [validateForm] only. *)
Example nested_co_declared_name_is_orphaned :
  ∃ w' l1,
    runOn (RefactorTsxPass2.main Example.env Example.pass2Options) Example.cacheDisk
    = (Ok tt, w')
    ∧ disk w' !! RefactorTsxPass2.targetFile Example.pass2Options = Some l1
    ∧ Js.includes "formCache" (nestedDeclaredNames Example.cacheBody) = true
    ∧ RefactorTsxPass2.componentBody l1 = Some (Block [])
    ∧ importedNames l1 = ["validateForm"].
Proof.
  eexists _, _. split_and!; vm_compute; reflexivity.
Qed.

(** ** The nested pass *)

Section Pass2.
Import RefactorTsxPass2.
Variable env : Environment.
Variable options : Pass2Options.

Local Abbreviation target := (targetFile options).
Local Abbreviation utils := (utilsFile options).

(** The lookup of the existing utilities file returns; the [catch] branch
    that builds the header is never taken. *)
Lemma readUtilsContent_returns (p : string) (w : World) :
  readUtilsContent env options p w
  = (Ok match project w !! p with
        | Some f => getFullText (content f)
        | None => ""
        end, w).
Proof.
  unfold readUtilsContent, tryCatch, bind, getSourceFile, ret.
  by destruct (project w !! p).
Qed.

Lemma newTSXRefactorer2_Ok (d : gmap string (list Statement)) (l0 : list Statement) :
  d !! target = Some l0 →
  ∃ w1, newTSXRefactorer2 env options {| project := ∅; disk := d |} = (Ok tt, w1)
        ∧ disk w1 = d
        ∧ project w1 !! target = Some (load l0)
        ∧ ∀ p, p ≠ target →
               project w1 !! p
               = (load <$> filter (λ kv, tsconfigIncludes env kv.1 = true) d) !! p.
Proof.
  intros Hd. unfold newTSXRefactorer2, bind, newProject, addSourceFileAtPath. simpl.
  destruct ((load <$> filter _ d) !! target) as [sf|] eqn:Hp.
  - eexists. split; [reflexivity|]. split; [done|]. split; [|done].
    simpl. rewrite Hp. rewrite lookup_fmap in Hp.
    apply fmap_Some in Hp as (l & Hl & ->).
    apply map_lookup_filter_Some in Hl as [Hl _]. congruence.
  - rewrite Hd. eexists. split; [reflexivity|]. split; [done|]. simpl. split.
    + by rewrite lookup_insert_eq.
    + intros p Hne. by rewrite lookup_insert_ne.
Qed.

Lemma keepsOnDisk_removeAndImport (p : string) (id index : nat)
    (statements : list BlockStatement) (functionNames : list string) :
  p ≠ target →
  keepsOnDisk p (removeAndImport env options id index statements functionNames).
Proof.
  intros Hne. unfold removeAndImport.
  apply keepsOnDisk_bind; [apply diskStable_keeps, diskStable_getNode|]. intros _.
  destruct (removeHelpers functionNames statements);
    [|apply diskStable_keeps, diskStable_throw].
  apply keepsOnDisk_bind; [apply diskStable_keeps, diskStable_modifyFile|]. intros _.
  apply keepsOnDisk_bind; [apply diskStable_keeps, diskStable_modifyFile|]. intros _.
  apply keepsOnDisk_saveSync. by apply not_eq_sym.
Qed.

(** What [extractHelperFunctions] writes to the utilities file. *)
Lemma extractHelperFunctions_utils (w : World) (sf : SourceFile) (id index : nat)
    (f : ArrowFunction) (statements : list BlockStatement) :
  project w !! target = Some sf →
  findComponent sf = Some (id, index, f) →
  af_body f = Block statements →
  collectHelpers (helperNamePattern options) statements ≠ [] →
  utils ≠ target →
  fsWritable env utils = true →
  ∃ r w', extractHelperFunctions env options w = (r, w')
          ∧ disk w' !! utils
            = Some [SOther (appendHelpers
                              match project w !! utils with
                              | Some old => getFullText (content old)
                              | None => ""
                              end
                              (collectHelpers (helperNamePattern options) statements))].
Proof.
  intros Hsf Hc Hb Hh Hne Hw.
  unfold extractHelperFunctions, bind at 1, getFile. rewrite Hsf, Hc, Hb.
  rewrite bool_decide_eq_false_2
    by (by destruct (collectHelpers (helperNamePattern options) statements)).
  unfold bind at 1. rewrite (readUtilsContent_returns utils w).
  unfold bind at 1, createSourceFile.
  unfold bind at 1, saveSync. simpl. rewrite lookup_insert_eq, Hw.
  match goal with
  | |- ∃ r w', ?c ?w0 = _ ∧ _ => destruct (c w0) as [r w'] eqn:Hrest
  end.
  exists r, w'. split; [done|].
  rewrite (keepsOnDisk_removeAndImport utils _ _ _ _ Hne _ _ _ Hrest).
  simpl. by rewrite lookup_insert_eq.
Qed.

(** What a run of the nested pass writes to the utilities file. *)
Lemma main_utils (d : gmap string (list Statement)) (l0 : list Statement)
    (id index : nat) (f : ArrowFunction) (statements : list BlockStatement) :
  d !! target = Some l0 →
  findComponent (load l0) = Some (id, index, f) →
  af_body f = Block statements →
  collectHelpers (helperNamePattern options) statements ≠ [] →
  utils ≠ target →
  fsWritable env utils = true →
  ∃ r w', runOn (main env options) d = (r, w')
          ∧ disk w' !! utils
            = Some [SOther (appendHelpers
                              match (filter (λ kv, tsconfigIncludes env kv.1 = true) d)
                                    !! utils with
                              | Some old => getFullText old
                              | None => ""
                              end
                              (collectHelpers (helperNamePattern options) statements))].
Proof.
  intros Hd Hc Hb Hh Hne Hw. unfold runOn, main.
  destruct (newTSXRefactorer2_Ok d l0 Hd) as (w1 & H1 & Hd1 & Hp1 & Hother).
  unfold bind at 1. rewrite H1.
  destruct (extractHelperFunctions_utils w1 _ _ _ _ _ Hp1 Hc Hb Hh Hne Hw)
    as (r2 & w2 & H2 & Hu2).
  unfold bind. rewrite H2.
  assert (Htext : match project w1 !! utils with
                  | Some old => getFullText (content old)
                  | None => ""
                  end
                  = match (filter (λ kv, tsconfigIncludes env kv.1 = true) d) !! utils with
                    | Some old => getFullText old
                    | None => ""
                    end).
  { rewrite Hother by done. rewrite lookup_fmap.
    destruct (filter _ d !! utils) as [old|]; [|done].
    change (getFullText (content (load old)) = getFullText old).
    by rewrite content_load. }
  rewrite Htext in Hu2.
  destruct r2 as [[]|e].
  - destruct (save env options w2) as [r3 w3] eqn:H3. exists r3, w3. split; [done|].
    unfold save in H3. by rewrite (keepsOnDisk_saveSync env utils target (not_eq_sym Hne) _ _ _ H3).
  - by exists (Throw e), w2.
Qed.

(** What "exported" means for a helper: the keyword that starts the text of
    its statement, behind white space if there is any, is replaced by
    [export const]; a text that starts otherwise is written as it is. *)
Lemma exportedHelperText_keyword (func : HelperFunction) (ws kw rest : string) :
  Forall (λ c, Js.isSpace c = true) (list_ascii_of_string ws) →
  kw ∈ ["const"; "let"; "var"] →
  h_text func = ws +:+ kw +:+ rest →
  exportedHelperText func = ws +:+ "export const" +:+ rest.
Proof.
  intros Hws Hkw Ht. unfold exportedHelperText. rewrite Ht.
  by apply replaceDeclKeywordAfterSpace_keyword.
Qed.

Lemma exportedHelperText_other (func : HelperFunction) :
  (∀ ws kw rest, Forall (λ c, Js.isSpace c = true) (list_ascii_of_string ws) →
                 kw ∈ ["const"; "let"; "var"] → h_text func ≠ ws +:+ kw +:+ rest) →
  exportedHelperText func = h_text func.
Proof. intros Hno. unfold exportedHelperText. by apply replaceDeclKeywordAfterSpace_other. Qed.

(** C10.  When no source file is registered at the utilities path (the
    [tsconfig.json] does not include it, or it does not exist), the file the
    nested pass writes is a newline followed by the exported helper
    statements, separated by blank lines: neither the header comment nor the
    type-only import is in it, because the lookup of the existing file
    returns without raising and the [catch] branch is never taken.  The
    exported statement of a helper is the text of its statement with the
    keyword [const], [let] or [var] that starts it replaced by
    [export const]. *)
Theorem unregistered_utils_file_has_no_header (d : gmap string (list Statement))
    (l0 : list Statement) (id index : nat) (f : ArrowFunction)
    (statements : list BlockStatement) :
  d !! target = Some l0 →
  findComponent (load l0) = Some (id, index, f) →
  af_body f = Block statements →
  collectHelpers (helperNamePattern options) statements ≠ [] →
  utils ≠ target →
  tsconfigIncludes env utils = false ∨ d !! utils = None →
  fsWritable env utils = true →
  (∃ r w', runOn (main env options) d = (r, w')
           ∧ disk w' !! utils
             = Some [SOther
                       (Js.newline
                        +:+ Js.join (Js.newline +:+ Js.newline)
                              (exportedHelperText
                                 <$> collectHelpers (helperNamePattern options) statements))])
  ∧ (∀ func, func ∈ collectHelpers (helperNamePattern options) statements →
             (∃ declarations,
                NestedVariableStatement (h_text func) declarations ∈ statements)
             ∧ (∀ kw rest, kw ∈ ["const"; "let"; "var"] →
                           h_text func = kw +:+ rest →
                           exportedHelperText func = "export const" +:+ rest)
             ∧ (∀ ws kw rest,
                  Forall (λ c, Js.isSpace c = true) (list_ascii_of_string ws) →
                  kw ∈ ["const"; "let"; "var"] →
                  h_text func = ws +:+ kw +:+ rest →
                  exportedHelperText func = ws +:+ "export const" +:+ rest))
  ∧ ∀ w, project w !! utils = None →
         readUtilsContent env options utils w = (Ok "", w).
Proof.
  intros Hd Hc Hb Hh Hne Hreg Hw. split_and!.
  - destruct (main_utils d l0 id index f statements Hd Hc Hb Hh Hne Hw)
      as (r & w' & Hrun & Hu).
    exists r, w'. split; [done|]. rewrite Hu.
    assert ((filter (λ kv, tsconfigIncludes env kv.1 = true) d) !! utils = None) as ->; [|done].
    apply map_lookup_filter_None. destruct Hreg as [Hi|Hn]; [right|by left].
    intros x _. simpl. congruence.
  - intros func Hf. split_and!.
    + apply collectHelpers_elem in Hf as (declarations & _ & Hs & _). by exists declarations.
    + intros kw rest Hkw Ht. by apply (exportedHelperText_keyword func "" kw rest).
    + intros ws kw rest. apply exportedHelperText_keyword.
  - intros w Hn. by rewrite readUtilsContent_returns, Hn.
Qed.

End Pass2.

Lemma unregistered_utils_file_has_no_header_witness :
  (∃ r w', runOn (RefactorTsxPass2.main Example.envBare Example.pass2Options)
             Example.componentDisk = (r, w')
           ∧ disk w' !! RefactorTsxPass2.utilsFile Example.pass2Options
             = Some [SOther
                       (Js.newline
                        +:+ Js.join (Js.newline +:+ Js.newline)
                              (RefactorTsxPass2.exportedHelperText
                                 <$> RefactorTsxPass2.collectHelpers
                                       (RefactorTsxPass2.helperNamePattern
                                          Example.pass2Options)
                                       Example.threeHelpers))])
  ∧ (∀ func, func ∈ RefactorTsxPass2.collectHelpers
                      (RefactorTsxPass2.helperNamePattern Example.pass2Options)
                      Example.threeHelpers →
             (∃ declarations,
                NestedVariableStatement (RefactorTsxPass2.h_text func) declarations
                ∈ Example.threeHelpers)
             ∧ (∀ kw rest, kw ∈ ["const"; "let"; "var"] →
                           RefactorTsxPass2.h_text func = kw +:+ rest →
                           RefactorTsxPass2.exportedHelperText func
                           = "export const" +:+ rest)
             ∧ (∀ ws kw rest,
                  Forall (λ c, Js.isSpace c = true) (list_ascii_of_string ws) →
                  kw ∈ ["const"; "let"; "var"] →
                  RefactorTsxPass2.h_text func = ws +:+ kw +:+ rest →
                  RefactorTsxPass2.exportedHelperText func
                  = ws +:+ "export const" +:+ rest))
  ∧ ∀ w, project w !! RefactorTsxPass2.utilsFile Example.pass2Options = None →
         RefactorTsxPass2.readUtilsContent Example.envBare Example.pass2Options
           (RefactorTsxPass2.utilsFile Example.pass2Options) w = (Ok "", w).
Proof.
  eapply (unregistered_utils_file_has_no_header Example.envBare Example.pass2Options
            Example.componentDisk [Example.component Example.threeHelpers]).
  - vm_compute. reflexivity.
  - vm_compute. reflexivity.
  - reflexivity.
  - vm_compute. discriminate.
  - vm_compute. discriminate.
  - left. reflexivity.
  - reflexivity.
Defined.

(** The file of the witness, as text. *)
Example unregistered_utils_file_text :
  disk (runOn (RefactorTsxPass2.main Example.envBare Example.pass2Options)
          Example.componentDisk).2
    !! RefactorTsxPass2.utilsFile Example.pass2Options
  = Some [SOther
            (Js.newline
             +:+ "export const validateForm = (data: FormData) => { return data.name !== ''; };"
             +:+ Js.newline +:+ Js.newline
             +:+ "export const getRoleBadgeColor = (role: string) => '#95a5a6';")].
Proof. vm_compute. reflexivity. Qed.

(** ** What the passes write to a target that already exists *)

Section Pass1Targets.
Variable env : Environment.
Variable options : RefactorOptions.

Local Abbreviation target := (targetFile options).

Lemma keepsOnDisk_extractUtilities_other (p : string) (cands : list ExtractionCandidate) :
  p ≠ utilsFile options → keepsOnDisk p (extractUtilities env options cands).
Proof.
  intros Hne. unfold extractUtilities.
  destruct (bool_decide _); [apply diskStable_keeps, diskStable_ret|].
  apply keepsOnDisk_bind; [apply diskStable_keeps, diskStable_createSourceFile|]. intros _.
  apply keepsOnDisk_bind;
    [apply diskStable_keeps, diskStable_mapM, diskStable_moveUtility|]. intros extracted.
  apply keepsOnDisk_bind; [apply diskStable_keeps, diskStable_getExportedTypeNames|].
  intros typeNames.
  apply keepsOnDisk_bind; [apply diskStable_keeps, diskStable_createSourceFile|]. intros _.
  apply keepsOnDisk_bind; [apply diskStable_keeps, diskStable_addImport|]. intros _.
  apply keepsOnDisk_saveSync. by apply not_eq_sym.
Qed.

End Pass1Targets.

(** ** Type reconciliation *)

Section Reconciler.
Import AnalyzeTypes.

Lemma forEachCount_fst {A} (f : A → A * nat) (l : list A) :
  (forEachCount f l).1 = (λ x, (f x).1) <$> l.
Proof.
  induction l as [|x l IH]; [done|]. simpl.
  destruct (f x) as [x' c]. destruct (forEachCount f l) as [l' n].
  simpl in *. by rewrite IH.
Qed.

(** The trees the two kinds of loop leave. *)
Lemma onDeclarations_fst
    (f : DeclarationKind → VariableDeclaration → VariableDeclaration * nat)
    (sf : SourceFile) :
  (onDeclarations f sf).1
  = (λ n, match stmt n with
          | SVariable v =>
              {| nid := nid n;
                 stmt := SVariable
                           {| vs_kind := vs_kind v; vs_text := vs_text v;
                              vs_declarations :=
                                (λ decl, (f (vs_kind v) decl).1) <$> vs_declarations v |} |}
          | _ => n
          end) <$> sf.
Proof.
  unfold onDeclarations. rewrite forEachCount_fst. apply list_fmap_ext.
  intros i n _. destruct (stmt n) as [| |v| | |]; try done.
  rewrite <- forEachCount_fst. by destruct (forEachCount _ _).
Qed.

Lemma onFunctions_fst (g : FunctionDeclaration → FunctionDeclaration * nat)
    (sf : SourceFile) :
  (onFunctions g sf).1
  = (λ n, match stmt n with
          | SFunction func => {| nid := nid n; stmt := SFunction (g func).1 |}
          | _ => n
          end) <$> sf.
Proof.
  unfold onFunctions. rewrite forEachCount_fst. apply list_fmap_ext.
  intros i n _. destruct (stmt n) as [|func| | | |]; try done. by destruct (g func).
Qed.

Lemma getVariableDeclarations_onDeclarations
    (f : DeclarationKind → VariableDeclaration → VariableDeclaration * nat)
    (sf : SourceFile) :
  getVariableDeclarations (onDeclarations f sf).1
  = (λ kd, (kd.1, (f kd.1 kd.2).1)) <$> getVariableDeclarations sf.
Proof.
  rewrite onDeclarations_fst. unfold getVariableDeclarations.
  induction sf as [|n sf IH]; [done|].
  rewrite fmap_cons, !bind_cons, fmap_app, IH. f_equal. cbv beta.
  destruct (stmt n) as [| |v| | |] eqn:Hs; rewrite ?Hs; try done.
  cbn [stmt vs_kind vs_declarations].
  rewrite <- !list_fmap_compose. by apply list_fmap_ext.
Qed.

Lemma getVariableDeclarations_onFunctions
    (g : FunctionDeclaration → FunctionDeclaration * nat) (sf : SourceFile) :
  getVariableDeclarations (onFunctions g sf).1 = getVariableDeclarations sf.
Proof.
  rewrite onFunctions_fst. unfold getVariableDeclarations.
  induction sf as [|n sf IH]; [done|].
  rewrite fmap_cons, !bind_cons, IH. f_equal. cbv beta.
  by destruct (stmt n) eqn:Hs; rewrite ?Hs.
Qed.

Lemma getFunctions_onFunctions (g : FunctionDeclaration → FunctionDeclaration * nat)
    (sf : SourceFile) :
  getFunctions (onFunctions g sf).1 = (λ func, (g func).1) <$> getFunctions sf.
Proof.
  rewrite onFunctions_fst. unfold getFunctions.
  induction sf as [|n sf IH]; [done|].
  rewrite fmap_cons. cbn [omap list_omap]. rewrite IH.
  by destruct (stmt n) eqn:Hs; cbn [stmt]; rewrite ?Hs.
Qed.

Lemma getFunctions_onDeclarations
    (f : DeclarationKind → VariableDeclaration → VariableDeclaration * nat)
    (sf : SourceFile) :
  getFunctions (onDeclarations f sf).1 = getFunctions sf.
Proof.
  rewrite onDeclarations_fst. unfold getFunctions.
  induction sf as [|n sf IH]; [done|].
  rewrite fmap_cons. cbn [omap list_omap]. rewrite IH.
  by destruct (stmt n) eqn:Hs; cbn [stmt]; rewrite ?Hs.
Qed.

Lemma addReturnTypes_declarations (sf : SourceFile) :
  getVariableDeclarations (addReturnTypes sf).1
  = (λ kd, (kd.1, (addArrowReturnType kd.2).1)) <$> getVariableDeclarations sf.
Proof.
  unfold addReturnTypes.
  destruct (onDeclarations _ sf) as [sf1 c1] eqn:H1.
  destruct (onFunctions _ sf1) as [sf2 c2] eqn:H2. simpl.
  change sf2 with (sf2, c2).1. rewrite <- H2, getVariableDeclarations_onFunctions.
  change sf1 with (sf1, c1).1. by rewrite <- H1, getVariableDeclarations_onDeclarations.
Qed.

Lemma addReturnTypes_functions (sf : SourceFile) :
  getFunctions (addReturnTypes sf).1
  = (λ func, (addFunctionReturnType func).1) <$> getFunctions sf.
Proof.
  unfold addReturnTypes.
  destruct (onDeclarations _ sf) as [sf1 c1] eqn:H1.
  destruct (onFunctions _ sf1) as [sf2 c2] eqn:H2. simpl.
  change sf2 with (sf2, c2).1. rewrite <- H2, getFunctions_onFunctions.
  change sf1 with (sf1, c1).1. by rewrite <- H1, getFunctions_onDeclarations.
Qed.


(** The parameters of a file after the two loops of [addParameterTypes]. *)
Lemma parametersMapped_onFunctions (gf ga : ParameterDeclaration → ParameterDeclaration)
    (sf : SourceFile) :
  parametersMapped gf ga (onFunctions addFunctionParameterTypes sf).1
  = parametersMapped (λ p, gf (addParameterType p).1) ga sf.
Proof.
  rewrite onFunctions_fst. unfold parametersMapped.
  induction sf as [|n sf IH]; [done|].
  rewrite fmap_cons, !bind_cons, IH. f_equal. cbv beta.
  destruct (stmt n) as [|func| | | |] eqn:Hs; rewrite ?Hs; try done.
  cbn [stmt]. unfold addFunctionParameterTypes.
  rewrite (surjective_pairing (forEachCount addParameterType (fn_parameters func))).
  cbn [fst withFunctionParameters fn_parameters].
  by rewrite forEachCount_fst, <- list_fmap_compose.
Qed.

Lemma parametersMapped_onDeclarations (gf ga : ParameterDeclaration → ParameterDeclaration)
    (sf : SourceFile) :
  parametersMapped gf ga (onDeclarations (λ _, addArrowParameterTypes) sf).1
  = parametersMapped gf (λ p, ga (addParameterType p).1) sf.
Proof.
  rewrite onDeclarations_fst. unfold parametersMapped.
  induction sf as [|n sf IH]; [done|].
  rewrite fmap_cons, !bind_cons, IH. f_equal. cbv beta.
  destruct (stmt n) as [| |v| | |] eqn:Hs; rewrite ?Hs; try done.
  cbn [stmt vs_declarations]. generalize (vs_declarations v). intros ds.
  induction ds as [|decl ds IHds]; [done|].
  rewrite fmap_cons, !bind_cons, IHds. f_equal.
  unfold addArrowParameterTypes, arrowOf.
  destruct (vd_initializer decl) as [[t func|t lit]|] eqn:Hi;
    cbn [fst]; rewrite ?Hi; try done.
  rewrite (surjective_pairing (forEachCount addParameterType (af_parameters func))).
  cbn [fst withInitializer withParameters vd_initializer af_parameters].
  by rewrite forEachCount_fst, <- list_fmap_compose.
Qed.

Lemma parametersMapped_fmap (g : ParameterDeclaration → ParameterDeclaration)
    (sf : SourceFile) :
  parametersMapped g g sf = g <$> getParameters sf.
Proof.
  unfold parametersMapped, getParameters.
  induction sf as [|n sf IH]; [done|].
  rewrite !bind_cons, fmap_app, IH. f_equal.
  destruct (stmt n) as [| |v| | |]; try done.
  generalize (vs_declarations v). intros ds.
  induction ds as [|decl ds IHds]; [done|].
  rewrite !bind_cons, fmap_app, IHds. f_equal. by destruct (arrowOf decl).
Qed.

Lemma parametersMapped_id (sf : SourceFile) :
  parametersMapped (λ p, p) (λ p, p) sf = getParameters sf.
Proof. rewrite (parametersMapped_fmap (λ p, p)). apply list_fmap_id. Qed.

Lemma addParameterTypes_parameters (sf : SourceFile) :
  getParameters (addParameterTypes sf).1
  = (λ p, (addParameterType p).1) <$> getParameters sf.
Proof.
  unfold addParameterTypes.
  destruct (onFunctions _ sf) as [sf1 c1] eqn:H1.
  destruct (onDeclarations _ sf1) as [sf2 c2] eqn:H2. simpl.
  rewrite <- parametersMapped_id.
  change sf2 with (sf2, c2).1. rewrite <- H2, parametersMapped_onDeclarations.
  change sf1 with (sf1, c1).1. rewrite <- H1, parametersMapped_onFunctions.
  apply (parametersMapped_fmap (λ p, (addParameterType p).1)).
Qed.

(** What the callbacks of the loops do to one item. *)
Lemma addArrowReturnType_changed (decl : VariableDeclaration) :
  arrowOf (addArrowReturnType decl).1 ≫= af_returnTypeNode
    ≠ arrowOf decl ≫= af_returnTypeNode →
  ∃ f, arrowOf decl = Some f
       ∧ af_returnTypeNode f = None
       ∧ arrowOf (addArrowReturnType decl).1 ≫= af_returnTypeNode
         = Some (af_returnType f)
       ∧ returnTypeAccepted (af_returnType f).
Proof.
  unfold addArrowReturnType, arrowOf, setReturnType, returnTypeAccepted.
  destruct (vd_initializer decl) as [[t f|t lit]|] eqn:Hi; simpl; rewrite ?Hi; try done.
  destruct (af_returnTypeNode f) eqn:Hn; simpl; rewrite ?Hi; simpl; rewrite ?Hn; try done.
  repeat case_bool_decide; simpl; rewrite ?Hi; simpl; rewrite ?Hn; try done.
  destruct (af_setReturnTypeThrows f); simpl; rewrite ?Hi; simpl; rewrite ?Hn; try done.
  intros _. by exists f.
Qed.

Lemma addArrowReturnType_written (decl : VariableDeclaration) (f : ArrowFunction) :
  arrowOf decl = Some f →
  af_returnTypeNode f = None →
  returnTypeAccepted (af_returnType f) →
  af_setReturnTypeThrows f = false →
  arrowOf (addArrowReturnType decl).1 ≫= af_returnTypeNode = Some (af_returnType f).
Proof.
  unfold addArrowReturnType, arrowOf, setReturnType, returnTypeAccepted.
  destruct (vd_initializer decl) as [[t g|t lit]|] eqn:Hi; try done.
  intros [= ->] Hn [Hv Hl] Ht. rewrite Hn, Ht. simpl.
  by rewrite !bool_decide_eq_true_2.
Qed.

Lemma addFunctionReturnType_changed (func : FunctionDeclaration) :
  fn_returnTypeNode (addFunctionReturnType func).1 ≠ fn_returnTypeNode func →
  fn_returnTypeNode func = None
  ∧ fn_returnTypeNode (addFunctionReturnType func).1 = Some (fn_returnType func)
  ∧ returnTypeAccepted (fn_returnType func).
Proof.
  unfold addFunctionReturnType, setFunctionReturnType, returnTypeAccepted.
  destruct (fn_returnTypeNode func) eqn:Hn; simpl; rewrite ?Hn; try done.
  repeat case_bool_decide; simpl; rewrite ?Hn; try done.
  destruct (fn_setReturnTypeThrows func); simpl; rewrite ?Hn; try done.
Qed.

Lemma addFunctionReturnType_written (func : FunctionDeclaration) :
  fn_returnTypeNode func = None →
  returnTypeAccepted (fn_returnType func) →
  fn_setReturnTypeThrows func = false →
  fn_returnTypeNode (addFunctionReturnType func).1 = Some (fn_returnType func).
Proof.
  unfold addFunctionReturnType, setFunctionReturnType, returnTypeAccepted.
  intros Hn [Hv Hl] Ht. rewrite Hn, Ht. simpl. by rewrite !bool_decide_eq_true_2.
Qed.

Lemma addParameterType_changed (param : ParameterDeclaration) :
  p_typeNode (addParameterType param).1 ≠ p_typeNode param →
  p_typeNode param = None
  ∧ p_typeNode (addParameterType param).1 = Some (p_type param)
  ∧ typeAccepted (p_type param).
Proof.
  unfold addParameterType, setParameterType, typeAccepted.
  destruct (p_typeNode param) eqn:Hn; simpl; rewrite ?Hn; try done.
  repeat case_bool_decide; simpl; rewrite ?Hn; try done.
  destruct (p_setTypeThrows param); simpl; rewrite ?Hn; try done.
Qed.

Lemma addParameterType_written (param : ParameterDeclaration) :
  p_typeNode param = None →
  typeAccepted (p_type param) →
  p_setTypeThrows param = false →
  p_typeNode (addParameterType param).1 = Some (p_type param).
Proof.
  unfold addParameterType, setParameterType, typeAccepted.
  intros Hn [Hv Hl] Ht. rewrite Hn, Ht. simpl. by rewrite !bool_decide_eq_true_2.
Qed.

Lemma fixAnyType_changed (decl : VariableDeclaration) :
  vd_typeNode (fixAnyType decl).1 ≠ vd_typeNode decl →
  ∃ init, vd_typeNode decl = Some "any"
          ∧ vd_initializer decl = Some init
          ∧ vd_typeNode (fixAnyType decl).1 = Some (initializerTypeText init)
          ∧ typeAccepted (initializerTypeText init).
Proof.
  unfold fixAnyType, setType, typeAccepted.
  destruct (vd_typeNode decl) as [typeNode|] eqn:Hn; simpl; rewrite ?Hn; try done.
  destruct (decide (typeNode = "any")) as [->|]; simpl; rewrite ?Hn; try done.
  destruct (vd_initializer decl) as [init|] eqn:Hi; simpl; rewrite ?Hn; try done.
  repeat case_bool_decide; simpl; rewrite ?Hn; try done.
  destruct (vd_setTypeThrows decl); simpl; rewrite ?Hn; try done.
  intros _. by exists init.
Qed.

Lemma fixAnyType_written (decl : VariableDeclaration) (init : Initializer) :
  vd_typeNode decl = Some "any" →
  vd_initializer decl = Some init →
  typeAccepted (initializerTypeText init) →
  vd_setTypeThrows decl = false →
  vd_typeNode (fixAnyType decl).1 = Some (initializerTypeText init).
Proof.
  unfold fixAnyType, setType, typeAccepted.
  intros Hn Hi [Hv Hl] Ht. rewrite Hn, Hi, Ht. simpl. by rewrite !bool_decide_eq_true_2.
Qed.

End Reconciler.

(** ** The filter on inferred annotations *)

(** C5, as amended.  The Type Reconciler writes an inferred return type only
    on a function or arrow function that has none, and only when the rendered
    text is not [void] and is shorter than 100 characters; it writes an
    inferred parameter type only on a parameter that has none, and replaces
    an explicit [any] of a variable by the type of its initializer, only
    when the rendered text is not [any] and is shorter than 100 characters.
    An item that passes its filter is written when the setter does not raise.
    A text of exactly 100 characters passes neither filter; one of 99
    characters passes each filter whose excluded text it is not. *)
Theorem annotations_pass_the_filter (sf : SourceFile) :
  (∀ i k decl decl',
     AnalyzeTypes.getVariableDeclarations sf !! i = Some (k, decl) →
     AnalyzeTypes.getVariableDeclarations (AnalyzeTypes.addReturnTypes sf).1 !! i
       = Some (k, decl') →
     AnalyzeTypes.arrowOf decl' ≫= af_returnTypeNode
       ≠ AnalyzeTypes.arrowOf decl ≫= af_returnTypeNode →
     ∃ f, AnalyzeTypes.arrowOf decl = Some f
          ∧ af_returnTypeNode f = None
          ∧ AnalyzeTypes.arrowOf decl' ≫= af_returnTypeNode = Some (af_returnType f)
          ∧ AnalyzeTypes.returnTypeAccepted (af_returnType f))
  ∧ (∀ i k decl decl' f,
       AnalyzeTypes.getVariableDeclarations sf !! i = Some (k, decl) →
       AnalyzeTypes.getVariableDeclarations (AnalyzeTypes.addReturnTypes sf).1 !! i
         = Some (k, decl') →
       AnalyzeTypes.arrowOf decl = Some f →
       af_returnTypeNode f = None →
       AnalyzeTypes.returnTypeAccepted (af_returnType f) →
       af_setReturnTypeThrows f = false →
       AnalyzeTypes.arrowOf decl' ≫= af_returnTypeNode = Some (af_returnType f))
  ∧ (∀ i func func',
       AnalyzeTypes.getFunctions sf !! i = Some func →
       AnalyzeTypes.getFunctions (AnalyzeTypes.addReturnTypes sf).1 !! i = Some func' →
       (fn_returnTypeNode func' ≠ fn_returnTypeNode func →
        fn_returnTypeNode func = None
        ∧ fn_returnTypeNode func' = Some (fn_returnType func)
        ∧ AnalyzeTypes.returnTypeAccepted (fn_returnType func))
       ∧ (fn_returnTypeNode func = None →
          AnalyzeTypes.returnTypeAccepted (fn_returnType func) →
          fn_setReturnTypeThrows func = false →
          fn_returnTypeNode func' = Some (fn_returnType func)))
  ∧ (∀ i param param',
       AnalyzeTypes.getParameters sf !! i = Some param →
       AnalyzeTypes.getParameters (AnalyzeTypes.addParameterTypes sf).1 !! i = Some param' →
       (p_typeNode param' ≠ p_typeNode param →
        p_typeNode param = None
        ∧ p_typeNode param' = Some (p_type param)
        ∧ AnalyzeTypes.typeAccepted (p_type param))
       ∧ (p_typeNode param = None →
          AnalyzeTypes.typeAccepted (p_type param) →
          p_setTypeThrows param = false →
          p_typeNode param' = Some (p_type param)))
  ∧ (∀ i k decl decl',
       AnalyzeTypes.getVariableDeclarations sf !! i = Some (k, decl) →
       AnalyzeTypes.getVariableDeclarations (AnalyzeTypes.fixAnyTypes sf).1 !! i
         = Some (k, decl') →
       (vd_typeNode decl' ≠ vd_typeNode decl →
        ∃ init, vd_typeNode decl = Some "any"
                ∧ vd_initializer decl = Some init
                ∧ vd_typeNode decl' = Some (AnalyzeTypes.initializerTypeText init)
                ∧ AnalyzeTypes.typeAccepted (AnalyzeTypes.initializerTypeText init))
       ∧ (∀ init, vd_typeNode decl = Some "any" →
                  vd_initializer decl = Some init →
                  AnalyzeTypes.typeAccepted (AnalyzeTypes.initializerTypeText init) →
                  vd_setTypeThrows decl = false →
                  vd_typeNode decl' = Some (AnalyzeTypes.initializerTypeText init)))
  ∧ (∀ text, Js.length text = 100 →
             ¬ AnalyzeTypes.returnTypeAccepted text ∧ ¬ AnalyzeTypes.typeAccepted text)
  ∧ (∀ text, Js.length text = 99 →
             (text ≠ "void" → AnalyzeTypes.returnTypeAccepted text)
             ∧ (text ≠ "any" → AnalyzeTypes.typeAccepted text)).
Proof.
  split_and!.
  - intros i k decl decl' H1 H2.
    rewrite addReturnTypes_declarations, list_lookup_fmap, H1 in H2.
    simpl in H2. simplify_eq. apply addArrowReturnType_changed.
  - intros i k decl decl' f H1 H2.
    rewrite addReturnTypes_declarations, list_lookup_fmap, H1 in H2.
    simpl in H2. simplify_eq. apply addArrowReturnType_written.
  - intros i func func' H1 H2.
    rewrite addReturnTypes_functions, list_lookup_fmap, H1 in H2.
    simpl in H2. simplify_eq. split.
    + apply addFunctionReturnType_changed.
    + apply addFunctionReturnType_written.
  - intros i param param' H1 H2.
    rewrite addParameterTypes_parameters, list_lookup_fmap, H1 in H2.
    simpl in H2. simplify_eq. split.
    + apply addParameterType_changed.
    + apply addParameterType_written.
  - intros i k decl decl' H1 H2. unfold AnalyzeTypes.fixAnyTypes in H2.
    rewrite getVariableDeclarations_onDeclarations, list_lookup_fmap, H1 in H2.
    simpl in H2. simplify_eq. split.
    + apply fixAnyType_changed.
    + intros init. apply fixAnyType_written.
  - intros text Hl. unfold AnalyzeTypes.returnTypeAccepted, AnalyzeTypes.typeAccepted.
    split; intros [_ ?]; lia.
  - intros text Hl. unfold AnalyzeTypes.returnTypeAccepted, AnalyzeTypes.typeAccepted.
    split; intros ?; (split; [done|lia]).
Qed.

Lemma annotations_pass_the_filter_witness :
  AnalyzeTypes.arrowOf
    (AnalyzeTypes.addArrowReturnType
       (Example.declaration "summarize" 1 1 (Example.arrow Example.text99 ConciseBody))).1
    ≫= af_returnTypeNode
  = Some Example.text99.
Proof.
  apply (proj1 (proj2 (annotations_pass_the_filter (load Example.wideFile)))
           0%nat KConst
           (Example.declaration "summarize" 1 1 (Example.arrow Example.text99 ConciseBody))
           _ {| af_returnTypeNode := None; af_returnType := Example.text99;
                af_setReturnTypeThrows := false; af_parameters := [];
                af_body := ConciseBody |}).
  - vm_compute. reflexivity.
  - vm_compute. reflexivity.
  - reflexivity.
  - reflexivity.
  - split; [discriminate|vm_compute; reflexivity].
  - reflexivity.
Defined.

(** The rendering of 100 characters is left alone, the one of 99 is written. *)
Example boundary_99_100 :
  Js.length Example.text99 = 99 ∧ Js.length Example.text100 = 100
  ∧ (λ kd, AnalyzeTypes.arrowOf kd.2 ≫= af_returnTypeNode)
      <$> AnalyzeTypes.getVariableDeclarations
            (AnalyzeTypes.addReturnTypes (load Example.wideFile)).1
    = [Some Example.text99; None].
Proof. split_and!; vm_compute; reflexivity. Qed.

(** The claim as stated fails for return types: the text they must differ
    from is [void], not [any], and an inferred [any] is written. *)
Lemma return_type_any_is_written :
  ¬ ∀ (sf : SourceFile) i k decl decl',
      AnalyzeTypes.getVariableDeclarations sf !! i = Some (k, decl) →
      AnalyzeTypes.getVariableDeclarations (AnalyzeTypes.addReturnTypes sf).1 !! i
        = Some (k, decl') →
      AnalyzeTypes.arrowOf decl' ≫= af_returnTypeNode
        ≠ AnalyzeTypes.arrowOf decl ≫= af_returnTypeNode →
      ∃ text, AnalyzeTypes.arrowOf decl' ≫= af_returnTypeNode = Some text
              ∧ text ≠ "any" ∧ Js.length text < 100.
Proof.
  intros H.
  specialize (H (load Example.parseFile) 0%nat KConst
                (Example.declaration "parse" 1 1 (Example.arrow "any" ConciseBody))
                (AnalyzeTypes.addArrowReturnType
                   (Example.declaration "parse" 1 1 (Example.arrow "any" ConciseBody))).1).
  destruct H as (text & Ht & Hne & _).
  - vm_compute. reflexivity.
  - vm_compute. reflexivity.
  - vm_compute. discriminate.
  - vm_compute in Ht. injection Ht as <-. by apply Hne.
Qed.

(** ** Literal types of [const] strings *)

Section Specificity.
Import AnalyzeTypes.

Lemma addParameterTypes_declarations (sf : SourceFile) :
  getVariableDeclarations (addParameterTypes sf).1
  = (λ kd, (kd.1, (addArrowParameterTypes kd.2).1)) <$> getVariableDeclarations sf.
Proof.
  unfold addParameterTypes.
  destruct (onFunctions _ sf) as [sf1 c1] eqn:H1.
  destruct (onDeclarations _ sf1) as [sf2 c2] eqn:H2. simpl.
  change sf2 with (sf2, c2).1. rewrite <- H2, getVariableDeclarations_onDeclarations.
  change sf1 with (sf1, c1).1. by rewrite <- H1, getVariableDeclarations_onFunctions.
Qed.

(** A loop that only rewrites interfaces or type aliases leaves the
    variable declarations as they are. *)
Lemma forEachCountThrowing_declarations
    (f : Node → Result (Node * nat)) (sf sf' : SourceFile) (c : nat) :
  (∀ n n' k, f n = Ok (n', k) →
             match stmt n with SVariable _ => n' = n | _ =>
               match stmt n' with SVariable _ => False | _ => True end end) →
  forEachCountThrowing f sf = Ok (sf', c) →
  getVariableDeclarations sf' = getVariableDeclarations sf.
Proof.
  intros Hf. revert sf' c. induction sf as [|n sf IH]; intros sf' c H; simpl in H.
  - by simplify_eq.
  - destruct (f n) as [[n' k]|e] eqn:Hn; [|done].
    destruct (forEachCountThrowing f sf) as [[r' m]|e] eqn:Hr; [|done].
    simplify_eq. unfold getVariableDeclarations in *. rewrite !bind_cons.
    rewrite (IH _ _ eq_refl). f_equal.
    specialize (Hf _ _ _ Hn).
    destruct (stmt n) eqn:Hs; try by (destruct (stmt n'); try done).
    by subst n'; rewrite Hs.
Qed.

Lemma ensureTypeExports_declarations (filePath : string) (sf sf' : SourceFile) (c : nat) :
  ensureTypeExports filePath sf = Ok (sf', c) →
  getVariableDeclarations sf' = getVariableDeclarations sf.
Proof.
  unfold ensureTypeExports. destruct (negb _); [by intros; simplify_eq|].
  destruct (ensureInterfaceExports sf) as [[sf1 c1]|e] eqn:H1; [|done].
  destruct (ensureTypeAliasExports sf1) as [[sf2 c2]|e] eqn:H2; [|done].
  intros; simplify_eq.
  transitivity (getVariableDeclarations sf1).
  - eapply forEachCountThrowing_declarations; [|exact H2].
    intros n n' k Hn. cbv beta in Hn.
    destruct (stmt n) eqn:Hs; simplify_eq; rewrite ?Hs; try done.
    by destruct (ensureExported _) as [[]|]; simplify_eq.
  - eapply forEachCountThrowing_declarations; [|exact H1].
    intros n n' k Hn. cbv beta in Hn.
    destruct (stmt n) eqn:Hs; simplify_eq; rewrite ?Hs; try done.
    by destruct (ensureExported _) as [[]|]; simplify_eq.
Qed.

(** The declarations of a file after the five steps. *)
Lemma reconcile_declarations (filePath : string) (sf sf' : SourceFile) (c : nat) :
  reconcile filePath sf = Ok (sf', c) →
  getVariableDeclarations sf'
  = (λ kd, (kd.1,
            (improveDeclaration kd.1
               (fixAnyType
                  (addArrowParameterTypes (addArrowReturnType kd.2).1).1).1).1))
      <$> getVariableDeclarations sf.
Proof.
  unfold reconcile.
  destruct (ensureTypeExports filePath sf) as [[sf1 c1]|e] eqn:H1; [|done].
  destruct (addReturnTypes sf1) as [sf2 c2] eqn:H2.
  destruct (addParameterTypes sf2) as [sf3 c3] eqn:H3.
  destruct (fixAnyTypes sf3) as [sf4 c4] eqn:H4.
  destruct (improveTypeSpecificity sf4) as [sf5 c5] eqn:H5.
  intros; simplify_eq.
  change sf' with (sf', c5).1. rewrite <- H5. unfold improveTypeSpecificity.
  rewrite getVariableDeclarations_onDeclarations.
  change sf4 with (sf4, c4).1. rewrite <- H4. unfold fixAnyTypes.
  rewrite getVariableDeclarations_onDeclarations.
  change sf3 with (sf3, c3).1. rewrite <- H3, addParameterTypes_declarations.
  change sf2 with (sf2, c2).1. rewrite <- H2, addReturnTypes_declarations.
  rewrite (ensureTypeExports_declarations _ _ _ _ H1).
  rewrite <- !list_fmap_compose. by apply list_fmap_ext.
Qed.

(** A declaration with an explicit type [string] and an initializer that is
    not an arrow function reaches the fifth step as it was. *)
Lemma string_declaration_reaches_step5 (decl : VariableDeclaration) t lit :
  vd_typeNode decl = Some "string" →
  vd_initializer decl = Some (InitExpression t lit) →
  (fixAnyType (addArrowParameterTypes (addArrowReturnType decl).1).1).1 = decl.
Proof.
  intros Hn Hi. unfold addArrowReturnType. rewrite Hi. cbn [fst].
  unfold addArrowParameterTypes. rewrite Hi. cbn [fst].
  unfold fixAnyType. rewrite Hn. by destruct (decide _).
Qed.

Lemma quotedValue_plain (v : string) :
  plainLiteral v = true → quotedValue (v +:+ "'") = Some v.
Proof.
  induction v as [|c r IH]; [done|].
  cbn [plainLiteral]. intros [Hc Hr]%andb_true_iff.
  change (String c r +:+ "'") with (String c (r +:+ "'")).
  cbn [quotedValue]. rewrite Hc, (IH Hr).
  unfold plainCharacter in Hc. apply negb_true_iff, bool_decide_eq_false in Hc.
  rewrite !bool_decide_eq_false_2; [done|..]; intros E; apply Hc; rewrite E;
    repeat constructor.
Qed.

Lemma valueSpace_literalTypeText (v : string) :
  plainLiteral v = true → valueSpace (literalTypeText v) = Some (λ x, x = v).
Proof.
  intros Hv. unfold valueSpace, literalTypeText.
  change ("'" +:+ v +:+ "'") with (String "'" (v +:+ "'")).
  destruct (decide _) as [E|_]; [discriminate E|].
  rewrite bool_decide_eq_true_2 by done. by rewrite quotedValue_plain.
Qed.

Lemma denotesLiteral_literalTypeText (v : string) :
  plainLiteral v = true → denotesLiteral (literalTypeText v) v.
Proof.
  intros Hv. eexists. split; [by apply valueSpace_literalTypeText|done].
Qed.

Lemma narrowerThan_literalTypeText (v : string) :
  plainLiteral v = true → narrowerThan (literalTypeText v) "string".
Proof.
  intros Hv. eexists _, _. split; [by apply valueSpace_literalTypeText|].
  split; [reflexivity|done].
Qed.

(** A fix of one declaration is counted by the loop. *)
Lemma forEachCount_snd_le {A} (f : A → A * nat) (l : list A) (x : A) :
  x ∈ l → ((f x).2 ≤ (forEachCount f l).2)%nat.
Proof.
  induction l as [|y l IH]; [by intros ?%elem_of_nil|].
  intros [->|Hx]%elem_of_cons; simpl;
    destruct (f y) as [y' c]; destruct (forEachCount f l) as [l' n]; simpl in *.
  - lia.
  - specialize (IH Hx). lia.
Qed.

Lemma onDeclarations_snd_le
    (f : DeclarationKind → VariableDeclaration → VariableDeclaration * nat)
    (sf : SourceFile) (k : DeclarationKind) (decl : VariableDeclaration) :
  (k, decl) ∈ getVariableDeclarations sf →
  ((f k decl).2 ≤ (onDeclarations f sf).2)%nat.
Proof.
  unfold getVariableDeclarations.
  intros (n & Hd & Hn)%list_elem_of_bind.
  unfold onDeclarations.
  etransitivity; [|exact (forEachCount_snd_le _ _ _ Hn)]. cbv beta.
  destruct (stmt n) as [| |v| | |]; try by apply elem_of_nil in Hd.
  apply list_elem_of_fmap in Hd as (d & ? & Hd). simplify_eq.
  pose proof (forEachCount_snd_le (f (vs_kind v)) _ _ Hd) as Hle.
  by destruct (forEachCount _ _).
Qed.

(** The fifth step runs on the tree the first four leave. *)
Lemma reconcile_steps (filePath : string) (sf sf' : SourceFile) (c : nat) :
  reconcile filePath sf = Ok (sf', c) →
  ∃ sf4 c0,
    getVariableDeclarations sf4
    = (λ kd, (kd.1, (fixAnyType (addArrowParameterTypes (addArrowReturnType kd.2).1).1).1))
        <$> getVariableDeclarations sf
    ∧ sf' = (improveTypeSpecificity sf4).1
    ∧ c = (c0 + (improveTypeSpecificity sf4).2)%nat.
Proof.
  unfold reconcile.
  destruct (ensureTypeExports filePath sf) as [[sf1 c1]|e] eqn:H1; [|done].
  destruct (addReturnTypes sf1) as [sf2 c2] eqn:H2.
  destruct (addParameterTypes sf2) as [sf3 c3] eqn:H3.
  destruct (fixAnyTypes sf3) as [sf4 c4] eqn:H4.
  destruct (improveTypeSpecificity sf4) as [sf5 c5] eqn:H5.
  intros; simplify_eq. exists sf4, (c1 + c2 + c3 + c4)%nat. rewrite H5.
  split; [|done].
  change sf4 with (sf4, c4).1. rewrite <- H4. unfold fixAnyTypes.
  rewrite getVariableDeclarations_onDeclarations.
  change sf3 with (sf3, c3).1. rewrite <- H3, addParameterTypes_declarations.
  change sf2 with (sf2, c2).1. rewrite <- H2, addReturnTypes_declarations.
  rewrite (ensureTypeExports_declarations _ _ _ _ H1).
  rewrite <- !list_fmap_compose. by apply list_fmap_ext.
Qed.

End Specificity.

(** For a variable of a [const] statement whose explicit type is [string]
    and whose initializer is a string literal of value [v], a reconciliation
    that completes leaves the declaration in place and, when [setType] does
    not raise, has replaced the type by the value put between single quotes
    and counted that as a fix; for a value without quote, backslash or line
    break this text is the literal type of [v], whose only value the type
    [string] admits as well.  When [setType] raises the declaration is left
    as it was. *)
Lemma const_string_gets_the_quoted_value
    (filePath : string) (sf sf' : SourceFile) (c i : nat)
    (decl : VariableDeclaration) (t v : string) :
  AnalyzeTypes.reconcile filePath sf = Ok (sf', c) →
  AnalyzeTypes.getVariableDeclarations sf !! i = Some (KConst, decl) →
  vd_typeNode decl = Some "string" →
  vd_initializer decl = Some (InitExpression t (Some v)) →
  ∃ decl',
    AnalyzeTypes.getVariableDeclarations sf' !! i = Some (KConst, decl')
    ∧ (vd_setTypeThrows decl = false →
       vd_typeNode decl' = Some (AnalyzeTypes.literalTypeText v)
       ∧ (0 < c)%nat
       ∧ (AnalyzeTypes.plainLiteral v = true →
          AnalyzeTypes.denotesLiteral (AnalyzeTypes.literalTypeText v) v
          ∧ AnalyzeTypes.narrowerThan (AnalyzeTypes.literalTypeText v) "string"))
    ∧ (vd_setTypeThrows decl = true → decl' = decl).
Proof.
  intros (sf4 & c0 & H4 & -> & ->)%reconcile_steps Hl Hn Hi.
  assert (AnalyzeTypes.getVariableDeclarations sf4 !! i = Some (KConst, decl)) as Hl4.
  { rewrite H4, list_lookup_fmap, Hl. simpl.
    by rewrite (string_declaration_reaches_step5 _ _ _ Hn Hi). }
  exists (AnalyzeTypes.improveDeclaration KConst decl).1. split_and!.
  - unfold AnalyzeTypes.improveTypeSpecificity.
    by rewrite getVariableDeclarations_onDeclarations, list_lookup_fmap, Hl4.
  - intros Ht.
    assert (AnalyzeTypes.improveDeclaration KConst decl
            = ({| vd_name := vd_name decl; vd_startLine := vd_startLine decl;
                  vd_endLine := vd_endLine decl;
                  vd_typeNode := Some (AnalyzeTypes.literalTypeText v);
                  vd_setTypeThrows := vd_setTypeThrows decl;
                  vd_initializer := vd_initializer decl |}, 1%nat)) as Hd.
    { unfold AnalyzeTypes.improveDeclaration, AnalyzeTypes.setType.
      rewrite Hn, Hi, Ht. by destruct (decide _). }
    split_and!.
    + by rewrite Hd.
    + pose proof (onDeclarations_snd_le AnalyzeTypes.improveDeclaration sf4 KConst decl
                    (list_elem_of_lookup_2 _ _ _ Hl4)) as Hle.
      rewrite Hd in Hle. unfold AnalyzeTypes.improveTypeSpecificity. simpl in Hle. lia.
    + intros Hv. split.
      * by apply denotesLiteral_literalTypeText.
      * by apply narrowerThan_literalTypeText.
  - intros Ht. unfold AnalyzeTypes.improveDeclaration, AnalyzeTypes.setType.
    rewrite Hn, Hi, Ht. by destruct (decide _).
Qed.

(** The declaration [const role: string = 'admin'] gets the type ['admin']. *)
Example plain_literal_is_narrowed :
  (λ kd, vd_typeNode kd.2)
    <$> AnalyzeTypes.getVariableDeclarations
          (AnalyzeTypes.improveTypeSpecificity (load (Example.roleFile false))).1
  = [Some "'admin'"]
  ∧ AnalyzeTypes.denotesLiteral "'admin'" "admin"
  ∧ AnalyzeTypes.narrowerThan "'admin'" "string".
Proof.
  split_and!.
  - vm_compute. reflexivity.
  - by apply (denotesLiteral_literalTypeText "admin").
  - by apply (narrowerThan_literalTypeText "admin").
Qed.

(** C6: the claim does not hold of [improveTypeSpecificity], which puts the
    literal value between single quotes as it is.  A run on a utilities file
    with [const sep: string = 'a\' | number | \'b'] and
    [const dir: string = 'C:\\temp'] completes and saves the first
    declaration with the type ['a' | number | 'b'], the text of a union
    with [number] and no literal type, and the second one with the type
    ['C:\temp'], the literal type of another string (a tabulator in the
    place of the backslash and the t). *)
Theorem quote_in_literal_value_is_not_escaped :
  let d : gmap string (list Statement) :=
    {[ "/app/UserManagementDashboard.utils.ts" := Example.quotesFile ]} in
  let r := runOn (AnalyzeTypes.main Example.env "/app") d in
  r.1 = Ok tt
  ∧ (fmap (λ kd, (kd.1, vd_name kd.2, vd_typeNode kd.2))
       ∘ AnalyzeTypes.getVariableDeclarations ∘ load)
      <$> disk r.2 !! "/app/UserManagementDashboard.utils.ts"
    = Some [(KConst, "sep", Some "'a' | number | 'b'");
            (KConst, "dir", Some ("'C:" +:+ String Js.backslash "temp'"))]
  ∧ AnalyzeTypes.valueSpace "'a' | number | 'b'" = None
  ∧ ¬ AnalyzeTypes.denotesLiteral "'a' | number | 'b'" Example.unionValue
  ∧ AnalyzeTypes.denotesLiteral ("'C:" +:+ String Js.backslash "temp'")
      ("C:" +:+ Example.tab +:+ "emp")
  ∧ ¬ AnalyzeTypes.denotesLiteral ("'C:" +:+ String Js.backslash "temp'")
        Example.dirValue.
Proof.
  split_and!.
  - vm_compute. reflexivity.
  - vm_compute. reflexivity.
  - vm_compute. reflexivity.
  - intros (P & HP & _). vm_compute in HP. discriminate HP.
  - exists (λ x, x = "C:" +:+ Example.tab +:+ "emp"). split; [|done].
    vm_compute. reflexivity.
  - intros (P & HP & Hx). vm_compute in HP. injection HP as <-.
    discriminate (proj2 (Hx Example.dirValue) eq_refl).
Qed.

(** ** A setter that raises *)

Section Exports.
Import AnalyzeTypes.
Variable env : Environment.

Lemma includesSubstring_app (p a b : string) :
  Js.includesSubstring p b = true → Js.includesSubstring p (a +:+ b) = true.
Proof.
  intros Hb. induction a as [|c a IH]; [done|].
  change (String c a +:+ b) with (String c (a +:+ b)).
  cbn [Js.includesSubstring]. rewrite IH. apply orb_true_r.
Qed.

Lemma forEachCountThrowing_Throw {A} (f : A → Result (A * nat)) (l : list A) (x : A) :
  (∀ y e, f y = Throw e → e = ToolingError) →
  x ∈ l → f x = Throw ToolingError →
  forEachCountThrowing f l = Throw ToolingError.
Proof.
  intros Hall Hx Hf. induction l as [|y l IH]; [by apply elem_of_nil in Hx|].
  apply elem_of_cons in Hx as [<-|Hx]; simpl.
  - by rewrite Hf.
  - destruct (f y) as [[y' c]|e] eqn:Hy.
    + by rewrite (IH Hx).
    + f_equal. by eapply Hall.
Qed.

Lemma forEachCountThrowing_elem {A} (f : A → Result (A * nat)) (l l' : list A)
    (c : nat) (x : A) :
  forEachCountThrowing f l = Ok (l', c) → x ∈ l →
  ∃ x' k, f x = Ok (x', k) ∧ x' ∈ l'.
Proof.
  revert l' c. induction l as [|y l IH]; intros l' c H Hx;
    [by apply elem_of_nil in Hx|].
  simpl in H. destruct (f y) as [[y' k]|e] eqn:Hy; [|done].
  destruct (forEachCountThrowing f l) as [[r' m]|e] eqn:Hr; [|done].
  simplify_eq. apply elem_of_cons in Hx as [->|Hx].
  - exists y', k. split; [done|]. apply elem_of_cons. by left.
  - destruct (IH _ _ eq_refl Hx) as (x' & k' & ? & ?).
    exists x', k'. split; [done|]. apply elem_of_cons. by right.
Qed.

Lemma ensureExported_Throw (t : TypeDeclaration) (e : Error) :
  ensureExported t = Throw e → e = ToolingError.
Proof.
  unfold ensureExported, setIsExported.
  destruct (negb _); [|done]. destruct (td_setIsExportedThrows t); [|done].
  by intros; simplify_eq.
Qed.

Lemma ensureExported_raises (t : TypeDeclaration) :
  isExported t = false → td_setIsExportedThrows t = true →
  ensureExported t = Throw ToolingError.
Proof. unfold ensureExported, setIsExported. by intros -> ->. Qed.

(** One declaration on which [setIsExported] raises ends [ensureTypeExports]
    with that exception. *)
Lemma ensureTypeExports_Throw (filePath : string) (sf : SourceFile)
    (n : Node) (t : TypeDeclaration) :
  Js.includesSubstring ".types.ts" filePath = true →
  n ∈ sf →
  stmt n = SInterface t ∨ stmt n = STypeAlias t →
  isExported t = false →
  td_setIsExportedThrows t = true →
  ensureTypeExports filePath sf = Throw ToolingError.
Proof.
  intros Hp Hn Hs He Ht. unfold ensureTypeExports. rewrite Hp. cbn [negb].
  assert (∀ sf0, n ∈ sf0 → stmt n = SInterface t →
                 ensureInterfaceExports sf0 = Throw ToolingError) as Hi.
  { intros sf0 Hn0 Hs0. unfold ensureInterfaceExports.
    eapply forEachCountThrowing_Throw; [|exact Hn0|].
    - intros y e. destruct (stmt y); try done.
      destruct (ensureExported _) as [[]|e'] eqn:Hx; [done|].
      intros; simplify_eq. by eapply ensureExported_Throw.
    - cbv beta. by rewrite Hs0, ensureExported_raises. }
  destruct Hs as [Hs|Hs]; [by rewrite Hi|].
  destruct (ensureInterfaceExports sf) as [[sf1 c1]|e] eqn:H1.
  - destruct (forEachCountThrowing_elem _ _ _ _ _ H1 Hn) as (n' & k & Hf & Hn').
    cbv beta in Hf. rewrite Hs in Hf. simplify_eq.
    unfold ensureTypeAliasExports.
    rewrite (forEachCountThrowing_Throw _ _ n'); [done| |done|].
    + intros y e. destruct (stmt y); try done.
      destruct (ensureExported _) as [[]|e'] eqn:Hx; [done|].
      intros; simplify_eq. by eapply ensureExported_Throw.
    + cbv beta. by rewrite Hs, ensureExported_raises.
  - f_equal. unfold ensureInterfaceExports in H1.
    clear -H1. revert H1. induction sf as [|y sf IH]; [done|]. simpl.
    destruct (stmt y); try by destruct (forEachCountThrowing _ sf) as [[]|].
    destruct (ensureExported _) as [[]|e'] eqn:Hx.
    + by destruct (forEachCountThrowing _ sf) as [[]|].
    + intros; simplify_eq. by eapply ensureExported_Throw.
Qed.

Lemma reconcile_Throw (filePath : string) (sf : SourceFile) (e : Error) :
  ensureTypeExports filePath sf = Throw e → reconcile filePath sf = Throw e.
Proof. unfold reconcile. by intros ->. Qed.

(** A file that is on disk is added and reconciled; a path with nothing
    that can be read is skipped when nothing exists there, and ends the run
    in [addSourceFileAtPath] otherwise. *)
Lemma processFile_unfold (filePath : string) (w : World) :
  processFile env filePath w
  = let steps :=
      (addSourceFileAtPath filePath ;;
       let! sourceFile := getFile filePath in
       match reconcile filePath sourceFile with
       | Throw e => throw e
       | Ok (sourceFile', totalFixes) =>
           modifyFile filePath (λ _, sourceFile') ;;
           if bool_decide (0 < totalFixes)%nat then saveSync env filePath
           else ret tt
       end) in
    match disk w !! filePath with
    | Some _ => steps w
    | None => if fsUnreadable env filePath then steps w else (Ok tt, w)
    end.
Proof.
  unfold processFile, existsSync. unfold bind at 1.
  destruct (disk w !! filePath) as [l|] eqn:Hd.
  - by rewrite bool_decide_eq_true_2.
  - rewrite bool_decide_eq_false_2 by (by intros [? ?]).
    by destruct (fsUnreadable env filePath).
Qed.

(** An exception of the five steps leaves [processFile] before the file is
    saved. *)
Lemma processFile_Throw (filePath : string) (w : World) (l : list Statement)
    (e : Error) :
  disk w !! filePath = Some l →
  reconcile filePath (default (load l) (project w !! filePath)) = Throw e →
  ∃ w', processFile env filePath w = (Throw e, w') ∧ disk w' = disk w.
Proof.
  intros Hd Hr. rewrite processFile_unfold, Hd. cbv zeta.
  unfold bind, addSourceFileAtPath, getFile, throw.
  destruct (project w !! filePath) as [sf|] eqn:Hp; simpl in Hr.
  - rewrite Hp, Hr. by eexists.
  - rewrite Hd. cbn [project]. rewrite lookup_insert_eq, Hr. by eexists.
Qed.

Lemma main_Throw (componentsDir : string) (d : gmap string (list Statement))
    (l : list Statement) (e : Error) :
  d !! (componentsDir +:+ "/UserManagementDashboard.types.ts") = Some l →
  reconcile (componentsDir +:+ "/UserManagementDashboard.types.ts") (load l) = Throw e →
  ∃ w, runOn (main env componentsDir) d = (Throw e, w) ∧ disk w = d.
Proof.
  intros Hd Hr. unfold runOn, main.
  unfold bind at 1. unfold newProject at 1. cbn [disk].
  set (w0 := {| project := load <$> _; disk := d |}).
  destruct (processFile_Throw (componentsDir +:+ "/UserManagementDashboard.types.ts")
              w0 l e) as (w' & Hw & Hdisk); [done| |].
  - destruct (project w0 !! _) as [sf|] eqn:Hp; [|done].
    subst w0. cbn [project] in Hp.
    apply newProject_lookup in Hp as (l' & Hl' & ->). simpl. by simplify_eq.
  - exists w'. unfold bind at 1. unfold processAllFiles, defaultFiles.
    cbn [forEachM]. unfold bind at 1. by rewrite Hw.
Qed.

(** In the four loops that catch, a setter that raises leaves its item as
    it was and adds nothing to the count. *)
Lemma raising_annotation_is_skipped :
  (∀ decl f, arrowOf decl = Some f → af_setReturnTypeThrows f = true →
             addArrowReturnType decl = (decl, 0%nat))
  ∧ (∀ func, fn_setReturnTypeThrows func = true →
             addFunctionReturnType func = (func, 0%nat))
  ∧ (∀ param, p_setTypeThrows param = true → addParameterType param = (param, 0%nat))
  ∧ (∀ decl, vd_setTypeThrows decl = true → fixAnyType decl = (decl, 0%nat))
  ∧ (∀ k decl, vd_setTypeThrows decl = true → improveDeclaration k decl = (decl, 0%nat)).
Proof.
  split_and!.
  - intros decl f Hf Ht. unfold arrowOf in Hf. unfold addArrowReturnType, setReturnType.
    destruct (vd_initializer decl) as [[t g|t lit]|]; simplify_eq.
    rewrite Ht. by repeat case_match.
  - intros func Ht. unfold addFunctionReturnType, setFunctionReturnType.
    rewrite Ht. by repeat case_match.
  - intros param Ht. unfold addParameterType, setParameterType.
    rewrite Ht. by repeat case_match.
  - intros decl Ht. unfold fixAnyType, setType. rewrite Ht.
    by repeat case_match.
  - intros k decl Ht. unfold improveDeclaration, setType. rewrite Ht.
    by repeat case_match.
Qed.

End Exports.

(** C7: the claim does not hold of [ensureTypeExports].  When
    [setIsExported] raises on an interface or type alias of the types file
    that is not exported, the run ends with that exception and the files on
    disk are as they were: nothing of the types file is saved, and the
    utilities file and the component are not processed. *)
Theorem raising_export_aborts_the_pass
    (env : Environment) (componentsDir : string)
    (d : gmap string (list Statement)) (l : list Statement)
    (n : Node) (t : TypeDeclaration) :
  d !! (componentsDir +:+ "/UserManagementDashboard.types.ts") = Some l →
  n ∈ load l →
  stmt n = SInterface t ∨ stmt n = STypeAlias t →
  isExported t = false →
  td_setIsExportedThrows t = true →
  ∃ w, runOn (AnalyzeTypes.main env componentsDir) d = (Throw ToolingError, w)
       ∧ disk w = d.
Proof.
  intros Hd Hn Hs He Ht. eapply main_Throw; [done|].
  apply reconcile_Throw. eapply ensureTypeExports_Throw; [|done..].
  by apply includesSubstring_app.
Qed.

Lemma raising_export_aborts_the_pass_witness :
  ∃ w, runOn (AnalyzeTypes.main Example.env "/app") Example.reconcileDisk
       = (Throw ToolingError, w)
       ∧ disk w = Example.reconcileDisk.
Proof.
  apply (raising_export_aborts_the_pass Example.env "/app" Example.reconcileDisk
           [Example.unexported "User" true; Example.unexported "FormData" false]
           {| nid := 0; stmt := Example.unexported "User" true |}
           {| td_name := "User"; td_startLine := 1; td_endLine := 3;
              td_text := "interface User { }"; td_isNamedExport := false;
              td_setIsExportedThrows := true |}).
  - vm_compute. reflexivity.
  - apply elem_of_cons. left. reflexivity.
  - left. reflexivity.
  - reflexivity.
  - reflexivity.
Defined.

(** The same files where no setter raises: both interfaces are exported and
    the arrow function of the utilities file gets its return type. *)
Example exports_without_exception :
  let d := <["/app/UserManagementDashboard.types.ts" :=
               [Example.unexported "User" false; Example.unexported "FormData" false]]>
             Example.reconcileDisk in
  let r := runOn (AnalyzeTypes.main Example.env "/app") d in
  r.1 = Ok tt
  ∧ (exportedTypeNames ∘ load)
      <$> disk r.2 !! "/app/UserManagementDashboard.types.ts"
    = Some ["User"; "FormData"]
  ∧ (fmap (λ kd, AnalyzeTypes.arrowOf kd.2 ≫= af_returnTypeNode)
       ∘ AnalyzeTypes.getVariableDeclarations ∘ load)
      <$> disk r.2 !! "/app/UserManagementDashboard.utils.ts"
    = Some [Some "string"].
Proof. split_and!; vm_compute; reflexivity. Qed.

(** ** The five steps of the type reconciliation *)

Section Convergence.
Import AnalyzeTypes.

Lemma forEachCount_zero {A} (f : A → A * nat) (l l' : list A) :
  (∀ x, (f x).2 = 0%nat → (f x).1 = x) →
  forEachCount f l = (l', 0%nat) → l' = l.
Proof.
  intros Hf. revert l'. induction l as [|x l IH]; intros l' H; simpl in H.
  - by simplify_eq.
  - destruct (f x) as [x' c] eqn:Hx. destruct (forEachCount f l) as [r n] eqn:Hr.
    simplify_eq. assert (c = 0%nat ∧ n = 0%nat) as [-> ->] by lia.
    f_equal; [|by apply IH]. specialize (Hf x). rewrite Hx in Hf. by apply Hf.
Qed.

(** *** Parameters *)

Lemma addParameterType_zero (param : ParameterDeclaration) :
  (addParameterType param).2 = 0%nat → (addParameterType param).1 = param.
Proof.
  unfold addParameterType, setParameterType.
  by repeat (case_match; simplify_eq; simpl in * ).
Qed.

(** *** Functions *)

Lemma addFunctionReturnType_zero (func : FunctionDeclaration) :
  (addFunctionReturnType func).2 = 0%nat → (addFunctionReturnType func).1 = func.
Proof.
  unfold addFunctionReturnType, setFunctionReturnType.
  by repeat (case_match; simplify_eq; simpl in * ).
Qed.

Lemma addFunctionParameterTypes_fst (func : FunctionDeclaration) :
  (addFunctionParameterTypes func).1
  = withFunctionParameters func ((λ p, (addParameterType p).1) <$> fn_parameters func).
Proof.
  unfold addFunctionParameterTypes. rewrite <- forEachCount_fst.
  by destruct (forEachCount _ _).
Qed.

Lemma addFunctionParameterTypes_snd (func : FunctionDeclaration) :
  (addFunctionParameterTypes func).2
  = (forEachCount addParameterType (fn_parameters func)).2.
Proof. unfold addFunctionParameterTypes. by destruct (forEachCount _ _). Qed.

Lemma addFunctionParameterTypes_zero (func : FunctionDeclaration) :
  (addFunctionParameterTypes func).2 = 0%nat → (addFunctionParameterTypes func).1 = func.
Proof.
  rewrite addFunctionParameterTypes_snd, addFunctionParameterTypes_fst.
  rewrite <- forEachCount_fst. intros H0.
  rewrite (forEachCount_zero addParameterType (fn_parameters func)
             (forEachCount addParameterType (fn_parameters func)).1).
  - by destruct func.
  - apply addParameterType_zero.
  - rewrite <- H0. apply surjective_pairing.
Qed.

(** *** Variable declarations *)

Lemma addArrowReturnType_zero (decl : VariableDeclaration) :
  (addArrowReturnType decl).2 = 0%nat → (addArrowReturnType decl).1 = decl.
Proof.
  unfold addArrowReturnType, setReturnType.
  by repeat (case_match; simplify_eq; simpl in * ).
Qed.

Lemma addArrowParameterTypes_fst (decl : VariableDeclaration) :
  (addArrowParameterTypes decl).1
  = match vd_initializer decl with
    | Some (InitArrowFunction t func) =>
        withInitializer decl
          (InitArrowFunction t
             (withParameters func ((λ p, (addParameterType p).1) <$> af_parameters func)))
    | _ => decl
    end.
Proof.
  unfold addArrowParameterTypes.
  destruct (vd_initializer decl) as [[t f|t lit]|]; try done.
  rewrite <- forEachCount_fst. by destruct (forEachCount _ _).
Qed.

Lemma addArrowParameterTypes_snd (decl : VariableDeclaration) :
  (addArrowParameterTypes decl).2
  = match vd_initializer decl with
    | Some (InitArrowFunction t func) =>
        (forEachCount addParameterType (af_parameters func)).2
    | _ => 0%nat
    end.
Proof.
  unfold addArrowParameterTypes.
  destruct (vd_initializer decl) as [[t f|t lit]|]; try done.
  by destruct (forEachCount _ _).
Qed.

Lemma addArrowParameterTypes_zero (decl : VariableDeclaration) :
  (addArrowParameterTypes decl).2 = 0%nat → (addArrowParameterTypes decl).1 = decl.
Proof.
  rewrite addArrowParameterTypes_snd, addArrowParameterTypes_fst.
  destruct (vd_initializer decl) as [[t f|t lit]|] eqn:Hi; try done.
  rewrite <- forEachCount_fst. intros H0.
  rewrite (forEachCount_zero addParameterType (af_parameters f)
             (forEachCount addParameterType (af_parameters f)).1).
  - destruct decl, f. simpl in *. by rewrite Hi.
  - apply addParameterType_zero.
  - rewrite <- H0. apply surjective_pairing.
Qed.

Lemma fixAnyType_zero (decl : VariableDeclaration) :
  (fixAnyType decl).2 = 0%nat → (fixAnyType decl).1 = decl.
Proof.
  unfold fixAnyType, setType.
  by repeat (case_match; simplify_eq; simpl in * ).
Qed.

Lemma fixAnyType_keeps_initializer (decl : VariableDeclaration) :
  vd_initializer (fixAnyType decl).1 = vd_initializer decl.
Proof.
  unfold fixAnyType, setType.
  by repeat (case_match; simplify_eq; simpl in * ).
Qed.

Lemma improveDeclaration_zero (k : DeclarationKind) (decl : VariableDeclaration) :
  (improveDeclaration k decl).2 = 0%nat → (improveDeclaration k decl).1 = decl.
Proof.
  unfold improveDeclaration, setType.
  by repeat (case_match; simplify_eq; simpl in * ).
Qed.

Lemma improveDeclaration_keeps_initializer (k : DeclarationKind)
    (decl : VariableDeclaration) :
  vd_initializer (improveDeclaration k decl).1 = vd_initializer decl.
Proof.
  unfold improveDeclaration, setType.
  by repeat (case_match; simplify_eq; simpl in * ).
Qed.

(** *** The loops over a file *)

Lemma onDeclarations_zero
    (f : DeclarationKind → VariableDeclaration → VariableDeclaration * nat)
    (sf sf' : SourceFile) :
  (∀ k d, (f k d).2 = 0%nat → (f k d).1 = d) →
  onDeclarations f sf = (sf', 0%nat) → sf' = sf.
Proof.
  intros Hf. unfold onDeclarations. apply forEachCount_zero.
  intros n. destruct (stmt n) as [| |v| | |] eqn:Hs; try done.
  destruct (forEachCount (f (vs_kind v)) (vs_declarations v)) as [ds c] eqn:Hd.
  cbn [fst snd]. intros ->.
  apply forEachCount_zero in Hd; [|apply Hf]. subst ds.
  destruct n as [id s0]. simpl in *. subst s0. by destruct v.
Qed.

Lemma onFunctions_zero (g : FunctionDeclaration → FunctionDeclaration * nat)
    (sf sf' : SourceFile) :
  (∀ func, (g func).2 = 0%nat → (g func).1 = func) →
  onFunctions g sf = (sf', 0%nat) → sf' = sf.
Proof.
  intros Hg. unfold onFunctions. apply forEachCount_zero.
  intros n. destruct (stmt n) as [|func| | | |] eqn:Hs; try done.
  specialize (Hg func). destruct (g func) as [func' c]. cbn [fst snd] in *.
  intros ->. rewrite (Hg eq_refl). destruct n as [id s0]. simpl in *. by subst s0.
Qed.

Lemma forEachCountThrowing_zero {A} (f : A → Result (A * nat)) (l l' : list A) :
  (∀ x x', f x = Ok (x', 0%nat) → x' = x) →
  forEachCountThrowing f l = Ok (l', 0%nat) → l' = l.
Proof.
  intros Hf. revert l'. induction l as [|x l IH]; intros l' H; simpl in H.
  - by simplify_eq.
  - destruct (f x) as [[x' c]|e] eqn:Hx; [|done].
    destruct (forEachCountThrowing f l) as [[r n]|e] eqn:Hr; [|done].
    simplify_eq. assert (c = 0%nat ∧ n = 0%nat) as [-> ->] by lia.
    f_equal; [by apply Hf|by apply IH].
Qed.

Lemma forEachCountThrowing_elem_inv {A} (f : A → Result (A * nat)) (l l' : list A)
    (c : nat) (x' : A) :
  forEachCountThrowing f l = Ok (l', c) → x' ∈ l' →
  ∃ x k, x ∈ l ∧ f x = Ok (x', k).
Proof.
  revert l' c. induction l as [|y l IH]; intros l' c H Hx; simpl in H.
  - simplify_eq. by apply elem_of_nil in Hx.
  - destruct (f y) as [[y' k]|e] eqn:Hy; [|done].
    destruct (forEachCountThrowing f l) as [[r' m]|e] eqn:Hr; [|done].
    simplify_eq. apply elem_of_cons in Hx as [->|Hx].
    + exists y, k. split; [|done]. apply elem_of_cons. by left.
    + destruct (IH _ _ eq_refl Hx) as (x & k' & ? & ?).
      exists x, k'. split; [|done]. apply elem_of_cons. by right.
Qed.

(** *** Type exports *)

Lemma ensureExported_exported (t t' : TypeDeclaration) (k : nat) :
  ensureExported t = Ok (t', k) → isExported t' = true.
Proof.
  unfold ensureExported, setIsExported.
  destruct (isExported t) eqn:He; cbn [negb]; [by intros; simplify_eq|].
  destruct (td_setIsExportedThrows t); [done|]. intros; simplify_eq.
  unfold isExported, Js.startsWith. simpl. by destruct (td_text t).
Qed.

Lemma ensureExported_zero (t t' : TypeDeclaration) :
  ensureExported t = Ok (t', 0%nat) → t' = t.
Proof.
  unfold ensureExported, setIsExported.
  destruct (isExported t); cbn [negb]; [by intros; simplify_eq|].
  by destruct (td_setIsExportedThrows t).
Qed.

Local Abbreviation typesExported sf :=
  (∀ n t, n ∈ sf → stmt n = SInterface t ∨ stmt n = STypeAlias t → isExported t = true).

Lemma ensureInterfaceExports_inv (sf sf' : SourceFile) (c : nat) (n : Node) :
  ensureInterfaceExports sf = Ok (sf', c) → n ∈ sf' →
  match stmt n with SInterface t => isExported t = true | _ => n ∈ sf end.
Proof.
  intros H Hn.
  destruct (forEachCountThrowing_elem_inv _ _ _ _ _ H Hn) as (n0 & k & Hn0 & Hf).
  cbv beta in Hf. destruct (stmt n0) as [| | |t0| |] eqn:Hs0; simplify_eq;
    rewrite ?Hs0; try done.
  destruct (ensureExported t0) as [[t1 k1]|] eqn:He; simplify_eq. simpl.
  by eapply ensureExported_exported.
Qed.

Lemma ensureTypeAliasExports_inv (sf sf' : SourceFile) (c : nat) (n : Node) :
  ensureTypeAliasExports sf = Ok (sf', c) → n ∈ sf' →
  match stmt n with STypeAlias t => isExported t = true | _ => n ∈ sf end.
Proof.
  intros H Hn.
  destruct (forEachCountThrowing_elem_inv _ _ _ _ _ H Hn) as (n0 & k & Hn0 & Hf).
  cbv beta in Hf. destruct (stmt n0) as [| | | |t0|] eqn:Hs0; simplify_eq;
    rewrite ?Hs0; try done.
  destruct (ensureExported t0) as [[t1 k1]|] eqn:He; simplify_eq. simpl.
  by eapply ensureExported_exported.
Qed.

Lemma ensureTypeExports_exported (filePath : string) (sf sf1 : SourceFile) (c : nat) :
  Js.includesSubstring ".types.ts" filePath = true →
  ensureTypeExports filePath sf = Ok (sf1, c) →
  typesExported sf1.
Proof.
  intros Hp. unfold ensureTypeExports. rewrite Hp. cbn [negb].
  destruct (ensureInterfaceExports sf) as [[sfa ca]|e] eqn:Ha; [|done].
  destruct (ensureTypeAliasExports sfa) as [[sfb cb]|e] eqn:Hb; [|done].
  intros ? n t Hn Hs; simplify_eq.
  pose proof (ensureTypeAliasExports_inv _ _ _ _ Hb Hn) as H1.
  destruct Hs as [Hs|Hs]; rewrite Hs in H1; [|done].
  pose proof (ensureInterfaceExports_inv _ _ _ _ Ha H1) as H2.
  by rewrite Hs in H2.
Qed.

Lemma ensureTypeExports_zero (filePath : string) (sf sf' : SourceFile) :
  ensureTypeExports filePath sf = Ok (sf', 0%nat) → sf' = sf.
Proof.
  unfold ensureTypeExports. destruct (negb _); [by intros; simplify_eq|].
  destruct (ensureInterfaceExports sf) as [[sfa ca]|e] eqn:Ha; [|done].
  destruct (ensureTypeAliasExports sfa) as [[sfb cb]|e] eqn:Hb; [|done].
  intros; simplify_eq. assert (ca = 0%nat ∧ cb = 0%nat) as [-> ->] by lia.
  apply forEachCountThrowing_zero in Hb, Ha; [by subst|..].
  - intros n n'. destruct (stmt n) as [| | |t| |] eqn:Hs; try by intros; simplify_eq.
    destruct (ensureExported t) as [[t' k]|] eqn:He; [|done]. intros; simplify_eq.
    apply ensureExported_zero in He as ->. destruct n as [id s0]. simpl in *. by subst.
  - intros n n'. destruct (stmt n) as [| | | |t|] eqn:Hs; try by intros; simplify_eq.
    destruct (ensureExported t) as [[t' k]|] eqn:He; [|done]. intros; simplify_eq.
    apply ensureExported_zero in He as ->. destruct n as [id s0]. simpl in *. by subst.
Qed.

Lemma onDeclarations_typesExported
    (f : DeclarationKind → VariableDeclaration → VariableDeclaration * nat)
    (sf : SourceFile) :
  typesExported sf → typesExported (onDeclarations f sf).1.
Proof.
  intros H n t. rewrite onDeclarations_fst.
  intros (n0 & -> & Hn0)%list_elem_of_fmap Hs.
  assert (stmt n0 = SInterface t ∨ stmt n0 = STypeAlias t) as Hs'.
  { destruct (stmt n0) eqn:Hs0; simpl in Hs; rewrite ?Hs0 in Hs; try exact Hs.
    destruct Hs; discriminate. }
  by eapply H.
Qed.

Lemma onFunctions_typesExported (g : FunctionDeclaration → FunctionDeclaration * nat)
    (sf : SourceFile) :
  typesExported sf → typesExported (onFunctions g sf).1.
Proof.
  intros H n t. rewrite onFunctions_fst.
  intros (n0 & -> & Hn0)%list_elem_of_fmap Hs.
  assert (stmt n0 = SInterface t ∨ stmt n0 = STypeAlias t) as Hs'.
  { destruct (stmt n0) eqn:Hs0; simpl in Hs; rewrite ?Hs0 in Hs; try exact Hs.
    destruct Hs; discriminate. }
  by eapply H.
Qed.

(** *** The five steps *)

Lemma forEachCountThrowing_functions
    (f : Node → Result (Node * nat)) (sf sf' : SourceFile) (c : nat) :
  (∀ n n' k, f n = Ok (n', k) →
             match stmt n with SFunction _ => n' = n | _ =>
               match stmt n' with SFunction _ => False | _ => True end end) →
  forEachCountThrowing f sf = Ok (sf', c) →
  getFunctions sf' = getFunctions sf.
Proof.
  intros Hf. revert sf' c. induction sf as [|n sf IH]; intros sf' c H; simpl in H.
  - by simplify_eq.
  - destruct (f n) as [[n' k]|e] eqn:Hn; [|done].
    destruct (forEachCountThrowing f sf) as [[r' m]|e] eqn:Hr; [|done].
    simplify_eq. unfold getFunctions in *. cbn [omap list_omap].
    rewrite (IH _ _ eq_refl). specialize (Hf _ _ _ Hn).
    destruct (stmt n) eqn:Hs; try by (destruct (stmt n'); try done).
    by subst n'; rewrite Hs.
Qed.

Lemma ensureTypeExports_functions (filePath : string) (sf sf' : SourceFile) (c : nat) :
  ensureTypeExports filePath sf = Ok (sf', c) →
  getFunctions sf' = getFunctions sf.
Proof.
  unfold ensureTypeExports. destruct (negb _); [by intros; simplify_eq|].
  destruct (ensureInterfaceExports sf) as [[sf1 c1]|e] eqn:H1; [|done].
  destruct (ensureTypeAliasExports sf1) as [[sf2 c2]|e] eqn:H2; [|done].
  intros; simplify_eq.
  transitivity (getFunctions sf1).
  - eapply forEachCountThrowing_functions; [|exact H2].
    intros n n' k Hn. cbv beta in Hn.
    destruct (stmt n) eqn:Hs; simplify_eq; rewrite ?Hs; try done.
    by destruct (ensureExported _) as [[]|]; simplify_eq.
  - eapply forEachCountThrowing_functions; [|exact H1].
    intros n n' k Hn. cbv beta in Hn.
    destruct (stmt n) eqn:Hs; simplify_eq; rewrite ?Hs; try done.
    by destruct (ensureExported _) as [[]|]; simplify_eq.
Qed.

Lemma addParameterTypes_functions (sf : SourceFile) :
  getFunctions (addParameterTypes sf).1
  = (λ func, (addFunctionParameterTypes func).1) <$> getFunctions sf.
Proof.
  unfold addParameterTypes.
  destruct (onFunctions _ sf) as [sf1 c1] eqn:H1.
  destruct (onDeclarations _ sf1) as [sf2 c2] eqn:H2. simpl.
  change sf2 with (sf2, c2).1. rewrite <- H2, getFunctions_onDeclarations.
  change sf1 with (sf1, c1).1. by rewrite <- H1, getFunctions_onFunctions.
Qed.

(** The functions of a file after the five steps. *)
Lemma reconcile_functions (filePath : string) (sf sf' : SourceFile) (c : nat) :
  reconcile filePath sf = Ok (sf', c) →
  getFunctions sf'
  = (λ func, (addFunctionParameterTypes (addFunctionReturnType func).1).1)
      <$> getFunctions sf.
Proof.
  unfold reconcile.
  destruct (ensureTypeExports filePath sf) as [[sf1 c1]|e] eqn:H1; [|done].
  destruct (addReturnTypes sf1) as [sf2 c2] eqn:H2.
  destruct (addParameterTypes sf2) as [sf3 c3] eqn:H3.
  destruct (fixAnyTypes sf3) as [sf4 c4] eqn:H4.
  destruct (improveTypeSpecificity sf4) as [sf5 c5] eqn:H5.
  intros; simplify_eq.
  change sf' with (sf', c5).1. rewrite <- H5. unfold improveTypeSpecificity.
  rewrite getFunctions_onDeclarations.
  change sf4 with (sf4, c4).1. rewrite <- H4. unfold fixAnyTypes.
  rewrite getFunctions_onDeclarations.
  change sf3 with (sf3, c3).1. rewrite <- H3, addParameterTypes_functions.
  change sf2 with (sf2, c2).1. rewrite <- H2, addReturnTypes_functions.
  rewrite (ensureTypeExports_functions _ _ _ _ H1).
  rewrite <- !list_fmap_compose. by apply list_fmap_ext.
Qed.

Lemma reconcile_typesExported (filePath : string) (sf sf' : SourceFile) (c : nat) :
  Js.includesSubstring ".types.ts" filePath = true →
  reconcile filePath sf = Ok (sf', c) →
  typesExported sf'.
Proof.
  intros Hp. unfold reconcile.
  destruct (ensureTypeExports filePath sf) as [[sf1 c1]|e] eqn:H1; [|done].
  pose proof (ensureTypeExports_exported _ _ _ _ Hp H1) as Ht.
  unfold addReturnTypes, addParameterTypes, fixAnyTypes, improveTypeSpecificity.
  destruct (onDeclarations _ sf1) as [sf2a c2a] eqn:H2a.
  destruct (onFunctions _ sf2a) as [sf2 c2] eqn:H2.
  destruct (onFunctions _ sf2) as [sf3a c3a] eqn:H3a.
  destruct (onDeclarations _ sf3a) as [sf3 c3] eqn:H3.
  destruct (onDeclarations _ sf3) as [sf4 c4] eqn:H4.
  destruct (onDeclarations _ sf4) as [sf5 c5] eqn:H5.
  intros Heq; simplify_eq.
  change sf' with (sf', c5).1. rewrite <- H5. apply onDeclarations_typesExported.
  change sf4 with (sf4, c4).1. rewrite <- H4. apply onDeclarations_typesExported.
  change sf3 with (sf3, c3).1. rewrite <- H3. apply onDeclarations_typesExported.
  change sf3a with (sf3a, c3a).1. rewrite <- H3a. apply onFunctions_typesExported.
  change sf2 with (sf2, c2).1. rewrite <- H2. apply onFunctions_typesExported.
  change sf2a with (sf2a, c2a).1. rewrite <- H2a. apply onDeclarations_typesExported.
  exact Ht.
Qed.

(** A completed reconciliation that counts no fix has changed nothing. *)
Lemma reconcile_zero (filePath : string) (sf sf' : SourceFile) :
  reconcile filePath sf = Ok (sf', 0%nat) → sf' = sf.
Proof.
  unfold reconcile.
  destruct (ensureTypeExports filePath sf) as [[sf1 c1]|e] eqn:H1; [|done].
  unfold addReturnTypes, addParameterTypes, fixAnyTypes, improveTypeSpecificity.
  destruct (onDeclarations _ sf1) as [sf2a c2a] eqn:H2a.
  destruct (onFunctions _ sf2a) as [sf2 c2] eqn:H2.
  destruct (onFunctions _ sf2) as [sf3a c3a] eqn:H3a.
  destruct (onDeclarations _ sf3a) as [sf3 c3] eqn:H3.
  destruct (onDeclarations _ sf3) as [sf4 c4] eqn:H4.
  destruct (onDeclarations _ sf4) as [sf5 c5] eqn:H5.
  intros; simplify_eq.
  assert (c1 = 0 ∧ c2a = 0 ∧ c2 = 0 ∧ c3a = 0 ∧ c3 = 0 ∧ c4 = 0 ∧ c5 = 0)%nat
    as (-> & -> & -> & -> & -> & -> & ->) by lia.
  apply ensureTypeExports_zero in H1 as ->.
  apply onDeclarations_zero in H2a as ->; [|intros _; apply addArrowReturnType_zero].
  apply onFunctions_zero in H2 as ->; [|apply addFunctionReturnType_zero].
  apply onFunctions_zero in H3a as ->; [|apply addFunctionParameterTypes_zero].
  apply onDeclarations_zero in H3 as ->; [|intros _; apply addArrowParameterTypes_zero].
  apply onDeclarations_zero in H4 as ->; [|intros _; apply fixAnyType_zero].
  by apply onDeclarations_zero in H5 as ->; [|apply improveDeclaration_zero].
Qed.

(** *** Numbering *)









End Convergence.

(** ** The loops of a run of the type reconciliation *)

Section Loops.
Import AnalyzeTypes.
Variable env : Environment.

(** The trees the project holds are the files on disk, read. *)
Local Abbreviation agrees w :=
  (∀ p sf, project w !! p = Some sf →
           disk w !! p = Some (content sf) ∧ load (content sf) = sf).

(** Nothing exists at the path, or the project holds its file. *)
Local Abbreviation covered f w :=
  ((disk w !! (f : string) = None ∧ fsUnreadable env f = false)
   ∨ is_Some (project w !! (f : string))).








(** *** What a run can write, and how it can fail *)

Lemma keepsOnDisk_processFile (f p : string) :
  p ≠ f → keepsOnDisk p (processFile env f).
Proof.
  intros Hne. unfold processFile. apply keepsOnDisk_bind.
  { intros w r w' H. unfold existsSync in H. by simplify_eq. }
  intros found. destruct (negb found); [apply diskStable_keeps, diskStable_ret|].
  apply keepsOnDisk_bind.
  { apply diskStable_keeps, diskStable_addSourceFileAtPath. }
  intros _. apply keepsOnDisk_bind.
  { apply diskStable_keeps, diskStable_getFile. }
  intros sf. destruct (reconcile f sf) as [[sf' c]|e].
  - apply keepsOnDisk_bind.
    { apply diskStable_keeps, diskStable_modifyFile. }
    intros _. case_bool_decide.
    + by apply keepsOnDisk_saveSync.
    + apply diskStable_keeps, diskStable_ret.
  - apply diskStable_keeps, diskStable_throw.
Qed.

Lemma keepsOnDisk_processAllFiles (files : list string) (p : string) :
  p ∉ files → keepsOnDisk p (processAllFiles env files).
Proof.
  unfold processAllFiles. induction files as [|f files IH]; intros Hp; cbn [forEachM].
  - apply diskStable_keeps, diskStable_ret.
  - apply not_elem_of_cons in Hp as [Hne Hp].
    apply keepsOnDisk_bind; [by apply keepsOnDisk_processFile|]. intros _. by apply IH.
Qed.

Lemma diskStable_generateTypeCoverageReport (files : list string) :
  diskStable (generateTypeCoverageReport env files).
Proof.
  apply diskStable_forEachM. intros f. apply diskStable_bind.
  { intros w r w' H. unfold existsSync in H. by simplify_eq. }
  intros found. destruct (negb found);
    [apply diskStable_ret|apply diskStable_addSourceFileAtPath].
Qed.





End Loops.

(** ** What the type reconciliation keeps *)

Section Kept.
Import AnalyzeTypes.

Lemma typeDeclarations_fmap (g : Node → Node) (sf : SourceFile) :
  (∀ n, match stmt n with
        | SInterface _ | STypeAlias _ => g n = n
        | _ => match stmt (g n) with
               | SInterface _ | STypeAlias _ => False
               | _ => True
               end
        end) →
  interfaces (g <$> sf) = interfaces sf ∧ typeAliases (g <$> sf) = typeAliases sf.
Proof.
  intros Hg. unfold interfaces, typeAliases.
  induction sf as [|n sf [IH1 IH2]]; [done|].
  rewrite fmap_cons. cbn [omap list_omap]. rewrite IH1, IH2.
  specialize (Hg n). destruct (stmt n) eqn:Hs; rewrite ?Hg, ?Hs; try done;
    by destruct (stmt (g n)).
Qed.

Lemma typeDeclarations_onDeclarations
    (f : DeclarationKind → VariableDeclaration → VariableDeclaration * nat)
    (sf : SourceFile) :
  interfaces (onDeclarations f sf).1 = interfaces sf
  ∧ typeAliases (onDeclarations f sf).1 = typeAliases sf.
Proof.
  rewrite onDeclarations_fst. apply typeDeclarations_fmap.
  intros n. by destruct (stmt n) eqn:Hs; rewrite ?Hs.
Qed.

Lemma typeDeclarations_onFunctions (g : FunctionDeclaration → FunctionDeclaration * nat)
    (sf : SourceFile) :
  interfaces (onFunctions g sf).1 = interfaces sf
  ∧ typeAliases (onFunctions g sf).1 = typeAliases sf.
Proof.
  rewrite onFunctions_fst. apply typeDeclarations_fmap.
  intros n. by destruct (stmt n) eqn:Hs; rewrite ?Hs.
Qed.

(** Steps two to five leave interfaces and type aliases alone. *)
Lemma reconcile_typeDeclarations (filePath : string) (sf sf' : SourceFile) (c : nat) :
  reconcile filePath sf = Ok (sf', c) →
  ∃ sf1 c1, ensureTypeExports filePath sf = Ok (sf1, c1)
            ∧ interfaces sf' = interfaces sf1
            ∧ typeAliases sf' = typeAliases sf1.
Proof.
  unfold reconcile.
  destruct (ensureTypeExports filePath sf) as [[sf1 c1]|e] eqn:H1; [|done].
  unfold addReturnTypes, addParameterTypes, fixAnyTypes, improveTypeSpecificity.
  destruct (onDeclarations _ sf1) as [sf2a c2a] eqn:H2a.
  destruct (onFunctions _ sf2a) as [sf2 c2] eqn:H2.
  destruct (onFunctions _ sf2) as [sf3a c3a] eqn:H3a.
  destruct (onDeclarations _ sf3a) as [sf3 c3] eqn:H3.
  destruct (onDeclarations _ sf3) as [sf4 c4] eqn:H4.
  destruct (onDeclarations _ sf4) as [sf5 c5] eqn:H5.
  intros Heq; simplify_eq. exists sf1, c1. split; [done|].
  pose proof (typeDeclarations_onDeclarations (λ _, addArrowReturnType) sf1) as [I1 A1].
  rewrite H2a in I1, A1.
  pose proof (typeDeclarations_onFunctions addFunctionReturnType sf2a) as [I2 A2].
  rewrite H2 in I2, A2.
  pose proof (typeDeclarations_onFunctions addFunctionParameterTypes sf2) as [I3 A3].
  rewrite H3a in I3, A3.
  pose proof (typeDeclarations_onDeclarations (λ _, addArrowParameterTypes) sf3a) as [I4 A4].
  rewrite H3 in I4, A4.
  pose proof (typeDeclarations_onDeclarations (λ _, fixAnyType) sf3) as [I5 A5].
  rewrite H4 in I5, A5.
  pose proof (typeDeclarations_onDeclarations improveDeclaration sf4) as [I6 A6].
  rewrite H5 in I6, A6. cbn [fst] in *. split; congruence.
Qed.

(** What each callback leaves of a declaration. *)
Lemma addArrowReturnType_keeps_typeNode (decl : VariableDeclaration) :
  vd_typeNode (addArrowReturnType decl).1 = vd_typeNode decl.
Proof.
  unfold addArrowReturnType, setReturnType.
  by repeat (case_match; simplify_eq; simpl in * ).
Qed.

Lemma addArrowParameterTypes_keeps_typeNode (decl : VariableDeclaration) :
  vd_typeNode (addArrowParameterTypes decl).1 = vd_typeNode decl.
Proof.
  rewrite addArrowParameterTypes_fst. destruct (vd_initializer decl) as [[]|]; done.
Qed.

Lemma fixAnyType_keeps_typeNode (decl : VariableDeclaration) (t : string) :
  vd_typeNode decl = Some t → t ≠ "any" → vd_typeNode (fixAnyType decl).1 = Some t.
Proof.
  unfold fixAnyType. intros Hn Ht. rewrite Hn. by destruct (decide _).
Qed.

Lemma improveDeclaration_keeps_typeNode (k : DeclarationKind)
    (decl : VariableDeclaration) (t : string) :
  vd_typeNode decl = Some t → t ≠ "string" ∨ k ≠ KConst →
  vd_typeNode (improveDeclaration k decl).1 = Some t.
Proof.
  unfold improveDeclaration. intros Hn Ht. rewrite Hn.
  destruct (vd_initializer decl) as [init|]; [|done].
  destruct (decide _) as [->|]; [|done].
  destruct init as [|? [v|]]; try done. destruct k; try done. by destruct Ht.
Qed.

Lemma addArrowReturnType_keeps_returnType (decl : VariableDeclaration)
    (f : ArrowFunction) (t : string) :
  arrowOf decl = Some f → af_returnTypeNode f = Some t →
  addArrowReturnType decl = (decl, 0%nat).
Proof.
  unfold arrowOf, addArrowReturnType. intros Hf Ht.
  destruct (vd_initializer decl) as [[t0 f0|]|]; simplify_eq.
  rewrite Ht. by rewrite bool_decide_eq_true_2.
Qed.

Lemma addArrowParameterTypes_keeps_returnType (decl : VariableDeclaration)
    (f : ArrowFunction) (t : string) :
  arrowOf decl = Some f → af_returnTypeNode f = Some t →
  ∃ f', arrowOf (addArrowParameterTypes decl).1 = Some f'
        ∧ af_returnTypeNode f' = Some t.
Proof.
  rewrite addArrowParameterTypes_fst. unfold arrowOf. intros Hf Ht.
  destruct (vd_initializer decl) as [[t0 f0|]|]; simplify_eq.
  eexists. split; [reflexivity|done].
Qed.

Lemma addFunctionReturnType_keeps (func : FunctionDeclaration) (t : string) :
  fn_returnTypeNode func = Some t → addFunctionReturnType func = (func, 0%nat).
Proof.
  unfold addFunctionReturnType. intros ->. by rewrite bool_decide_eq_true_2.
Qed.

Lemma addParameterType_keeps (param : ParameterDeclaration) (t : string) :
  p_typeNode param = Some t → addParameterType param = (param, 0%nat).
Proof.
  unfold addParameterType. intros ->. by rewrite bool_decide_eq_true_2.
Qed.

(** The arrow function of a declaration after the four steps that visit it. *)
Lemma reconciled_arrow (k : DeclarationKind) (decl : VariableDeclaration)
    (f : ArrowFunction) :
  arrowOf decl = Some f →
  ∃ f', arrowOf (improveDeclaration k
                   (fixAnyType (addArrowParameterTypes (addArrowReturnType decl).1).1).1).1
        = Some f'
        ∧ af_parameters f' = (λ p, (addParameterType p).1) <$> af_parameters f
        ∧ ∀ t, af_returnTypeNode f = Some t → af_returnTypeNode f' = Some t.
Proof.
  intros Hf. unfold arrowOf in Hf.
  destruct (vd_initializer decl) as [[t0 f0|]|] eqn:Hi; simplify_eq.
  assert (∃ f1, vd_initializer (addArrowReturnType decl).1
                = Some (InitArrowFunction t0 f1)
                ∧ af_parameters f1 = af_parameters f
                ∧ ∀ t, af_returnTypeNode f = Some t → af_returnTypeNode f1 = Some t)
    as (f1 & H1 & Hp & Hr).
  { unfold addArrowReturnType, setReturnType. rewrite Hi.
    destruct (negb _) eqn:Hn; [|by exists f].
    destruct (_ && _); [|by exists f].
    destruct (af_setReturnTypeThrows f); [by exists f|].
    eexists. cbn. split; [reflexivity|]. split; [done|].
    intros t Ht. rewrite Ht in Hn. by rewrite bool_decide_eq_true_2 in Hn. }
  unfold arrowOf.
  rewrite improveDeclaration_keeps_initializer, fixAnyType_keeps_initializer.
  rewrite addArrowParameterTypes_fst, H1. cbn.
  eexists. split_and!; [reflexivity|cbn; by rewrite Hp|done].
Qed.

End Kept.

(** A reconciliation that completes and counts no fix has changed nothing:
    the file that [processFile] does not save is the file it read. *)
Theorem no_fix_counted_no_change (filePath : string) (sf sf' : SourceFile) :
  AnalyzeTypes.reconcile filePath sf = Ok (sf', 0%nat) → sf' = sf.
Proof. apply reconcile_zero. Qed.

Lemma no_fix_counted_no_change_witness :
  load Sample.typedFile = load Sample.typedFile.
Proof.
  symmetry.
  apply (no_fix_counted_no_change "/app/Counter.tsx" (load Sample.typedFile)).
  vm_compute. reflexivity.
Defined.

(** Whatever the outcome of a run, files other than the three it lists are
    on disk as they were. *)
Theorem only_the_listed_files_are_written
    (env : Environment) (componentsDir : string)
    (d : gmap string (list Statement)) (r : Result unit) (w' : World) (p : string) :
  runOn (AnalyzeTypes.main env componentsDir) d = (r, w') →
  p ∉ AnalyzeTypes.defaultFiles componentsDir →
  disk w' !! p = d !! p.
Proof.
  unfold runOn, AnalyzeTypes.main. intros H Hp.
  change (d !! p) with (disk {| project := ∅; disk := d |} !! p).
  revert H. apply keepsOnDisk_bind.
  - apply diskStable_keeps, diskStable_newProject.
  - intros _. apply keepsOnDisk_bind; [by apply keepsOnDisk_processAllFiles|].
    intros _. apply diskStable_keeps, diskStable_generateTypeCoverageReport.
Qed.

Lemma only_the_listed_files_are_written_witness :
  disk (runOn (AnalyzeTypes.main Example.env "/app")
          (<["/app/notes.ts" := Sample.typedFile]> Sample.exportDisk)).2
    !! "/app/notes.ts"
  = (<["/app/notes.ts" := Sample.typedFile]> Sample.exportDisk) !! "/app/notes.ts".
Proof.
  apply (only_the_listed_files_are_written Example.env "/app"
           (<["/app/notes.ts" := Sample.typedFile]> Sample.exportDisk)
           (runOn (AnalyzeTypes.main Example.env "/app")
              (<["/app/notes.ts" := Sample.typedFile]> Sample.exportDisk)).1).
  - apply surjective_pairing.
  - vm_compute. intros H. repeat (apply elem_of_cons in H as [H|H]; [discriminate H|]).
    by apply elem_of_nil in H.
Defined.



(** The reconciliation does not overwrite an annotation that is written out:
    a declared type other than [any] (and other than [string] on a [const]),
    a return type of a function or arrow function, and the type of a
    parameter are after a completed reconciliation what they were. *)
Theorem explicit_annotations_are_kept (filePath : string) (sf sf' : SourceFile) (c : nat) :
  AnalyzeTypes.reconcile filePath sf = Ok (sf', c) →
  (∀ i k decl t,
     AnalyzeTypes.getVariableDeclarations sf !! i = Some (k, decl) →
     vd_typeNode decl = Some t → t ≠ "any" → t ≠ "string" ∨ k ≠ KConst →
     ∃ decl', AnalyzeTypes.getVariableDeclarations sf' !! i = Some (k, decl')
              ∧ vd_typeNode decl' = Some t)
  ∧ (∀ i k decl f,
       AnalyzeTypes.getVariableDeclarations sf !! i = Some (k, decl) →
       AnalyzeTypes.arrowOf decl = Some f →
       ∃ decl' f',
         AnalyzeTypes.getVariableDeclarations sf' !! i = Some (k, decl')
         ∧ AnalyzeTypes.arrowOf decl' = Some f'
         ∧ (∀ t, af_returnTypeNode f = Some t → af_returnTypeNode f' = Some t)
         ∧ (∀ j param t, af_parameters f !! j = Some param →
                         p_typeNode param = Some t →
                         af_parameters f' !! j = Some param))
  ∧ (∀ i func,
       AnalyzeTypes.getFunctions sf !! i = Some func →
       ∃ func',
         AnalyzeTypes.getFunctions sf' !! i = Some func'
         ∧ (∀ t, fn_returnTypeNode func = Some t → fn_returnTypeNode func' = Some t)
         ∧ (∀ j param t, fn_parameters func !! j = Some param →
                         p_typeNode param = Some t →
                         fn_parameters func' !! j = Some param)).
Proof.
  intros H. split_and!.
  - intros i k decl t Hl Hn Hany Hstr.
    rewrite (reconcile_declarations _ _ _ _ H), list_lookup_fmap, Hl. cbn [fmap option_fmap option_map fst snd].
    eexists. split; [reflexivity|].
    apply improveDeclaration_keeps_typeNode; [|done].
    apply fixAnyType_keeps_typeNode; [|done].
    by rewrite addArrowParameterTypes_keeps_typeNode, addArrowReturnType_keeps_typeNode.
  - intros i k decl f Hl Hf.
    rewrite (reconcile_declarations _ _ _ _ H), list_lookup_fmap, Hl. cbn [fmap option_fmap option_map fst snd].
    destruct (reconciled_arrow k decl f Hf) as (f' & Hf' & Hps & Hret).
    eexists _, f'. split_and!; [reflexivity|done|done|].
    intros j param t Hj Ht. rewrite Hps, list_lookup_fmap, Hj. simpl.
    by rewrite (addParameterType_keeps _ _ Ht).
  - intros i func Hl.
    rewrite (reconcile_functions _ _ _ _ H), list_lookup_fmap, Hl. cbn [fmap option_fmap option_map].
    eexists. split_and!; [reflexivity|..].
    + intros t Ht. rewrite (addFunctionReturnType_keeps _ _ Ht). cbn [fst].
      by rewrite addFunctionParameterTypes_fst.
    + intros j param t Hj Ht. rewrite addFunctionParameterTypes_fst.
      cbn [AnalyzeTypes.withFunctionParameters fn_parameters].
      assert (fn_parameters (AnalyzeTypes.addFunctionReturnType func).1
              = fn_parameters func) as ->.
      { unfold AnalyzeTypes.addFunctionReturnType, AnalyzeTypes.setFunctionReturnType.
        by repeat (case_match; simplify_eq; simpl in * ). }
      rewrite list_lookup_fmap, Hj. simpl. by rewrite (addParameterType_keeps _ _ Ht).
Qed.

Lemma explicit_annotations_are_kept_witness :
  ∃ decl', AnalyzeTypes.getVariableDeclarations (load Sample.typedFile) !! 0%nat
           = Some (KLet, decl')
           ∧ vd_typeNode decl' = Some "number".
Proof.
  apply (proj1 (explicit_annotations_are_kept "/app/Counter.tsx"
                  (load Sample.typedFile) (load Sample.typedFile) 0%nat
                  ltac:(vm_compute; reflexivity))
           0%nat KLet Sample.countDeclaration "number").
  - reflexivity.
  - reflexivity.
  - discriminate.
  - left. discriminate.
Defined.

(** After a completed reconciliation every interface and type alias of a
    file whose path contains [.types.ts] is exported; in any other file the
    interfaces and type aliases are as they were. *)
Theorem types_are_exported_in_types_files_only
    (filePath : string) (sf sf' : SourceFile) (c : nat) :
  AnalyzeTypes.reconcile filePath sf = Ok (sf', c) →
  (Js.includesSubstring ".types.ts" filePath = true →
   ∀ t, t ∈ interfaces sf' ++ typeAliases sf' → isExported t = true)
  ∧ (Js.includesSubstring ".types.ts" filePath = false →
     interfaces sf' = interfaces sf ∧ typeAliases sf' = typeAliases sf).
Proof.
  intros H. split.
  - intros Hp t Ht.
    assert (∃ n, n ∈ sf' ∧ (stmt n = SInterface t ∨ stmt n = STypeAlias t))
      as (n & Hn & Hs).
    { apply elem_of_app in Ht as [Ht|Ht]; unfold interfaces, typeAliases in Ht;
        apply list_elem_of_omap in Ht as (n & Hn & Hs); exists n; split; try done;
        destruct (stmt n); simplify_eq; by eauto. }
    by eapply (reconcile_typesExported _ _ _ _ Hp H n).
  - intros Hp.
    destruct (reconcile_typeDeclarations _ _ _ _ H) as (sf1 & c1 & H1 & Hi & Ha).
    unfold AnalyzeTypes.ensureTypeExports in H1. rewrite Hp in H1.
    cbn [negb] in H1. by simplify_eq.
Qed.

Lemma types_are_exported_in_types_files_only_witness :
  Forall (λ t, isExported t = true)
    (interfaces (load [Sample.exported "User"])
       ++ typeAliases (load [Sample.exported "User"])).
Proof.
  apply Forall_forall.
  apply (proj1 (types_are_exported_in_types_files_only "/app/Dashboard.types.ts"
                  (load [Example.unexported "User" false])
                  (load [Sample.exported "User"]) 1%nat
                  ltac:(vm_compute; reflexivity))).
  vm_compute. reflexivity.
Defined.

(** An interface and a type alias that an export declaration of the types
    file names are exported already: nothing is fixed, nothing changes. *)
Example types_named_in_an_export_list_are_left :
  AnalyzeTypes.reconcile "/app/Dashboard.types.ts" (load Sample.listedTypes)
  = Ok (load Sample.listedTypes, 0%nat).
Proof. vm_compute. reflexivity. Qed.

(** ** The origin after the top-level pass *)

Section Pass1Exact.
Variable env : Environment.
Variable options : RefactorOptions.

Local Abbreviation target := (targetFile options).
Local Abbreviation ids cs := ((refId ∘ c_node) <$> cs).

Lemma filter_ext_elem {A} (P Q : A → Prop) `{!∀ x, Decision (P x)}
    `{!∀ x, Decision (Q x)} (l : list A) :
  (∀ x, x ∈ l → P x ↔ Q x) → filter P l = filter Q l.
Proof.
  induction l as [|x l IH]; intros Hext; [done|].
  rewrite !filter_cons.
  assert (P x ↔ Q x) as Hx by (apply Hext, elem_of_cons; by left).
  rewrite IH by (intros y Hy; apply Hext, elem_of_cons; by right).
  destruct (decide (P x)), (decide (Q x)); tauto.
Qed.

Lemma filter_all {A} (P : A → Prop) `{!∀ x, Decision (P x)} (l : list A) :
  (∀ x, x ∈ l → P x) → filter P l = l.
Proof.
  induction l as [|x l IH]; intros Hall; [done|].
  rewrite filter_cons_True by (apply Hall, elem_of_cons; by left).
  rewrite IH; [done|]. intros y Hy. apply Hall, elem_of_cons. by right.
Qed.

Lemma filter_filter_and {A} (P Q : A → Prop) `{!∀ x, Decision (P x)}
    `{!∀ x, Decision (Q x)} (l : list A) :
  filter P (filter Q l) = filter (λ x, P x ∧ Q x) l.
Proof.
  induction l as [|x l IH]; [done|]. rewrite !filter_cons.
  destruct (decide (Q x)); destruct (decide (P x ∧ Q x)) as [[]|Hn];
    rewrite ?filter_cons; try destruct (decide (P x)); try tauto; by rewrite IH.
Qed.

(** The second loop of [extractTypes] removes the nodes of the candidates
    that are type declarations, and no other node. *)
Lemma forEachM_removeTypeNode_exact (cs : list ExtractionCandidate) (w w' : World)
    (sf : SourceFile) :
  project w !! target = Some sf →
  NoDup (nid <$> sf) →
  forEachM (removeTypeNode options) cs w = (Ok tt, w') →
  w' = {| project :=
            <[target := filter (λ n, ¬ (isTypeStatement (stmt n) = true
                                        ∧ nid n ∈ ids cs)) sf]> (project w);
          disk := disk w |}.
Proof.
  revert w sf. induction cs as [|c cs IH]; intros w sf Hsf Hnd; simpl.
  - unfold ret. intros ?; simplify_eq. destruct w'. simpl in *. f_equal.
    rewrite filter_all; [by rewrite insert_id|].
    intros n _ [_ H]. by apply elem_of_nil in H.
  - intros ([] & w1 & H1 & H2)%bind_Ok_inv.
    unfold removeTypeNode in H1.
    apply bind_Ok_inv in H1 as (s & w0 & Hg & Hm).
    apply getNode_inv in Hg as [-> (sf0 & n0 & rest & Hsf0 & Hf & ->)].
    rewrite Hsf in Hsf0. simplify_eq.
    assert (n0 ∈ sf0 ∧ nid n0 = refId (c_node c)) as [Hn0 Hid0].
    { assert (n0 ∈ filter (λ n, nid n = refId (c_node c)) sf0) as Hin
        by (rewrite Hf; apply elem_of_cons; by left).
      by apply list_elem_of_filter in Hin as [? ?]. }
    assert (∀ n, n ∈ sf0 → nid n = refId (c_node c) → n = n0) as Huniq.
    { intros n Hn Hid. eapply NoDup_fmap_eq; [exact Hnd|done..|congruence]. }
    destruct (isTypeStatement (stmt n0)) eqn:Ht.
    + assert (modifyFile target (removeNode (refId (c_node c))) w = (Ok tt, w1)) as Hm'
        by (by destruct (stmt n0)).
      apply modifyFile_Ok in Hm' as (sf1 & Hsf1 & ->). rewrite Hsf in Hsf1. simplify_eq.
      eapply IH in H2; [|simpl; apply lookup_insert_eq|by apply NoDup_nid_removeNode].
      rewrite H2. simpl. rewrite insert_insert_eq. do 2 f_equal.
      unfold removeNode. rewrite filter_filter_and. apply filter_ext_elem.
      intros n Hn. rewrite elem_of_cons. simpl. split.
      * intros [H1 H2'] [Ht' [Hid|Hin]]; [done|]. by apply H1.
      * intros H. split.
        -- intros [Ht' Hin]. apply H. by eauto.
        -- intros Hid. apply H. split; [|by left].
           by rewrite (Huniq n Hn Hid).
    + assert (w1 = w) as -> by (destruct (stmt n0); unfold ret in Hm; by simplify_eq).
      eapply IH in H2; [|done..]. rewrite H2. do 2 f_equal.
      apply filter_ext_elem. intros n Hn. rewrite elem_of_cons. simpl. split.
      * intros H [Ht' [Hid|Hin]]; [|by apply H].
        rewrite (Huniq n Hn Hid) in Ht'. congruence.
      * intros H [Ht' Hin]. apply H. by eauto.
Qed.

(** The loop of [extractUtilities] removes the statements of its
    candidates, and returns their exported texts with the candidates' names. *)
Lemma mapM_moveUtility_exact (cs : list ExtractionCandidate) (w w' : World)
    (sf : SourceFile) (l : list (Statement * string)) :
  project w !! target = Some sf →
  NoDup (nid <$> sf) →
  mapM (moveUtility options) cs w = (Ok l, w') →
  w' = {| project := <[target := filter (λ n, nid n ∉ ids cs) sf]> (project w);
          disk := disk w |}
  ∧ Forall2 (λ c x, ∃ n, n ∈ sf ∧ nid n = refId (c_node c)
                         ∧ x = (withText
                                  (Js.replaceLeadingDeclKeyword "export const"
                                     (getText (stmt n)))
                                  (stmt n), c_name c)) cs l.
Proof.
  revert w sf l. induction cs as [|c cs IH]; intros w sf l Hsf Hnd; simpl.
  - unfold ret. intros ?; simplify_eq. split; [|done].
    destruct w'. simpl in *. f_equal.
    rewrite filter_all; [by rewrite insert_id|].
    intros n _ H. by apply elem_of_nil in H.
  - intros (x & w1 & H1 & H2)%bind_Ok_inv.
    unfold moveUtility in H1.
    apply bind_Ok_inv in H1 as (s & w0 & Hg & Hm).
    apply getNode_inv in Hg as [-> (sf0 & n0 & rest & Hsf0 & Hf & ->)].
    rewrite Hsf in Hsf0. simplify_eq.
    assert (n0 ∈ sf0 ∧ nid n0 = refId (c_node c)) as [Hn0 Hid0].
    { assert (n0 ∈ filter (λ n, nid n = refId (c_node c)) sf0) as Hin
        by (rewrite Hf; apply elem_of_cons; by left).
      by apply list_elem_of_filter in Hin as [? ?]. }
    destruct (c_node c) as [id|id i] eqn:Hc; [by unfold throw in Hm|].
    destruct (stmt n0) as [| |v| | |] eqn:Hs0; try (by unfold throw in Hm).
    apply bind_Ok_inv in Hm as ([] & w2 & Hm & Hr).
    apply modifyFile_Ok in Hm as (sf1 & Hsf1 & ->). rewrite Hsf in Hsf1.
    unfold ret in Hr. simplify_eq.
    apply bind_Ok_inv in H2 as (xs & w3 & H2 & Hr).
    unfold ret in Hr. simplify_eq.
    eapply IH in H2 as [-> Hxs];
      [|simpl; apply lookup_insert_eq|by apply NoDup_nid_removeNode].
    simpl. split.
    + rewrite insert_insert_eq. do 2 f_equal.
      unfold removeNode. rewrite filter_filter_and. apply filter_ext_elem.
      intros n Hn. rewrite not_elem_of_cons. simpl. tauto.
    + constructor.
      * exists n0. rewrite Hc, Hs0. by split_and!.
      * eapply Forall2_impl; [exact Hxs|]. intros c' x' (n & Hn & Hid & ->).
        exists n. split_and!; [|done..]. unfold removeNode in Hn.
        by apply list_elem_of_filter in Hn as [_ ?].
Qed.

Lemma mapM_exportedDeclaration_exact (cs : list ExtractionCandidate) (w w' : World)
    (sf : SourceFile) (decls : list Statement) :
  project w !! target = Some sf →
  mapM (exportedDeclaration options) cs w = (Ok decls, w') →
  Forall2 (λ c s, ∃ n, n ∈ sf ∧ nid n = refId (c_node c)
                       ∧ s = withText (exportedTypeText (getText (stmt n))) (stmt n))
    cs decls.
Proof.
  intros Hsf. revert decls. induction cs as [|c cs IH]; intros decls; simpl.
  - unfold ret. intros; simplify_eq. constructor.
  - intros (s & w1 & H1 & H2)%bind_Ok_inv.
    apply bind_Ok_inv in H2 as (ss & w2 & H2 & Hr). unfold ret in Hr. simplify_eq.
    unfold exportedDeclaration in H1.
    apply bind_Ok_inv in H1 as (s0 & w0 & Hg & Hr). unfold ret in Hr. simplify_eq.
    apply getNode_inv in Hg as [-> (sf0 & n0 & rest & Hsf0 & Hf & ->)].
    rewrite Hsf in Hsf0. simplify_eq.
    assert (n0 ∈ filter (λ n, nid n = refId (c_node c)) sf0) as Hin
      by (rewrite Hf; apply elem_of_cons; by left).
    apply list_elem_of_filter in Hin as [? ?].
    constructor; [by exists n0|by apply IH].
Qed.

Local Abbreviation typeCandidates cands := (filter isTypeCandidate cands).
Local Abbreviation utilCandidates cands := (filter (isUtilCandidate options) cands).

Local Abbreviation prunedOfTypes cands sf :=
  (filter (λ n, ¬ (isTypeStatement (stmt n) = true
                   ∧ nid n ∈ ids (typeCandidates cands))) sf).
Local Abbreviation prunedOfUtilities cands sf :=
  (filter (λ n, nid n ∉ ids (utilCandidates cands)) sf).

(** The world after [extractTypes] has extracted something. *)
Lemma extractTypes_exact (cands : list ExtractionCandidate) (w w' : World)
    (sf : SourceFile) :
  project w !! target = Some sf →
  NoDup (nid <$> sf) →
  typeCandidates cands ≠ [] →
  extractTypes env options cands w = (Ok tt, w') →
  ∃ decls,
    Forall2 (λ c s, ∃ n, n ∈ sf ∧ nid n = refId (c_node c)
                         ∧ s = withText (exportedTypeText (getText (stmt n))) (stmt n))
      (typeCandidates cands) decls
    ∧ typesFile options ≠ target
    ∧ w' = {| project :=
                <[target := addOrUpdateNamedImport
                              (toModuleSpecifier env target (typesFile options))
                              (c_name <$> typeCandidates cands)
                              (prunedOfTypes cands sf)]>
                  (<[typesFile options := load (typesHeader ++ decls)]> (project w));
              disk := <[typesFile options := typesHeader ++ decls]> (disk w) |}.
Proof.
  intros Hsf Hnd Hne. unfold extractTypes.
  rewrite bool_decide_eq_false_2 by (by destruct (typeCandidates cands)).
  intros ([] & w1 & H1 & H2)%bind_Ok_inv.
  unfold createSourceFile in H1. simplify_eq.
  apply bind_Ok_inv in H2 as (decls & w2 & H2 & H3).
  assert (typesFile options ≠ target) as Hpath.
  { destruct (typeCandidates cands) as [|c cs] eqn:Hcs; [done|].
    pose proof (mapM_exportedDeclaration_live _ _ _ _ _ _ H2) as (sf1 & Hsf1 & Hne1).
    simpl in Hsf1. intros Heq. rewrite Heq, lookup_insert_eq in Hsf1. by simplify_eq. }
  pose proof (mapM_exportedDeclaration _ _ _ _ _ H2) as ->.
  eapply mapM_exportedDeclaration_exact in H2 as Hdecls;
    [|simpl; by rewrite lookup_insert_ne].
  apply bind_Ok_inv in H3 as ([] & w3 & H3 & H4).
  unfold createSourceFile in H3. simplify_eq.
  apply bind_Ok_inv in H4 as ([] & w4 & H4 & H5).
  eapply forEachM_removeTypeNode_exact in H4;
    [| |exact Hnd]; [|simpl; by rewrite !lookup_insert_ne].
  subst w4.
  apply bind_Ok_inv in H5 as ([] & w5 & H5 & H6).
  rewrite bool_decide_eq_true_2 in H5
    by (rewrite length_fmap; destruct (typeCandidates cands); simpl; [done|lia]).
  apply modifyFile_Ok in H5 as (sf5 & Hsf5 & ->).
  simpl in Hsf5. rewrite lookup_insert_eq in Hsf5. simplify_eq.
  apply saveSync_Ok in H6 as (Hw & sf6 & Hsf6 & ->). simpl in *.
  rewrite lookup_insert_ne, lookup_insert_ne, lookup_insert_eq in Hsf6 by done.
  simplify_eq. exists decls. split_and!; [done..|].
  rewrite content_load. f_equal.
  by rewrite !insert_insert_eq.
Qed.

(** The type-only import that [extractUtilities] writes, given the tree
    the project holds at the types path. *)
Local Abbreviation typeImport typesTree :=
  (match typesTree with
   | Some tsf =>
       if bool_decide (0 < length (exportedTypeNames tsf))%nat
       then [SImport {| imp_moduleSpecifier :=
                          toModuleSpecifier env (utilsFile options) (typesFile options);
                        imp_namedImports := exportedTypeNames tsf;
                        imp_text :=
                          typeImportText (exportedTypeNames tsf)
                            (toModuleSpecifier env (utilsFile options)
                               (typesFile options)) |};
             SOther ""]
       else []
   | None => []
   end).

(** The world after [extractUtilities] has extracted something. *)
Lemma extractUtilities_exact (cands : list ExtractionCandidate) (w w' : World)
    (sf : SourceFile) :
  project w !! target = Some sf →
  NoDup (nid <$> sf) →
  utilCandidates cands ≠ [] →
  extractUtilities env options cands w = (Ok tt, w') →
  ∃ stmts,
    Forall2 (λ c s, ∃ n, n ∈ sf ∧ nid n = refId (c_node c)
                         ∧ s = withText
                                 (Js.replaceLeadingDeclKeyword "export const"
                                    (getText (stmt n)))
                                 (stmt n))
      (utilCandidates cands) stmts
    ∧ utilsFile options ≠ target
    ∧ let imp := typeImport ((<[target := prunedOfUtilities cands sf]>
                                (<[utilsFile options := load []]> (project w)))
                               !! typesFile options) in
      w' = {| project :=
                <[target := addOrUpdateNamedImport
                              (toModuleSpecifier env target (utilsFile options))
                              (c_name <$> utilCandidates cands)
                              (prunedOfUtilities cands sf)]>
                  (<[utilsFile options := load (utilsHeader ++ imp ++ stmts)]>
                     (project w));
              disk := <[utilsFile options := utilsHeader ++ imp ++ stmts]> (disk w) |}.
Proof.
  intros Hsf Hnd Hne. unfold extractUtilities.
  rewrite bool_decide_eq_false_2 by (by destruct (utilCandidates cands)).
  intros ([] & w1 & H1 & H2)%bind_Ok_inv.
  unfold createSourceFile in H1. simplify_eq.
  apply bind_Ok_inv in H2 as (extracted & w2 & H2 & H3).
  assert (utilsFile options ≠ target) as Hpath.
  { destruct (utilCandidates cands) as [|c cs] eqn:Hcs; [done|].
    pose proof H2 as Hlive.
    apply mapM_moveUtility_live in Hlive as (sf1 & Hsf1 & Hne1).
    simpl in Hsf1. intros Heq. rewrite Heq, lookup_insert_eq in Hsf1. by simplify_eq. }
  eapply mapM_moveUtility_exact in H2 as [Hw2 Hex];
    [| |exact Hnd]; [|simpl; by rewrite lookup_insert_ne].
  subst w2.
  assert (snd <$> extracted = c_name <$> utilCandidates cands) as Hnames.
  { clear -Hex. induction Hex as [|c x cs xs (n & _ & _ & ->) _ IH]; [done|].
    rewrite !fmap_cons. by rewrite IH. }
  assert (Forall2 (λ c s, ∃ n, n ∈ sf ∧ nid n = refId (c_node c)
                               ∧ s = withText
                                       (Js.replaceLeadingDeclKeyword "export const"
                                          (getText (stmt n)))
                                       (stmt n))
            (utilCandidates cands) (fst <$> extracted)) as Hstmts.
  { clear -Hex. induction Hex as [|c x cs xs (n & ? & ? & ->) _ IH]; [constructor|].
    rewrite fmap_cons. constructor; [by exists n|done]. }
  cbv zeta.
  apply bind_Ok_inv in H3 as (typeNames & w3 & H3 & H4).
  unfold getExportedTypeNames, bind, getSourceFile in H3. cbn [project disk] in H3.
  assert (∀ names,
            (createSourceFile (utilsFile options) names ;;
             (if bool_decide (0 < length extracted.*2)%nat
              then modifyFile target
                     (addOrUpdateNamedImport
                        (toModuleSpecifier env target (utilsFile options)) extracted.*2)
              else ret tt) ;;
             saveSync env (utilsFile options))
              {| project := <[target := prunedOfUtilities cands sf]>
                              (<[utilsFile options := load []]> (project w));
                 disk := disk w |} = (Ok tt, w') →
            w' = {| project :=
                      <[target := addOrUpdateNamedImport
                                    (toModuleSpecifier env target (utilsFile options))
                                    (c_name <$> utilCandidates cands)
                                    (prunedOfUtilities cands sf)]>
                        (<[utilsFile options := load names]> (project w));
                    disk := <[utilsFile options := names]> (disk w) |}) as Hrest.
  { intros names H5.
    apply bind_Ok_inv in H5 as ([] & w4 & H5 & H6).
    unfold createSourceFile in H5. simplify_eq.
    apply bind_Ok_inv in H6 as ([] & w5 & H6 & H7).
    rewrite bool_decide_eq_true_2 in H6
      by (rewrite Hnames, length_fmap; destruct (utilCandidates cands); simpl; [done|lia]).
    apply modifyFile_Ok in H6 as (sf5 & Hsf5 & ->).
    simpl in Hsf5. rewrite lookup_insert_ne, lookup_insert_eq in Hsf5 by done.
    simplify_eq.
    apply saveSync_Ok in H7 as (Hw & sf6 & Hsf6 & ->). simpl in *.
    rewrite lookup_insert_ne, lookup_insert_eq in Hsf6 by done. simplify_eq.
    rewrite content_load, Hnames. f_equal.
    apply map_eq. intros k.
    destruct (decide (k = target)) as [->|]; [by rewrite !lookup_insert_eq|].
    rewrite !(lookup_insert_ne _ target) by done.
    destruct (decide (k = utilsFile options)) as [->|].
    - by rewrite !lookup_insert_eq.
    - by repeat (rewrite lookup_insert_ne by done). }
  exists (fst <$> extracted). split_and!; [done..|].
  destruct (_ !! typesFile options) as [tsf|]; unfold ret in H3; simplify_eq;
    by apply Hrest.
Qed.

Lemma extractTypes_nothing (cands : list ExtractionCandidate) (w : World) :
  typeCandidates cands = [] → extractTypes env options cands w = (Ok tt, w).
Proof. unfold extractTypes. by intros ->. Qed.

Lemma extractUtilities_nothing (cands : list ExtractionCandidate) (w : World) :
  utilCandidates cands = [] → extractUtilities env options cands w = (Ok tt, w).
Proof. unfold extractUtilities. by intros ->. Qed.

(** The tree of the origin after the two extraction steps. *)
Local Abbreviation afterTypes cands sf :=
  (if decide (typeCandidates cands = []) then sf
   else addOrUpdateNamedImport
          (toModuleSpecifier env target (typesFile options))
          (c_name <$> typeCandidates cands)
          (prunedOfTypes cands sf)).
Local Abbreviation afterUtilities cands sf :=
  (if decide (utilCandidates cands = []) then sf
   else addOrUpdateNamedImport
          (toModuleSpecifier env target (utilsFile options))
          (c_name <$> utilCandidates cands)
          (prunedOfUtilities cands sf)).

Lemma NoDup_nid_filter_any (P : Node → Prop) `{!∀ n, Decision (P n)} (sf : SourceFile) :
  NoDup (nid <$> sf) → NoDup (nid <$> filter P sf).
Proof.
  intros Hnd. eapply sublist_NoDup; [done|]. apply fmap_sublist, sublist_filter.
Qed.

(** A completed run of the top-level pass saves the origin as the tree that
    the two extraction steps leave. *)
Lemma main_Ok_exact (d : gmap string (list Statement)) (w' : World)
    (l0 : list Statement) :
  runOn (main env options) d = (Ok tt, w') →
  d !! target = Some l0 →
  disk w' !! target
  = Some (content
            (afterUtilities (analyze options (load l0))
               (afterTypes (analyze options (load l0)) (load l0)))).
Proof.
  unfold runOn, main. intros H Hl0.
  apply bind_Ok_inv in H as ([] & w1 & H1 & H2).
  apply newTSXRefactorer_inv in H1 as [Hd1 (l & Hl & Hp1)]. simpl in Hl.
  rewrite Hl0 in Hl. simplify_eq.
  apply bind_Ok_inv in H2 as (cands & w2 & H2 & H3).
  apply analyzeFile_inv in H2 as [-> Hc]. specialize (Hc _ Hp1). simplify_eq.
  apply bind_Ok_inv in H3 as ([] & w3 & H3 & H4).
  apply bind_Ok_inv in H4 as ([] & w4 & H4 & H5).
  set (cands := analyze options (load l)) in *.
  assert (project w3 !! target = Some (afterTypes cands (load l))
          ∧ NoDup (nid <$> afterTypes cands (load l))) as [Hp3 Hnd3].
  { destruct (decide (typeCandidates cands = [])) as [He|Hne].
    - rewrite extractTypes_nothing in H3 by done. simplify_eq.
      split; [done|apply NoDup_nid_load].
    - eapply extractTypes_exact in H3 as (decls & _ & _ & ->);
        [|done|apply NoDup_nid_load|done].
      simpl. split; [by rewrite lookup_insert_eq|].
      apply addOrUpdateNamedImport_NoDup, NoDup_nid_filter_any, NoDup_nid_load. }
  assert (project w4 !! target
          = Some (afterUtilities cands (afterTypes cands (load l)))) as Hp4.
  { destruct (decide (utilCandidates cands = [])) as [He|Hne].
    - rewrite extractUtilities_nothing in H4 by done. by simplify_eq.
    - eapply extractUtilities_exact in H4 as (stmts & _ & _ & ->); [|done..].
      simpl. by rewrite lookup_insert_eq. }
  apply saveSync_Ok in H5 as (Hw & sf5 & Hp5 & ->). rewrite Hp4 in Hp5. simplify_eq.
  simpl. by rewrite lookup_insert_eq.
Qed.

End Pass1Exact.

(** ** Imports of the origin *)

Section Imports.

Local Abbreviation newImport m names sf :=
  {| nid := freshId sf;
     stmt := SImport {| imp_moduleSpecifier := m; imp_namedImports := names;
                        imp_text := printImport m names |} |}.

Lemma addImportDeclaration_elem_iff (m : string) (names : list string)
    (sf : SourceFile) (n : Node) :
  n ∈ addImportDeclaration m names sf ↔ n = newImport m names sf ∨ n ∈ sf.
Proof.
  unfold addImportDeclaration. rewrite elem_of_app, elem_of_cons. split.
  - intros [H|[->|H]]; [right|by left|right].
    + eapply elem_of_sublist; [done|apply sublist_take].
    + eapply elem_of_sublist; [done|apply sublist_drop].
  - intros [->|H]; [by right; left|].
    rewrite <- (take_drop (importInsertIndex sf) sf) in H.
    apply elem_of_app in H as [H|H]; [by left|by right; right].
Qed.

(** The names a tree imports, by node. *)
Lemma importedNames_elem (sf : SourceFile) (x : string) :
  x ∈ importedNames (content sf)
  ↔ ∃ n i, n ∈ sf ∧ stmt n = SImport i ∧ x ∈ imp_namedImports i.
Proof.
  unfold importedNames, content. rewrite list_elem_of_bind. split.
  - intros (s & Hx & (n & -> & Hn)%list_elem_of_fmap).
    destruct (stmt n) as [i| | | | |] eqn:Hs; try by apply elem_of_nil in Hx.
    by exists n, i.
  - intros (n & i & Hn & Hs & Hx). exists (stmt n). rewrite Hs. split; [done|].
    rewrite <- Hs. by apply list_elem_of_fmap_2.
Qed.

Lemma getImportDeclaration_Some (m : string) (sf : SourceFile) (id : nat)
    (i : ImportDeclaration) :
  getImportDeclaration m sf = Some (id, i) →
  ∃ n, n ∈ sf ∧ nid n = id ∧ stmt n = SImport i.
Proof.
  unfold getImportDeclaration.
  destruct (filter _ sf) as [|n rest] eqn:Hf; [done|].
  assert (n ∈ filter (λ n, isImportFor m n = true) sf) as Hn
    by (rewrite Hf; apply elem_of_cons; by left).
  apply list_elem_of_filter in Hn as [_ Hn].
  destruct (stmt n) eqn:Hs; intros; simplify_eq. by exists n.
Qed.

(** The names passed to [addOrUpdateNamedImport] are imported afterwards, by
    a node that is younger than every node of the tree that is not itself
    an import. *)
Lemma addOrUpdateNamedImport_new (m : string) (names : list string) (sf : SourceFile)
    (x : string) :
  NoDup (nid <$> sf) → x ∈ names →
  ∃ n i, n ∈ addOrUpdateNamedImport m names sf
         ∧ stmt n = SImport i ∧ x ∈ imp_namedImports i
         ∧ ∀ n1, n1 ∈ sf → isImport n1 = false → (nid n1 < nid n)%nat.
Proof.
  intros Hnd Hx. unfold addOrUpdateNamedImport.
  destruct (getImportDeclaration m sf) as [[id i0]|] eqn:Hg.
  - eexists _, _. split_and!.
    + apply addImportDeclaration_elem_iff. by left.
    + reflexivity.
    + simpl. apply arrayFromSet_elem, elem_of_app. by right.
    + intros n1 Hn1 Hi1. simpl. apply freshId_gt, list_elem_of_fmap_2.
      unfold removeNode. apply list_elem_of_filter. split; [|done].
      apply getImportDeclaration_Some in Hg as (n0 & Hn0 & <- & Hs0).
      intros Heq. assert (n1 = n0) as -> by (by eapply NoDup_fmap_eq).
      unfold isImport in Hi1. by rewrite Hs0 in Hi1.
  - eexists _, _. split_and!.
    + apply addImportDeclaration_elem_iff. by left.
    + reflexivity.
    + done.
    + intros n1 Hn1 _. simpl. by apply freshId_gt, list_elem_of_fmap_2.
Qed.

(** A name that is imported is imported still. *)
Lemma addOrUpdateNamedImport_keeps_names (m : string) (names : list string)
    (sf : SourceFile) (x : string) :
  NoDup (nid <$> sf) →
  x ∈ importedNames (content sf) →
  x ∈ importedNames (content (addOrUpdateNamedImport m names sf)).
Proof.
  intros Hnd. rewrite !importedNames_elem. intros (n & i & Hn & Hs & Hx).
  unfold addOrUpdateNamedImport.
  destruct (getImportDeclaration m sf) as [[id i0]|] eqn:Hg.
  - apply getImportDeclaration_Some in Hg as (n0 & Hn0 & <- & Hs0).
    destruct (decide (nid n = nid n0)) as [Heq|Hne].
    + assert (n = n0) as -> by (by eapply NoDup_fmap_eq).
      rewrite Hs in Hs0. injection Hs0 as <-.
      eexists _, _. split_and!.
      * apply addImportDeclaration_elem_iff. by left.
      * reflexivity.
      * simpl. apply arrayFromSet_elem, elem_of_app. by left.
    + exists n, i. split_and!; [|done..].
      apply addImportDeclaration_elem_iff. right.
      unfold removeNode. apply list_elem_of_filter. by split.
  - exists n, i. split_and!; [|done..].
    apply addImportDeclaration_elem_iff. by right.
Qed.

(** A node that is no import is where it was. *)
Lemma addOrUpdateNamedImport_keeps_node (m : string) (names : list string)
    (sf : SourceFile) (n : Node) :
  NoDup (nid <$> sf) → n ∈ sf → isImport n = false →
  n ∈ addOrUpdateNamedImport m names sf.
Proof.
  intros Hnd Hn Hi. unfold addOrUpdateNamedImport.
  destruct (getImportDeclaration m sf) as [[id i0]|] eqn:Hg.
  - apply addImportDeclaration_elem_iff. right.
    unfold removeNode. apply list_elem_of_filter. split; [|done].
    apply getImportDeclaration_Some in Hg as (n0 & Hn0 & <- & Hs0).
    intros Heq. assert (n = n0) as -> by (by eapply NoDup_fmap_eq).
    unfold isImport in Hi. by rewrite Hs0 in Hi.
  - apply addImportDeclaration_elem_iff. by right.
Qed.

End Imports.

(** ** What the top-level pass moves, keeps and imports *)

Section Pass1Results.
Variable env : Environment.
Variable options : RefactorOptions.

Local Abbreviation target := (targetFile options).
Local Abbreviation ids cs := ((refId ∘ c_node) <$> cs).
Local Abbreviation typeCandidates cands := (filter isTypeCandidate cands).
Local Abbreviation utilCandidates cands := (filter (isUtilCandidate options) cands).

(** The node of a candidate. *)
Lemma typeCandidate_node (sf : SourceFile) (c : ExtractionCandidate) :
  c ∈ analyze options sf → isTypeCandidate c →
  ∃ n, n ∈ sf ∧ refId (c_node c) = nid n ∧ isTypeStatement (stmt n) = true
       ∧ ∃ t, (stmt n = SInterface t ∨ stmt n = STypeAlias t) ∧ c_name c = td_name t.
Proof.
  intros (n & Hn & Hc)%analyze_elem Ht. exists n. split; [done|].
  apply nodeCandidates_elem in Hc. unfold isTypeCandidate in Ht.
  destruct (stmt n) as [|func|v|t|t|] eqn:Hs; try done.
  - destruct Hc as (_ & Hty & _). rewrite Hty in Ht. by destruct Ht.
  - apply declarationCandidates_elem in Hc as (i & decl & _ & _ & ->).
    simpl in Ht. by destruct Ht.
  - subst c. simpl. split_and!; try done. exists t. by eauto.
  - subst c. simpl. split_and!; try done. exists t. by eauto.
Qed.

Lemma utilCandidate_node (sf : SourceFile) (c : ExtractionCandidate) :
  c ∈ analyze options sf → isUtilCandidate options c →
  ∃ n, n ∈ sf ∧ refId (c_node c) = nid n
       ∧ isImport n = false ∧ isTypeStatement (stmt n) = false
       ∧ hasUtilDeclaration options (stmt n) = true.
Proof.
  intros (n & Hn & Hc)%analyze_elem [Ht Hp]. exists n. split; [done|].
  apply nodeCandidates_elem in Hc. unfold isImport.
  destruct (stmt n) as [|func|v|t|t|] eqn:Hs; try done.
  - destruct Hc as (_ & Hty & _). by rewrite Hty in Ht.
  - apply declarationCandidates_elem in Hc as (i & decl & Hl & Hlines & ->).
    simpl in *. split_and!; try done.
    apply existsb_exists. exists decl. split.
    + apply list_elem_of_In. by eapply list_elem_of_lookup_2.
    + unfold utilDeclaration. by rewrite bool_decide_eq_true_2, Hp.
  - subst c. by simpl in Ht.
  - subst c. by simpl in Ht.
Qed.

Lemma content_filter (P : Statement → Prop) `{!∀ s, Decision (P s)} (sf : SourceFile) :
  content (filter (λ n, P (stmt n)) sf) = filter P (content sf).
Proof.
  unfold content. induction sf as [|n sf IH]; [done|].
  rewrite fmap_cons, !filter_cons.
  destruct (decide (P (stmt n))); by rewrite ?fmap_cons, IH.
Qed.

(** The import step moves no statement that is not an import. *)
Lemma addOrUpdateNamedImport_untouched (m : string) (names : list string)
    (sf : SourceFile) :
  NoDup (nid <$> sf) →
  filter (λ n, untouched options (stmt n) = true) (addOrUpdateNamedImport m names sf)
  = filter (λ n, untouched options (stmt n) = true) sf.
Proof.
  intros Hnd.
  assert (∀ ns sf0, filter (λ n, untouched options (stmt n) = true)
                      (addImportDeclaration m ns sf0)
                    = filter (λ n, untouched options (stmt n) = true) sf0) as Hadd.
  { intros ns sf0. unfold addImportDeclaration.
    rewrite filter_app, filter_cons_False by (simpl; done).
    by rewrite <- filter_app, take_drop. }
  unfold addOrUpdateNamedImport.
  destruct (getImportDeclaration m sf) as [[id i0]|] eqn:Hg; [|apply Hadd].
  rewrite Hadd. unfold removeNode. rewrite filter_filter_and.
  apply filter_ext_elem. intros n Hn. split; [by intros [? _]|]. intros Hu. split; [done|].
  apply getImportDeclaration_Some in Hg as (n0 & Hn0 & <- & Hs0).
  intros Heq. assert (n = n0) as -> by (by eapply NoDup_fmap_eq).
  by rewrite Hs0 in Hu.
Qed.

Local Abbreviation untouchedNode := (λ n : Node, untouched options (stmt n) = true).

Lemma untouched_not_import (n : Node) : untouchedNode n → isImport n = false.
Proof. unfold untouched, isImport, isImportStatement. by destruct (stmt n). Qed.

(** Pruning the type candidates and adding their import moves no statement
    that the pass has no reason to touch. *)
Lemma afterTypes_untouched (cands : list ExtractionCandidate) (sf : SourceFile) :
  NoDup (nid <$> sf) →
  filter untouchedNode
    (addOrUpdateNamedImport (toModuleSpecifier env target (typesFile options))
       (c_name <$> typeCandidates cands)
       (filter (λ n, ¬ (isTypeStatement (stmt n) = true
                        ∧ nid n ∈ ids (typeCandidates cands))) sf))
  = filter untouchedNode sf.
Proof.
  intros Hnd. rewrite addOrUpdateNamedImport_untouched by by apply NoDup_nid_filter_any.
  rewrite filter_filter_and. apply filter_ext_elem.
  intros n Hn. split; [by intros [? _]|]. intros Hu. split; [done|].
  intros [Ht _]. unfold untouched in Hu. rewrite Ht in Hu.
  by rewrite andb_false_r in Hu.
Qed.

Lemma afterUtilities_untouched (sf0 sf : SourceFile) :
  NoDup (nid <$> sf0) → NoDup (nid <$> sf) →
  (∀ n, n ∈ sf → isImport n = true ∨ n ∈ sf0) →
  filter untouchedNode
    (addOrUpdateNamedImport (toModuleSpecifier env target (utilsFile options))
       (c_name <$> utilCandidates (analyze options sf0))
       (filter (λ n, nid n ∉ ids (utilCandidates (analyze options sf0))) sf))
  = filter untouchedNode sf.
Proof.
  intros Hnd0 Hnd Hsf.
  rewrite addOrUpdateNamedImport_untouched by by apply NoDup_nid_filter_any.
  rewrite filter_filter_and. apply filter_ext_elem.
  intros n Hn. split; [by intros [? _]|]. intros Hu. split; [done|].
  intros (c & Hid & Hc)%list_elem_of_fmap. simpl in Hid.
  apply list_elem_of_filter in Hc as [Hutil Hc].
  destruct (utilCandidate_node _ _ Hc Hutil) as (n1 & Hn1 & Hid1 & _ & _ & Hu1).
  destruct (Hsf n Hn) as [Hi|Hn0].
  { rewrite (untouched_not_import _ Hu) in Hi. done. }
  assert (n = n1) as -> by (eapply NoDup_fmap_eq; [exact Hnd0|done..|congruence]).
  unfold untouched in Hu. rewrite Hu1 in Hu. by rewrite andb_false_r in Hu.
Qed.

Lemma main_untouched (d : gmap string (list Statement)) (w' : World)
    (l0 : list Statement) :
  runOn (main env options) d = (Ok tt, w') →
  d !! target = Some l0 →
  ∃ l1, disk w' !! target = Some l1
        ∧ filter (λ s, isImportStatement s = false) l1
          = filter (λ s, untouched options s = true) l0.
Proof.
  intros Hrun Hl0.
  pose proof (main_Ok_exact env options d w' l0 Hrun Hl0) as Hdisk.
  apply main_Ok_inv in Hrun as (l & sf & Hl & Hdisk' & _ & _ & Hsettled & _).
  rewrite Hdisk in Hdisk'. injection Hdisk' as Hcontent.
  eexists. split; [exact Hdisk|].
  transitivity (filter (λ s, untouched options s = true) (content sf)).
  { rewrite Hcontent. apply filter_ext_elem. intros s Hs.
    destruct (Hsettled s Hs) as [Ht Hu]. unfold untouched. rewrite Ht, Hu. simpl.
    rewrite andb_true_r. by destruct (isImportStatement s). }
  rewrite <- Hcontent.
  transitivity (filter (λ s, untouched options s = true) (content (load l0)));
    [|by rewrite content_load].
  rewrite <- !(content_filter (λ s, untouched options s = true)). f_equal.
  set (cands := analyze options (load l0)).
  assert (NoDup (nid <$> (if decide (typeCandidates cands = []) then load l0
                          else addOrUpdateNamedImport
                                 (toModuleSpecifier env target (typesFile options))
                                 (c_name <$> typeCandidates cands)
                                 (filter (λ n, ¬ (isTypeStatement (stmt n) = true
                                                  ∧ nid n ∈ ids (typeCandidates cands)))
                                    (load l0))))) as HndT.
  { destruct (decide (typeCandidates cands = [])); [apply NoDup_nid_load|].
    apply addOrUpdateNamedImport_NoDup, NoDup_nid_filter_any, NoDup_nid_load. }
  etransitivity.
  { destruct (decide (utilCandidates cands = [])); [reflexivity|].
    apply afterUtilities_untouched; [apply NoDup_nid_load|done|].
    destruct (decide (typeCandidates cands = [])); [by right|].
    intros m [?|Hm]%addOrUpdateNamedImport_elem; [by left|right].
    by apply list_elem_of_filter in Hm as [_ ?]. }
  destruct (decide (typeCandidates cands = [])); [done|].
  apply afterTypes_untouched, NoDup_nid_load.
Qed.

(** Every candidate that the pass extracts is imported by the origin it
    saves. *)
Lemma main_imports (d : gmap string (list Statement)) (w' : World)
    (l0 : list Statement) (c : ExtractionCandidate) :
  runOn (main env options) d = (Ok tt, w') →
  d !! target = Some l0 →
  c ∈ analyze options (load l0) →
  isTypeCandidate c ∨ isUtilCandidate options c →
  ∃ l1, disk w' !! target = Some l1 ∧ c_name c ∈ importedNames l1.
Proof.
  intros Hrun Hl0 Hc Hkind.
  pose proof (main_Ok_exact env options d w' l0 Hrun Hl0) as Hdisk.
  eexists. split; [exact Hdisk|].
  set (cands := analyze options (load l0)) in *.
  set (pruned := filter (λ n, ¬ (isTypeStatement (stmt n) = true
                                 ∧ nid n ∈ ids (typeCandidates cands))) (load l0)).
  assert (NoDup (nid <$> pruned)) as Hndp by apply NoDup_nid_filter_any, NoDup_nid_load.
  assert (isTypeCandidate c →
          c_name c ∈ importedNames
                       (content (if decide (typeCandidates cands = []) then load l0
                                 else addOrUpdateNamedImport
                                        (toModuleSpecifier env target (typesFile options))
                                        (c_name <$> typeCandidates cands) pruned))
          ∧ ∃ n i, n ∈ (if decide (typeCandidates cands = []) then load l0
                         else addOrUpdateNamedImport
                                (toModuleSpecifier env target (typesFile options))
                                (c_name <$> typeCandidates cands) pruned)
                   ∧ stmt n = SImport i ∧ c_name c ∈ imp_namedImports i
                   ∧ nid n ∉ ids (utilCandidates cands)) as Htype.
  { intros Ht.
    assert (c ∈ typeCandidates cands) as Hin by (by apply list_elem_of_filter).
    destruct (decide (typeCandidates cands = [])) as [He|Hne].
    { rewrite He in Hin. by apply elem_of_nil in Hin. }
    destruct (addOrUpdateNamedImport_new
                (toModuleSpecifier env target (typesFile options))
                (c_name <$> typeCandidates cands) pruned (c_name c) Hndp)
      as (n & i & Hn & Hs & Hx & Hyoung); [by apply list_elem_of_fmap_2|].
    split; [apply importedNames_elem; by exists n, i|].
    exists n, i. split_and!; [done..|].
    intros (c' & Hid & Hc')%list_elem_of_fmap. simpl in Hid.
    apply list_elem_of_filter in Hc' as [Hutil Hc'].
    destruct (utilCandidate_node _ _ Hc' Hutil) as (n1 & Hn1 & Hid1 & Hi1 & Ht1 & _).
    assert (n1 ∈ pruned) as Hp1.
    { apply list_elem_of_filter. split; [|done]. intros [Ht' _]. congruence. }
    specialize (Hyoung n1 Hp1 Hi1). lia. }
  destruct (decide (utilCandidates cands = [])) as [He|Hne].
  - destruct Hkind as [Ht|Hu]; [by apply Htype|].
    assert (c ∈ utilCandidates cands) as Hin by (by apply list_elem_of_filter).
    rewrite He in Hin. by apply elem_of_nil in Hin.
  - assert (NoDup (nid <$> (if decide (typeCandidates cands = []) then load l0
                            else addOrUpdateNamedImport
                                   (toModuleSpecifier env target (typesFile options))
                                   (c_name <$> typeCandidates cands) pruned))) as HndT.
    { destruct (decide (typeCandidates cands = [])); [apply NoDup_nid_load|].
      by apply addOrUpdateNamedImport_NoDup. }
    destruct Hkind as [Ht|Hu].
    + destruct (Htype Ht) as [_ (n & i & Hn & Hs & Hx & Hid)].
      apply addOrUpdateNamedImport_keeps_names; [by apply NoDup_nid_filter_any|].
      apply importedNames_elem. exists n, i. split_and!; [|done..].
      by apply list_elem_of_filter.
    + destruct (addOrUpdateNamedImport_new
                  (toModuleSpecifier env target (utilsFile options))
                  (c_name <$> utilCandidates cands)
                  (filter (λ n, nid n ∉ ids (utilCandidates cands))
                     (if decide (typeCandidates cands = []) then load l0
                      else addOrUpdateNamedImport
                             (toModuleSpecifier env target (typesFile options))
                             (c_name <$> typeCandidates cands) pruned))
                  (c_name c))
        as (n & i & Hn & Hs & Hx & _).
      * by apply NoDup_nid_filter_any.
      * apply list_elem_of_fmap_2. by apply list_elem_of_filter.
      * apply importedNames_elem. by exists n, i.
Qed.

End Pass1Results.

(** ** Files the refactoring passes read and write *)

Section Pass1Frame.
Variable env : Environment.
Variable options : RefactorOptions.

Local Abbreviation target := (targetFile options).

Lemma keepsOnDisk_extractTypes_other (p : string) (cands : list ExtractionCandidate) :
  p ≠ typesFile options → keepsOnDisk p (extractTypes env options cands).
Proof.
  intros Hne. unfold extractTypes.
  destruct (bool_decide _); [apply diskStable_keeps, diskStable_ret|].
  apply keepsOnDisk_bind; [apply diskStable_keeps, diskStable_createSourceFile|]. intros _.
  apply keepsOnDisk_bind;
    [apply diskStable_keeps, diskStable_mapM, diskStable_exportedDeclaration|].
  intros declarations.
  apply keepsOnDisk_bind; [apply diskStable_keeps, diskStable_createSourceFile|]. intros _.
  apply keepsOnDisk_bind;
    [apply diskStable_keeps, diskStable_forEachM, diskStable_removeTypeNode|]. intros _.
  apply keepsOnDisk_bind; [apply diskStable_keeps, diskStable_addImport|]. intros _.
  apply keepsOnDisk_saveSync. by apply not_eq_sym.
Qed.

Lemma keepsOnDisk_main (p : string) :
  p ≠ target → p ≠ typesFile options → p ≠ utilsFile options →
  keepsOnDisk p (main env options).
Proof.
  intros H1 H2 H3. unfold main, newTSXRefactorer, analyzeFile, save.
  apply keepsOnDisk_bind.
  { apply diskStable_keeps, diskStable_bind; [apply diskStable_newProject|].
    intros _. apply diskStable_addSourceFileAtPath. }
  intros _. apply keepsOnDisk_bind.
  { apply diskStable_keeps, diskStable_bind; [apply diskStable_getFile|].
    intros sf. apply diskStable_ret. }
  intros candidates. apply keepsOnDisk_bind; [by apply keepsOnDisk_extractTypes_other|].
  intros _. apply keepsOnDisk_bind; [by apply keepsOnDisk_extractUtilities_other|].
  intros _. apply keepsOnDisk_saveSync. by apply not_eq_sym.
Qed.

(** Without the file to refactor the constructor raises. *)
Lemma addSourceFileAtPath_missing (d : gmap string (list Statement)) (p : string) :
  d !! p = None →
  (newProject env ;; addSourceFileAtPath p) {| project := ∅; disk := d |}
  = (Throw (FileNotFound p),
     {| project := load <$> filter (λ kv, tsconfigIncludes env kv.1 = true) d;
        disk := d |}).
Proof.
  intros Hd. unfold bind, newProject, addSourceFileAtPath. cbn [project disk].
  rewrite lookup_fmap.
  assert (filter (λ kv, tsconfigIncludes env kv.1 = true) d !! p = None) as ->.
  { apply map_lookup_filter_None. by left. }
  simpl. by rewrite Hd.
Qed.

End Pass1Frame.

(** ** What a run of the top-level pass guarantees *)

Section Pass1Run.
Variable env : Environment.
Variable options : RefactorOptions.

Local Abbreviation target := (targetFile options).
Local Abbreviation ids cs := ((refId ∘ c_node) <$> cs).
Local Abbreviation utilCandidates cands := (filter (isUtilCandidate options) cands).

(** One utility moved: its statement was in the tree and is removed. *)
Lemma moveUtility_Ok (c : ExtractionCandidate) (w w1 : World) (sf : SourceFile)
    (x : Statement * string) :
  project w !! target = Some sf →
  moveUtility options c w = (Ok x, w1) →
  refId (c_node c) ∈ nid <$> sf
  ∧ w1 = {| project := <[target := removeNode (refId (c_node c)) sf]> (project w);
            disk := disk w |}.
Proof.
  intros Hsf H1. unfold moveUtility in H1.
  apply bind_Ok_inv in H1 as (s & w0 & Hg & Hm).
  apply getNode_inv in Hg as [-> (sf0 & n0 & rest & Hsf0 & Hf & ->)].
  rewrite Hsf in Hsf0. simplify_eq.
  destruct (c_node c) as [id|id i] eqn:Hc; [by unfold throw in Hm|].
  destruct (stmt n0) eqn:Hs0; try (by unfold throw in Hm).
  apply bind_Ok_inv in Hm as ([] & w2 & Hm & Hr).
  apply modifyFile_Ok in Hm as (sf1 & Hsf1 & ->). rewrite Hsf in Hsf1.
  unfold ret in Hr. simplify_eq. split; [|done]. simpl.
  assert (Hn0 : n0 ∈ n0 :: rest) by (apply elem_of_cons; by left).
  rewrite <- Hf in Hn0. apply list_elem_of_filter in Hn0 as [Hid Hn0].
  simpl in Hid. rewrite <- Hid. by apply list_elem_of_fmap_2.
Qed.

Lemma mapM_moveUtility_ids (cs : list ExtractionCandidate) (w w' : World)
    (sf : SourceFile) (l : list (Statement * string)) :
  project w !! target = Some sf →
  mapM (moveUtility options) cs w = (Ok l, w') →
  ∀ c, c ∈ cs → refId (c_node c) ∈ nid <$> sf.
Proof.
  revert w sf l. induction cs as [|c cs IH]; intros w sf l Hsf H c0 Hc0.
  - by apply elem_of_nil in Hc0.
  - simpl in H. apply bind_Ok_inv in H as (x & w1 & H1 & H2).
    apply (moveUtility_Ok _ _ _ _ _ Hsf) in H1 as [Hin ->].
    apply bind_Ok_inv in H2 as (xs & w3 & H2 & Hr).
    unfold ret in Hr. simplify_eq.
    apply elem_of_cons in Hc0 as [->|Hc0]; [done|].
    eapply IH in H2; [| simpl; apply lookup_insert_eq | exact Hc0].
    apply list_elem_of_fmap in H2 as (n & -> & Hn). apply list_elem_of_fmap_2.
    unfold removeNode in Hn. by apply list_elem_of_filter in Hn as [_ ?].
Qed.

(** The loop of [extractUtilities] completes only when no two candidates
    belong to one statement. *)
Lemma mapM_moveUtility_NoDup (cs : list ExtractionCandidate) (w w' : World)
    (sf : SourceFile) (l : list (Statement * string)) :
  project w !! target = Some sf →
  mapM (moveUtility options) cs w = (Ok l, w') →
  NoDup (ids cs).
Proof.
  revert w sf l. induction cs as [|c cs IH]; intros w sf l Hsf H.
  - constructor.
  - simpl in H. apply bind_Ok_inv in H as (x & w1 & H1 & H2).
    apply (moveUtility_Ok _ _ _ _ _ Hsf) in H1 as [Hin ->].
    apply bind_Ok_inv in H2 as (xs & w3 & H2 & Hr).
    unfold ret in Hr. simplify_eq.
    rewrite fmap_cons. constructor.
    + intros (c' & Heq & Hc')%list_elem_of_fmap.
      eapply mapM_moveUtility_ids in H2; [| simpl; apply lookup_insert_eq | exact Hc'].
      apply list_elem_of_fmap in H2 as (n & Hid & Hn).
      unfold removeNode in Hn. apply list_elem_of_filter in Hn as [Hne _].
      apply Hne. simpl in Heq. congruence.
    + eapply IH; [|exact H2]. simpl. apply lookup_insert_eq.
Qed.

Lemma extractUtilities_NoDup (cands : list ExtractionCandidate) (w w' : World)
    (sf : SourceFile) :
  project w !! target = Some sf →
  extractUtilities env options cands w = (Ok tt, w') →
  NoDup (ids (utilCandidates cands)).
Proof.
  intros Hsf. unfold extractUtilities. case_bool_decide as Hlen.
  - destruct (utilCandidates cands); [constructor|done].
  - intros ([] & w1 & H1 & H2)%bind_Ok_inv.
    unfold createSourceFile in H1. simplify_eq.
    apply bind_Ok_inv in H2 as (extracted & w2 & H2 & _).
    destruct (decide (utilsFile options = target)) as [Heq|Hne].
    + eapply mapM_moveUtility_NoDup; [|exact H2]. simpl.
      rewrite Heq. apply lookup_insert_eq.
    + eapply mapM_moveUtility_NoDup; [|exact H2]. simpl.
      rewrite lookup_insert_ne by done. exact Hsf.
Qed.

Lemma main_Ok_NoDup (d : gmap string (list Statement)) (w' : World)
    (l0 : list Statement) :
  runOn (main env options) d = (Ok tt, w') →
  d !! target = Some l0 →
  NoDup (ids (utilCandidates (analyze options (load l0)))).
Proof.
  unfold runOn, main. intros H Hl0.
  apply bind_Ok_inv in H as ([] & w1 & H1 & H2).
  apply newTSXRefactorer_inv in H1 as [Hd1 (l & Hl & Hp1)]. simpl in Hl.
  rewrite Hl0 in Hl. simplify_eq.
  apply bind_Ok_inv in H2 as (cands & w2 & H2 & H3).
  apply analyzeFile_inv in H2 as [-> Hc]. specialize (Hc _ Hp1). simplify_eq.
  apply bind_Ok_inv in H3 as ([] & w3 & H3 & H4).
  apply bind_Ok_inv in H4 as ([] & w4 & H4 & H5).
  eapply extractTypes_Ok in H3 as (sf' & Hp3 & _); [|done|apply NoDup_nid_load].
  by eapply extractUtilities_NoDup.
Qed.

(** Two declarations of one statement that [extractUtilities] both selects. *)
Lemma two_util_candidates (l0 : list Statement) (k i j : nat) (v : VariableStatement)
    (d1 d2 : VariableDeclaration) :
  l0 !! k = Some (SVariable v) →
  vs_declarations v !! i = Some d1 →
  vs_declarations v !! j = Some d2 →
  i ≠ j →
  getNodeLineCount (vd_startLine d1) (vd_endLine d1) > minVariableLines options →
  getNodeLineCount (vd_startLine d2) (vd_endLine d2) > minVariableLines options →
  utilNamePattern options (vd_name d1) = true →
  utilNamePattern options (vd_name d2) = true →
  ¬ NoDup (ids (utilCandidates (analyze options (load l0)))).
Proof.
  intros Hk Hi Hj Hij H1 H2 Hp1 Hp2 Hnd.
  set (c1 := {| c_name := vd_name d1; c_node := DeclarationRef k i;
                c_lineCount := getNodeLineCount (vd_startLine d1) (vd_endLine d1);
                c_type := TVariable |}).
  set (c2 := {| c_name := vd_name d2; c_node := DeclarationRef k j;
                c_lineCount := getNodeLineCount (vd_startLine d2) (vd_endLine d2);
                c_type := TVariable |}).
  assert (Hn : {| nid := k; stmt := SVariable v |} ∈ load l0) by (by apply load_lookup).
  assert (Hc1 : c1 ∈ utilCandidates (analyze options (load l0))).
  { apply list_elem_of_filter. split; [by split|].
    apply analyze_elem. eexists. split; [exact Hn|].
    apply nodeCandidates_elem. simpl. apply declarationCandidates_elem.
    by exists i, d1. }
  assert (Hc2 : c2 ∈ utilCandidates (analyze options (load l0))).
  { apply list_elem_of_filter. split; [by split|].
    apply analyze_elem. eexists. split; [exact Hn|].
    apply nodeCandidates_elem. simpl. apply declarationCandidates_elem.
    by exists j, d2. }
  assert (c1 = c2) as Heq by (by eapply (NoDup_fmap_eq (refId ∘ c_node))).
  unfold c1, c2 in Heq. by simplify_eq.
Qed.

End Pass1Run.

(** Every statement of the origin that is no import, no interface or type
    alias, and no variable statement with a declaration that
    [extractUtilities] selects is in the saved origin after a completed run,
    in the order it had; and beside imports the saved origin holds nothing
    else.  In particular a function declaration is never moved, however
    long it is. *)
Theorem statements_outside_the_extraction_are_kept (env : Environment)
    (options : RefactorOptions) (d : gmap string (list Statement)) (w' : World)
    (l0 : list Statement) :
  runOn (main env options) d = (Ok tt, w') →
  d !! targetFile options = Some l0 →
  ∃ l1, disk w' !! targetFile options = Some l1
        ∧ filter (λ s, isImportStatement s = false) l1
          = filter (λ s, untouched options s = true) l0
        ∧ ∀ func, SFunction func ∈ l0 → SFunction func ∈ l1.
Proof.
  intros Hrun Hl0.
  destruct (main_untouched env options d w' l0 Hrun Hl0) as (l1 & Hl1 & Heq).
  exists l1. split_and!; [done..|]. intros func Hin.
  assert (Hf : SFunction func ∈ filter (λ s, untouched options s = true) l0).
  { apply list_elem_of_filter. split; [reflexivity|done]. }
  rewrite <- Heq in Hf. by apply list_elem_of_filter in Hf as [_ ?].
Qed.

Lemma statements_outside_the_extraction_are_kept_witness :
  ∃ l1, disk (runOn (main Example.env Example.options) Example.dashboardDisk).2
          !! targetFile Example.options = Some l1
        ∧ filter (λ s, isImportStatement s = false) l1
          = filter (λ s, untouched Example.options s = true) Example.dashboard
        ∧ ∀ func, SFunction func ∈ Example.dashboard → SFunction func ∈ l1.
Proof.
  apply (statements_outside_the_extraction_are_kept Example.env Example.options
           Example.dashboardDisk
           (runOn (main Example.env Example.options) Example.dashboardDisk).2
           Example.dashboard).
  - vm_compute. reflexivity.
  - vm_compute. reflexivity.
Defined.

(** After a completed run every name that [extractTypes] or
    [extractUtilities] moved out of the origin is a named import of the saved
    origin. *)
Theorem extracted_names_are_imported (env : Environment) (options : RefactorOptions)
    (d : gmap string (list Statement)) (w' : World) (l0 : list Statement)
    (c : ExtractionCandidate) :
  runOn (main env options) d = (Ok tt, w') →
  d !! targetFile options = Some l0 →
  c ∈ analyze options (load l0) →
  isTypeCandidate c ∨ isUtilCandidate options c →
  ∃ l1, disk w' !! targetFile options = Some l1 ∧ c_name c ∈ importedNames l1.
Proof. apply main_imports. Qed.

Lemma extracted_names_are_imported_witness :
  ∃ l1, disk (runOn (main Example.env Example.options) Example.dashboardDisk).2
          !! targetFile Example.options = Some l1
        ∧ "User" ∈ importedNames l1.
Proof.
  apply (extracted_names_are_imported Example.env Example.options Example.dashboardDisk
           (runOn (main Example.env Example.options) Example.dashboardDisk).2
           Example.dashboard
           {| c_name := "User"; c_node := StatementRef 0; c_lineCount := 5;
              c_type := TInterface |}).
  - vm_compute. reflexivity.
  - vm_compute. reflexivity.
  - apply list_elem_of_In. vm_compute. right. left. reflexivity.
  - left. left. reflexivity.
Defined.

(** Whatever the outcome of a run of the top-level pass, a file that is not
    the origin, the types file or the utilities file is on disk as it was. *)
Theorem pass_writes_only_its_three_files (env : Environment) (options : RefactorOptions)
    (d : gmap string (list Statement)) (r : Result unit) (w' : World) (p : string) :
  runOn (main env options) d = (r, w') →
  p ≠ targetFile options → p ≠ typesFile options → p ≠ utilsFile options →
  disk w' !! p = d !! p.
Proof.
  intros Hrun H1 H2 H3.
  exact (keepsOnDisk_main env options p H1 H2 H3 _ _ _ Hrun).
Qed.

Lemma pass_writes_only_its_three_files_witness :
  disk (runOn (main Example.env Example.options)
          (<["/app/Settings.tsx" := Example.statsOrigin]> Example.settingsDisk)).2
    !! "/app/Settings.tsx"
  = (<["/app/Settings.tsx" := Example.statsOrigin]> Example.settingsDisk)
      !! "/app/Settings.tsx".
Proof.
  apply (pass_writes_only_its_three_files Example.env Example.options
           (<["/app/Settings.tsx" := Example.statsOrigin]> Example.settingsDisk)
           (runOn (main Example.env Example.options)
              (<["/app/Settings.tsx" := Example.statsOrigin]> Example.settingsDisk)).1).
  - by destruct (runOn (main Example.env Example.options)
                   (<["/app/Settings.tsx" := Example.statsOrigin]> Example.settingsDisk)).
  - discriminate.
  - discriminate.
  - discriminate.
Defined.

(** Whatever exception ends a run of the top-level pass, the origin on disk
    is what it was before the run: the pass writes the origin last, and only
    after both extractions have completed. *)
Theorem failed_run_leaves_the_origin (env : Environment) (options : RefactorOptions)
    (d : gmap string (list Statement)) (e : Error) (w' : World) :
  runOn (main env options) d = (Throw e, w') →
  disk w' !! targetFile options = d !! targetFile options.
Proof. apply main_Throw_keeps. Qed.

Lemma failed_run_leaves_the_origin_witness :
  disk (runOn (main Example.env Example.options) Sample.twoUtilitiesDisk).2
    !! targetFile Example.options
  = Sample.twoUtilitiesDisk !! targetFile Example.options.
Proof.
  apply (failed_run_leaves_the_origin Example.env Example.options
           Sample.twoUtilitiesDisk ForgottenNode).
  vm_compute. reflexivity.
Defined.

(** When one variable statement of the origin has two declarations that
    [extractUtilities] selects (each longer than [minVariableLines], each
    with a name that matches the pattern), the run ends with an exception:
    the first of the two removes the statement, and the query for the
    statement of the second raises.  The origin on disk is unchanged. *)
Theorem two_utilities_in_one_statement_abort (env : Environment)
    (options : RefactorOptions) (d : gmap string (list Statement))
    (l0 : list Statement) (k i j : nat) (v : VariableStatement)
    (d1 d2 : VariableDeclaration) :
  d !! targetFile options = Some l0 →
  l0 !! k = Some (SVariable v) →
  vs_declarations v !! i = Some d1 →
  vs_declarations v !! j = Some d2 →
  i ≠ j →
  getNodeLineCount (vd_startLine d1) (vd_endLine d1) > minVariableLines options →
  getNodeLineCount (vd_startLine d2) (vd_endLine d2) > minVariableLines options →
  utilNamePattern options (vd_name d1) = true →
  utilNamePattern options (vd_name d2) = true →
  ∃ e w', runOn (main env options) d = (Throw e, w')
          ∧ disk w' !! targetFile options = Some l0.
Proof.
  intros Hl0 Hk Hi Hj Hij H1 H2 Hp1 Hp2.
  destruct (runOn (main env options) d) as [[[]|e] w'] eqn:Hrun.
  - exfalso. eapply two_util_candidates; [exact Hk|exact Hi|exact Hj|done..|].
    by eapply main_Ok_NoDup.
  - exists e, w'. split; [done|]. rewrite <- Hl0. by eapply main_Throw_keeps.
Qed.

Lemma two_utilities_in_one_statement_abort_witness :
  ∃ e w', runOn (main Example.env Example.options) Sample.twoUtilitiesDisk = (Throw e, w')
          ∧ disk w' !! targetFile Example.options = Some Sample.twoUtilities.
Proof.
  apply (two_utilities_in_one_statement_abort Example.env Example.options
           Sample.twoUtilitiesDisk Sample.twoUtilities 0 0 1
           {| vs_kind := KConst;
              vs_text := "const formatDate = (d: Date) => { /* 11 lines */ }, formatTime = (d: Date) => { /* 11 lines */ };";
              vs_declarations :=
                [Example.declaration "formatDate" 1 11 (Example.arrow "string" (Block []));
                 Example.declaration "formatTime" 12 22
                   (Example.arrow "string" (Block []))] |}
           (Example.declaration "formatDate" 1 11 (Example.arrow "string" (Block [])))
           (Example.declaration "formatTime" 12 22 (Example.arrow "string" (Block [])))).
  - vm_compute. reflexivity.
  - reflexivity.
  - reflexivity.
  - reflexivity.
  - discriminate.
  - vm_compute. reflexivity.
  - vm_compute. reflexivity.
  - vm_compute. reflexivity.
  - vm_compute. reflexivity.
Defined.

(** Both refactoring scripts construct the project and add the file to
    refactor before anything else: when that file is not on disk the run
    ends with the exception of [addSourceFileAtPath], and nothing is
    written. *)
Theorem missing_origin_ends_the_run (env : Environment) (options : RefactorOptions)
    (options2 : RefactorTsxPass2.Pass2Options) (d : gmap string (list Statement)) :
  d !! targetFile options = None →
  RefactorTsxPass2.targetFile options2 = targetFile options →
  (∃ w', runOn (main env options) d = (Throw (FileNotFound (targetFile options)), w')
         ∧ disk w' = d)
  ∧ (∃ w', runOn (RefactorTsxPass2.main env options2) d
           = (Throw (FileNotFound (targetFile options)), w')
           ∧ disk w' = d).
Proof.
  intros Hd Heq. split.
  - eexists. unfold runOn, main, newTSXRefactorer. unfold bind at 1.
    rewrite (addSourceFileAtPath_missing env d _ Hd). by split.
  - eexists. unfold runOn, RefactorTsxPass2.main, RefactorTsxPass2.newTSXRefactorer2.
    unfold bind at 1. rewrite Heq.
    rewrite (addSourceFileAtPath_missing env d _ Hd). by split.
Qed.

Lemma missing_origin_ends_the_run_witness :
  (∃ w', runOn (main Example.env Example.options) ∅
         = (Throw (FileNotFound (targetFile Example.options)), w')
         ∧ disk w' = ∅)
  ∧ (∃ w', runOn (RefactorTsxPass2.main Example.env Example.pass2Options) ∅
           = (Throw (FileNotFound (targetFile Example.options)), w')
           ∧ disk w' = ∅).
Proof.
  apply (missing_origin_ends_the_run Example.env Example.options Example.pass2Options ∅).
  - reflexivity.
  - reflexivity.
Defined.

(** ** What a run of the nested pass guarantees *)

Section Pass2Run.
Import RefactorTsxPass2.
Variable env : Environment.
Variable options : Pass2Options.

Local Abbreviation target := (targetFile options).
Local Abbreviation utils := (utilsFile options).
Local Abbreviation helpers statements :=
  (collectHelpers (helperNamePattern options) statements).

(** *** The second loop over the statements of the body *)

Lemma scanDeclarations_Throw_inv (names : list string) (removed : bool)
    (declarations : list NestedDeclaration) (e : Error) :
  scanDeclarations names removed declarations = Throw e → e = ForgottenNode.
Proof.
  revert removed. induction declarations as [|decl r IH]; intros removed; simpl; [done|].
  destruct removed; [by intros; simplify_eq|]. apply IH.
Qed.

Lemma scanDeclarations_Ok (names : list string) (declarations : list NestedDeclaration)
    (removed : bool) :
  scanDeclarations names false declarations = Ok removed →
  removed = existsb (λ decl, Js.includes (nd_name decl) names) declarations.
Proof.
  induction declarations as [|decl r IH]; simpl; [by intros; simplify_eq|].
  destruct (Js.includes (nd_name decl) names) eqn:Hin; [|apply IH].
  destruct r as [|decl' r]; simpl; [by intros; simplify_eq|done].
Qed.

Lemma scanDeclarations_not_last (names : list string) (removed : bool)
    (ds1 ds2 : list NestedDeclaration) (d1 d2 : NestedDeclaration) :
  Js.includes (nd_name d1) names = true →
  scanDeclarations names removed (ds1 ++ d1 :: d2 :: ds2) = Throw ForgottenNode.
Proof.
  intros Hin. revert removed. induction ds1 as [|decl r IH]; intros removed; simpl.
  - destruct removed; [done|]. by rewrite Hin.
  - destruct removed; [done|]. apply IH.
Qed.

Lemma removeHelpers_Throw_inv (names : list string) (statements : list BlockStatement)
    (e : Error) :
  removeHelpers names statements = Throw e → e = ForgottenNode.
Proof.
  induction statements as [|s r IH]; simpl; [done|].
  destruct s as [text declarations|text].
  - destruct (scanDeclarations names false declarations) as [removed|e'] eqn:Hscan.
    + destruct (removeHelpers names r); [done|]. intros; simplify_eq. by apply IH.
    + intros; simplify_eq. by eapply scanDeclarations_Throw_inv.
  - destruct (removeHelpers names r); [done|]. intros; simplify_eq. by apply IH.
Qed.

Lemma removeHelpers_Ok (names : list string) (statements remaining : list BlockStatement) :
  removeHelpers names statements = Ok remaining →
  remaining = filter (λ s, declaresAny names s = false) statements.
Proof.
  revert remaining. induction statements as [|s r IH]; intros remaining; simpl.
  - by intros; simplify_eq.
  - destruct s as [text declarations|text].
    + destruct (scanDeclarations names false declarations) as [removed|e'] eqn:Hscan;
        [|done].
      apply scanDeclarations_Ok in Hscan.
      destruct (removeHelpers names r) as [r'|]; [|done].
      intros; simplify_eq. rewrite filter_cons. simpl.
      rewrite (IH r' eq_refl).
      by destruct (existsb _ declarations).
    + destruct (removeHelpers names r) as [r'|]; [|done].
      intros; simplify_eq. rewrite filter_cons. simpl. by rewrite (IH r' eq_refl).
Qed.

Lemma removeHelpers_not_last (names : list string) (statements : list BlockStatement)
    (text : string) (ds1 ds2 : list NestedDeclaration) (d1 d2 : NestedDeclaration) :
  NestedVariableStatement text (ds1 ++ d1 :: d2 :: ds2) ∈ statements →
  Js.includes (nd_name d1) names = true →
  removeHelpers names statements = Throw ForgottenNode.
Proof.
  intros Hs Hin. induction statements as [|s r IH]; [by apply elem_of_nil in Hs|].
  apply elem_of_cons in Hs as [<-|Hs]; simpl.
  - by rewrite scanDeclarations_not_last.
  - specialize (IH Hs). rewrite IH.
    destruct s as [text' declarations|text']; [|done].
    destruct (scanDeclarations names false declarations) as [removed|e'] eqn:Hscan; [done|].
    by rewrite (scanDeclarations_Throw_inv _ _ _ _ Hscan).
Qed.

(** A declaration that the first loop selects is named in the list the
    second loop removes by. *)
Lemma helper_name_included (statements : list BlockStatement) (text : string)
    (declarations : list NestedDeclaration) (decl : NestedDeclaration) :
  NestedVariableStatement text declarations ∈ statements →
  decl ∈ declarations →
  nd_isArrowFunction decl = true →
  helperNamePattern options (nd_name decl) = true →
  Js.includes (nd_name decl) (h_name <$> helpers statements) = true.
Proof.
  intros Hs Hd Ha Hp. unfold Js.includes. apply bool_decide_eq_true_2.
  apply list_elem_of_fmap.
  exists {| h_name := nd_name decl; h_text := text |}. split; [done|].
  apply collectHelpers_elem. by exists declarations, decl.
Qed.

(** What stays in the body has nothing left to select. *)
Lemma helpers_filter (statements : list BlockStatement) :
  helpers (filter (λ s, declaresAny (h_name <$> helpers statements) s = false) statements)
  = [].
Proof.
  destruct (helpers (filter _ statements)) as [|h hs] eqn:Hh; [done|]. exfalso.
  assert (Hin : h ∈ helpers (filter (λ s, declaresAny (h_name <$> helpers statements) s
                                          = false) statements))
    by (rewrite Hh; apply elem_of_cons; by left).
  apply collectHelpers_elem in Hin as (declarations & decl & Hs & Hd & Hn & Ha & Hp).
  apply list_elem_of_filter in Hs as [Hkeep Hs]. simpl in Hkeep.
  assert (existsb (λ decl, Js.includes (nd_name decl) (h_name <$> helpers statements))
            declarations = true) as Hex; [|congruence].
  apply existsb_exists. exists decl. split; [by apply list_elem_of_In|].
  by eapply helper_name_included.
Qed.

(** *** The component of a file *)

Local Abbreviation arrowsOf a h declarations :=
  (omap (λ c, c)
     (imap (λ (i : nat) decl,
              match vd_initializer decl with
              | Some (InitArrowFunction _ f) => Some (a, h i, f)
              | _ => None
              end)
           declarations)).

Local Abbreviation setBodyAt k statements :=
  (λ t : nat * nat * ArrowFunction,
     if decide (t.1.2 = k) then (t.1.1, t.1.2, withBody (Block statements) t.2) else t).

Lemma arrowsOf_index (a : nat) (h : nat → nat) (declarations : list VariableDeclaration)
    (t : nat * nat * ArrowFunction) :
  t ∈ arrowsOf a h declarations →
  ∃ i decl ty, declarations !! i = Some decl
               ∧ vd_initializer decl = Some (InitArrowFunction ty t.2)
               ∧ t.1 = (a, h i).
Proof.
  intros (c & Hc & Ht)%list_elem_of_omap. subst c.
  apply list_elem_of_lookup in Hc as (i & Hi).
  rewrite list_lookup_imap in Hi.
  destruct (declarations !! i) as [decl|] eqn:Hd; [|done]. simpl in Hi.
  destruct (vd_initializer decl) as [[ty f|]|] eqn:Hinit; simplify_eq.
  by exists i, decl, ty.
Qed.

Lemma arrowsOf_other (a k : nat) (h : nat → nat) (statements : list BlockStatement)
    (declarations : list VariableDeclaration) :
  (∀ i, h i ≠ k) →
  setBodyAt k statements <$> arrowsOf a h declarations = arrowsOf a h declarations.
Proof.
  intros Hk. rewrite <- (list_fmap_id (arrowsOf a h declarations)) at 2.
  apply Forall_fmap_ext_1, Forall_forall. intros t Ht.
  apply arrowsOf_index in Ht as (i & decl & ty & _ & _ & Ht).
  destruct t as [[a' j] f]. simpl in *. simplify_eq.
  by destruct (decide (h i = k)) as [?%Hk|].
Qed.

Lemma arrowsOf_cons (a : nat) (h : nat → nat) (decl : VariableDeclaration)
    (declarations : list VariableDeclaration) :
  arrowsOf a h (decl :: declarations)
  = match vd_initializer decl with
    | Some (InitArrowFunction _ f) => [(a, h 0%nat, f)]
    | _ => []
    end ++ arrowsOf a (h ∘ S) declarations.
Proof.
  rewrite imap_cons. simpl.
  by destruct (vd_initializer decl) as [[ty f|]|].
Qed.

(** [setBody] on the declaration at [index] changes the body of that arrow
    function and nothing else. *)
Lemma arrowsOf_alter (a : nat) (h : nat → nat) (index : nat)
    (statements : list BlockStatement) (declarations : list VariableDeclaration) :
  (∀ i j, h i = h j → i = j) →
  arrowsOf a h (alter (setDeclarationBody statements) index declarations)
  = setBodyAt (h index) statements <$> arrowsOf a h declarations.
Proof.
  revert h index. induction declarations as [|decl r IH]; intros h index Hinj; [done|].
  destruct index as [|index].
  - change (alter (setDeclarationBody statements) 0%nat (decl :: r))
      with (setDeclarationBody statements decl :: r).
    rewrite !arrowsOf_cons, fmap_app.
    rewrite (arrowsOf_other a (h 0%nat) (h ∘ S) statements r)
      by (intros i Heq; by apply Hinj in Heq).
    f_equal. unfold setDeclarationBody.
    destruct (vd_initializer decl) as [[ty f|]|] eqn:Hinit; simpl; rewrite ?Hinit; try done.
    by rewrite decide_True.
  - change (alter (setDeclarationBody statements) (S index) (decl :: r))
      with (decl :: alter (setDeclarationBody statements) index r).
    rewrite !arrowsOf_cons, fmap_app.
    rewrite (IH (h ∘ S) index) by (intros i j Heq; apply Hinj in Heq; lia).
    f_equal.
    destruct (vd_initializer decl) as [[ty f|]|]; simpl; try done.
    rewrite decide_False; [done|]. intros Heq. by apply Hinj in Heq.
Qed.

Lemma arrowDeclarations_cons (n : Node) (sf : SourceFile) :
  arrowDeclarations (n :: sf)
  = match stmt n with
    | SVariable v => arrowsOf (nid n) (λ i : nat, i) (vs_declarations v)
    | _ => []
    end ++ arrowDeclarations sf.
Proof. reflexivity. Qed.

Local Abbreviation setBodyOf id index statements :=
  (λ t : nat * nat * ArrowFunction,
     if decide (t.1.1 = id ∧ t.1.2 = index)
     then (t.1.1, t.1.2, withBody (Block statements) t.2) else t).

Lemma arrowDeclarations_setComponentBody (id index : nat)
    (statements : list BlockStatement) (sf : SourceFile) :
  arrowDeclarations (setComponentBody id index statements sf)
  = setBodyOf id index statements <$> arrowDeclarations sf.
Proof.
  induction sf as [|n sf IH]; [done|].
  unfold setComponentBody in *. rewrite fmap_cons, !arrowDeclarations_cons, fmap_app, IH.
  f_equal. destruct (decide (nid n = id)) as [Hid|Hid].
  - destruct (stmt n) as [| |v| | |] eqn:Hs; simpl; rewrite ?Hs; try done.
    rewrite (arrowsOf_alter (nid n) (λ i : nat, i)) by done.
    apply Forall_fmap_ext_1, Forall_forall. intros t Ht.
    apply arrowsOf_index in Ht as (i & decl & ty & _ & _ & Ht).
    destruct t as [[a' j] f]. simpl in *. simplify_eq.
    destruct (decide (i = index)) as [->|Hne].
    + by rewrite decide_True.
    + rewrite decide_False; [done|]. by intros [_ ?].
  - rewrite <- (list_fmap_id (match stmt n with SVariable v => _ | _ => [] end)) at 1.
    apply Forall_fmap_ext_1, Forall_forall. intros t Ht.
    destruct (stmt n) as [| |v| | |]; try (by apply elem_of_nil in Ht).
    apply arrowsOf_index in Ht as (i & decl & ty & _ & _ & Ht).
    destruct t as [[a' j] f]. simpl in *. simplify_eq.
    rewrite decide_False; [done|]. by intros [? _].
Qed.

Lemma findComponent_setComponentBody (id index : nat) (f : ArrowFunction)
    (statements : list BlockStatement) (sf : SourceFile) :
  findComponent sf = Some (id, index, f) →
  findComponent (setComponentBody id index statements sf)
  = Some (id, index, withBody (Block statements) f).
Proof.
  unfold findComponent. rewrite arrowDeclarations_setComponentBody.
  destruct (arrowDeclarations sf) as [|t ts]; [done|]. simpl. intros; simplify_eq.
  simpl. by rewrite decide_True.
Qed.

(** Import declarations declare no arrow function. *)
Lemma arrowDeclarations_nonimports (sf : SourceFile) :
  arrowDeclarations (filter (λ n, isImport n = false) sf) = arrowDeclarations sf.
Proof.
  induction sf as [|n sf IH]; [done|]. rewrite filter_cons.
  destruct (decide (isImport n = false)) as [Hi|Hi].
  - by rewrite !arrowDeclarations_cons, IH.
  - rewrite arrowDeclarations_cons, IH. unfold isImport in Hi.
    by destruct (stmt n).
Qed.

Lemma addOrUpdateNamedImport_nonimports (m : string) (names : list string)
    (sf : SourceFile) :
  NoDup (nid <$> sf) →
  filter (λ n, isImport n = false) (addOrUpdateNamedImport m names sf)
  = filter (λ n, isImport n = false) sf.
Proof.
  intros Hnd.
  assert (∀ ns sf0, filter (λ n, isImport n = false) (addImportDeclaration m ns sf0)
                    = filter (λ n, isImport n = false) sf0) as Hadd.
  { intros ns sf0. unfold addImportDeclaration.
    rewrite filter_app, filter_cons_False by (simpl; done).
    by rewrite <- filter_app, take_drop. }
  unfold addOrUpdateNamedImport.
  destruct (getImportDeclaration m sf) as [[id i0]|] eqn:Hg; [|apply Hadd].
  rewrite Hadd. unfold removeNode. rewrite filter_filter_and.
  apply filter_ext_elem. intros n Hn. split; [by intros [? _]|]. intros Hu. split; [done|].
  apply getImportDeclaration_Some in Hg as (n0 & Hn0 & <- & Hs0).
  intros Heq. assert (n = n0) as -> by (by eapply NoDup_fmap_eq).
  unfold isImport in Hu. by rewrite Hs0 in Hu.
Qed.

Lemma findComponent_addHelperImport (m : string) (names : list string) (sf : SourceFile) :
  NoDup (nid <$> sf) →
  findComponent (addHelperImport m names sf) = findComponent sf.
Proof.
  intros Hnd. unfold findComponent. rewrite addHelperImport_eq.
  rewrite <- (arrowDeclarations_nonimports (addOrUpdateNamedImport m names sf)).
  rewrite addOrUpdateNamedImport_nonimports by done.
  by rewrite arrowDeclarations_nonimports.
Qed.

(** The component of a file depends on the statements only, not on the
    identities of the nodes. *)
Lemma arrowsOf_node (a b : nat) (h : nat → nat) (declarations : list VariableDeclaration) :
  (λ t : nat * nat * ArrowFunction, t.2) <$> arrowsOf a h declarations
  = (λ t : nat * nat * ArrowFunction, t.2) <$> arrowsOf b h declarations.
Proof.
  revert h. induction declarations as [|decl r IH]; intros h; [done|].
  rewrite !arrowsOf_cons, !fmap_app, (IH (h ∘ S)). f_equal.
  by destruct (vd_initializer decl) as [[ty f|]|].
Qed.

Lemma arrowDeclarations_content (sf sf' : SourceFile) :
  content sf = content sf' →
  (λ t : nat * nat * ArrowFunction, t.2) <$> arrowDeclarations sf
  = (λ t : nat * nat * ArrowFunction, t.2) <$> arrowDeclarations sf'.
Proof.
  revert sf'. induction sf as [|n sf IH]; intros [|n' sf'] Heq; try done.
  unfold content in Heq. rewrite !fmap_cons in Heq. injection Heq as Hs Heq.
  rewrite !arrowDeclarations_cons, !fmap_app, (IH sf' Heq), <- Hs. f_equal.
  destruct (stmt n); try done. apply arrowsOf_node.
Qed.

Lemma componentBody_content (sf : SourceFile) :
  componentBody (content sf) = (λ t, af_body t.2) <$> findComponent sf.
Proof.
  unfold componentBody, findComponent.
  pose proof (arrowDeclarations_content (load (content sf)) sf (content_load _)) as Heq.
  destruct (arrowDeclarations (load (content sf))) as [|[[a j] f] ts],
    (arrowDeclarations sf) as [|[[a' j'] f'] ts']; simpl in *; by simplify_eq.
Qed.

(** *** The steps of the nested pass *)

Lemma findComponent_node (sf : SourceFile) (id index : nat) (f : ArrowFunction) :
  findComponent sf = Some (id, index, f) → id ∈ nid <$> sf.
Proof.
  unfold findComponent. intros Hh.
  assert (Hin : (id, index, f) ∈ arrowDeclarations sf).
  { destruct (arrowDeclarations sf) as [|t ts]; simpl in Hh; simplify_eq.
    apply elem_of_cons. by left. }
  apply list_elem_of_bind in Hin as (n & Hin & Hn).
  destruct (stmt n) as [| |v| | |]; try (by apply elem_of_nil in Hin).
  apply arrowsOf_index in Hin as (i & decl & ty & _ & _ & Ht). simpl in Ht. simplify_eq.
  by apply list_elem_of_fmap_2.
Qed.

Lemma nid_setComponentBody (id index : nat) (statements : list BlockStatement)
    (sf : SourceFile) :
  nid <$> setComponentBody id index statements sf = nid <$> sf.
Proof.
  unfold setComponentBody. rewrite <- list_fmap_compose.
  apply Forall_fmap_ext_1, Forall_forall. intros n _. simpl.
  destruct (decide (nid n = id)); [|done]. by destruct (stmt n).
Qed.

Local Abbreviation names statements := (h_name <$> helpers statements).
Local Abbreviation newOrigin id index statements remaining sf :=
  (addHelperImport (toModuleSpecifier env target utils) (names statements)
     (setComponentBody id index remaining sf)).

Lemma removeAndImport_exact (w : World) (sf : SourceFile) (id index : nat)
    (statements : list BlockStatement) :
  project w !! target = Some sf →
  id ∈ nid <$> sf →
  removeAndImport env options id index statements (names statements) w
  = match removeHelpers (names statements) statements with
    | Throw e => (Throw e, w)
    | Ok remaining =>
        saveSync env target
          {| project := <[target := newOrigin id index statements remaining sf]>
                          (<[target := setComponentBody id index remaining sf]> (project w));
             disk := disk w |}
    end.
Proof.
  intros Hsf Hid. unfold removeAndImport, bind at 1, getNode, bind at 1, getFile.
  rewrite Hsf.
  destruct (filter (λ n, nid n = id) sf) as [|n0 rest] eqn:Hf.
  { exfalso. apply list_elem_of_fmap in Hid as (n & -> & Hn).
    assert (n ∈ filter (λ n0, nid n0 = nid n) sf) as Hin by (by apply list_elem_of_filter).
    rewrite Hf in Hin. by apply elem_of_nil in Hin. }
  unfold ret. destruct (removeHelpers (names statements) statements) as [remaining|e]; [|done].
  unfold bind at 1, modifyFile at 1. rewrite Hsf.
  unfold bind at 1, modifyFile at 1. cbn [project disk]. by rewrite lookup_insert_eq.
Qed.

Local Abbreviation utilsText w statements :=
  (appendHelpers match project w !! utils with
                 | Some old => getFullText (content old)
                 | None => ""
                 end (helpers statements)).

Lemma extractHelperFunctions_exact (w : World) (sf : SourceFile) (id index : nat)
    (f : ArrowFunction) (statements : list BlockStatement) :
  project w !! target = Some sf →
  findComponent sf = Some (id, index, f) →
  af_body f = Block statements →
  helpers statements ≠ [] →
  utils ≠ target →
  extractHelperFunctions env options w
  = if fsWritable env utils
    then removeAndImport env options id index statements (names statements)
           {| project := <[utils := load [SOther (utilsText w statements)]]> (project w);
              disk := <[utils := [SOther (utilsText w statements)]]> (disk w) |}
    else (Throw (SaveFailed utils),
          {| project := <[utils := load [SOther (utilsText w statements)]]> (project w);
             disk := disk w |}).
Proof.
  intros Hsf Hc Hb Hh Hne.
  unfold extractHelperFunctions, bind at 1, getFile. rewrite Hsf, Hc, Hb.
  rewrite bool_decide_eq_false_2 by (by destruct (helpers statements)).
  unfold bind at 1. rewrite (readUtilsContent_returns env options utils w).
  unfold bind at 1, createSourceFile.
  unfold bind at 1, saveSync at 1. cbn [project disk]. rewrite lookup_insert_eq.
  by destruct (fsWritable env utils).
Qed.

Lemma extractHelperFunctions_nothing (w : World) (sf : SourceFile) :
  project w !! target = Some sf →
  (∀ statements, componentBody (content sf) = Some (Block statements) →
                 helpers statements = []) →
  extractHelperFunctions env options w = (Ok tt, w).
Proof.
  intros Hsf Hno. unfold extractHelperFunctions, bind at 1, getFile. rewrite Hsf.
  rewrite componentBody_content in Hno.
  destruct (findComponent sf) as [[[id index] f]|]; [|done]. simpl in Hno.
  destruct (af_body f) as [statements|]; [|done].
  by rewrite (Hno statements eq_refl).
Qed.

Lemma extractHelperFunctions_idle (w : World) (sf : SourceFile) :
  project w !! target = Some sf →
  match findComponent sf with
  | Some (_, _, f) =>
      match af_body f with
      | Block statements => helpers statements = []
      | ConciseBody => True
      end
  | None => True
  end →
  extractHelperFunctions env options w = (Ok tt, w).
Proof.
  intros Hsf Hno. apply (extractHelperFunctions_nothing w sf Hsf).
  intros statements. rewrite componentBody_content.
  destruct (findComponent sf) as [[[id index] f]|]; [|done]. simpl.
  intros Hb. destruct (af_body f); by simplify_eq.
Qed.

Lemma diskStable_readUtilsContent (p : string) :
  diskStable (readUtilsContent env options p).
Proof. intros w r w' H. rewrite readUtilsContent_returns in H. by simplify_eq. Qed.

Lemma keepsOnDisk_extractHelperFunctions (p : string) :
  p ≠ target → p ≠ utils → keepsOnDisk p (extractHelperFunctions env options).
Proof.
  intros H1 H2. unfold extractHelperFunctions.
  apply keepsOnDisk_bind; [apply diskStable_keeps, diskStable_getFile|]. intros sf.
  destruct (findComponent sf) as [[[id index] f]|]; [|apply diskStable_keeps, diskStable_ret].
  destruct (af_body f) as [statements|]; [|apply diskStable_keeps, diskStable_ret].
  destruct (bool_decide _); [apply diskStable_keeps, diskStable_ret|].
  apply keepsOnDisk_bind; [apply diskStable_keeps, diskStable_readUtilsContent|].
  intros utilsContent.
  apply keepsOnDisk_bind; [apply diskStable_keeps, diskStable_createSourceFile|]. intros _.
  apply keepsOnDisk_bind; [apply keepsOnDisk_saveSync; by apply not_eq_sym|]. intros _.
  by apply keepsOnDisk_removeAndImport.
Qed.

Lemma keepsOnDisk_main2 (p : string) :
  p ≠ target → p ≠ utils → keepsOnDisk p (main env options).
Proof.
  intros H1 H2. unfold main, newTSXRefactorer2, save.
  apply keepsOnDisk_bind.
  { apply diskStable_keeps, diskStable_bind; [apply diskStable_newProject|].
    intros _. apply diskStable_addSourceFileAtPath. }
  intros _. apply keepsOnDisk_bind; [by apply keepsOnDisk_extractHelperFunctions|].
  intros _. apply keepsOnDisk_saveSync. by apply not_eq_sym.
Qed.

(** A run on an origin with nothing to extract. *)
Lemma main2_nothing (d : gmap string (list Statement)) (l0 : list Statement) :
  d !! target = Some l0 →
  (∀ statements, componentBody l0 = Some (Block statements) → helpers statements = []) →
  ∃ r w', runOn (main env options) d = (r, w')
          ∧ disk w' = d
          ∧ (fsWritable env target = true → r = Ok tt).
Proof.
  intros Hd Hno. unfold runOn, main.
  destruct (newTSXRefactorer2_Ok env options d l0 Hd) as (w1 & H1 & Hd1 & Hp1 & _).
  unfold bind at 1. rewrite H1.
  unfold bind at 1. rewrite (extractHelperFunctions_nothing w1 (load l0) Hp1)
    by (by rewrite content_load).
  unfold save, saveSync. rewrite Hp1.
  destruct (fsWritable env target).
  - eexists _, _. split; [reflexivity|]. split; [|done]. simpl.
    rewrite content_load, Hd1. by apply insert_id.
  - eexists _, _. split; [reflexivity|]. by split.
Qed.

(** A completed run that extracted helpers. *)
Lemma main2_Ok_exact (d : gmap string (list Statement)) (w' : World)
    (l0 : list Statement) (id index : nat) (f : ArrowFunction)
    (statements : list BlockStatement) :
  runOn (main env options) d = (Ok tt, w') →
  d !! target = Some l0 →
  findComponent (load l0) = Some (id, index, f) →
  af_body f = Block statements →
  helpers statements ≠ [] →
  utils ≠ target →
  ∃ remaining,
    removeHelpers (names statements) statements = Ok remaining
    ∧ fsWritable env target = true
    ∧ disk w' !! target
      = Some (content (newOrigin id index statements remaining (load l0))).
Proof.
  unfold runOn, main. intros H Hd Hc Hb Hh Hne.
  destruct (newTSXRefactorer2_Ok env options d l0 Hd) as (w1 & H1 & Hd1 & Hp1 & _).
  unfold bind at 1 in H. rewrite H1 in H.
  apply bind_Ok_inv in H as ([] & w2 & H2 & H3).
  rewrite (extractHelperFunctions_exact w1 _ _ _ _ _ Hp1 Hc Hb Hh Hne) in H2.
  destruct (fsWritable env utils); [|done].
  rewrite (removeAndImport_exact _ (load l0) id index statements) in H2;
    [|simpl; by rewrite lookup_insert_ne|by eapply findComponent_node].
  destruct (removeHelpers (names statements) statements) as [remaining|e]; [|done].
  exists remaining. split; [done|].
  apply saveSync_Ok in H2 as (Hw & sf2 & Hsf2 & ->). simpl in Hsf2.
  rewrite lookup_insert_eq in Hsf2. simplify_eq. split; [done|].
  apply saveSync_Ok in H3 as (_ & sf3 & Hsf3 & ->). simpl in *.
  rewrite lookup_insert_eq in Hsf3. simplify_eq.
  by rewrite lookup_insert_eq.
Qed.

(** A run that an exception ends. *)
Lemma main2_Throw_keeps (d : gmap string (list Statement)) (e : Error) (w' : World) :
  utils ≠ target →
  runOn (main env options) d = (Throw e, w') →
  disk w' !! target = d !! target.
Proof.
  intros Hne. unfold runOn, main.
  destruct (d !! target) as [l0|] eqn:Hd.
  - destruct (newTSXRefactorer2_Ok env options d l0 Hd) as (w1 & H1 & Hd1 & Hp1 & _).
    unfold bind at 1. rewrite H1. rewrite <- Hd, <- Hd1. clear H1 Hd Hd1.
    destruct (findComponent (load l0)) as [[[id index] f]|] eqn:Hc; cycle 1.
    { unfold bind at 1. rewrite (extractHelperFunctions_idle w1 (load l0) Hp1)
        by (by rewrite Hc).
      intros Hs. by apply saveSync_Throw in Hs as ->. }
    destruct (af_body f) as [statements|] eqn:Hb; cycle 1.
    { unfold bind at 1. rewrite (extractHelperFunctions_idle w1 (load l0) Hp1)
        by (by rewrite Hc, Hb).
      intros Hs. by apply saveSync_Throw in Hs as ->. }
    destruct (decide (helpers statements = [])) as [Hh|Hh].
    { unfold bind at 1. rewrite (extractHelperFunctions_idle w1 (load l0) Hp1)
        by (by rewrite Hc, Hb).
      intros Hs. by apply saveSync_Throw in Hs as ->. }
    unfold bind at 1.
    rewrite (extractHelperFunctions_exact w1 _ _ _ _ _ Hp1 Hc Hb Hh Hne).
    destruct (fsWritable env utils); [|by intros; simplify_eq].
    rewrite (removeAndImport_exact _ (load l0) id index statements);
      [|simpl; by rewrite lookup_insert_ne|by eapply findComponent_node].
    destruct (removeHelpers (names statements) statements) as [remaining|e'].
    + unfold saveSync at 1. cbn [project disk]. rewrite lookup_insert_eq.
      destruct (fsWritable env target) eqn:Hw.
      * unfold save, saveSync. cbn [project disk]. rewrite lookup_insert_eq, Hw. done.
      * intros; simplify_eq. simpl. by rewrite lookup_insert_ne.
    + intros; simplify_eq. simpl. by rewrite lookup_insert_ne.
  - unfold newTSXRefactorer2. unfold bind at 1.
    rewrite (addSourceFileAtPath_missing env d _ Hd). by intros; simplify_eq.
Qed.

(** A helper that is not the last declaration of its statement. *)
Lemma main2_not_last (d : gmap string (list Statement)) (l0 : list Statement)
    (id index : nat) (f : ArrowFunction) (statements : list BlockStatement)
    (text : string) (ds1 ds2 : list NestedDeclaration) (d1 d2 : NestedDeclaration) :
  d !! target = Some l0 →
  findComponent (load l0) = Some (id, index, f) →
  af_body f = Block statements →
  NestedVariableStatement text (ds1 ++ d1 :: d2 :: ds2) ∈ statements →
  nd_isArrowFunction d1 = true →
  helperNamePattern options (nd_name d1) = true →
  utils ≠ target →
  fsWritable env utils = true →
  ∃ w', runOn (main env options) d = (Throw ForgottenNode, w')
        ∧ disk w' !! target = Some l0
        ∧ ∃ text', disk w' !! utils = Some [SOther text'].
Proof.
  intros Hd Hc Hb Hs Ha Hp Hne Hw. unfold runOn, main.
  destruct (newTSXRefactorer2_Ok env options d l0 Hd) as (w1 & H1 & Hd1 & Hp1 & _).
  unfold bind at 1. rewrite H1.
  assert (Hin : Js.includes (nd_name d1) (names statements) = true).
  { eapply helper_name_included; [exact Hs| |done..].
    apply elem_of_app. right. apply elem_of_cons. by left. }
  assert (Hh : helpers statements ≠ []).
  { intros Hnil. unfold Js.includes in Hin. apply bool_decide_eq_true_1 in Hin.
    rewrite Hnil in Hin. by apply elem_of_nil in Hin. }
  unfold bind at 1.
  rewrite (extractHelperFunctions_exact w1 _ _ _ _ _ Hp1 Hc Hb Hh Hne), Hw.
  rewrite (removeAndImport_exact _ (load l0) id index statements);
    [|simpl; by rewrite lookup_insert_ne|by eapply findComponent_node].
  rewrite (removeHelpers_not_last _ _ _ _ _ _ _ Hs Hin).
  eexists. split; [reflexivity|]. simpl. split.
  - rewrite lookup_insert_ne by done. by rewrite Hd1.
  - eexists. by rewrite lookup_insert_eq.
Qed.

(** The origin that a completed run with helpers saves. *)
Lemma main2_completed (d : gmap string (list Statement)) (w' : World)
    (l0 : list Statement) (id index : nat) (f : ArrowFunction)
    (statements : list BlockStatement) :
  runOn (main env options) d = (Ok tt, w') →
  d !! target = Some l0 →
  findComponent (load l0) = Some (id, index, f) →
  af_body f = Block statements →
  helpers statements ≠ [] →
  utils ≠ target →
  ∃ l1, disk w' !! target = Some l1
        ∧ fsWritable env target = true
        ∧ componentBody l1
          = Some (Block (filter (λ s, declaresAny (names statements) s = false) statements))
        ∧ (∀ name, name ∈ names statements → name ∈ importedNames l1)
        ∧ (∀ k s, l0 !! k = Some s → k ≠ id → isImportStatement s = false → s ∈ l1).
Proof.
  intros H Hd Hc Hb Hh Hne.
  destruct (main2_Ok_exact d w' l0 id index f statements H Hd Hc Hb Hh Hne)
    as (remaining & Hr & Hw & Hl1).
  apply removeHelpers_Ok in Hr. subst remaining.
  eexists. split; [exact Hl1|]. split; [done|].
  assert (Hnd : NoDup (nid <$> setComponentBody id index
                                 (filter (λ s, declaresAny (names statements) s = false)
                                    statements) (load l0))).
  { rewrite nid_setComponentBody. apply NoDup_nid_load. }
  split_and!.
  - rewrite componentBody_content, findComponent_addHelperImport by done.
    by rewrite (findComponent_setComponentBody id index f _ _ Hc).
  - intros name Hin. rewrite addHelperImport_eq.
    destruct (addOrUpdateNamedImport_new (toModuleSpecifier env target utils)
                (names statements) _ name Hnd Hin) as (n & i & Hn & Hs & Hx & _).
    apply importedNames_elem. by exists n, i.
  - intros k s Hk Hkid Himp. rewrite addHelperImport_eq.
    apply (list_elem_of_fmap_2 stmt _ {| nid := k; stmt := s |}).
    apply addOrUpdateNamedImport_keeps_node; [done| |by destruct s].
    unfold setComponentBody. apply list_elem_of_fmap.
    exists {| nid := k; stmt := s |}. simpl. split; [by rewrite decide_False|].
    by apply load_lookup.
Qed.

(** A second run finds nothing to extract. *)
Lemma main2_again (d : gmap string (list Statement)) (w1 : World) :
  runOn (main env options) d = (Ok tt, w1) →
  utils ≠ target →
  ∃ w2, runOn (main env options) (disk w1) = (Ok tt, w2) ∧ disk w2 = disk w1.
Proof.
  intros H Hne.
  destruct (d !! target) as [l0|] eqn:Hd; cycle 1.
  { unfold runOn, main, newTSXRefactorer2 in H. unfold bind at 1 in H.
    by rewrite (addSourceFileAtPath_missing env d _ Hd) in H. }
  assert (Hidle : (∀ statements, componentBody l0 = Some (Block statements) →
                                 helpers statements = []) →
                  ∃ w2, runOn (main env options) (disk w1) = (Ok tt, w2)
                        ∧ disk w2 = disk w1).
  { intros Hno. destruct (main2_nothing d l0 Hd Hno) as (r & w' & Hrun & Hdisk & _).
    rewrite H in Hrun. injection Hrun as _ Hw. subst w'. exists w1. by rewrite Hdisk. }
  destruct (componentBody l0) as [[statements|]|] eqn:Hbody;
    [|by apply Hidle..].
  destruct (decide (helpers statements = [])) as [Hh|Hh].
  { apply Hidle. by intros; simplify_eq. }
  clear Hidle. unfold componentBody in Hbody.
  destruct (findComponent (load l0)) as [[[id index] f]|] eqn:Hc; [|done].
  assert (Hb : af_body f = Block statements) by congruence. clear Hbody.
  destruct (main2_completed d w1 l0 id index f statements H Hd Hc Hb Hh Hne)
    as (l1 & Hl1 & Hw & Hbody1 & _).
  destruct (main2_nothing (disk w1) l1 Hl1) as (r & w2 & Hrun & Hdisk & Hok).
  { intros st Hst. rewrite Hbody1 in Hst. simplify_eq. apply helpers_filter. }
  exists w2. by rewrite Hrun, (Hok Hw).
Qed.

End Pass2Run.

(** ** Results of the nested pass *)

Section NestedResults.
Import RefactorTsxPass2.

(** When the origin has no component, or the body of its component is an
    expression, or no declaration of the body is selected, a run of the nested
    pass leaves every file on disk as it was; the run completes when the
    origin can be written. *)
Theorem nested_pass_without_helpers_changes_nothing (env : Environment)
    (options : Pass2Options) (d : gmap string (list Statement)) (l0 : list Statement) :
  d !! targetFile options = Some l0 →
  (∀ statements, componentBody l0 = Some (Block statements) →
                 collectHelpers (helperNamePattern options) statements = []) →
  ∃ r w', runOn (main env options) d = (r, w')
          ∧ disk w' = d
          ∧ (fsWritable env (targetFile options) = true → r = Ok tt).
Proof. apply main2_nothing. Qed.

Lemma nested_pass_without_helpers_changes_nothing_witness :
  ∃ r w', runOn (main Example.env Example.pass2Options) Sample.countDisk = (r, w')
          ∧ disk w' = Sample.countDisk
          ∧ (fsWritable Example.env (targetFile Example.pass2Options) = true → r = Ok tt).
Proof.
  apply (nested_pass_without_helpers_changes_nothing Example.env Example.pass2Options
           Sample.countDisk [Example.component Example.countBody]).
  - vm_compute. reflexivity.
  - intros statements Hbody. vm_compute in Hbody. injection Hbody as <-.
    vm_compute. reflexivity.
Defined.

(** Whatever the outcome of a run of the nested pass, a file that is neither
    the origin nor the utilities file is on disk as it was. *)
Theorem nested_pass_writes_only_origin_and_utils (env : Environment)
    (options : Pass2Options) (d : gmap string (list Statement)) (r : Result unit)
    (w' : World) (p : string) :
  runOn (main env options) d = (r, w') →
  p ≠ targetFile options → p ≠ utilsFile options →
  disk w' !! p = d !! p.
Proof.
  intros Hrun H1 H2. exact (keepsOnDisk_main2 env options p H1 H2 _ _ _ Hrun).
Qed.

Lemma nested_pass_writes_only_origin_and_utils_witness :
  disk (runOn (main Example.env Example.pass2Options)
          (<["/app/Settings.tsx" := Example.dashboard]> Example.componentDisk)).2
    !! "/app/Settings.tsx"
  = (<["/app/Settings.tsx" := Example.dashboard]> Example.componentDisk)
      !! "/app/Settings.tsx".
Proof.
  apply (nested_pass_writes_only_origin_and_utils Example.env Example.pass2Options
           (<["/app/Settings.tsx" := Example.dashboard]> Example.componentDisk)
           (runOn (main Example.env Example.pass2Options)
              (<["/app/Settings.tsx" := Example.dashboard]> Example.componentDisk)).1).
  - by destruct (runOn (main Example.env Example.pass2Options)
                   (<["/app/Settings.tsx" := Example.dashboard]> Example.componentDisk)).
  - discriminate.
  - discriminate.
Defined.

(** When a variable statement of the component's body declares a selected
    helper (an arrow function whose name matches the pattern) before another
    variable, the run ends with the exception of a forgotten node: the helper
    removes the statement, and reading the name of the next declaration
    raises.  By then the utilities file has been written; the origin on disk
    is unchanged. *)
Theorem helper_before_another_declaration_aborts (env : Environment)
    (options : Pass2Options) (d : gmap string (list Statement)) (l0 : list Statement)
    (id index : nat) (f : ArrowFunction) (statements : list BlockStatement)
    (text : string) (ds1 ds2 : list NestedDeclaration) (d1 d2 : NestedDeclaration) :
  d !! targetFile options = Some l0 →
  findComponent (load l0) = Some (id, index, f) →
  af_body f = Block statements →
  NestedVariableStatement text (ds1 ++ d1 :: d2 :: ds2) ∈ statements →
  nd_isArrowFunction d1 = true →
  helperNamePattern options (nd_name d1) = true →
  utilsFile options ≠ targetFile options →
  fsWritable env (utilsFile options) = true →
  ∃ w', runOn (main env options) d = (Throw ForgottenNode, w')
        ∧ disk w' !! targetFile options = Some l0
        ∧ ∃ text', disk w' !! utilsFile options = Some [SOther text'].
Proof. apply main2_not_last. Qed.

Lemma helper_before_another_declaration_aborts_witness :
  ∃ w', runOn (main Example.env Example.pass2Options) Sample.helperFirstDisk
        = (Throw ForgottenNode, w')
        ∧ disk w' !! targetFile Example.pass2Options
          = Some [Example.component Sample.helperFirstBody]
        ∧ ∃ text', disk w' !! utilsFile Example.pass2Options = Some [SOther text'].
Proof.
  apply (helper_before_another_declaration_aborts Example.env Example.pass2Options
           Sample.helperFirstDisk [Example.component Sample.helperFirstBody] 0 0
           {| af_returnTypeNode := None; af_returnType := "JSX.Element";
              af_setReturnTypeThrows := false; af_parameters := [];
              af_body := Block Sample.helperFirstBody |}
           Sample.helperFirstBody
           "const validateForm = () => true, formCache = new Map();"
           [] []
           {| nd_name := "validateForm"; nd_isArrowFunction := true |}
           {| nd_name := "formCache"; nd_isArrowFunction := false |}).
  - vm_compute. reflexivity.
  - vm_compute. reflexivity.
  - reflexivity.
  - apply elem_of_cons. left. reflexivity.
  - reflexivity.
  - vm_compute. reflexivity.
  - discriminate.
  - reflexivity.
Defined.

(** After a completed run that selected helpers, the body of the component
    in the saved origin consists of the statements of the old body that
    declare no variable named as a helper, in their order; every helper name
    is a named import of the saved origin; and every statement of the origin
    that is no import and not the component's statement is still there. *)
Theorem helpers_leave_the_component (env : Environment) (options : Pass2Options)
    (d : gmap string (list Statement)) (w' : World) (l0 : list Statement)
    (id index : nat) (f : ArrowFunction) (statements : list BlockStatement) :
  runOn (main env options) d = (Ok tt, w') →
  d !! targetFile options = Some l0 →
  findComponent (load l0) = Some (id, index, f) →
  af_body f = Block statements →
  collectHelpers (helperNamePattern options) statements ≠ [] →
  utilsFile options ≠ targetFile options →
  ∃ l1, disk w' !! targetFile options = Some l1
        ∧ componentBody l1
          = Some (Block
                    (filter (λ s, declaresAny
                                    (h_name <$> collectHelpers (helperNamePattern options)
                                                  statements) s = false)
                       statements))
        ∧ (∀ name, name ∈ h_name <$> collectHelpers (helperNamePattern options) statements →
                   name ∈ importedNames l1)
        ∧ (∀ k s, l0 !! k = Some s → k ≠ id → isImportStatement s = false → s ∈ l1).
Proof.
  intros H Hd Hc Hb Hh Hne.
  destruct (main2_completed env options d w' l0 id index f statements H Hd Hc Hb Hh Hne)
    as (l1 & Hl1 & _ & Hbody & Hnames & Hkept).
  by exists l1.
Qed.

Lemma helpers_leave_the_component_witness :
  ∃ l1, disk (runOn (main Example.env Example.pass2Options) Example.componentDisk).2
          !! targetFile Example.pass2Options = Some l1
        ∧ componentBody l1
          = Some (Block
                    (filter (λ s, declaresAny
                                    (h_name <$> collectHelpers
                                                  (helperNamePattern Example.pass2Options)
                                                  Example.threeHelpers) s = false)
                       Example.threeHelpers))
        ∧ (∀ name, name ∈ h_name <$> collectHelpers
                                       (helperNamePattern Example.pass2Options)
                                       Example.threeHelpers →
                   name ∈ importedNames l1)
        ∧ (∀ k s, [Example.component Example.threeHelpers] !! k = Some s → k ≠ 0%nat →
                  isImportStatement s = false → s ∈ l1).
Proof.
  apply (helpers_leave_the_component Example.env Example.pass2Options
           Example.componentDisk
           (runOn (main Example.env Example.pass2Options) Example.componentDisk).2
           [Example.component Example.threeHelpers] 0 0
           {| af_returnTypeNode := None; af_returnType := "JSX.Element";
              af_setReturnTypeThrows := false; af_parameters := [];
              af_body := Block Example.threeHelpers |}
           Example.threeHelpers).
  - vm_compute. reflexivity.
  - vm_compute. reflexivity.
  - vm_compute. reflexivity.
  - reflexivity.
  - vm_compute. discriminate.
  - discriminate.
Defined.

(** Whatever exception ends a run of the nested pass whose utilities file is
    not the origin itself, the origin on disk is what it was before the
    run. *)
Theorem failed_nested_run_leaves_the_origin (env : Environment) (options : Pass2Options)
    (d : gmap string (list Statement)) (e : Error) (w' : World) :
  utilsFile options ≠ targetFile options →
  runOn (main env options) d = (Throw e, w') →
  disk w' !! targetFile options = d !! targetFile options.
Proof. apply main2_Throw_keeps. Qed.

Lemma failed_nested_run_leaves_the_origin_witness :
  disk (runOn (main (Example.envReadOnly "/app/Dashboard.tsx") Example.pass2Options)
          Example.componentDisk).2 !! targetFile Example.pass2Options
  = Example.componentDisk !! targetFile Example.pass2Options.
Proof.
  apply (failed_nested_run_leaves_the_origin (Example.envReadOnly "/app/Dashboard.tsx")
           Example.pass2Options Example.componentDisk (SaveFailed "/app/Dashboard.tsx")).
  - discriminate.
  - vm_compute. reflexivity.
Defined.

(** A second run of the nested pass on the files that a completed run has
    left completes and changes no file: the statements that stay in the body
    of the component declare no selected helper. *)
Theorem second_nested_run_changes_nothing (env : Environment) (options : Pass2Options)
    (d : gmap string (list Statement)) (w1 : World) :
  runOn (main env options) d = (Ok tt, w1) →
  utilsFile options ≠ targetFile options →
  ∃ w2, runOn (main env options) (disk w1) = (Ok tt, w2) ∧ disk w2 = disk w1.
Proof. apply main2_again. Qed.

Lemma second_nested_run_changes_nothing_witness :
  ∃ w2, runOn (main Example.env Example.pass2Options)
          (disk (runOn (main Example.env Example.pass2Options) Example.componentDisk).2)
        = (Ok tt, w2)
        ∧ disk w2 = disk (runOn (main Example.env Example.pass2Options)
                            Example.componentDisk).2.
Proof.
  apply (second_nested_run_changes_nothing Example.env Example.pass2Options
           Example.componentDisk
           (runOn (main Example.env Example.pass2Options) Example.componentDisk).2).
  - vm_compute. reflexivity.
  - discriminate.
Defined.

End NestedResults.

(** ** The utilities file of the top-level pass *)

Section Pass1Utils.
Variable env : Environment.
Variable options : RefactorOptions.

Local Abbreviation target := (targetFile options).
Local Abbreviation ids cs := ((refId ∘ c_node) <$> cs).
Local Abbreviation typeCandidates cands := (filter isTypeCandidate cands).
Local Abbreviation utilCandidates cands := (filter (isUtilCandidate options) cands).
Local Abbreviation typeImportOf names :=
  [SImport {| imp_moduleSpecifier :=
                toModuleSpecifier env (utilsFile options) (typesFile options);
              imp_namedImports := names;
              imp_text :=
                typeImportText names
                  (toModuleSpecifier env (utilsFile options) (typesFile options)) |};
   SOther ""].

Lemma Forall2_impl_elem {A B} (R R' : A → B → Prop) (l : list A) (k : list B) :
  Forall2 R l k → (∀ x y, x ∈ l → R x y → R' x y) → Forall2 R' l k.
Proof.
  induction 1 as [|x y l k HR _ IH]; intros Himpl; constructor.
  - apply Himpl; [apply elem_of_cons; by left|done].
  - apply IH. intros x' y' Hx'. apply Himpl. apply elem_of_cons. by right.
Qed.

(** The type candidates are the interfaces, then the type aliases. *)
Lemma typeCandidates_analyze (sf : SourceFile) :
  typeCandidates (analyze options sf)
  = interfaceCandidates sf ++ typeAliasCandidates sf.
Proof.
  unfold analyze. rewrite !filter_app.
  rewrite (filter_nil_forall _ (functionCandidates options sf)), app_nil_l;
    unfold functionCandidates, variableCandidates, interfaceCandidates,
      typeAliasCandidates.
  - rewrite (filter_nil_forall _ (n ← sf; match stmt n with
                                             | SVariable v =>
                                                 declarationCandidates options (nid n) v
                                             | _ => []
                                             end)), app_nil_l.
    + f_equal.
      * apply filter_all. intros c (n & Hn & Hc)%list_elem_of_omap.
        destruct (stmt n); simplify_eq. by left.
      * apply filter_all. intros c (n & Hn & Hc)%list_elem_of_omap.
        destruct (stmt n); simplify_eq. by right.
    + intros c (n & Hc & Hn)%list_elem_of_bind.
      destruct (stmt n) as [| |v| | |]; try (by apply elem_of_nil in Hc).
      apply declarationCandidates_elem in Hc as (i & decl & _ & _ & ->).
      by intros [|].
  - intros c (n & Hn & Hc)%list_elem_of_omap.
    destruct (stmt n) as [|func| | | |]; try done.
    case_bool_decide; simplify_eq. by intros [|].
Qed.

Lemma interfaces_load (l : list Statement) :
  interfaces (load l) = omap (λ s, match s with SInterface t => Some t | _ => None end) l
  ∧ typeAliases (load l)
    = omap (λ s, match s with STypeAlias t => Some t | _ => None end) l.
Proof.
  assert (∀ (f : Statement → option TypeDeclaration) (h : nat → nat),
            omap (λ n, f (stmt n)) (imap (λ i s, {| nid := h i; stmt := s |}) l)
            = omap f l) as Hgen.
  { intros f. induction l as [|s l IH]; intros h; [done|]. rewrite imap_cons. simpl.
    destruct (f s); simpl; [f_equal|]; apply (IH (h ∘ S)). }
  unfold interfaces, typeAliases, load. split.
  - apply (Hgen (λ s, match s with SInterface t => Some t | _ => None end) (λ i, i)).
  - apply (Hgen (λ s, match s with STypeAlias t => Some t | _ => None end) (λ i, i)).
Qed.

Lemma isExported_exportedTypeText (t : TypeDeclaration) (text : string) :
  td_text t = exportedTypeText text → isExported t = true.
Proof.
  unfold isExported, exportedTypeText. intros ->. apply orb_true_iff. left.
  destruct (Js.startsWith "export " text) eqn:Hs; [done|].
  unfold Js.startsWith. simpl. by destruct text.
Qed.

Local Abbreviation exportedFrom sf :=
  (λ (c : ExtractionCandidate) (s : Statement),
     ∃ n, n ∈ sf ∧ nid n = refId (c_node c)
          ∧ s = withText (exportedTypeText (getText (stmt n))) (stmt n)).

(** The declarations written for the interfaces, and for the type aliases. *)
Lemma exported_interfaces (sf : SourceFile) (cs : list ExtractionCandidate)
    (decls : list Statement) :
  NoDup (nid <$> sf) →
  (∀ c, c ∈ cs → c ∈ interfaceCandidates sf) →
  Forall2 (exportedFrom sf) cs decls →
  ∃ ts, decls = SInterface <$> ts
        ∧ Forall (λ t, isExported t = true) ts
        ∧ td_name <$> ts = c_name <$> cs.
Proof.
  intros Hnd Hcs H2. induction H2 as [|c s cs decls (n & Hn & Hid & ->) _ IH].
  - by exists [].
  - destruct IH as (ts & -> & Hex & Hnames).
    { intros c' Hc'. apply Hcs. apply elem_of_cons. by right. }
    assert (Hc : c ∈ interfaceCandidates sf) by (apply Hcs, elem_of_cons; by left).
    apply list_elem_of_omap in Hc as (n0 & Hn0 & Hc).
    destruct (stmt n0) as [| | |t0| |] eqn:Hs0; simplify_eq. simpl in Hid.
    assert (n = n0) as -> by (by eapply NoDup_fmap_eq).
    rewrite Hs0. simpl.
    eexists (_ :: ts). split; [reflexivity|]. split.
    + constructor; [|done]. by eapply isExported_exportedTypeText.
    + rewrite !fmap_cons, Hnames. done.
Qed.

Lemma exported_typeAliases (sf : SourceFile) (cs : list ExtractionCandidate)
    (decls : list Statement) :
  NoDup (nid <$> sf) →
  (∀ c, c ∈ cs → c ∈ typeAliasCandidates sf) →
  Forall2 (exportedFrom sf) cs decls →
  ∃ ts, decls = STypeAlias <$> ts
        ∧ Forall (λ t, isExported t = true) ts
        ∧ td_name <$> ts = c_name <$> cs.
Proof.
  intros Hnd Hcs H2. induction H2 as [|c s cs decls (n & Hn & Hid & ->) _ IH].
  - by exists [].
  - destruct IH as (ts & -> & Hex & Hnames).
    { intros c' Hc'. apply Hcs. apply elem_of_cons. by right. }
    assert (Hc : c ∈ typeAliasCandidates sf) by (apply Hcs, elem_of_cons; by left).
    apply list_elem_of_omap in Hc as (n0 & Hn0 & Hc).
    destruct (stmt n0) as [| | | |t0|] eqn:Hs0; simplify_eq. simpl in Hid.
    assert (n = n0) as -> by (by eapply NoDup_fmap_eq).
    rewrite Hs0. simpl.
    eexists (_ :: ts). split; [reflexivity|]. split.
    + constructor; [|done]. by eapply isExported_exportedTypeText.
    + rewrite !fmap_cons, Hnames. done.
Qed.

(** The types file that [extractTypes] has just written exports the names
    of the type candidates, in their order. *)
Lemma exportedTypeNames_extracted (sf : SourceFile) (decls : list Statement) :
  NoDup (nid <$> sf) →
  Forall2 (exportedFrom sf) (typeCandidates (analyze options sf)) decls →
  exportedTypeNames (load (typesHeader ++ decls))
  = c_name <$> typeCandidates (analyze options sf).
Proof.
  intros Hnd. rewrite typeCandidates_analyze.
  intros (di & da & Hi & Ha & ->)%Forall2_app_inv_l.
  apply exported_interfaces in Hi as (ti & -> & Hei & Hni); [|done..].
  apply exported_typeAliases in Ha as (ta & -> & Hea & Hna); [|done..].
  unfold exportedTypeNames.
  destruct (interfaces_load (typesHeader ++ (SInterface <$> ti) ++ (STypeAlias <$> ta)))
    as [-> ->].
  rewrite !omap_app.
  assert (∀ ts,
            omap (λ s, match s with SInterface t => Some t | _ => None end)
              (SInterface <$> ts) = ts
            ∧ omap (λ s, match s with STypeAlias t => Some t | _ => None end)
                (SInterface <$> ts) = []
            ∧ omap (λ s, match s with SInterface t => Some t | _ => None end)
                (STypeAlias <$> ts) = []
            ∧ omap (λ s, match s with STypeAlias t => Some t | _ => None end)
                (STypeAlias <$> ts) = ts) as Hload.
  { induction ts as [|t ts (IH1 & IH2 & IH3 & IH4)]; [done|].
    rewrite !fmap_cons. cbn [omap list_omap]. by rewrite IH1, IH2, IH3, IH4. }
  destruct (Hload ti) as (-> & -> & _ & _). destruct (Hload ta) as (_ & _ & -> & ->).
  simpl. rewrite app_nil_r.
  rewrite filter_all by (intros t Ht; apply elem_of_app in Ht as [Ht|Ht];
                         [by eapply (proj1 (Forall_forall _ _) Hei)
                         |by eapply (proj1 (Forall_forall _ _) Hea)]).
  by rewrite !fmap_app, Hni, Hna.
Qed.

(** What a completed run that extracted types and utilities has written to
    the utilities file. *)
Lemma main_utils_file (d : gmap string (list Statement)) (w' : World)
    (l0 : list Statement) :
  runOn (main env options) d = (Ok tt, w') →
  d !! target = Some l0 →
  typeCandidates (analyze options (load l0)) ≠ [] →
  utilCandidates (analyze options (load l0)) ≠ [] →
  ∃ stmts,
    disk w' !! utilsFile options
    = Some (utilsHeader
              ++ (if decide (typesFile options = utilsFile options) then []
                  else typeImportOf
                         (c_name <$> typeCandidates (analyze options (load l0))))
              ++ stmts)
    ∧ Forall2 (λ c s, ∃ s0, l0 !! refId (c_node c) = Some s0
                            ∧ s = withText
                                    (Js.replaceLeadingDeclKeyword "export const"
                                       (getText s0)) s0)
        (utilCandidates (analyze options (load l0))) stmts.
Proof.
  unfold runOn, main. intros H Hl0 Hty Hut.
  apply bind_Ok_inv in H as ([] & w1 & H1 & H2).
  apply newTSXRefactorer_inv in H1 as [Hd1 (l & Hl & Hp1)]. simpl in Hl.
  rewrite Hl0 in Hl. simplify_eq.
  apply bind_Ok_inv in H2 as (cands & w2 & H2 & H3).
  apply analyzeFile_inv in H2 as [-> Hc]. specialize (Hc _ Hp1). simplify_eq.
  apply bind_Ok_inv in H3 as ([] & w3 & H3 & H4).
  apply bind_Ok_inv in H4 as ([] & w4 & H4 & H5).
  set (cands := analyze options (load l)) in *.
  eapply extractTypes_exact in H3 as (decls & Hdecls & Hpt & Hw3);
    [|done|apply NoDup_nid_load|done].
  subst w3.
  assert (Hnd3 : NoDup (nid <$> addOrUpdateNamedImport
                                  (toModuleSpecifier env target (typesFile options))
                                  (c_name <$> typeCandidates cands)
                                  (filter (λ n, ¬ (isTypeStatement (stmt n) = true
                                                   ∧ nid n ∈ ids (typeCandidates cands)))
                                     (load l)))).
  { apply addOrUpdateNamedImport_NoDup, NoDup_nid_filter_any, NoDup_nid_load. }
  eapply extractUtilities_exact in H4 as (stmts & Hstmts & Hpu & Hw4);
    [|simpl; apply lookup_insert_eq|exact Hnd3|done].
  cbv zeta in Hw4. cbn [project disk] in Hw4.
  rewrite lookup_insert_ne in Hw4 by done.
  assert (disk w4 !! utilsFile options
          = Some (utilsHeader
                    ++ (if decide (typesFile options = utilsFile options) then []
                        else typeImportOf (c_name <$> typeCandidates cands))
                    ++ stmts)) as Hutils.
  { destruct (decide (typesFile options = utilsFile options)) as [Heq|Hne].
    - rewrite Heq, lookup_insert_eq in Hw4. subst w4. simpl.
      by rewrite lookup_insert_eq.
    - rewrite lookup_insert_ne in Hw4 by done.
      rewrite lookup_insert_ne in Hw4 by done.
      rewrite lookup_insert_eq in Hw4.
      rewrite (exportedTypeNames_extracted (load l) decls (NoDup_nid_load l) Hdecls)
        in Hw4.
      assert (0 < length (c_name <$> typeCandidates cands))%nat as Hpos.
      { rewrite length_fmap. destruct (typeCandidates cands) eqn:E; [done|]. simpl. lia. }
      rewrite bool_decide_eq_true_2 in Hw4 by exact Hpos.
      subst w4. simpl. by rewrite lookup_insert_eq. }
  clear Hw4.
  apply saveSync_Ok in H5 as (_ & sf5 & _ & ->). simpl.
  exists stmts. split.
  - by rewrite lookup_insert_ne.
  - eapply Forall2_impl_elem; [exact Hstmts|].
    intros c s Hc (n & Hn & Hid & ->). exists (stmt n). split; [|done].
    apply list_elem_of_filter in Hc as [Hu Hc].
    destruct (utilCandidate_node options _ _ Hc Hu) as (n1 & Hn1 & Hid1 & Hi1 & Ht1 & _).
    assert (n1 ∈ addOrUpdateNamedImport
                   (toModuleSpecifier env target (typesFile options))
                   (c_name <$> typeCandidates cands)
                   (filter (λ n, ¬ (isTypeStatement (stmt n) = true
                                    ∧ nid n ∈ ids (typeCandidates cands)))
                      (load l))) as Hkept.
    { apply addOrUpdateNamedImport_keeps_node;
        [apply NoDup_nid_filter_any, NoDup_nid_load| |done].
      apply list_elem_of_filter. split; [|done]. intros [Htype _]. congruence. }
    assert (n = n1) as -> by (eapply NoDup_fmap_eq; [exact Hnd3|done..|congruence]).
    rewrite Hid1. by apply load_lookup.
Qed.

End Pass1Utils.

(** After a completed run of the top-level pass that selected both types
    and utilities, the utilities file on disk is the header, then (when the
    types file is another file) one type-only import from the types file
    that names every type the run has extracted, in the order of the
    candidates and whether the utilities use them or not, and an empty line,
    and then one statement per utility candidate, in their order: the
    candidate's whole variable statement with its leading [const], [let] or
    [var] replaced by [export const].  When the types file and the
    utilities file are one path, that path holds the utilities only, with
    no import. *)
Theorem utilities_file_imports_the_extracted_types (env : Environment)
    (options : RefactorOptions) (d : gmap string (list Statement)) (w' : World)
    (l0 : list Statement) :
  runOn (main env options) d = (Ok tt, w') →
  d !! targetFile options = Some l0 →
  filter isTypeCandidate (analyze options (load l0)) ≠ [] →
  filter (isUtilCandidate options) (analyze options (load l0)) ≠ [] →
  (∃ stmts,
     disk w' !! utilsFile options
     = Some (utilsHeader
               ++ (if decide (typesFile options = utilsFile options) then []
                   else [SImport
                           {| imp_moduleSpecifier :=
                                toModuleSpecifier env (utilsFile options)
                                  (typesFile options);
                              imp_namedImports :=
                                c_name <$> filter isTypeCandidate
                                             (analyze options (load l0));
                              imp_text :=
                                typeImportText
                                  (c_name <$> filter isTypeCandidate
                                                (analyze options (load l0)))
                                  (toModuleSpecifier env (utilsFile options)
                                     (typesFile options)) |};
                         SOther ""])
               ++ stmts)
     ∧ Forall2 (λ c s, ∃ s0, l0 !! refId (c_node c) = Some s0
                             ∧ s = withText
                                     (Js.replaceLeadingDeclKeyword "export const"
                                        (getText s0)) s0)
         (filter (isUtilCandidate options) (analyze options (load l0))) stmts)
  ∧ (∀ kw rest, kw ∈ ["const"; "let"; "var"] →
                Js.replaceLeadingDeclKeyword "export const" (kw +:+ rest)
                = "export const" +:+ rest)
  ∧ (∀ text, (∀ kw rest, kw ∈ ["const"; "let"; "var"] → text ≠ kw +:+ rest) →
             Js.replaceLeadingDeclKeyword "export const" text = text).
Proof.
  intros Hrun Hl0 Hty Hut. split_and!.
  - exact (main_utils_file env options d w' l0 Hrun Hl0 Hty Hut).
  - intros kw rest. apply replaceLeadingDeclKeyword_keyword.
  - intros text. apply replaceLeadingDeclKeyword_other.
Qed.

Lemma utilities_file_imports_the_extracted_types_witness :
  (∃ stmts,
     disk (runOn (main Example.env Example.options) Sample.mixedDisk).2
       !! utilsFile Example.options
     = Some (utilsHeader
               ++ (if decide (typesFile Example.options = utilsFile Example.options)
                   then []
                   else [SImport
                           {| imp_moduleSpecifier :=
                                toModuleSpecifier Example.env (utilsFile Example.options)
                                  (typesFile Example.options);
                              imp_namedImports :=
                                c_name <$> filter isTypeCandidate
                                             (analyze Example.options
                                                (load Sample.mixedOrigin));
                              imp_text :=
                                typeImportText
                                  (c_name <$> filter isTypeCandidate
                                                (analyze Example.options
                                                   (load Sample.mixedOrigin)))
                                  (toModuleSpecifier Example.env
                                     (utilsFile Example.options)
                                     (typesFile Example.options)) |};
                         SOther ""])
               ++ stmts)
     ∧ Forall2 (λ c s, ∃ s0, Sample.mixedOrigin !! refId (c_node c) = Some s0
                             ∧ s = withText
                                     (Js.replaceLeadingDeclKeyword "export const"
                                        (getText s0)) s0)
         (filter (isUtilCandidate Example.options)
            (analyze Example.options (load Sample.mixedOrigin))) stmts)
  ∧ (∀ kw rest, kw ∈ ["const"; "let"; "var"] →
                Js.replaceLeadingDeclKeyword "export const" (kw +:+ rest)
                = "export const" +:+ rest)
  ∧ (∀ text, (∀ kw rest, kw ∈ ["const"; "let"; "var"] → text ≠ kw +:+ rest) →
             Js.replaceLeadingDeclKeyword "export const" text = text).
Proof.
  apply (utilities_file_imports_the_extracted_types Example.env Example.options
           Sample.mixedDisk
           (runOn (main Example.env Example.options) Sample.mixedDisk).2
           Sample.mixedOrigin).
  - vm_compute. reflexivity.
  - vm_compute. reflexivity.
  - vm_compute. discriminate.
  - vm_compute. discriminate.
Defined.

(** The utilities file of the witness as text, and the one file that a run
    with the same path for types and utilities leaves there. *)
Example utilities_file_text :
  getFullText
    <$> disk (runOn (main Example.env Example.options) Sample.mixedDisk).2
          !! utilsFile Example.options
  = Some (getFullText
            (utilsHeader
               ++ [SOther "import type { User } from './Dashboard.types';"; SOther "";
                   SOther "export const formatUser = (u: User) => { /* 11 lines */ };"]))
  ∧ getFullText
      <$> disk (runOn (main Example.env Sample.onePathOptions) Sample.mixedDisk).2
            !! utilsFile Sample.onePathOptions
    = Some (getFullText
              (utilsHeader
                 ++ [SOther "export const formatUser = (u: User) => { /* 11 lines */ };"])).
Proof. split; vm_compute; reflexivity. Qed.

(** ** Module specifiers and output paths *)

Section Paths.

Lemma lacks_app (c : ascii) (s1 s2 : string) :
  Cli.lacks c (s1 +:+ s2) ↔ Cli.lacks c s1 ∧ Cli.lacks c s2.
Proof.
  unfold Cli.lacks. induction s1 as [|c1 s1 IH].
  - change ("" +:+ s2) with s2. simpl. split; [|by intros [_ ?]].
    intros H. split; [apply not_elem_of_nil|done].
  - rewrite string_app_cons. simpl. rewrite !not_elem_of_cons, IH. tauto.
Qed.

Lemma lacks_substring (c : ascii) (n m : nat) (s : string) :
  Cli.lacks c s → Cli.lacks c (String.substring n m s).
Proof.
  unfold Cli.lacks. revert n m. induction s as [|c1 s IH]; intros n m Hs.
  - destruct n, m; simpl; apply not_elem_of_nil.
  - simpl in Hs. apply not_elem_of_cons in Hs as [Hc Hs].
    destruct n as [|n]; [destruct m as [|m]|]; simpl.
    + apply not_elem_of_nil.
    + apply not_elem_of_cons. split; [done|]. by apply IH.
    + by apply IH.
Qed.

Lemma lacks_backslashesToSlashes (s : string) :
  Cli.lacks Js.backslash (Js.backslashesToSlashes s).
Proof.
  unfold Cli.lacks. induction s as [|c s IH]; simpl; [apply not_elem_of_nil|].
  apply not_elem_of_cons. split; [|done].
  destruct (decide (c = Js.backslash)); [discriminate|congruence].
Qed.

Lemma lacks_stripSourceExtension (c : ascii) (s : string) :
  Cli.lacks c s → Cli.lacks c (Js.stripSourceExtension s).
Proof.
  intros Hs. unfold Js.stripSourceExtension, Js.dropEnd.
  repeat case_match; try done; by apply lacks_substring.
Qed.

Lemma expandReplacement_plain (before matched after r : string) :
  Cli.lacks Cli.dollar r → Cli.expandReplacement before matched after r = r.
Proof.
  unfold Cli.lacks. induction r as [|c r IH]; [done|]. simpl.
  intros [Hc Hr]%not_elem_of_cons.
  rewrite decide_False by congruence. by rewrite IH.
Qed.

Lemma replaceAtEnd_app (stem p r : string) :
  Cli.lacks Cli.dollar r →
  Cli.replaceAtEnd (String.length p) r (stem +:+ p) = stem +:+ r.
Proof.
  intros Hr. unfold Cli.replaceAtEnd. cbv zeta.
  by rewrite dropEnd_app, expandReplacement_plain.
Qed.

Lemma ts_is_not_tsx (stem : string) : Js.endsWith ".tsx" (stem +:+ ".ts") = false.
Proof.
  destruct (Js.endsWith ".tsx" (stem +:+ ".ts")) eqn:He; [|done].
  apply endsWith_iff in He as [t Ht].
  apply (f_equal String.rev) in Ht. rewrite !rev_app_distr in Ht.
  change (String.rev ".ts") with "st." in Ht.
  change (String.rev ".tsx") with "xst." in Ht.
  rewrite !string_app_cons in Ht. discriminate.
Qed.

Lemma lacks_dollar_types : Cli.lacks Cli.dollar ".types.ts".
Proof.
  unfold Cli.lacks. simpl. intros H.
  repeat (apply elem_of_cons in H as [H|H]; [discriminate|]). by apply elem_of_nil in H.
Qed.

Lemma lacks_dollar_utils : Cli.lacks Cli.dollar ".utils.ts".
Proof.
  unfold Cli.lacks. simpl. intros H.
  repeat (apply elem_of_cons in H as [H|H]; [discriminate|]). by apply elem_of_nil in H.
Qed.

(** The output path for a suffix without [$]. *)
Lemma resolveOutputPath_plain (f : string) :
  ∃ stem, (f = stem +:+ ".tsx" ∨ f = stem +:+ ".ts" ∨ f = stem)
          ∧ ∀ suffix, Cli.lacks Cli.dollar suffix →
                      Cli.resolveOutputPath f suffix = stem +:+ suffix.
Proof.
  unfold Cli.resolveOutputPath.
  destruct (Js.endsWith ".tsx" f) eqn:H1.
  - apply endsWith_iff in H1 as [stem ->]. exists stem.
    split; [by left|]. intros suffix Hs. by apply (replaceAtEnd_app stem ".tsx").
  - destruct (Js.endsWith ".ts" f) eqn:H2.
    + apply endsWith_iff in H2 as [stem ->]. exists stem.
      split; [right; by left|]. intros suffix Hs. by apply (replaceAtEnd_app stem ".ts").
    + exists f. split; [|done]. right. by right.
Qed.

Lemma string_app_neq (stem a b : string) : a ≠ b → stem +:+ a ≠ stem +:+ b.
Proof. intros Hne Heq. by apply String.app_inj in Heq. Qed.

Lemma string_app_neq_self (s a : string) : a ≠ "" → s +:+ a ≠ s.
Proof.
  intros Hne Heq. apply (f_equal String.length) in Heq.
  rewrite string_length_app in Heq. destruct a; [done|]. simpl in Heq. lia.
Qed.

End Paths.

(** The module specifier that the scripts write into import declarations
    starts with a dot and contains no backslash, whatever [path.relative]
    and [path.dirname] answer. *)
Theorem module_specifier_is_relative_and_posix (env : Environment)
    (fromFile toFile : string) :
  Js.startsWith "." (toModuleSpecifier env fromFile toFile) = true
  ∧ Cli.lacks Js.backslash (toModuleSpecifier env fromFile toFile).
Proof.
  unfold toModuleSpecifier.
  set (r := Js.stripSourceExtension _).
  assert (Hr : Cli.lacks Js.backslash r)
    by apply lacks_stripSourceExtension, lacks_backslashesToSlashes.
  destruct (Js.startsWith "." r) eqn:Hs; [done|]. split; [done|].
  apply lacks_app. split; [|done].
  unfold Cli.lacks. simpl. intros H.
  repeat (apply elem_of_cons in H as [H|H]; [discriminate|]). by apply elem_of_nil in H.
Qed.

(** [resolveOutputPath] with a suffix that contains no [$] replaces the
    extension [.tsx] or [.ts] of the input by the suffix, and appends the
    suffix to any other input. *)
Theorem output_path_replaces_the_extension (stem suffix : string) :
  Cli.lacks Cli.dollar suffix →
  Cli.resolveOutputPath (stem +:+ ".tsx") suffix = stem +:+ suffix
  ∧ Cli.resolveOutputPath (stem +:+ ".ts") suffix = stem +:+ suffix
  ∧ ∀ f, Js.endsWith ".tsx" f = false → Js.endsWith ".ts" f = false →
         Cli.resolveOutputPath f suffix = f +:+ suffix.
Proof.
  intros Hs. split_and!.
  - unfold Cli.resolveOutputPath.
    rewrite (proj2 (endsWith_iff ".tsx" (stem +:+ ".tsx"))) by by exists stem.
    by apply (replaceAtEnd_app stem ".tsx").
  - unfold Cli.resolveOutputPath. rewrite ts_is_not_tsx.
    rewrite (proj2 (endsWith_iff ".ts" (stem +:+ ".ts"))) by by exists stem.
    by apply (replaceAtEnd_app stem ".ts").
  - intros f H1 H2. unfold Cli.resolveOutputPath. by rewrite H1, H2.
Qed.

Lemma output_path_replaces_the_extension_witness :
  Cli.resolveOutputPath ("/app/Dashboard" +:+ ".tsx") ".types.ts"
  = "/app/Dashboard" +:+ ".types.ts"
  ∧ Cli.resolveOutputPath ("/app/Dashboard" +:+ ".ts") ".types.ts"
    = "/app/Dashboard" +:+ ".types.ts"
  ∧ ∀ f, Js.endsWith ".tsx" f = false → Js.endsWith ".ts" f = false →
         Cli.resolveOutputPath f ".types.ts" = f +:+ ".types.ts".
Proof.
  apply (output_path_replaces_the_extension "/app/Dashboard" ".types.ts").
  unfold Cli.lacks. simpl. intros H.
  repeat (apply elem_of_cons in H as [H|H]; [discriminate|]). by apply elem_of_nil in H.
Defined.

(** The default output paths of the scripts, [resolveOutputPath(f,
    '.types.ts')] and [resolveOutputPath(f, '.utils.ts')], differ from the
    input [f] and from each other, whatever [f] is. *)
Theorem default_output_paths_are_distinct (f : string) :
  Cli.resolveOutputPath f ".types.ts" ≠ f
  ∧ Cli.resolveOutputPath f ".utils.ts" ≠ f
  ∧ Cli.resolveOutputPath f ".types.ts" ≠ Cli.resolveOutputPath f ".utils.ts".
Proof.
  destruct (resolveOutputPath_plain f) as (stem & Hf & Hout).
  rewrite (Hout _ lacks_dollar_types), (Hout _ lacks_dollar_utils).
  split_and!.
  - destruct Hf as [-> | [-> | ->]];
      [by apply string_app_neq|by apply string_app_neq|by apply string_app_neq_self].
  - destruct Hf as [-> | [-> | ->]];
      [by apply string_app_neq|by apply string_app_neq|by apply string_app_neq_self].
  - by apply string_app_neq.
Qed.

(** ** The command line *)

Section CommandLine.
Import RefactorTsxCli.

Lemma parseArg_flag (f : ValueFlag) (next : option string) (result : CliArgs) :
  parseArg (flagText f) next result = (assign f next result, true).
Proof. by destruct f. Qed.

Lemma parseArg_help (short : bool) (next : option string) (result : CliArgs) :
  parseArg (if short then "-h" else "--help") next result
  = (applyItem result (ItemHelp short), false).
Proof. by destruct short. Qed.

Lemma parseArg_other (word : string) (next : option string) (result : CliArgs) :
  isFlag word = false → parseArg word next result = (result, false).
Proof.
  unfold isFlag. intros Hw%bool_decide_eq_false. unfold parseArg.
  repeat (case_decide as Heq;
          [exfalso; apply Hw; rewrite Heq; apply list_elem_of_In; simpl; tauto|clear Heq]).
  rewrite !bool_decide_eq_false_2; [done| |].
  - intros ->. apply Hw. apply list_elem_of_In. simpl. tauto.
  - intros ->. apply Hw. apply list_elem_of_In. simpl. tauto.
Qed.

(** The loop reads a command line item by item. *)
Lemma parseLoop_items (items : list CliItem) (rest : list string) (result : CliArgs) :
  Forall plainItem items →
  parseLoop parseArg ((items ≫= renderItem) ++ rest) result
  = parseLoop parseArg rest (foldl applyItem result items).
Proof.
  intros Hplain. revert result.
  induction Hplain as [|item items Hitem _ IH]; intros result; [done|].
  rewrite bind_cons, <- app_assoc. destruct item as [f value|short|word]; simpl.
  - rewrite decide_False by (by destruct f).
    by rewrite parseArg_flag, IH.
  - rewrite decide_False by (by destruct short).
    by rewrite parseArg_help, IH.
  - destruct (decide (word = "")) as [->|Hne]; [by rewrite IH|].
    by rewrite parseArg_other, IH.
Qed.

End CommandLine.

(** [parseArgs] reads a command line item by item, from left to right: an
    option takes the word behind it as its value, whatever that word is (an
    empty word, or a word that is itself an option); [--help] and [-h] set
    [help]; any other word is skipped; a later item overrides an earlier one.
    An option that is the last word of the command line stores [undefined],
    also when the option had a value before. *)
Theorem command_line_is_read_item_by_item (items : list RefactorTsxCli.CliItem) :
  Forall RefactorTsxCli.plainItem items →
  RefactorTsxCli.parseArgs (items ≫= RefactorTsxCli.renderItem)
  = foldl RefactorTsxCli.applyItem RefactorTsxCli.emptyArgs items
  ∧ ∀ f, RefactorTsxCli.parseArgs
           ((items ≫= RefactorTsxCli.renderItem) ++ [RefactorTsxCli.flagText f])
         = RefactorTsxCli.assign f None
             (foldl RefactorTsxCli.applyItem RefactorTsxCli.emptyArgs items).
Proof.
  intros Hplain. unfold RefactorTsxCli.parseArgs. split.
  - rewrite <- (app_nil_r (items ≫= RefactorTsxCli.renderItem)).
    by rewrite parseLoop_items.
  - intros f. rewrite parseLoop_items by done. simpl.
    rewrite decide_False by (by destruct f).
    by rewrite parseArg_flag.
Qed.

Lemma command_line_is_read_item_by_item_witness :
  RefactorTsxCli.parseArgs
    ([RefactorTsxCli.ItemOption RefactorTsxCli.FlagFile "--help";
      RefactorTsxCli.ItemOther "extra";
      RefactorTsxCli.ItemOption RefactorTsxCli.FlagMinFunctionLines "30";
      RefactorTsxCli.ItemOption RefactorTsxCli.FlagFile "src/App.tsx";
      RefactorTsxCli.ItemHelp true] ≫= RefactorTsxCli.renderItem)
  = foldl RefactorTsxCli.applyItem RefactorTsxCli.emptyArgs
      [RefactorTsxCli.ItemOption RefactorTsxCli.FlagFile "--help";
       RefactorTsxCli.ItemOther "extra";
       RefactorTsxCli.ItemOption RefactorTsxCli.FlagMinFunctionLines "30";
       RefactorTsxCli.ItemOption RefactorTsxCli.FlagFile "src/App.tsx";
       RefactorTsxCli.ItemHelp true]
  ∧ ∀ f, RefactorTsxCli.parseArgs
           (([RefactorTsxCli.ItemOption RefactorTsxCli.FlagFile "--help";
              RefactorTsxCli.ItemOther "extra";
              RefactorTsxCli.ItemOption RefactorTsxCli.FlagMinFunctionLines "30";
              RefactorTsxCli.ItemOption RefactorTsxCli.FlagFile "src/App.tsx";
              RefactorTsxCli.ItemHelp true] ≫= RefactorTsxCli.renderItem)
            ++ [RefactorTsxCli.flagText f])
         = RefactorTsxCli.assign f None
             (foldl RefactorTsxCli.applyItem RefactorTsxCli.emptyArgs
                [RefactorTsxCli.ItemOption RefactorTsxCli.FlagFile "--help";
                 RefactorTsxCli.ItemOther "extra";
                 RefactorTsxCli.ItemOption RefactorTsxCli.FlagMinFunctionLines "30";
                 RefactorTsxCli.ItemOption RefactorTsxCli.FlagFile "src/App.tsx";
                 RefactorTsxCli.ItemHelp true]).
Proof.
  apply (command_line_is_read_item_by_item
           [RefactorTsxCli.ItemOption RefactorTsxCli.FlagFile "--help";
            RefactorTsxCli.ItemOther "extra";
            RefactorTsxCli.ItemOption RefactorTsxCli.FlagMinFunctionLines "30";
            RefactorTsxCli.ItemOption RefactorTsxCli.FlagFile "src/App.tsx";
            RefactorTsxCli.ItemHelp true]).
  repeat constructor.
Defined.

(** ** The report *)

Section ReportLemmas.
Import Report.

Lemma firstOccurrences_elem (x : CandidateType) (l : list CandidateType) :
  x ∈ firstOccurrences l ↔ x ∈ l.
Proof.
  induction l as [|y l IH]; [done|]. simpl.
  rewrite !elem_of_cons, list_elem_of_filter, IH.
  destruct (decide (x = y)); naive_solver.
Qed.

Lemma firstOccurrences_NoDup (l : list CandidateType) : NoDup (firstOccurrences l).
Proof.
  induction l as [|y l IH]; simpl; constructor.
  - rewrite list_elem_of_filter. naive_solver.
  - by apply NoDup_filter.
Qed.

Lemma firstOccurrences_snoc (l : list CandidateType) (t : CandidateType) :
  firstOccurrences (l ++ [t])
  = if decide (t ∈ l) then firstOccurrences l else firstOccurrences l ++ [t].
Proof.
  induction l as [|x l IH].
  - by destruct (decide (t ∈ [])) as [?%elem_of_nil|].
  - change (firstOccurrences ((x :: l) ++ [t]))
      with (x :: filter (λ y, y ≠ x) (firstOccurrences (l ++ [t]))).
    change (firstOccurrences (x :: l))
      with (x :: filter (λ y, y ≠ x) (firstOccurrences l)).
    rewrite IH. destruct (decide (t ∈ l)) as [Hin|Hin].
    + rewrite decide_True by (apply elem_of_cons; by right). done.
    + rewrite filter_app. destruct (decide (t = x)) as [->|Hne].
      * rewrite decide_True by (apply elem_of_cons; by left).
        rewrite filter_cons_False by naive_solver. by rewrite app_nil_r.
      * rewrite decide_False by (rewrite elem_of_cons; naive_solver).
        by rewrite filter_cons_True.
Qed.

Local Abbreviation ofType l :=
  (λ t : CandidateType, (t, filter (λ c : ExtractionCandidate, c_type c = t) l)).

Lemma pushTo_keys (c : ExtractionCandidate) (l : list ExtractionCandidate)
    (ks : list CandidateType) :
  NoDup ks →
  pushTo c (ofType l <$> ks)
  = if decide (c_type c ∈ ks) then ofType (l ++ [c]) <$> ks
    else (ofType (l ++ [c]) <$> ks) ++ [(c_type c, [c])].
Proof.
  induction 1 as [|k ks Hk Hnd IH].
  - by destruct (decide (c_type c ∈ [])) as [?%elem_of_nil|].
  - rewrite !fmap_cons. cbn [pushTo].
    destruct (decide (k = c_type c)) as [->|Hne].
    + rewrite decide_True by (apply elem_of_cons; by left).
      rewrite filter_app, filter_cons_True by done. f_equal.
      apply Forall_fmap_ext_1, Forall_forall. intros t Ht.
      rewrite filter_app, filter_cons_False, app_nil_r; [done|].
      simpl. intros <-. done.
    + rewrite IH. rewrite filter_app, filter_cons_False, app_nil_r by (simpl; congruence).
      destruct (decide (c_type c ∈ ks)) as [Hin|Hin].
      * rewrite decide_True by (apply elem_of_cons; by right). done.
      * rewrite decide_False by (rewrite elem_of_cons; naive_solver). done.
Qed.

(** The groups: one per type, in the order of first occurrence, each with
    the candidates of its type in their order. *)
Lemma grouped_eq (candidates : list ExtractionCandidate) :
  grouped candidates = ofType candidates <$> firstOccurrences (c_type <$> candidates).
Proof.
  induction candidates as [|c l IH] using rev_ind; [done|].
  unfold grouped in *. rewrite foldl_app. simpl. rewrite IH.
  rewrite pushTo_keys by apply firstOccurrences_NoDup.
  rewrite fmap_app. simpl. rewrite firstOccurrences_snoc.
  rewrite (decide_ext (c_type c ∈ firstOccurrences (c_type <$> l))
             (c_type c ∈ c_type <$> l)) by apply firstOccurrences_elem.
  destruct (decide (c_type c ∈ c_type <$> l)) as [Hin|Hin]; [done|].
  rewrite fmap_app. simpl. do 2 f_equal.
  rewrite filter_app, filter_cons_True by done.
  rewrite (filter_nil_forall _ l); [done|].
  intros x Hx Heq. apply Hin. rewrite <- Heq. by apply list_elem_of_fmap_2.
Qed.

Lemma insertByLines_perm (a : ExtractionCandidate) (sorted : list ExtractionCandidate) :
  insertByLines a sorted ≡ₚ a :: sorted.
Proof.
  induction sorted as [|b r IH]; [done|]. simpl.
  case_bool_decide; [|done]. rewrite IH. apply Permutation_swap.
Qed.

Lemma sortByLines_perm (items : list ExtractionCandidate) : sortByLines items ≡ₚ items.
Proof.
  induction items as [|a r IH]; [done|]. unfold sortByLines in *. simpl.
  by rewrite insertByLines_perm, IH.
Qed.

Local Abbreviation notSmaller :=
  (λ a b : ExtractionCandidate, c_lineCount a >= c_lineCount b).

Lemma insertByLines_sorted (a : ExtractionCandidate) (sorted : list ExtractionCandidate) :
  StronglySorted notSmaller sorted → StronglySorted notSmaller (insertByLines a sorted).
Proof.
  induction 1 as [|b r Hr IH Hb]; simpl.
  - by repeat constructor.
  - case_bool_decide as Hcmp.
    + constructor; [done|]. rewrite insertByLines_perm. constructor; [lia|done].
    + constructor; [by constructor|]. constructor; [lia|].
      eapply Forall_impl; [exact Hb|]. simpl. intros x Hx. lia.
Qed.

Lemma sortByLines_sorted (items : list ExtractionCandidate) :
  StronglySorted notSmaller (sortByLines items).
Proof.
  induction items as [|a r IH]; [constructor|]. by apply insertByLines_sorted.
Qed.

(** The sort is stable: candidates of one size keep their order. *)
Lemma insertByLines_stable (k : Z) (a : ExtractionCandidate)
    (sorted : list ExtractionCandidate) :
  filter (λ c, c_lineCount c = k) (insertByLines a sorted)
  = filter (λ c, c_lineCount c = k) (a :: sorted).
Proof.
  induction sorted as [|b r IH]; [done|]. simpl.
  case_bool_decide as Hcmp; [|done].
  rewrite (filter_cons _ b), IH, !filter_cons.
  destruct (decide (c_lineCount b = k)), (decide (c_lineCount a = k)); try done. lia.
Qed.

Lemma sortByLines_stable (k : Z) (items : list ExtractionCandidate) :
  filter (λ c, c_lineCount c = k) (sortByLines items)
  = filter (λ c, c_lineCount c = k) items.
Proof.
  induction items as [|a r IH]; [done|]. unfold sortByLines in *. simpl.
  by rewrite insertByLines_stable, !filter_cons, IH.
Qed.

Lemma totalLines_sum (candidates : list ExtractionCandidate) :
  totalLines candidates = foldr Z.add 0 (c_lineCount <$> candidates).
Proof.
  unfold totalLines.
  assert (∀ z, foldl (λ sum c, sum + c_lineCount c) z candidates
               = z + foldr Z.add 0 (c_lineCount <$> candidates)) as Hgen.
  { induction candidates as [|c l IH]; intros z.
    - rewrite fmap_nil. simpl. lia.
    - rewrite fmap_cons. simpl. rewrite IH. lia. }
  by rewrite Hgen.
Qed.

Lemma filter_disjoint_app {A} (P Q : A → Prop) `{!∀ x, Decision (P x)}
    `{!∀ x, Decision (Q x)} (l : list A) :
  (∀ x, P x → Q x → False) →
  filter P l ++ filter Q l ≡ₚ filter (λ x, P x ∨ Q x) l.
Proof.
  intros Hdis. induction l as [|x l IH]; [done|]. rewrite !filter_cons.
  destruct (decide (P x)) as [HP|HP], (decide (Q x)) as [HQ|HQ].
  - by destruct (Hdis x).
  - rewrite decide_True by by left. simpl. by rewrite IH.
  - rewrite decide_True by by right. rewrite <- Permutation_middle. by rewrite IH.
  - rewrite decide_False by tauto. done.
Qed.

Lemma groups_cover (ks : list CandidateType) (l : list ExtractionCandidate) :
  NoDup ks →
  (ks ≫= λ t, filter (λ c, c_type c = t) l) ≡ₚ filter (λ c, c_type c ∈ ks) l.
Proof.
  induction 1 as [|k ks Hk Hnd IH]; simpl.
  - rewrite filter_nil_forall; [done|]. intros x _. apply not_elem_of_nil.
  - rewrite IH. rewrite filter_disjoint_app by (intros x <- Hx; done).
    apply Permutation_refl'. apply filter_ext_elem. intros x _.
    rewrite elem_of_cons. naive_solver.
Qed.

(** The lines of the candidates in the report. *)
Lemma shown_itemLines (items : list ExtractionCandidate) :
  ((itemLine <$> items) ≫= shown) = (λ c, (c_name c, c_lineCount c)) <$> items.
Proof.
  induction items as [|c r IH]; [done|].
  rewrite !fmap_cons, bind_cons, IH. done.
Qed.

Lemma shown_generateReport (candidates : list ExtractionCandidate) :
  (generateReport candidates ≫= shown)
  = reportGroups candidates ≫= λ g, (λ c, (c_name c, c_lineCount c)) <$> g.2.
Proof.
  unfold generateReport. rewrite !bind_app.
  change ([TitleLine; RuleLine] ≫= shown) with (@nil (string * Z)).
  change ([TotalLine (totalLines candidates)] ≫= shown) with (@nil (string * Z)).
  rewrite app_nil_l, app_nil_r.
  induction (reportGroups candidates) as [|g gs IH]; [done|].
  rewrite !bind_cons, bind_app, IH. f_equal.
  rewrite bind_cons, shown_itemLines. done.
Qed.

End ReportLemmas.

(** The report of [generateReport] has one group per type that occurs
    among the candidates, in the order in which the types first occur; the
    group of a type holds exactly the candidates of that type, the larger
    line counts first, candidates of one line count in the order of the
    analysis; every candidate is shown on exactly one line; and the total is
    the sum of the line counts. *)
Theorem report_shows_every_candidate_once (candidates : list ExtractionCandidate) :
  fst <$> Report.reportGroups candidates
  = Report.firstOccurrences (c_type <$> candidates)
  ∧ (∀ type items, (type, items) ∈ Report.reportGroups candidates →
       items ≡ₚ filter (λ c, c_type c = type) candidates
       ∧ StronglySorted (λ a b, c_lineCount a >= c_lineCount b) items
       ∧ ∀ k, filter (λ c, c_lineCount c = k) items
              = filter (λ c, c_lineCount c = k)
                  (filter (λ c, c_type c = type) candidates))
  ∧ (Report.generateReport candidates ≫= Report.shown)
    ≡ₚ (λ c, (c_name c, c_lineCount c)) <$> candidates
  ∧ Report.totalLines candidates = foldr Z.add 0 (c_lineCount <$> candidates).
Proof.
  unfold Report.reportGroups. rewrite grouped_eq. split_and!.
  - rewrite <- !list_fmap_compose.
    rewrite <- (list_fmap_id (Report.firstOccurrences _)) at 2.
    by apply Forall_fmap_ext_1, Forall_forall.
  - intros type items Hin.
    apply list_elem_of_fmap in Hin as ([t l] & Heq & Hin).
    apply list_elem_of_fmap in Hin as (t' & Heq' & _). simpl in *. simplify_eq.
    split_and!.
    + apply sortByLines_perm.
    + apply sortByLines_sorted.
    + intros k. apply sortByLines_stable.
  - rewrite shown_generateReport. unfold Report.reportGroups. rewrite grouped_eq.
    rewrite <- list_fmap_compose.
    transitivity ((λ c, (c_name c, c_lineCount c))
                    <$> (Report.firstOccurrences (c_type <$> candidates)
                           ≫= λ t, filter (λ c, c_type c = t) candidates)).
    + induction (Report.firstOccurrences (c_type <$> candidates)) as [|t ts IH]; [done|].
      rewrite fmap_cons, !bind_cons, fmap_app, IH. simpl.
      by rewrite sortByLines_perm.
    + rewrite groups_cover by apply firstOccurrences_NoDup.
      rewrite filter_all; [done|]. intros c Hc.
      apply firstOccurrences_elem. by apply list_elem_of_fmap_2.
  - apply totalLines_sum.
Qed.

(** ** Which declarations the nested pass extracts *)

Section NestedSelection.
Import RefactorTsxPass2.
Variable env : Environment.
Variable options : Pass2Options.

Local Abbreviation target := (targetFile options).
Local Abbreviation utils := (utilsFile options).
Local Abbreviation pattern := (helperNamePattern options).
Local Abbreviation helpers statements := (collectHelpers pattern statements).

Lemma declared_name_elem (statements : list BlockStatement) (text : string)
    (declarations : list NestedDeclaration) (decl : NestedDeclaration) :
  NestedVariableStatement text declarations ∈ statements → decl ∈ declarations →
  nd_name decl ∈ nestedDeclaredNames statements.
Proof.
  intros Hs Hd. unfold nestedDeclaredNames. apply list_elem_of_bind.
  exists (NestedVariableStatement text declarations). split; [|done].
  by apply list_elem_of_fmap_2.
Qed.

(** In a body that declares no name twice, a name belongs to one
    declaration of one statement. *)
Lemma declared_once (statements : list BlockStatement) (t1 t2 : string)
    (ds1 ds2 : list NestedDeclaration) (d1 d2 : NestedDeclaration) :
  NoDup (nestedDeclaredNames statements) →
  NestedVariableStatement t1 ds1 ∈ statements → d1 ∈ ds1 →
  NestedVariableStatement t2 ds2 ∈ statements → d2 ∈ ds2 →
  nd_name d1 = nd_name d2 →
  t1 = t2 ∧ ds1 = ds2 ∧ d1 = d2.
Proof.
  induction statements as [|s r IH]; [by intros _ ?%elem_of_nil|].
  unfold nestedDeclaredNames. rewrite bind_cons.
  intros (Hs & Hdisj & Hr)%NoDup_app H1 Hd1 H2 Hd2 Hname.
  apply elem_of_cons in H1 as [E1|H1]; apply elem_of_cons in H2 as [E2|H2];
    simplify_eq; simpl in *.
  - split_and!; [done..|]. by apply (NoDup_fmap_eq nd_name ds1).
  - exfalso. apply (Hdisj (nd_name d1)); [by apply list_elem_of_fmap_2|].
    rewrite Hname. by eapply declared_name_elem.
  - exfalso. apply (Hdisj (nd_name d2)); [by apply list_elem_of_fmap_2|].
    rewrite <- Hname. by eapply declared_name_elem.
  - by apply IH.
Qed.

(** The list of helpers holds a declaration exactly when it is an arrow
    function with a matching name. *)
Lemma helper_written_iff (statements : list BlockStatement) (text : string)
    (declarations : list NestedDeclaration) (decl : NestedDeclaration) :
  NoDup (nestedDeclaredNames statements) →
  NestedVariableStatement text declarations ∈ statements → decl ∈ declarations →
  isHelperDeclaration pattern decl = true
  ↔ {| h_name := nd_name decl; h_text := text |} ∈ helpers statements.
Proof.
  intros Hnd Hs Hd. unfold isHelperDeclaration. rewrite andb_true_iff, collectHelpers_elem.
  split.
  - intros [Ha Hp]. by exists declarations, decl.
  - intros (ds' & decl' & Hs' & Hd' & Hn & Ha & Hp). simpl in *.
    destruct (declared_once statements text text ds' declarations decl' decl
                Hnd Hs' Hd' Hs Hd Hn) as (_ & _ & ->). done.
Qed.

(** The second loop removes by name; where no name is declared twice this
    is removal of the statements with a selected declaration. *)
Lemma declaresAny_helper (statements : list BlockStatement) (s : BlockStatement) :
  NoDup (nestedDeclaredNames statements) → s ∈ statements →
  declaresAny (h_name <$> helpers statements) s = declaresHelper pattern s.
Proof.
  intros Hnd Hs. destruct s as [text declarations|text]; [|done]. simpl.
  destruct (existsb (isHelperDeclaration pattern) declarations) eqn:E1;
    destruct (existsb _ declarations) eqn:E2 in |- *; try done; exfalso.
  - apply existsb_exists in E1 as (decl & Hd%list_elem_of_In & Hsel).
    apply andb_true_iff in Hsel as [Ha Hp].
    apply not_true_iff_false in E2. apply E2, existsb_exists.
    exists decl. split; [by apply list_elem_of_In|].
    apply bool_decide_eq_true_2, list_elem_of_fmap.
    exists {| h_name := nd_name decl; h_text := text |}. split; [done|].
    apply collectHelpers_elem. by exists declarations, decl.
  - apply existsb_exists in E2 as (decl & Hd%list_elem_of_In & Hin).
    apply bool_decide_eq_true_1, list_elem_of_fmap in Hin as (h & Hn & Hh).
    apply collectHelpers_elem in Hh as (ds' & decl' & Hs' & Hd' & Hn' & Ha & Hp).
    destruct (declared_once statements _ _ ds' declarations decl' decl
                Hnd Hs' Hd' Hs Hd) as (_ & _ & ->); [congruence|].
    apply not_true_iff_false in E1. apply E1, existsb_exists.
    exists decl. split; [by apply list_elem_of_In|].
    unfold isHelperDeclaration. by rewrite Ha, Hp.
Qed.

(** A completed run that selected helpers has written the utilities file. *)
Lemma main2_Ok_writable (d : gmap string (list Statement)) (w' : World)
    (l0 : list Statement) (id index : nat) (f : ArrowFunction)
    (statements : list BlockStatement) :
  runOn (main env options) d = (Ok tt, w') →
  d !! target = Some l0 →
  findComponent (load l0) = Some (id, index, f) →
  af_body f = Block statements →
  helpers statements ≠ [] →
  utils ≠ target →
  fsWritable env utils = true.
Proof.
  unfold runOn, main. intros H Hd Hc Hb Hh Hne.
  destruct (newTSXRefactorer2_Ok env options d l0 Hd) as (w1 & H1 & Hd1 & Hp1 & _).
  unfold bind at 1 in H. rewrite H1 in H.
  apply bind_Ok_inv in H as ([] & w2 & H2 & H3).
  rewrite (extractHelperFunctions_exact env options w1 _ _ _ _ _ Hp1 Hc Hb Hh Hne) in H2.
  by destruct (fsWritable env utils).
Qed.

(** What a completed run has extracted, in a body that declares no name
    twice. *)
Lemma main2_extracted (d : gmap string (list Statement)) (w' : World)
    (l0 : list Statement) (id index : nat) (f : ArrowFunction)
    (statements : list BlockStatement) :
  runOn (main env options) d = (Ok tt, w') →
  d !! target = Some l0 →
  findComponent (load l0) = Some (id, index, f) →
  af_body f = Block statements →
  utils ≠ target →
  NoDup (nestedDeclaredNames statements) →
  ∃ l1,
    disk w' !! target = Some l1
    ∧ componentBody l1
      = Some (Block (filter (λ s, declaresHelper pattern s = false) statements))
    ∧ disk w' !! utils
      = (if decide (helpers statements = []) then d !! utils
         else Some [SOther
                      (match (filter (λ kv, tsconfigIncludes env kv.1 = true) d)
                             !! utils with
                       | Some old => getFullText old
                       | None => ""
                       end
                       +:+ Js.newline
                       +:+ Js.join (Js.newline +:+ Js.newline)
                             (exportedHelperText <$> helpers statements))])
    ∧ ∀ name, name ∈ h_name <$> helpers statements → name ∈ importedNames l1.
Proof.
  intros Hrun Hd Hc Hb Hne Hnd.
  assert (filter (λ s, declaresAny (h_name <$> helpers statements) s = false) statements
          = filter (λ s, declaresHelper pattern s = false) statements) as Hfilter.
  { apply filter_ext_elem. intros s Hs. by rewrite (declaresAny_helper statements s). }
  destruct (decide (helpers statements = [])) as [Hh|Hh].
  - destruct (main2_nothing env options d l0 Hd) as (r & w'' & Hrun' & Hdisk & _).
    { unfold componentBody. rewrite Hc, Hb. intros statements' Heq.
      by injection Heq as <-. }
    assert (w'' = w') as -> by congruence.
    exists l0. rewrite Hdisk. split; [done|]. split; [|split].
    + unfold componentBody. rewrite Hc, Hb. do 2 f_equal.
      rewrite <- Hfilter, Hh. symmetry. apply filter_all.
      intros [text declarations|text] _; [|done]. simpl.
      apply not_true_iff_false. intros (decl & _ & Hin)%existsb_exists.
      by apply bool_decide_eq_true_1, elem_of_nil in Hin.
    + done.
    + rewrite Hh. intros name Hn. by apply elem_of_nil in Hn.
  - destruct (main2_completed env options d w' l0 id index f statements
                Hrun Hd Hc Hb Hh Hne) as (l1 & Hl1 & _ & Hbody & Himp & _).
    exists l1. split; [done|]. split; [|split; [|done]].
    + by rewrite Hbody, Hfilter.
    + pose proof (main2_Ok_writable d w' l0 id index f statements
                    Hrun Hd Hc Hb Hh Hne) as Hw.
      destruct (main_utils env options d l0 id index f statements Hd Hc Hb Hh Hne Hw)
        as (r & w'' & Hrun' & Hu).
      by assert (w'' = w') as -> by congruence.
Qed.

End NestedSelection.

(** C9, as amended.  In a completed run of the nested pass on a component
    whose body declares no name twice, the statements that leave the body
    are those with a declaration that is an arrow function with a name that
    matches the pattern; no line count is consulted.  A statement that
    declares one variable is extracted (it is no longer in the body, its
    text is among the helpers written in exported form to the utilities
    file, and its name is imported into the origin) if and only if that
    variable is an arrow function with a matching name.  When nothing is
    selected the utilities file is left as it was. *)
Theorem nested_extraction_by_arrow_and_pattern
    (env : Environment) (options : RefactorTsxPass2.Pass2Options)
    (d : gmap string (list Statement)) (w' : World)
    (l0 : list Statement) (id index : nat) (f : ArrowFunction)
    (statements : list BlockStatement) :
  runOn (RefactorTsxPass2.main env options) d = (Ok tt, w') →
  d !! RefactorTsxPass2.targetFile options = Some l0 →
  RefactorTsxPass2.findComponent (load l0) = Some (id, index, f) →
  af_body f = Block statements →
  RefactorTsxPass2.utilsFile options ≠ RefactorTsxPass2.targetFile options →
  NoDup (nestedDeclaredNames statements) →
  ∃ l1 body1 written,
    disk w' !! RefactorTsxPass2.targetFile options = Some l1
    ∧ RefactorTsxPass2.componentBody l1 = Some (Block body1)
    ∧ body1
      = filter (λ s, declaresHelper (RefactorTsxPass2.helperNamePattern options) s = false)
          statements
    ∧ written
      = RefactorTsxPass2.collectHelpers (RefactorTsxPass2.helperNamePattern options)
          statements
    ∧ disk w' !! RefactorTsxPass2.utilsFile options
      = (if decide (written = []) then d !! RefactorTsxPass2.utilsFile options
         else Some [SOther
                      (match (filter (λ kv, tsconfigIncludes env kv.1 = true) d)
                             !! RefactorTsxPass2.utilsFile options with
                       | Some old => getFullText old
                       | None => ""
                       end
                       +:+ Js.newline
                       +:+ Js.join (Js.newline +:+ Js.newline)
                             (RefactorTsxPass2.exportedHelperText <$> written))])
    ∧ ∀ text decl,
        NestedVariableStatement text [decl] ∈ statements →
        (isHelperDeclaration (RefactorTsxPass2.helperNamePattern options) decl = true
         ↔ NestedVariableStatement text [decl] ∉ body1)
        ∧ (isHelperDeclaration (RefactorTsxPass2.helperNamePattern options) decl = true
           ↔ {| RefactorTsxPass2.h_name := nd_name decl;
                RefactorTsxPass2.h_text := text |} ∈ written)
        ∧ (isHelperDeclaration (RefactorTsxPass2.helperNamePattern options) decl = true
           → nd_name decl ∈ importedNames l1
             ∧ ∀ kw rest, kw ∈ ["const"; "let"; "var"] → text = kw +:+ rest →
                          RefactorTsxPass2.exportedHelperText
                            {| RefactorTsxPass2.h_name := nd_name decl;
                               RefactorTsxPass2.h_text := text |}
                          = "export const" +:+ rest).
Proof.
  intros Hrun Hd Hc Hb Hne Hnd.
  destruct (main2_extracted env options d w' l0 id index f statements
              Hrun Hd Hc Hb Hne Hnd) as (l1 & Hl1 & Hbody & Hutils & Himp).
  eexists l1, _, _. split_and!; [done|done|reflexivity|reflexivity|done|].
  intros text decl Hs.
  pose proof (helper_written_iff options statements text [decl] decl Hnd Hs
                ltac:(apply list_elem_of_here)) as Hw.
  split_and!; [|done|].
  - rewrite list_elem_of_filter. simpl. rewrite orb_false_r.
    destruct (isHelperDeclaration _ decl); naive_solver.
  - intros Hsel. split.
    + apply Himp, list_elem_of_fmap.
      exists {| RefactorTsxPass2.h_name := nd_name decl;
                RefactorTsxPass2.h_text := text |}.
      split; [done|]. by apply Hw.
    + intros kw rest Hkw ->.
      by apply (exportedHelperText_keyword _ "" kw rest).
Qed.

Lemma nested_extraction_by_arrow_and_pattern_witness :
  ∃ l1 body1 written,
    disk (runOn (RefactorTsxPass2.main Example.envBare Example.pass2Options)
            Example.componentDisk).2
      !! RefactorTsxPass2.targetFile Example.pass2Options = Some l1
    ∧ RefactorTsxPass2.componentBody l1 = Some (Block body1)
    ∧ body1
      = filter (λ s, declaresHelper
                       (RefactorTsxPass2.helperNamePattern Example.pass2Options) s
                     = false)
          Example.threeHelpers
    ∧ written
      = RefactorTsxPass2.collectHelpers
          (RefactorTsxPass2.helperNamePattern Example.pass2Options) Example.threeHelpers
    ∧ disk (runOn (RefactorTsxPass2.main Example.envBare Example.pass2Options)
              Example.componentDisk).2
        !! RefactorTsxPass2.utilsFile Example.pass2Options
      = (if decide (written = [])
         then Example.componentDisk !! RefactorTsxPass2.utilsFile Example.pass2Options
         else Some [SOther
                      (match (filter (λ kv, tsconfigIncludes Example.envBare kv.1 = true)
                                Example.componentDisk)
                             !! RefactorTsxPass2.utilsFile Example.pass2Options with
                       | Some old => getFullText old
                       | None => ""
                       end
                       +:+ Js.newline
                       +:+ Js.join (Js.newline +:+ Js.newline)
                             (RefactorTsxPass2.exportedHelperText <$> written))])
    ∧ ∀ text decl,
        NestedVariableStatement text [decl] ∈ Example.threeHelpers →
        (isHelperDeclaration
           (RefactorTsxPass2.helperNamePattern Example.pass2Options) decl = true
         ↔ NestedVariableStatement text [decl] ∉ body1)
        ∧ (isHelperDeclaration
             (RefactorTsxPass2.helperNamePattern Example.pass2Options) decl = true
           ↔ {| RefactorTsxPass2.h_name := nd_name decl;
                RefactorTsxPass2.h_text := text |} ∈ written)
        ∧ (isHelperDeclaration
             (RefactorTsxPass2.helperNamePattern Example.pass2Options) decl = true
           → nd_name decl ∈ importedNames l1
             ∧ ∀ kw rest, kw ∈ ["const"; "let"; "var"] → text = kw +:+ rest →
                          RefactorTsxPass2.exportedHelperText
                            {| RefactorTsxPass2.h_name := nd_name decl;
                               RefactorTsxPass2.h_text := text |}
                          = "export const" +:+ rest).
Proof.
  eapply (nested_extraction_by_arrow_and_pattern Example.envBare Example.pass2Options
            Example.componentDisk
            (runOn (RefactorTsxPass2.main Example.envBare Example.pass2Options)
               Example.componentDisk).2
            [Example.component Example.threeHelpers]).
  - vm_compute. reflexivity.
  - vm_compute. reflexivity.
  - vm_compute. reflexivity.
  - reflexivity.
  - vm_compute. discriminate.
  - apply (bool_decide_unpack _). vm_compute. exact I.
Defined.

(** The scenario of the claim, run: with the pattern [^(validate|get)] the
    arrow functions [validateForm] and [getRoleBadgeColor] are written to the
    utilities file and imported, and [unrelatedHelper] is the one statement
    left in the body. *)
Example nested_scenario :
  let r := runOn (RefactorTsxPass2.main Example.envBare Example.pass2Options)
             Example.componentDisk in
  r.1 = Ok tt
  ∧ (RefactorTsxPass2.componentBody
       <$> disk r.2 !! RefactorTsxPass2.targetFile Example.pass2Options)
    = Some (Some (Block [Example.nestedConst "const unrelatedHelper = () => 0;"
                           "unrelatedHelper" true]))
  ∧ (importedNames <$> disk r.2 !! RefactorTsxPass2.targetFile Example.pass2Options)
    = Some ["validateForm"; "getRoleBadgeColor"]
  ∧ disk r.2 !! RefactorTsxPass2.utilsFile Example.pass2Options
    = Some [SOther
              (Js.newline
               +:+ "export const validateForm = (data: FormData) => { return data.name !== ''; };"
               +:+ Js.newline +:+ Js.newline
               +:+ "export const getRoleBadgeColor = (role: string) => '#95a5a6';")].
Proof. split_and!; vm_compute; reflexivity. Qed.

(** The claim as stated fails: a name that matches the pattern is not
    enough.  [const getCount = 5] is declared in the body of the component
    and matches [^(validate|get)], but its initializer is no arrow function:
    the run completes, the declaration is still in the body, and no
    utilities file is written. *)
Lemma matching_name_is_not_sufficient :
  let d : gmap string (list Statement) :=
    {[ "/app/Dashboard.tsx" := [Example.component Example.countBody] ]} in
  let r := runOn (RefactorTsxPass2.main Example.env Example.pass2Options) d in
  RefactorTsxPass2.helperNamePattern Example.pass2Options "getCount" = true
  ∧ "getCount" ∈ nestedDeclaredNames Example.countBody
  ∧ r.1 = Ok tt
  ∧ (RefactorTsxPass2.componentBody
       <$> disk r.2 !! RefactorTsxPass2.targetFile Example.pass2Options)
    = Some (Some (Block Example.countBody))
  ∧ disk r.2 !! RefactorTsxPass2.utilsFile Example.pass2Options = None.
Proof.
  split_and!; [reflexivity| |vm_compute; reflexivity..].
  change ("getCount" ∈ ["getCount"]). apply list_elem_of_here.
Qed.

(** ** What the passes write to a target that already exists: the run *)

Section Pass1Types.
Variable env : Environment.
Variable options : RefactorOptions.

Local Abbreviation target := (targetFile options).
Local Abbreviation typeCandidates cands := (filter isTypeCandidate cands).





End Pass1Types.



(** The two files of the witness, as they are written. *)
Example targets_of_the_witness :
  disk (runOn (RefactorTsxPass2.main Example.env Example.pass2Options)
          Example.componentAndUtilsDisk).2
    !! RefactorTsxPass2.utilsFile Example.pass2Options
  = Some [SOther
            (getFullText
               (RefactorTsx.utilsHeader
                  ++ [Example.constStatement
                        "export const formatDate = (d: Date) => d.toISOString();"
                        [Example.declaration "formatDate" 6 6
                           (Example.arrow "string" ConciseBody)]])
             +:+ Js.newline
             +:+ "export const validateForm = (data: FormData) => { return data.name !== ''; };"
             +:+ Js.newline +:+ Js.newline
             +:+ "export const getRoleBadgeColor = (role: string) => '#95a5a6';")]
  ∧ disk (runOn (main Example.env Example.options) Example.settingsDisk).2
      !! typesFile Example.options
    = Some (typesHeader
              ++ [Example.interfaceDeclaration "Settings"
                    "export interface Settings { theme: string }"]).
Proof. split; vm_compute; reflexivity. Qed.

